(* ===== verification/_CoqProject ===== *)
-Q . S2P
Prelude.v
Machine.v
Exec.v
Isa.v
Decoder.v
Refine.v
IsaProps.v
Sim.v
EmulProps.v
EmulTheorems.v
GoStr.v
Text.v
Dsm.v
DsmTheorems.v
DsmLines.v
DsmMain.v
AsmRules.v
Reassemble.v
AsmSource.v
AsmEmul.v
AsmRun.v
Itf.v
AsmScript.v
ItfWorld.v
ItfTheorems.v
EmulDump.v
EmulRun.v
Yapl.v
YaplSym.v
YaplLex.v
YaplParse.v
YaplTheorems.v
Cex.v
CexVec.v
CexTheorems.v
CexSession.v
CexMain.v
CexRun.v
CexBench.v
CexFaults.v
Lex.v
LexProps.v
LexGrammar.v
Asm.v
AsmProps.v
AsmRef.v
Yapl0.v
AsmTheorems.v
AsmMain.v
Yapl0Theorems.v
BinLog.v
BinLogProps.v
Circuit.v
CircuitProps.v
CircuitEval.v
CircuitSync.v
CircuitBuild.v
CircuitTheorems.v
