(* ===== verification/Prelude.v ===== *)
(** * WUT-4: a verification development

    WUT-4 is a 16-bit computer with its tools. This library models the Go
    programs of the repository that carry its logic and proves what makes them
    correct. The programs share files, not memory: the assembler rules under
    [src/asm] turn a source text into a binary, [emul] executes a pair of
    binaries (kernel and user), [dsm] prints a binary as text, [yapl-1] is the
    first pass of a compiler, and [exer/cex] drives the test bench of the ALU
    boards over a serial line; [src/SAVE] keeps an assembler, a logic
    simulator and a lexer that these replace. The instruction set is what
    [emul], [dsm] and the assembler rules have in common, and the theorems on
    them refer to one specification of it.

    ** Semantics of Go (Prelude)

    A [uintN] is a [Z] in [0, 2^N) and each operation wraps where Go wraps
    ([u8], [u16], [u32], [u64]). A function that changes state is a
    computation of the monad [M S A := S -> res (A * S)]: state passing, with
    [Panic] for a run-time panic (an index out of range, a failed assertion, a
    nil pointer, an exit). Go errors that the code returns are ordinary
    values, a sum or an error code. [wp] and [wlp] are the weakest
    preconditions with and without absence of panics ([wpe] is the form from
    which both come), and [preserves] is preservation of an invariant. Arrays
    are lists or finite maps with the bounds check of Go written out at each
    access.

    ** The emulator ([src/emul])

    - Machine: [w4machine], [w4reg], the constants, [translate], [reset],
      [sxtImm] (emul.go, util.go);
    - Exec: the stages [fetch], [decode], [execute], [memory], [writeback],
      each instruction function with the tables that dispatch on it, and the
      special and I/O registers (exec.go); [cycle] is one turn of the stages;
    - Sim: [load], [core], [prompt], the loop of [simulate] and [main]
      (emul.go, util.go). Files and the terminal are byte lists.

    The specification is Isa: instructions as a data type, the encodings of
    the assembler rules, the architectural state [arch], and [isa_step], which
    executes one instruction at once, without the registers that connect the
    stages. Decoder relates the decoder to the encodings, Refine shows that
    the stages implement [isa_step], IsaProps has the properties of
    [isa_step], and EmulProps the invariant [machine_ok], the abstraction
    function [abs] and the lemmas on memory, loading and user runs.
    EmulTheorems states the claims: the refinement (C1), the invariant over
    all reachable states (C2), isolation of user code and absence of panics in
    it (C3, C4), exceptions (C5), loading and dumping (C8, C9). Further theorems show that memory is one of bytes, that the decoder
    inverts the encodings, that register zero stays zero, that an encoding is
    decoded in one way only, and behaviour of the code that is not what it
    seems to intend: the carry, the end of memory, [hlt] under the debugger, a
    special register that writes the user's [r0]. Where the emulator crashes,
    [isa_step] is [Crash], so the refinement also says exactly when that is.
    EmulDump has the text that [dump] prints, with the disassembler that it
    runs as a command ([rundis]; [nostart] is the error of starting it): what
    it shows at the program counter is the instruction that the next cycle
    fetches, or the fault of that fetch (C31). EmulRun has [main] with
    its flags, messages and exit codes, and the loop under interrupts from the
    keyboard, which a goroutine turns into a prompt at any time: a schedule
    says in which cycles; answered with [r] they do not change the run (C7).

    ** The disassembler ([src/dsm])

    Text has Go's number formats, Dsm the key table, [decode], [condense],
    [forEachInst] and the three passes of [disassemble] (dsm.go); the state is
    the array of lines. DsmTheorems: no input makes it panic and its output is
    one line per word (C29), the value of a condensed [ldi] or [jsr] is the
    one that the two instructions compute, and what is printed as the target
    of [beq]. DsmLines describes the printed lines as items (a mnemonic and
    its operands), shows that the three passes compute them, and that pass 1
    prints the mnemonic and the operands of the instruction of the
    specification, but for four groups of opcodes that have other names
    (C30). DsmMain has [main] with its fast option and the
    bounds of its two numbers.

    ** The assembler's rules ([src/asm]) and the test driver ([src/itf])

    The assembler is a script that passes rules to customasm, a third-party
    program. AsmRules has every rule of the script, and the statements of
    customasm's syntax that the disassembler prints (one instruction per line,
    operands registers or numbers, comments). Reassemble reads the lines of
    DsmLines back and finds the words that come back as they were
    ([canonical]); AsmSource shows that those of ordinary statements are such.
    AsmEmul says what every statement does ([effect]) and shows that the main
    loop of the emulator does it when it executes the words, its cycle counter
    included (C10), and that a source of at most 4096 words, assembled, loaded
    and booted, is executed statement by statement (C11). AsmRun interprets
    the source itself ([run_source]) and shows that the emulator's [main] on
    the assembled file ends when the interpretation does, and as it does (C6).
    Itf has the driver (itf.go, io.go) over a class [OS] of system calls,
    which assumes nothing of them. AsmScript has the script of the assembler
    over a file system: the temporary file of the rules, the options, the
    words of the unquoted arguments; what the script calls is the record
    [tools]. ItfWorld has an instance of [OS] on that file system, in which
    the programs started are the script (customasm a parameter, assumed in
    [follows_rules] to give plain statements the meaning of the rules), the
    disassembler and cmp. ItfTheorems: which files the
    disassembler and the assembler bring back (C12), that sources come back
    (C13), the verdict of the driver (C14), its exit code (C15), and that it
    leaves everything outside its working directory as it was (C16); C15 holds for
    every path and every system, C14 and C16 for paths that the unquoted
    words of the script leave alone.

    ** The compiler pass ([src/yapl-1])

    The Go files of [src/yapl-2] are equal to those of [src/yapl-1]. Yapl has
    all of it over one state [yst]: input and output (io.go), errors
    (error.go), string and symbol tables (sym.go), lexer (lex.go), parser
    (parse.go), [Init] and [main] (yc.go). The input is a byte list and the
    code that follows it: end of file, or an I/O error, again at each later
    read. YaplSym relates the tables to a list of [content]s and YaplLex the
    lexer to a description of tokens, and has the exact text that the output
    routines print. YaplParse has a reference parser on the list of
    significant characters, without tables or tokens, and shows that the
    productions of the parser follow it. YaplTheorems: the symbol table is an
    interning table for symbols of at most 16 characters (C32), the lexer (C33), the parser ends on every source
    text and builds the tree of the reference, or ends in the panic of a full
    node array exactly when the tree does not fit (C34), the main program
    prints the listing of the reference (C35), but error recovery does not end
    on an I/O error (C36); also the language symbols after initialisation,
    that declarations are read back from their text, tests of tokens and
    hexadecimal output.

    ** The test bench ([src/exer/cex])

    Cex has the bit vectors and test files (utils), the vector language
    (vector.go), the serial protocol (dev) and the command interpreter
    (main.go). The serial port is a library of a third party: the class [Port]
    has its three calls and assumes nothing of them; a theorem that needs an
    answer of the device says so, and [script_port] of CexTheorems is an
    instance that gives one. CexVec has the lemmas on vectors. CexTheorems:
    the laws of bit vectors, a parsed vector has the pins of its tokens, what
    [Clear] leaves, the command protocol, the commands and the verdict of a
    vector, interrupted system calls (C38), and how malformed files crash it.
    CexSession: when a session is established (C39) and what a poll receives.
    CexMain has the top level: the reader goroutine, a process that a schedule
    interleaves with the session, the session loop, opening and closing of the
    device and the exit codes; lines arrive in order and once (C40). CexRun
    specifies a run over vector files against the class [Bench], a test bench
    that answers the commands of a vector, and shows that the exit code is the
    verdict of the vectors, as the code takes it, and on which files that is
    the documented one (C37); CexBench has an instance, a simulated ALU,
    with which the vector file of the repository passes. CexFaults: a clock
    makes a vector one value short, and errors of the line scanner are lost.

    ** The retired assembler ([src/SAVE/asm]) and yapl-0

    GoStr has byte strings and the parts of [strconv] that the programs call.
    Lex has the pushback reader (pbr.go) and the lexer (lexer.go), a state
    machine over bytes; the machine takes the language as a class, [LexLang],
    of which [asm_lang] and [yapl0_lang] (Yapl0) are instances. Yapl0
    translates the lexer of yapl-0 as it is written and shows that it is the
    machine at [yapl0_lang]. LexProps shows that a call of [GetToken] computes
    one step of a pure function [scan] of the pending bytes, LexGrammar
    defines the lexical grammar ([source]) and reads it. Asm has the key table
    and signatures (asm.go), the symbol table (sym.go), the handlers of the
    parser's states, [Parse] (parser.go), [Generate] and [main]. AsmProps has
    the invariant of the parser ([ctx_ok]), AsmRef the reference assembler,
    which works on lines instead of tokens and has no states, and the proof in
    both directions that the state machine implements it. AsmTheorems: the
    parser is the reference assembler (C17), it is total and its output in
    bounds (C18), the symbol table (C20), the lexer reads the lexical grammar (C21),
    and the lexers are total; AsmMain: the output and the exit code of the
    program, with the line number of every error (C19); Yapl0Theorems: the
    lexer of yapl-0 reads its grammar, which has no comments, operators or
    labels, and is total (C22).

    ** The retired logic simulator ([src/SAVE/sim])

    BinLog has the four-valued bits (types.go) and the binary log (io.go),
    BinLogProps its invariant and the round trip (C28). Circuit has the
    components (parts.go) as objects of a heap, the operations that build a
    circuit, [Check], the simulation loop (sim.go) and the built-in machine
    (seq.go); the enable function of a register is client code, a parameter,
    of which the class [Combinational] states what a comment of parts.go
    requires: that it is combinational. CircuitProps defines the values that
    components drive and heaps equal up to caches, CircuitEval specifies
    [Evaluate], CircuitSync the clock cycle against a synchronous step,
    CircuitBuild the invariant of construction and [Check]. CircuitTheorems:
    simulation is synchronous (C23), checked circuits are well typed (C24),
    the order of registration is irrelevant (C25), the cycle counter (C26),
    feedback (C27), and the run of [main] with its log. The model of circuits
    records a report as an event; the log turns events into records.

    ** Fuel

    Loops that Go does not bound take fuel, and running out of it is a result
    of its own, never confused with another: [OutOfFuel] of [sim_loop], which
    C6 excludes for twice as many turns as the source has statements to
    execute; [Panic
    out_of_fuel] of the compiler, which C34 excludes for fuel beyond the
    number of significant characters of the source and C36 derives for every
    amount of fuel where the code loops forever; [Panic fuel_panic] of the
    port loops, which C38 excludes when the fuel exceeds the number of
    interruptions. The lexer's own loop computes its fuel from the remaining
    input, and so does that of the assembler; its parser needs twice the
    length of the text (C18). The fuel of [Evaluate] is the depth of the
    stack: above the depth of the circuit it is enough (C23), and with
    feedback none is (C27). [Dumplog] takes one more than the number of
    records (C28), and an interactive session, like an emulator run under
    interrupts (C7), runs for the length of its schedule (C40). Numbers are
    printed with fuel for 20 digits, as many as the largest, a 64-bit cycle
    count, has. Other loops are structural in the data or in the bound of the
    source.

    ** Not modelled

    Log output, timing, and how files and ports are opened: effects without
    state in the program, whose results are arguments. Most error messages of
    [exer/cex] and of the command line tools. Debug helpers. Of customasm:
    labels, expressions, directives and the data bank, since its program is
    not in the repository. The Go files of [src/yapl-2], which are those of
    [src/yapl-1]. Hardware descriptions and firmware are not Go.

    ** This file

    The prelude: fixed-width integers and bit fields, the monad and its
    program logic, and the hint databases and tactics of the other files. *)

From stdpp Require Export base option list gmap strings.
From Stdlib Require Export ZArith Lia Bool.

#[export] Set Default Goal Selector "!".

Open Scope Z_scope.

(** ** Fixed-width unsigned integers

    A Go [uintN] is a [Z] in [0, 2^N); the conversions and the arithmetic
    operators wrap with these functions. *)

Definition u8 (z : Z) : Z := z mod 256.
Definition u16 (z : Z) : Z := z mod 65536.
Definition u32 (z : Z) : Z := z mod 4294967296.
Definition u64 (z : Z) : Z := z mod 18446744073709551616.

Definition is_u8 (z : Z) : Prop := 0 <= z < 256.
Definition is_u16 (z : Z) : Prop := 0 <= z < 65536.

(** Bitwise complement [^x] and "and not" [x &^ y] of a [uint16]. *)
Definition not16 (z : Z) : Z := 65535 - z.
Definition andnot16 (x y : Z) : Z := Z.land x (not16 y).

Create HintDb gosem.

Lemma u16_range z : is_u16 (u16 z).
Proof. apply Z.mod_pos_bound. lia. Qed.

Lemma u8_range z : is_u8 (u8 z).
Proof. apply Z.mod_pos_bound. lia. Qed.

Lemma u16_id z : is_u16 z -> u16 z = z.
Proof. intros H. apply Z.mod_small, H. Qed.

Lemma u16_idemp z : u16 (u16 z) = u16 z.
Proof. apply u16_id, u16_range. Qed.

Lemma is_u16_small z n : 0 <= z < n -> n <= 65536 -> is_u16 z.
Proof. unfold is_u16. lia. Qed.

(** The bit operators stay inside a width that bounds both operands. *)
Section BitBounds.
Context (n : Z) (Hn : 0 <= n).

Lemma low_bits_iff z : 0 <= z -> (z < 2 ^ n <-> forall i, n <= i -> Z.testbit z i = false).
Proof using Hn.
  intros Hz. split.
  - intros Hlt i Hi. destruct (Z.eq_dec z 0) as [-> | Hne].
    + apply Z.bits_0.
    + apply Z.bits_above_log2; [exact Hz |].
      apply Z.lt_le_trans with n; [| exact Hi]. apply Z.log2_lt_pow2; lia.
  - intros Hb. destruct (Z.lt_ge_cases z (2 ^ n)) as [H | H]; [exact H | exfalso].
    assert (Hp : 0 < 2 ^ n) by (apply Z.pow_pos_nonneg; lia).
    assert (Hl : n <= Z.log2 z) by (apply Z.log2_le_pow2; lia).
    specialize (Hb (Z.log2 z) Hl). rewrite Z.bit_log2 in Hb; [discriminate | lia].
Qed.

Lemma lor_bound a b : 0 <= a < 2 ^ n -> 0 <= b < 2 ^ n -> 0 <= Z.lor a b < 2 ^ n.
Proof using Hn.
  intros [Ha0 Ha] [Hb0 Hb]. assert (0 <= Z.lor a b) by (apply Z.lor_nonneg; lia).
  split; [assumption |]. apply low_bits_iff; [assumption |]. intros i Hi.
  rewrite Z.lor_spec, (proj1 (low_bits_iff a Ha0) Ha i Hi),
    (proj1 (low_bits_iff b Hb0) Hb i Hi). reflexivity.
Qed.

Lemma lxor_bound a b : 0 <= a < 2 ^ n -> 0 <= b < 2 ^ n -> 0 <= Z.lxor a b < 2 ^ n.
Proof using Hn.
  intros [Ha0 Ha] [Hb0 Hb].
  assert (0 <= Z.lxor a b) by (apply Z.lxor_nonneg; lia).
  split; [assumption |]. apply low_bits_iff; [assumption |]. intros i Hi.
  rewrite Z.lxor_spec, (proj1 (low_bits_iff a Ha0) Ha i Hi),
    (proj1 (low_bits_iff b Hb0) Hb i Hi). reflexivity.
Qed.

Lemma land_bound a b : 0 <= a < 2 ^ n -> 0 <= b -> 0 <= Z.land a b < 2 ^ n.
Proof using Hn.
  intros [Ha0 Ha] Hb0. assert (0 <= Z.land a b) by (apply Z.land_nonneg; lia).
  split; [assumption |]. apply low_bits_iff; [assumption |]. intros i Hi.
  rewrite Z.land_spec, (proj1 (low_bits_iff a Ha0) Ha i Hi). reflexivity.
Qed.

End BitBounds.

Lemma lor_u16 a b : is_u16 a -> is_u16 b -> is_u16 (Z.lor a b).
Proof. apply (lor_bound 16). lia. Qed.

Lemma lxor_u16 a b : is_u16 a -> is_u16 b -> is_u16 (Z.lxor a b).
Proof. apply (lxor_bound 16). lia. Qed.

Lemma land_u16 a b : is_u16 a -> 0 <= b -> is_u16 (Z.land a b).
Proof. apply (land_bound 16). lia. Qed.

Lemma not16_u16 a : is_u16 a -> is_u16 (not16 a).
Proof. unfold is_u16, not16. lia. Qed.

Lemma andnot16_u16 a b : is_u16 a -> is_u16 b -> is_u16 (andnot16 a b).
Proof. intros Ha Hb. apply land_u16; [exact Ha | unfold not16, is_u16 in *; lia]. Qed.

Lemma shiftr_u16 a k : is_u16 a -> 0 <= k -> is_u16 (Z.shiftr a k).
Proof.
  intros [H0 H1] Hk. rewrite Z.shiftr_div_pow2 by exact Hk.
  assert (0 < 2 ^ k) by (apply Z.pow_pos_nonneg; lia).
  split; [apply Z.div_pos; lia |].
  apply Z.le_lt_trans with a; [apply Z.div_le_upper_bound; nia | lia].
Qed.

#[export] Hint Resolve u16_range u8_range lor_u16 lxor_u16 land_u16 not16_u16
  andnot16_u16 shiftr_u16 : gosem.

(** ** Bit fields

    [field w hi lo] is the value of the bits [hi..lo] of [w], in the arithmetic
    form that [lia] understands; [Machine.bits] and [Dsm.bits] are the two shift
    and mask routines of the source and are proved equal to it. *)

Definition field (w hi lo : Z) : Z := (w / 2 ^ lo) mod 2 ^ (hi - lo + 1).

Lemma field_range w hi lo : lo <= hi + 1 -> 0 <= field w hi lo < 2 ^ (hi - lo + 1).
Proof. intros H. apply Z.mod_pos_bound, Z.pow_pos_nonneg; lia. Qed.

Lemma land_mask x k : 0 <= k -> Z.land x (Z.shiftl 1 k - 1) = x mod 2 ^ k.
Proof.
  intros Hk. rewrite <- Z.land_ones by exact Hk. reflexivity.
Qed.

Lemma shift_mask_field w hi lo :
  0 <= lo -> lo <= hi -> hi - lo + 1 <= 16 ->
  Z.land (Z.shiftr w lo) (u16 (Z.shiftl 1 (hi - lo + 1) - 1)) = field w hi lo.
Proof.
  intros H0 H1 H2. unfold field.
  rewrite Z.shiftr_div_pow2 by exact H0. rewrite <- land_mask by lia. f_equal.
  apply u16_id. rewrite Z.shiftl_1_l. split.
  - assert (0 < 2 ^ (hi - lo + 1)) by (apply Z.pow_pos_nonneg; lia). lia.
  - assert (2 ^ (hi - lo + 1) <= 2 ^ 16) by (apply Z.pow_le_mono_r; lia).
    change (2 ^ 16) with 65536 in *. lia.
Qed.

(** Splitting a number at a bit position, the arithmetic content of
    concatenating bit fields. *)
Lemma lor_shiftl_add a b k : 0 <= k -> 0 <= b < 2 ^ k -> Z.lor (Z.shiftl a k) b = a * 2 ^ k + b.
Proof.
  intros Hk Hb. rewrite <- Z.shiftl_mul_pow2 by exact Hk.
  assert (Hd : Z.land (Z.shiftl a k) b = 0).
  { apply Z.bits_inj'. intros i Hi. rewrite Z.land_spec, Z.bits_0.
    destruct (Z.lt_ge_cases i k) as [Hlt | Hge].
    - rewrite Z.shiftl_spec_low by exact Hlt. reflexivity.
    - rewrite (proj1 (low_bits_iff k Hk b (proj1 Hb)) (proj2 Hb) i Hge).
      apply andb_false_r. }
  rewrite <- Z.lxor_lor by exact Hd. symmetry. apply Z.add_nocarry_lxor, Hd.
Qed.

Lemma lor_add_shiftl a b k : 0 <= k -> 0 <= b < 2 ^ k -> Z.lor b (Z.shiftl a k) = a * 2 ^ k + b.
Proof. intros. rewrite Z.lor_comm. apply lor_shiftl_add; assumption. Qed.

Lemma land_shiftl_r x k n : 0 <= n -> Z.land x (Z.shiftl k n) = Z.shiftl (Z.land (Z.shiftr x n) k) n.
Proof.
  intros Hn. apply Z.bits_inj'. intros i Hi. rewrite Z.land_spec, !Z.shiftl_spec by exact Hi.
  destruct (Z.lt_ge_cases i n).
  - rewrite !(Z.testbit_neg_r _ (i - n)) by lia. apply andb_false_r.
  - rewrite Z.land_spec, Z.shiftr_spec by lia. f_equal. f_equal. lia.
Qed.

Lemma land_bit0 x : Z.land x 1 = x mod 2.
Proof. apply (land_mask x 1). lia. Qed.

Lemma land_ff x : Z.land x 0xFF = x mod 256.
Proof. apply (land_mask x 8). lia. Qed.

Lemma shiftr_8 x : Z.shiftr x 8 = x / 256.
Proof. apply (Z.shiftr_div_pow2 x 8). lia. Qed.

Lemma shiftl_8 x : Z.shiftl x 8 = x * 256.
Proof. apply (Z.shiftl_mul_pow2 x 8). lia. Qed.

Lemma odd_test x : negb (Z.land x 1 =? 0) = (x mod 2 =? 1).
Proof.
  rewrite land_bit0. pose proof (Z.mod_pos_bound x 2).
  destruct (Z.eqb_spec (x mod 2) 0), (Z.eqb_spec (x mod 2) 1); lia.
Qed.

Lemma land_ffff x : Z.land x 0xFFFF = x mod 65536.
Proof. apply (land_mask x 16). lia. Qed.

(** A number below a power of two has no bit in common with its multiples. *)
Lemma land_pow2_small x n : 0 <= n -> 0 <= x < 2 ^ n -> Z.land x (2 ^ n) = 0.
Proof.
  intros Hn Hx. rewrite <- Z.shiftl_1_l, land_shiftl_r, Z.shiftr_div_pow2, Z.div_small by assumption.
  apply Z.shiftl_0_l.
Qed.

Lemma not16_ldiff y : is_u16 y -> not16 y = Z.ldiff 65535 y.
Proof.
  intros Hy. unfold not16. apply Z.sub_nocarry_ldiff.
  change 65535 with (Z.ones 16). apply Z.ldiff_ones_r_low; [apply Hy |].
  destruct (Z.eq_dec y 0) as [-> | Hne]; [reflexivity |].
  apply Z.log2_lt_pow2; unfold is_u16 in Hy; lia.
Qed.

Lemma andnot16_ldiff x y : is_u16 x -> is_u16 y -> andnot16 x y = Z.ldiff x y.
Proof.
  intros Hx Hy. unfold andnot16. rewrite not16_ldiff by exact Hy.
  rewrite <- (Z.mod_small x 65536) at 2 by exact Hx. rewrite <- land_ffff.
  apply Z.bits_inj'. intros i Hi. rewrite Z.land_spec, !Z.ldiff_spec, Z.land_spec.
  apply andb_assoc.
Qed.

Lemma testbit_land_pow2 x n : 0 <= n -> negb (Z.land x (2 ^ n) =? 0) = Z.testbit x n.
Proof.
  intros Hn. destruct (Z.testbit x n) eqn:Hb.
  - destruct (Z.eqb_spec (Z.land x (2 ^ n)) 0) as [H |]; [exfalso | reflexivity].
    assert (Hz : Z.testbit (Z.land x (2 ^ n)) n = true)
      by (rewrite Z.land_spec, Hb, Z.pow2_bits_true by exact Hn; reflexivity).
    rewrite H, Z.bits_0 in Hz. discriminate.
  - replace (Z.land x (2 ^ n)) with 0; [reflexivity |]. symmetry. apply Z.bits_inj'. intros i Hi.
    rewrite Z.land_spec, Z.bits_0, Z.pow2_bits_eqb by exact Hn.
    destruct (Z.eqb_spec n i) as [<- |]; [rewrite Hb; reflexivity | apply andb_false_r].
Qed.

Lemma testbit_div x n : 0 <= n -> Z.testbit x n = ((x / 2 ^ n) mod 2 =? 1).
Proof.
  intros Hn. destruct (Z.testbit x n) eqn:Hb; symmetry.
  - apply Z.eqb_eq, Z.testbit_true; assumption.
  - apply Z.eqb_neq. intros H. apply Z.testbit_true in H; congruence.
Qed.

(** Replacing one byte of a 16-bit word. *)
Lemma put_high_byte w v :
  Z.lor (Z.land w 0xFF) (u16 (Z.shiftl v 8)) = (v mod 256) * 256 + w mod 256.
Proof.
  replace (u16 (Z.shiftl v 8)) with (Z.shiftl (v mod 256) 8).
  2: { rewrite !shiftl_8. unfold u16. Z.div_mod_to_equations; lia. }
  rewrite land_ff. apply lor_add_shiftl; [lia | apply Z.mod_pos_bound; lia].
Qed.

Lemma put_low_byte w v :
  is_u16 w -> Z.lor (Z.land w 0xFF00) (Z.land v 0xFF) = (w / 256) * 256 + v mod 256.
Proof.
  intros Hw. change 0xFF00 with (Z.shiftl 0xFF 8). rewrite land_shiftl_r, !land_ff, shiftr_8 by lia.
  rewrite (Z.mod_small (w / 256)) by (unfold is_u16 in Hw; Z.div_mod_to_equations; lia).
  apply lor_shiftl_add; [lia | apply Z.mod_pos_bound; lia].
Qed.

(** ** Go programs that may panic

    A function of the source that reads and writes a mutable object of type [S]
    is a computation [M S A]: it returns a value and the new object, or panics
    (a failed assertion, an index out of range, an explicit [panic]).  A panic
    ends the program, so it carries no state. *)

Inductive res (A : Type) : Type :=
| Ret (a : A)
| Panic (why : string).
Arguments Ret {A} a.
Arguments Panic {A} why.

Definition M (S A : Type) : Type := S -> res (A * S).

#[export] Instance M_ret {S} : MRet (M S) := fun A a s => Ret (a, s).
#[export] Instance M_bind {S} : MBind (M S) := fun A B f m s =>
  match m s with
  | Ret (a, s') => f a s'
  | Panic w => Panic w
  end.

Section Primitives.
Context {S : Type}.

Definition get_st : M S S := fun s => Ret (s, s).
Definition gets {A} (f : S -> A) : M S A := fun s => Ret (f s, s).
Definition modify (f : S -> S) : M S unit := fun s => Ret (tt, f s).
Definition panic {A} (why : string) : M S A := fun _ => Panic why.
Definition from_opt {A} (why : string) (o : option A) : M S A :=
  match o with
  | Some a => mret a
  | None => panic why
  end.
Definition whenM (b : bool) (c : M S unit) : M S unit := if b then c else mret tt.

End Primitives.

Definition index_panic : string := "index out of range".

(** ** Weakest preconditions

    [wpe E c Q s]: from [s], either [c] returns and [Q] holds of its result and
    the new state, or it panics and [E] holds.  [wp] (no panic) and [wlp] (a
    panic proves anything) are the two extreme cases. *)

Definition wpe {S A} (E : Prop) (c : M S A) (Q : A -> S -> Prop) (s : S) : Prop :=
  match c s with
  | Ret (a, s') => Q a s'
  | Panic _ => E
  end.

(** A first computation that returns is replaced by its result. *)
Lemma bind_ret {S A B} (c : M S A) (f : A -> M S B) a s s' : c s = Ret (a, s') -> (c ≫= f) s = f a s'.
Proof. intros E. unfold mbind, M_bind. rewrite E. reflexivity. Qed.

Abbreviation wp := (wpe False).
Abbreviation wlp := (wpe True).

Section WpRules.
Context {S : Type} (E : Prop).

Lemma wpe_ret {A} (a : A) Q (s : S) : Q a s -> wpe E (mret a) Q s.
Proof. exact id. Qed.

Lemma wpe_bind {A B} (c : M S A) (f : A -> M S B) Q s :
  wpe E c (fun a s' => wpe E (f a) Q s') s -> wpe E (c ≫= f) Q s.
Proof. unfold wpe, mbind, M_bind. destruct (c s) as [[a s'] | w]; auto. Qed.

Lemma wpe_bind_inv {A B} (c : M S A) (f : A -> M S B) Q s :
  wpe E (c ≫= f) Q s -> wpe E c (fun a s' => wpe E (f a) Q s') s.
Proof. unfold wpe, mbind, M_bind. destruct (c s) as [[a s'] | w]; auto. Qed.

Lemma wpe_gets {A} (f : S -> A) Q s : Q (f s) s -> wpe E (gets f) Q s.
Proof. exact id. Qed.

Lemma wpe_modify (f : S -> S) Q s : Q tt (f s) -> wpe E (modify f) Q s.
Proof. exact id. Qed.

Lemma wpe_panic {A} why (Q : A -> S -> Prop) s : E -> wpe E (panic why) Q s.
Proof. exact id. Qed.

Lemma wpe_mono {A} (F : Prop) (c : M S A) (Q R : A -> S -> Prop) s :
  wpe F c Q s -> (F -> E) -> (forall a s', Q a s' -> R a s') -> wpe E c R s.
Proof. unfold wpe. destruct (c s) as [[a s'] | w]; auto. Qed.

Lemma wpe_opt {A} why (o : option A) a Q (s : S) :
  o = Some a -> Q a s -> wpe E (from_opt why o) Q s.
Proof. intros -> H. exact H. Qed.

Lemma wpe_run {A} (c : M S A) Q s a s' : wpe E c Q s -> c s = Ret (a, s') -> Q a s'.
Proof. unfold wpe. intros H Hr. rewrite Hr in H. exact H. Qed.

End WpRules.

Lemma wp_returns {S A} (c : M S A) Q (s : S) :
  wp c Q s <-> exists a s', c s = Ret (a, s') /\ Q a s'.
Proof.
  unfold wpe. split.
  - destruct (c s) as [[a s'] | w]; [eauto | intros []].
  - intros (a & s' & -> & H). exact H.
Qed.

(** A preserved predicate: the partial-correctness triple [{P} c {P}]. *)
Definition preserves {S A} (P : S -> Prop) (c : M S A) : Prop :=
  forall s, P s -> wlp c (fun _ s' => P s') s.

Section Preserves.
Context {S : Type} (P : S -> Prop).

Lemma preserves_ret {A} (a : A) : preserves P (mret a).
Proof. intros s H. exact H. Qed.

Lemma preserves_bind {A B} (c : M S A) (f : A -> M S B) :
  preserves P c -> (forall a, preserves P (f a)) -> preserves P (c ≫= f).
Proof.
  intros Hc Hf s Hs. apply wpe_bind. eapply wpe_mono; [apply Hc, Hs | auto |].
  intros a s' H. apply Hf, H.
Qed.

Lemma preserves_gets {A} (f : S -> A) : preserves P (gets f).
Proof. intros s H. exact H. Qed.

Lemma preserves_modify (f : S -> S) : (forall s, P s -> P (f s)) -> preserves P (modify f).
Proof. intros Hf s H. apply Hf, H. Qed.

Lemma preserves_panic {A} w : preserves P (panic (A:=A) w).
Proof. intros s H. exact I. Qed.

Lemma preserves_opt {A} w (o : option A) : preserves P (from_opt w o).
Proof. destruct o; [apply preserves_ret | apply preserves_panic]. Qed.

Lemma preserves_if {A} (b : bool) (c d : M S A) :
  preserves P c -> preserves P d -> preserves P (if b then c else d).
Proof. destruct b; auto. Qed.

Lemma preserves_when (b : bool) (c : M S unit) : preserves P c -> preserves P (whenM b c).
Proof. intros H. apply preserves_if; [exact H | apply preserves_ret]. Qed.

End Preserves.

#[export] Hint Resolve preserves_ret preserves_gets preserves_panic preserves_opt
  preserves_when : gosem.

(** ** Lists as Go slices *)

Lemma lookup_is_Some_len {A} (l : list A) (i : nat) : (i < length l)%nat -> exists x, l !! i = Some x.
Proof. intros H. apply lookup_lt_is_Some in H. exact H. Qed.

Lemma Forall_insert {A} (P : A -> Prop) (l : list A) i x :
  Forall P l -> P x -> Forall P (<[i := x]> l).
Proof. intros Hl Hx. apply Forall_insert; assumption. Qed.

Lemma Forall_lookup_some {A} (P : A -> Prop) (l : list A) i x :
  Forall P l -> l !! i = Some x -> P x.
Proof. intros Hl Hx. eapply Forall_lookup_1; eauto. Qed.

(** ** Tactics *)

(** Case analysis on the conditional that the goal is stuck on. *)
Ltac case_if :=
  match goal with
  | |- context [if ?b then _ else _] =>
    lazymatch b with
    | context [if _ then _ else _] => fail
    | _ => let E := fresh "E" in destruct b eqn:E
    end
  end.

(** Turn boolean tests in the hypotheses into facts that [lia] reads. *)
Ltac bool_facts :=
  repeat match goal with
  | H : (_ && _)%bool = true |- _ => apply andb_prop in H; destruct H
  | H : (_ || _)%bool = false |- _ => apply orb_false_elim in H; destruct H
  | H : negb _ = true |- _ => apply negb_true_iff in H
  | H : negb _ = false |- _ => apply negb_false_iff in H
  | H : (_ =? _) = true |- _ => apply Z.eqb_eq in H
  | H : (_ =? _) = false |- _ => apply Z.eqb_neq in H
  | H : (_ <? _) = true |- _ => apply Z.ltb_lt in H
  | H : (_ <? _) = false |- _ => apply Z.ltb_ge in H
  | H : (_ <=? _) = true |- _ => apply Z.leb_le in H
  | H : (_ <=? _) = false |- _ => apply Z.leb_gt in H
  end.

(** Linear arithmetic over constant divisions and remainders. *)
Ltac zdivmod := unfold field, u16, u8, u32, is_u16, is_u8 in *; Z.div_mod_to_equations; lia.
