(* ===== verification/Machine.v ===== *)
(** * The emulated machine: emul/emul.go (data) and emul/util.go

    The machine record, its constants, the virtual-to-physical translation, the
    field extraction and immediate decoding, and the reset.  Go's slices
    [w4.reg], [gen] and [spr] are lists read and written with a bounds check
    that panics like Go's; [physmem], an array of [PhysMemSize] words that
    starts out zero, is a finite map read with default 0 under the same bounds
    check. *)

From S2P Require Import Prelude.

(** ** Constants (emul.go) *)

Definition K : Z := 1024.
Definition IOSize : Z := 64.
Definition SprSize : Z := 64.

(** Special registers. *)
Definition PC : Z := 0.
Definition Link : Z := 1.
Definition Irr : Z := 2.
Definition Icr : Z := 3.
Definition Imr : Z := 4.
Definition CCLS : Z := 6.
Definition CCMS : Z := 7.
Definition MmuCtl1 : Z := 8.

Definition Kern : Z := 0.
Definition User : Z := 1.

(** Exceptions. *)
Definition ExNone : Z := 0.
Definition ExIllegal : Z := 16.
Definition ExMemory : Z := 18.
Definition ExAlign : Z := 20.
Definition ExMachine : Z := 30.

Definition PhysMemSize : Z := 6 * 64 * K.

(** ** The machine record *)

(** [w4reg]: the general and the special registers of one mode. *)
Record w4reg := W4reg { gen : list Z; spr : list Z }.

(** The variables of [w4machine] that are "part of the combinational logic":
    set by [decode], read by the later stages of the same cycle. *)
Record decoded := Decoded {
  op : Z; imm : Z;
  xop : Z; yop : Z; zop : Z; vop : Z;
  isXop : bool; isYop : bool; isZop : bool; isVop : bool; isBase : bool;
  ra : Z; rb : Z; rc : Z
}.

(** [w4machine] together with the global [physmem]. *)
Record w4machine := W4machine {
  cyc : Z;
  reg : list w4reg;
  io : list Z;
  pc : Z;
  run : bool;
  en : bool;
  mode : Z;
  alu : Z;
  sd : Z;
  wb : Z;
  ex : Z;
  ir : Z;
  hc : Z;
  dec : decoded;
  physmem : gmap Z Z
}.

(** Field assignments. *)
Definition set_cyc (v : Z) (m : w4machine) : w4machine :=
  {| cyc := v; reg := m.(reg); io := m.(io); pc := m.(pc); run := m.(run); en := m.(en);
     mode := m.(mode); alu := m.(alu); sd := m.(sd); wb := m.(wb); ex := m.(ex);
     ir := m.(ir); hc := m.(hc); dec := m.(dec); physmem := m.(physmem) |}.
Definition set_reg (v : list w4reg) (m : w4machine) : w4machine :=
  {| cyc := m.(cyc); reg := v; io := m.(io); pc := m.(pc); run := m.(run); en := m.(en);
     mode := m.(mode); alu := m.(alu); sd := m.(sd); wb := m.(wb); ex := m.(ex);
     ir := m.(ir); hc := m.(hc); dec := m.(dec); physmem := m.(physmem) |}.
Definition set_io (v : list Z) (m : w4machine) : w4machine :=
  {| cyc := m.(cyc); reg := m.(reg); io := v; pc := m.(pc); run := m.(run); en := m.(en);
     mode := m.(mode); alu := m.(alu); sd := m.(sd); wb := m.(wb); ex := m.(ex);
     ir := m.(ir); hc := m.(hc); dec := m.(dec); physmem := m.(physmem) |}.
Definition set_pc (v : Z) (m : w4machine) : w4machine :=
  {| cyc := m.(cyc); reg := m.(reg); io := m.(io); pc := v; run := m.(run); en := m.(en);
     mode := m.(mode); alu := m.(alu); sd := m.(sd); wb := m.(wb); ex := m.(ex);
     ir := m.(ir); hc := m.(hc); dec := m.(dec); physmem := m.(physmem) |}.
Definition set_run (v : bool) (m : w4machine) : w4machine :=
  {| cyc := m.(cyc); reg := m.(reg); io := m.(io); pc := m.(pc); run := v; en := m.(en);
     mode := m.(mode); alu := m.(alu); sd := m.(sd); wb := m.(wb); ex := m.(ex);
     ir := m.(ir); hc := m.(hc); dec := m.(dec); physmem := m.(physmem) |}.
Definition set_en (v : bool) (m : w4machine) : w4machine :=
  {| cyc := m.(cyc); reg := m.(reg); io := m.(io); pc := m.(pc); run := m.(run); en := v;
     mode := m.(mode); alu := m.(alu); sd := m.(sd); wb := m.(wb); ex := m.(ex);
     ir := m.(ir); hc := m.(hc); dec := m.(dec); physmem := m.(physmem) |}.
Definition set_mode (v : Z) (m : w4machine) : w4machine :=
  {| cyc := m.(cyc); reg := m.(reg); io := m.(io); pc := m.(pc); run := m.(run); en := m.(en);
     mode := v; alu := m.(alu); sd := m.(sd); wb := m.(wb); ex := m.(ex);
     ir := m.(ir); hc := m.(hc); dec := m.(dec); physmem := m.(physmem) |}.
Definition set_alu (v : Z) (m : w4machine) : w4machine :=
  {| cyc := m.(cyc); reg := m.(reg); io := m.(io); pc := m.(pc); run := m.(run); en := m.(en);
     mode := m.(mode); alu := v; sd := m.(sd); wb := m.(wb); ex := m.(ex);
     ir := m.(ir); hc := m.(hc); dec := m.(dec); physmem := m.(physmem) |}.
Definition set_sd (v : Z) (m : w4machine) : w4machine :=
  {| cyc := m.(cyc); reg := m.(reg); io := m.(io); pc := m.(pc); run := m.(run); en := m.(en);
     mode := m.(mode); alu := m.(alu); sd := v; wb := m.(wb); ex := m.(ex);
     ir := m.(ir); hc := m.(hc); dec := m.(dec); physmem := m.(physmem) |}.
Definition set_wb (v : Z) (m : w4machine) : w4machine :=
  {| cyc := m.(cyc); reg := m.(reg); io := m.(io); pc := m.(pc); run := m.(run); en := m.(en);
     mode := m.(mode); alu := m.(alu); sd := m.(sd); wb := v; ex := m.(ex);
     ir := m.(ir); hc := m.(hc); dec := m.(dec); physmem := m.(physmem) |}.
Definition set_ex (v : Z) (m : w4machine) : w4machine :=
  {| cyc := m.(cyc); reg := m.(reg); io := m.(io); pc := m.(pc); run := m.(run); en := m.(en);
     mode := m.(mode); alu := m.(alu); sd := m.(sd); wb := m.(wb); ex := v;
     ir := m.(ir); hc := m.(hc); dec := m.(dec); physmem := m.(physmem) |}.
Definition set_ir (v : Z) (m : w4machine) : w4machine :=
  {| cyc := m.(cyc); reg := m.(reg); io := m.(io); pc := m.(pc); run := m.(run); en := m.(en);
     mode := m.(mode); alu := m.(alu); sd := m.(sd); wb := m.(wb); ex := m.(ex);
     ir := v; hc := m.(hc); dec := m.(dec); physmem := m.(physmem) |}.
Definition set_hc (v : Z) (m : w4machine) : w4machine :=
  {| cyc := m.(cyc); reg := m.(reg); io := m.(io); pc := m.(pc); run := m.(run); en := m.(en);
     mode := m.(mode); alu := m.(alu); sd := m.(sd); wb := m.(wb); ex := m.(ex);
     ir := m.(ir); hc := v; dec := m.(dec); physmem := m.(physmem) |}.
Definition set_dec (v : decoded) (m : w4machine) : w4machine :=
  {| cyc := m.(cyc); reg := m.(reg); io := m.(io); pc := m.(pc); run := m.(run); en := m.(en);
     mode := m.(mode); alu := m.(alu); sd := m.(sd); wb := m.(wb); ex := m.(ex);
     ir := m.(ir); hc := m.(hc); dec := v; physmem := m.(physmem) |}.
Definition set_physmem (v : gmap Z Z) (m : w4machine) : w4machine :=
  {| cyc := m.(cyc); reg := m.(reg); io := m.(io); pc := m.(pc); run := m.(run); en := m.(en);
     mode := m.(mode); alu := m.(alu); sd := m.(sd); wb := m.(wb); ex := m.(ex);
     ir := m.(ir); hc := m.(hc); dec := m.(dec); physmem := v |}.

Definition zero_decoded : decoded :=
  {| op := 0; imm := 0; xop := 0; yop := 0; zop := 0; vop := 0;
     isXop := false; isYop := false; isZop := false; isVop := false; isBase := false;
     ra := 0; rb := 0; rc := 0 |}.

(** The global variable [w4] before [main] runs, and the all-zero [physmem]. *)
Definition zero_reg : w4reg := W4reg (replicate 8 0) (replicate (Z.to_nat SprSize) 0).

Definition w4 : w4machine :=
  {| cyc := 0; reg := [zero_reg; zero_reg]; io := replicate (Z.to_nat IOSize) 0; pc := 0;
     run := false; en := false; mode := 0; alu := 0; sd := 0; wb := 0; ex := 0; ir := 0;
     hc := 0; dec := zero_decoded; physmem := ∅ |}.

(** ** Slice accesses, with Go's bounds checks *)

Abbreviation W := (M w4machine).

Definition get_reg (md : Z) : W w4reg :=
  l ← gets reg; from_opt index_panic (l !! Z.to_nat md).

Definition get_gen (md r : Z) : W Z :=
  rg ← get_reg md; from_opt index_panic (gen rg !! Z.to_nat r).

Definition get_spr (md r : Z) : W Z :=
  rg ← get_reg md; from_opt index_panic (spr rg !! Z.to_nat r).

Definition put_reg (md : Z) (rg : w4reg) : W unit :=
  modify (fun m => set_reg (<[Z.to_nat md := rg]> (reg m)) m).

Definition set_gen (md r v : Z) : W unit :=
  rg ← get_reg md;
  _ ← from_opt index_panic (gen rg !! Z.to_nat r);
  put_reg md (W4reg (<[Z.to_nat r := v]> (gen rg)) (spr rg)).

Definition set_spr (md r v : Z) : W unit :=
  rg ← get_reg md;
  _ ← from_opt index_panic (spr rg !! Z.to_nat r);
  put_reg md (W4reg (gen rg) (<[Z.to_nat r := v]> (spr rg))).

(** The word of memory at a physical index. *)
Definition mem_at (mem : gmap Z Z) (a : Z) : Z := default 0 (mem !! a).

Definition in_phys (a : Z) : bool := (0 <=? a) && (a <? PhysMemSize).

Definition read_phys (a : Z) : W Z :=
  if in_phys a then gets (fun m => mem_at (physmem m) a) else panic index_panic.

Definition write_phys (a v : Z) : W unit :=
  if in_phys a then modify (fun m => set_physmem (<[a := v]> (physmem m)) m)
  else panic index_panic.

(** ** util.go *)

(** [func (w word) bits(hi int, lo int) uint16] *)
Definition bits (w hi lo : Z) : Z :=
  Z.land (u16 (Z.shiftr w lo)) (u16 (Z.shiftl 1 (hi - lo + 1) - 1)).

(** [func (w4 *w4machine) translate(isData bool, virtAddr word)] *)
Definition translate (isData : bool) (virtAddr : Z) : W (Z * Z) :=
  let sprOffset := 32 in
  let sprOffset := if isData then sprOffset + 16 else sprOffset in
  let sprOffset := sprOffset + Z.shiftr virtAddr 12 in
  md ← gets mode;
  e ← get_spr md sprOffset;
  let upper := Z.land e 0xFFF in
  let lower := Z.land virtAddr 0xFFF in
  let result := Z.lor (u32 (Z.shiftl upper 12)) lower in
  let result := if isData then Z.shiftr result 1 else result in
  if PhysMemSize <? result then mret (ExMemory, result) else mret (ExNone, result).

(** [func (w4 *w4machine) reset()] *)
Definition reset : W unit :=
  modify (set_cyc 0);;
  modify (set_pc 0);;
  modify (set_run true);;
  modify (set_mode Kern);;
  modify (set_ex 0);;
  modify (set_en false);;
  set_spr Kern Imr User.

(** [func (w4 *w4machine) sxtImm() uint16], of the instruction register. *)
Definition sxtImm (ir : Z) : Z :=
  let op := bits ir 15 13 in
  let neg := negb (bits ir 12 12 =? 0) in
  if op <? 6 then
    let result := bits ir 12 6 in
    if neg then Z.lor result 0xFF80 else result
  else if op =? 6 then u16 (Z.shiftl (bits ir 12 3) 6)
  else if (op =? 7) && negb neg then bits ir 12 6
  else 0.
