(* ===== verification/Exec.v ===== *)
(** * The instruction cycle: emul/exec.go

    One definition per method of exec.go, in the order of the file.  Each is a
    computation over the shared machine record, so what a stage leaves in the
    record is what the next stage reads, as in the source. *)

From S2P Require Import Prelude Machine.

(** Reads [w4.reg[w4.mode].gen[r]]. *)
Definition cur_gen (r : Z) : W Z := md ← gets mode; get_gen md r.

Definition assertM (b : bool) (msg : string) : W unit :=
  if b then mret tt else panic ("assertion failure: " +:+ msg).

(** [dump()]: what it prints is not modelled, but it indexes the register
    slices and [physmem] and panics where they do. *)
Definition dump : W unit :=
  p ← gets pc;
  '(e, codeAddr) ← translate false p;
  (if e =? ExNone then _ ← read_phys codeAddr; mret tt else mret tt);;
  md ← gets mode;
  _ ← get_reg md;
  _ ← mapM (fun n => get_spr Kern n) (seqZ 0 64);
  _ ← mapM (fun n => get_spr User n) (seqZ 0 64);
  let codeAddr := Z.ldiff codeAddr 7 in
  _ ← mapM (fun i => read_phys (codeAddr + i)) (seqZ 0 8);
  '(e, dataAddr) ← translate true 0;
  if e =? ExNone then
    _ ← mapM (fun i => read_phys (dataAddr + i)) (seqZ 0 8); mret tt
  else mret tt.

(** ** Fetch *)

Definition fetch : W unit :=
  e ← gets ex;
  (if negb (e =? 0) then
     ie ← gets en;
     assertM ie "double fault in fetch()";;
     p ← gets pc;
     set_spr Kern Irr p;;
     set_spr Kern Icr e;;
     md ← gets mode;
     set_spr Kern Imr md;;
     modify (set_mode Kern);;
     modify (set_pc e);;
     modify (set_en false);;
     modify (set_ex 0)
   else mret tt);;
  p ← gets pc;
  '(e, addr) ← translate false p;
  if negb (e =? ExNone) then modify (set_ex e)
  else
    w ← read_phys addr;
    modify (set_ir w);;
    modify (fun m => set_pc (u16 (pc m + 1)) m).

(** ** Decode *)

Definition decode_fields (ir : Z) : decoded :=
  let isVop := bits ir 15 3 =? 0x1FFF in
  let isZop := negb isVop && (bits ir 15 6 =? 0x03FF) in
  let isYop := negb isVop && negb isZop && (bits ir 15 9 =? 0x007F) in
  let isXop := negb isVop && negb isZop && negb isYop && (bits ir 15 12 =? 0x000F) in
  let isBase := negb isVop && negb isZop && negb isYop && negb isXop in
  {| op := bits ir 15 13;
     imm := sxtImm ir;
     xop := bits ir 11 9;
     yop := bits ir 8 6;
     zop := bits ir 5 3;
     vop := bits ir 2 0;
     isXop := isXop; isYop := isYop; isZop := isZop; isVop := isVop; isBase := isBase;
     ra := bits ir 2 0;
     rb := bits ir 5 3;
     rc := bits ir 8 6 |}.

Definition decode : W unit :=
  e ← gets ex;
  if negb (e =? 0) then mret tt
  else modify (fun m => set_dec (decode_fields (ir m)) m).

(** ** Failures of the decoder *)

Definition decodeFailure (msg : string) : W unit :=
  dump;; panic ("executeSequential(): decode failure: " +:+ msg).

Definition baseFail : W unit := decodeFailure "base".
Definition yopFail : W unit := decodeFailure "yop".
Definition zopFail : W unit := decodeFailure "zop".

Definition illegal : W unit := modify (set_ex ExIllegal).

(** ** Base operations *)

(** [w4.alu = uint16(reg[w4.rb]) + w4.imm] *)
Definition alu_rb_imm : W unit :=
  d ← gets dec;
  b ← cur_gen (rb d);
  modify (set_alu (u16 (b + imm d))).

Definition ldw : W unit :=
  i ← gets ir;
  if i =? 0 then illegal else alu_rb_imm.

Definition ldb : W unit := alu_rb_imm.

Definition stw : W unit :=
  alu_rb_imm;;
  d ← gets dec;
  a ← cur_gen (ra d);
  modify (set_sd a).

Definition stb : W unit :=
  alu_rb_imm;;
  d ← gets dec;
  a ← cur_gen (ra d);
  modify (set_sd a).

Definition beq : W unit :=
  d ← gets dec;
  b ← cur_gen (rb d);
  a ← cur_gen (ra d);
  if b =? a then modify (fun m => set_pc (u16 (pc m + imm d)) m) else mret tt.

Definition adi : W unit := alu_rb_imm.

Definition lui : W unit := d ← gets dec; modify (set_alu (imm d)).

(** [w4.pc = word(uint16(w4.reg[w4.mode].gen[w4.rb]) + w4.imm)] *)
Definition jump_rb_imm : W unit :=
  d ← gets dec;
  b ← cur_gen (rb d);
  modify (set_pc (u16 (b + imm d))).

Definition jlr : W unit :=
  i ← gets ir;
  (if negb (bits i 15 12 =? 0xE) then baseFail else mret tt);;
  d ← gets dec;
  match ra d with
  | 0 =>
    if negb (rb d =? 0) || (Z.land (imm d) 1 =? 1) || (imm d <? 32) || (62 <? imm d)
    then illegal
    else modify (set_ex (imm d))
  | 1 =>
    md ← gets mode;
    p ← gets pc;
    set_spr md Link p;;
    jump_rb_imm
  | 2 => jump_rb_imm
  | _ => illegal
  end.

(** ** XOPs: three-operand ALU operations *)

(** The value and the carry that a [uint32] intermediate yields. *)
Definition set_alu_hc (a c : Z) : W unit := modify (set_alu a);; modify (set_hc c).

Definition alu_full (full : Z) : W unit :=
  set_alu_hc (u16 (Z.land full 0xFFFF)) (u16 (Z.shiftr (Z.land full 0x10000) 16)).

Definition alu3 : W unit :=
  d ← gets dec;
  rs2 ← cur_gen (rc d);
  rs1 ← cur_gen (rb d);
  h ← gets hc;
  match xop d with
  | 0 => alu_full (u32 (u16 (rs2 + rs1)))
  | 1 => alu_full (u32 (u16 (u16 (rs2 + rs1) + h)))
  | 2 => alu_full (u32 (u16 (rs2 - rs1)))
  | 3 => alu_full (u32 (u16 (u16 (rs2 - rs1) - h)))
  | 4 => set_alu_hc (u16 (Z.land (u32 (andnot16 rs2 rs1)) 0xFFFF)) 0
  | 5 => set_alu_hc (u16 (Z.land (u32 (Z.lor rs2 rs1)) 0xFFFF)) 0
  | 6 => set_alu_hc (u16 (Z.land (u32 (Z.lxor rs2 rs1)) 0xFFFF)) 0
  | 7 => decodeFailure "alu3 op == 7"
  | _ => mret tt
  end.

(** ** YOPs: special register and I/O operations *)

Definition alu_rb : W unit :=
  d ← gets dec;
  b ← cur_gen (rb d);
  modify (set_alu b).

Definition sd_ra : W unit :=
  d ← gets dec;
  a ← cur_gen (ra d);
  modify (set_sd a).

Definition lsp : W unit := alu_rb.
Definition lio : W unit := alu_rb.
Definition ssp : W unit := alu_rb;; sd_ra.
Definition sio : W unit := alu_rb;; sd_ra.
Definition y04 : W unit := illegal.
Definition y05 : W unit := illegal.
Definition y06 : W unit := illegal.

(** ** ZOPs: one-operand ALU operations *)

Definition alu1 : W unit :=
  d ← gets dec;
  rs1 ← cur_gen (ra d);
  match zop d with
  | 0 => set_alu_hc (not16 rs1) 0
  | 1 => set_alu_hc (u16 (1 + not16 rs1)) 0
  | 2 => set_alu_hc (Z.lor (Z.shiftr rs1 8) (u16 (Z.shiftl rs1 8))) 0
  | 3 =>
    set_alu_hc (if negb (Z.land rs1 0x80 =? 0) then Z.lor rs1 0xFF00
                else andnot16 rs1 0xFF00) 0
  | 4 => set_alu_hc (Z.shiftr rs1 1) (Z.land rs1 1)
  | 5 => set_alu_hc (u16 (Z.shiftl rs1 1)) (if Z.land rs1 0x8000 =? 0 then 0 else 1)
  | 6 => set_alu_hc (Z.lor (Z.shiftr rs1 1) (Z.land rs1 0x8000)) (Z.land rs1 1)
  | 7 => zopFail
  | _ => mret tt
  end.

(** ** VOPs: zero-operand instructions *)

(** The guard that starts the privileged instructions. *)
Definition privileged (c : W unit) : W unit :=
  md ← gets mode;
  if md =? User then illegal else c.

Definition rti : W unit :=
  privileged
    (modify (set_ex 0);;
     modify (set_en true);;
     p ← get_spr Kern Irr;
     modify (set_pc p);;
     set_spr Kern Irr 0;;
     i ← get_spr Kern Imr;
     modify (set_mode (u8 i))).

Definition rtl : W unit :=
  md ← gets mode;
  l ← get_spr md Link;
  modify (set_pc l).

Definition di : W unit := privileged (modify (set_en false)).
Definition ei : W unit := privileged (modify (set_en true)).
Definition hlt : W unit := privileged (modify (set_run false)).
Definition brk : W unit := privileged dump.
Definition v06 : W unit := illegal.
Definition die : W unit := privileged illegal.

(** ** Execute *)

Definition baseops : list (W unit) := [ldw; ldb; stw; stb; beq; adi; lui; jlr].
Definition yops : list (W unit) := [lsp; lio; ssp; sio; y04; y05; y06; yopFail].
Definition vops : list (W unit) := [rti; rtl; di; ei; hlt; brk; v06; die].

(** [table[i]()] *)
Definition call (table : list (W unit)) (i : Z) : W unit :=
  f ← from_opt index_panic (table !! Z.to_nat i); f.

Definition execute : W unit :=
  e ← gets ex;
  if negb (e =? 0) then mret tt
  else
    d ← gets dec;
    if isBase d then call baseops (op d)
    else if isXop d then alu3
    else if isYop d then call yops (yop d)
    else if isZop d then alu1
    else
      (if negb (isVop d) then decodeFailure "vop" else mret tt);;
      call vops (vop d).

(** ** Memory *)

(** [loadSpecial()]; the register number is the low six bits of the ALU
    result. *)
Definition loadSpecial : W Z :=
  a ← gets alu;
  md ← gets mode;
  let r := Z.land a (SprSize - 1) in
  let fault : W Z := illegal;; mret 0 in
  if r =? PC then gets pc
  else if r =? Link then get_spr md Link
  else if (r =? Irr) || (r =? Icr) || (r =? Imr) || (r =? 5) then
    if md =? Kern then get_spr md r else fault
  else if r =? CCLS then c ← gets cyc; mret (u16 (Z.land c 0xFFFF))
  else if r =? CCMS then c ← gets cyc; mret (u16 (Z.shiftr (Z.land c 0xFFFF0000) 16))
  else if md =? User then fault
  else
    let missing : W Z := assertM false "missing case in loadSpecial()";; mret 0 in
    if r =? MmuCtl1 then get_spr Kern MmuCtl1
    else if (8 <? r) && (r <? 16) then mret 0
    else if (16 <=? r) && (r <? 24) then get_gen User (r - 16)
    else if (24 <=? r) && (r <? 31) then
      if r =? 25 then get_spr User Link else missing
    else if 32 <=? r then
      c ← get_spr Kern MmuCtl1;
      if negb (Z.land c 0x10 =? 0) then get_spr User r else get_spr Kern r
    else fault.

(** [loadIO()] and [storeIO()] are stubs in the source: [TODO()] only traces. *)
Definition loadIO : W Z := mret 0.

Definition storeSpecial (val : Z) : W unit :=
  a ← gets alu;
  md ← gets mode;
  let r := Z.land a (SprSize - 1) in
  if md =? User then
    if r =? Link then set_spr User Link val else illegal
  else if (r =? Irr) || (r =? Icr) || (r =? Imr) || (r =? 5) || (r =? MmuCtl1) then
    set_spr Kern r val
  else if (16 <=? r) && (r <? 24) then set_gen User (r - 16) val
  else if r =? 25 then set_spr User Link val
  else if 32 <=? r then
    c ← get_spr Kern MmuCtl1;
    if negb (Z.land c 0x10 =? 0) then set_spr User r val else set_spr Kern r val
  else illegal.

Definition storeIO (val : Z) : W unit := mret tt.

(** The general-register loads and stores of [memory()], [op < 4], once the
    address is translated. *)
Definition memory_op (o addr : Z) (isOdd : bool) : W unit :=
  let fault : W unit := modify (set_ex ExMemory) in
  match o with
  | 0 => if isOdd then fault else w ← read_phys addr; modify (set_wb w)
  | 1 =>
    memWord ← read_phys addr;
    if isOdd then modify (set_wb (Z.shiftr memWord 8))
    else modify (set_wb (Z.land memWord 0xFF))
  | 2 => if isOdd then fault else s ← gets sd; write_phys addr s
  | 3 =>
    memWord ← read_phys addr;
    s ← gets sd;
    let memWord' :=
      if isOdd then Z.lor (Z.land memWord 0xFF) (u16 (Z.shiftl s 8))
      else Z.lor (Z.land memWord 0xFF00) (Z.land s 0xFF) in
    write_phys addr memWord'
  | _ => mret tt
  end.

Definition memory : W unit :=
  e ← gets ex;
  if negb (e =? 0) then mret tt
  else
    modify (fun m => set_wb (alu m) m);;
    d ← gets dec;
    if op d <? 4 then
      a ← gets alu;
      let isOdd := negb (Z.land a 1 =? 0) in
      '(e, addr) ← translate true a;
      if negb (e =? ExNone) then modify (set_ex e)
      else memory_op (op d) addr isOdd
    else if isYop d then
      match yop d with
      | 0 => v ← loadSpecial; modify (set_wb v)
      | 1 => v ← loadIO; modify (set_wb v)
      | 2 => s ← gets sd; storeSpecial s
      | 3 => s ← gets sd; storeIO s
      | _ => mret tt
      end
    else mret tt.

(** ** Writeback *)

(** The instructions that write the register [rA]. *)
Definition writes_back (d : decoded) : bool :=
  (op d =? 0) || (op d =? 1) || (op d =? 5) || (op d =? 6) || isXop d
  || (isYop d && (yop d <? 2)) || isZop d.

Definition writeback : W unit :=
  e ← gets ex;
  if negb (e =? 0) then mret tt
  else
    md ← gets mode;
    _ ← get_reg md;
    d ← gets dec;
    if writes_back d then
      if negb (ra d =? 0) then v ← gets wb; set_gen md (ra d) v else mret tt
    else mret tt.

(** ** One machine cycle: the body of the loop of [simulate()] *)

Definition cycle : W unit := fetch;; decode;; execute;; memory;; writeback.
