(* ===== verification/Isa.v ===== *)
(** * The WUT-4 instruction set: abstract specification

    What the instruction set promises, without stages, latches or bit tricks:
    abstract instructions, their encoding (the rules of asm/asm), the
    architectural state and one total function [isa_step] that fetches, decodes
    and performs an instruction.  Arithmetic is written with [+], [-], [/] and
    [mod]; [Refine] proves that the five-stage cycle of emul/exec.go implements
    it. *)

From S2P Require Import Prelude Machine.

(** ** Abstract instructions *)

Inductive alu3op := Add | Adc | Sub | Sbb | Bic | Bis | Xor.
Inductive alu1op := Not | Neg | Swb | Sxt | Lsr | Lsl | Asr.

Inductive instr :=
| Ldw (ra rb i : Z)
| Ldb (ra rb i : Z)
| Stw (ra rb i : Z)
| Stb (ra rb i : Z)
| Beq (ra rb i : Z)
| Adi (ra rb i : Z)
| Lui (ra i : Z)
| Jlr (ra rb i : Z)
| Alu3 (o : alu3op) (ra rb rc : Z)
| Lsp (ra rb : Z)
| Lio (ra rb : Z)
| Ssp (ra rb : Z)
| Sio (ra rb : Z)
| Yres (n ra rb : Z)
| Alu1 (o : alu1op) (ra : Z)
| Rti | Rtl | Di | Ei | Hlt | Brk | V06 | Die.

#[export] Instance alu3op_eq : EqDecision alu3op.
Proof. solve_decision. Defined.
#[export] Instance alu1op_eq : EqDecision alu1op.
Proof. solve_decision. Defined.
#[export] Instance instr_eq : EqDecision instr.
Proof. solve_decision. Defined.

Definition alu3_code (o : alu3op) : Z :=
  match o with Add => 0 | Adc => 1 | Sub => 2 | Sbb => 3 | Bic => 4 | Bis => 5 | Xor => 6 end.

(** The numbering of the one-operand group that the emulator executes. *)
Definition alu1_code (o : alu1op) : Z :=
  match o with Not => 0 | Neg => 1 | Swb => 2 | Sxt => 3 | Lsr => 4 | Lsl => 5 | Asr => 6 end.

Definition alu3_of (n : Z) : alu3op :=
  match n with 0 => Add | 1 => Adc | 2 => Sub | 3 => Sbb | 4 => Bic | 5 => Bis | _ => Xor end.

Definition alu1_of (n : Z) : alu1op :=
  match n with 0 => Not | 1 => Neg | 2 => Swb | 3 => Sxt | 4 => Lsr | 5 => Lsl | _ => Asr end.

(** ** Encoding: bit-field concatenation, most significant field first *)

Definition enc_rri (o i rb ra : Z) : Z := o * 8192 + i * 64 + rb * 8 + ra.

Definition encode (i : instr) : Z :=
  match i with
  | Ldw ra rb i => enc_rri 0 i rb ra
  | Ldb ra rb i => enc_rri 1 i rb ra
  | Stw ra rb i => enc_rri 2 i rb ra
  | Stb ra rb i => enc_rri 3 i rb ra
  | Beq ra rb i => enc_rri 4 i rb ra
  | Adi ra rb i => enc_rri 5 i rb ra
  | Lui ra i => 6 * 8192 + i * 8 + ra
  | Jlr ra rb i => enc_rri 7 i rb ra
  | Alu3 o ra rb rc => 15 * 4096 + alu3_code o * 512 + rc * 64 + rb * 8 + ra
  | Lsp ra rb => 127 * 512 + 0 * 64 + rb * 8 + ra
  | Lio ra rb => 127 * 512 + 1 * 64 + rb * 8 + ra
  | Ssp ra rb => 127 * 512 + 2 * 64 + rb * 8 + ra
  | Sio ra rb => 127 * 512 + 3 * 64 + rb * 8 + ra
  | Yres n ra rb => 127 * 512 + n * 64 + rb * 8 + ra
  | Alu1 o ra => 1023 * 64 + alu1_code o * 8 + ra
  | Rti => 8191 * 8 + 0
  | Rtl => 8191 * 8 + 1
  | Di => 8191 * 8 + 2
  | Ei => 8191 * 8 + 3
  | Hlt => 8191 * 8 + 4
  | Brk => 8191 * 8 + 5
  | V06 => 8191 * 8 + 6
  | Die => 8191 * 8 + 7
  end.

Definition is_reg (r : Z) : Prop := 0 <= r < 8.

(** Operand ranges of an encodable instruction. *)
Definition wf_instr (i : instr) : Prop :=
  match i with
  | Ldw ra rb i | Ldb ra rb i | Stw ra rb i | Stb ra rb i | Beq ra rb i | Adi ra rb i =>
      is_reg ra /\ is_reg rb /\ 0 <= i < 128
  | Lui ra i => is_reg ra /\ 0 <= i < 1024
  | Jlr ra rb i => is_reg ra /\ is_reg rb /\ 0 <= i < 64
  | Alu3 _ ra rb rc => is_reg ra /\ is_reg rb /\ is_reg rc
  | Lsp ra rb | Lio ra rb | Ssp ra rb | Sio ra rb => is_reg ra /\ is_reg rb
  | Yres n ra rb => 4 <= n <= 6 /\ is_reg ra /\ is_reg rb
  | Alu1 _ ra => is_reg ra
  | _ => True
  end.

(** ** Decoding: a total function on 16-bit words *)

Definition decode_base (w : Z) : instr :=
  let ra := field w 2 0 in
  let rb := field w 5 3 in
  let i7 := field w 12 6 in
  match field w 15 13 with
  | 0 => Ldw ra rb i7
  | 1 => Ldb ra rb i7
  | 2 => Stw ra rb i7
  | 3 => Stb ra rb i7
  | 4 => Beq ra rb i7
  | 5 => Adi ra rb i7
  | 6 => Lui ra (field w 12 3)
  | _ => Jlr ra rb i7
  end.

Definition decode_yop (w : Z) : instr :=
  let ra := field w 2 0 in
  let rb := field w 5 3 in
  match field w 8 6 with
  | 0 => Lsp ra rb
  | 1 => Lio ra rb
  | 2 => Ssp ra rb
  | 3 => Sio ra rb
  | n => Yres n ra rb
  end.

Definition decode_vop (w : Z) : instr :=
  match field w 2 0 with
  | 0 => Rti | 1 => Rtl | 2 => Di | 3 => Ei | 4 => Hlt | 5 => Brk | 6 => V06 | _ => Die
  end.

Definition decode_instr (w : Z) : instr :=
  if w <? 0xF000 then decode_base w
  else if w <? 0xFE00 then Alu3 (alu3_of (field w 11 9)) (field w 2 0) (field w 5 3) (field w 8 6)
  else if w <? 0xFFC0 then decode_yop w
  else if w <? 0xFFF8 then Alu1 (alu1_of (field w 5 3)) (field w 2 0)
  else decode_vop w.

(** ** Architectural state *)

Inductive smode := KMode | UMode.

#[export] Instance smode_eq : EqDecision smode.
Proof. solve_decision. Defined.

Record arch := Arch {
  a_cyc : Z;            (* cycle counter *)
  a_kern : w4reg;       (* kernel registers *)
  a_user : w4reg;       (* user registers *)
  a_pc : Z;
  a_run : bool;
  a_en : bool;          (* interrupts enabled *)
  a_mode : smode;
  a_ex : Z;             (* pending exception, 0 if none *)
  a_hc : Z;             (* hidden carry *)
  a_mem : gmap Z Z      (* physical memory, by word *)
}.

Definition reg_of (s : smode) (a : arch) : w4reg :=
  match s with KMode => a_kern a | UMode => a_user a end.

Definition a_cur (a : arch) : w4reg := reg_of (a_mode a) a.

Definition with_kern (f : w4reg -> w4reg) (a : arch) : arch :=
  Arch (a_cyc a) (f (a_kern a)) (a_user a) (a_pc a) (a_run a) (a_en a) (a_mode a)
    (a_ex a) (a_hc a) (a_mem a).
Definition with_user (f : w4reg -> w4reg) (a : arch) : arch :=
  Arch (a_cyc a) (a_kern a) (f (a_user a)) (a_pc a) (a_run a) (a_en a) (a_mode a)
    (a_ex a) (a_hc a) (a_mem a).
Definition with_reg (s : smode) (f : w4reg -> w4reg) (a : arch) : arch :=
  match s with KMode => with_kern f a | UMode => with_user f a end.
Definition with_cur (f : w4reg -> w4reg) (a : arch) : arch := with_reg (a_mode a) f a.
Definition with_pc (v : Z) (a : arch) : arch :=
  Arch (a_cyc a) (a_kern a) (a_user a) v (a_run a) (a_en a) (a_mode a) (a_ex a) (a_hc a) (a_mem a).
Definition with_run (v : bool) (a : arch) : arch :=
  Arch (a_cyc a) (a_kern a) (a_user a) (a_pc a) v (a_en a) (a_mode a) (a_ex a) (a_hc a) (a_mem a).
Definition with_en (v : bool) (a : arch) : arch :=
  Arch (a_cyc a) (a_kern a) (a_user a) (a_pc a) (a_run a) v (a_mode a) (a_ex a) (a_hc a) (a_mem a).
Definition with_mode (v : smode) (a : arch) : arch :=
  Arch (a_cyc a) (a_kern a) (a_user a) (a_pc a) (a_run a) (a_en a) v (a_ex a) (a_hc a) (a_mem a).
Definition with_ex (v : Z) (a : arch) : arch :=
  Arch (a_cyc a) (a_kern a) (a_user a) (a_pc a) (a_run a) (a_en a) (a_mode a) v (a_hc a) (a_mem a).
Definition with_hc (v : Z) (a : arch) : arch :=
  Arch (a_cyc a) (a_kern a) (a_user a) (a_pc a) (a_run a) (a_en a) (a_mode a) (a_ex a) v (a_mem a).
Definition with_mem (v : gmap Z Z) (a : arch) : arch :=
  Arch (a_cyc a) (a_kern a) (a_user a) (a_pc a) (a_run a) (a_en a) (a_mode a) (a_ex a) (a_hc a) v.

(** Register files: reads are total (0 outside), [r0] is never written by an
    instruction's result. *)
Definition rget (rg : w4reg) (r : Z) : Z := default 0 (gen rg !! Z.to_nat r).
Definition sget (rg : w4reg) (n : Z) : Z := default 0 (spr rg !! Z.to_nat n).
Definition rput (r v : Z) (rg : w4reg) : w4reg := W4reg (<[Z.to_nat r := v]> (gen rg)) (spr rg).
Definition sput (n v : Z) (rg : w4reg) : w4reg := W4reg (gen rg) (<[Z.to_nat n := v]> (spr rg)).

Definition write_ra (r v : Z) (a : arch) : arch :=
  if r =? 0 then a else with_cur (rput r v) a.

(** ** Outcomes *)

(** [Crash] is a panic of the emulator itself, not an exception of the
    emulated machine. *)
Inductive outcome := Next (a : arch) | Crash.

Definition fault (e : Z) (a : arch) : outcome := Next (with_ex e a).

(** ** Address translation *)

Inductive xlation := Phys (p : Z) | PageFault.

(** The low 12 bits of the MMU entry selected by the top four bits of the
    virtual address, followed by the low 12 bits of the address; halved for
    data, which is byte addressed.  An index beyond [PhysMemSize] faults. *)
Definition phys_index (isData : bool) (rg : w4reg) (va : Z) : Z :=
  let entry := sget rg (32 + (if isData then 16 else 0) + va / 4096) in
  let p := (entry mod 4096) * 4096 + va mod 4096 in
  if isData then p / 2 else p.

Definition xlate (isData : bool) (rg : w4reg) (va : Z) : xlation :=
  let p := phys_index isData rg va in
  if PhysMemSize <? p then PageFault else Phys p.

(** ** ALU *)

(** The carry out of the 16-bit additions and subtractions is lost. *)
Definition alu3_val (o : alu3op) (x y c : Z) : Z :=
  match o with
  | Add => (x + y) mod 65536
  | Adc => (x + y + c) mod 65536
  | Sub => (x - y) mod 65536
  | Sbb => (x - y - c) mod 65536
  | Bic => Z.ldiff x y
  | Bis => Z.lor x y
  | Xor => Z.lxor x y
  end.

Definition alu1_val (o : alu1op) (x : Z) : Z :=
  match o with
  | Not => 65535 - x
  | Neg => (- x) mod 65536
  | Swb => (x mod 256) * 256 + x / 256
  | Sxt => if x mod 256 <? 128 then x mod 256 else 65280 + x mod 256
  | Lsr => x / 2
  | Lsl => (2 * x) mod 65536
  | Asr => x / 2 + (if x <? 32768 then 0 else 32768)
  end.

Definition alu1_carry (o : alu1op) (x : Z) : Z :=
  match o with
  | Lsr | Asr => x mod 2
  | Lsl => x / 32768
  | _ => 0
  end.

(** The signed value of a 7-bit immediate. *)
Definition sx7 (i : Z) : Z := if i <? 64 then i else i - 128.

Definition eff_addr (a : arch) (rb i : Z) : Z := (rget (a_cur a) rb + sx7 i) mod 65536.

(** ** Memory instructions *)

Definition load (byte : bool) (ra va : Z) (a : arch) : outcome :=
  match xlate true (a_cur a) va with
  | PageFault => fault ExMemory a
  | Phys p =>
    if negb byte && (va mod 2 =? 1) then fault ExMemory a
    else if p =? PhysMemSize then Crash
    else
      let w := mem_at (a_mem a) p in
      let v := if byte then (if va mod 2 =? 1 then w / 256 else w mod 256) else w in
      Next (write_ra ra v a)
  end.

Definition store (byte : bool) (v va : Z) (a : arch) : outcome :=
  match xlate true (a_cur a) va with
  | PageFault => fault ExMemory a
  | Phys p =>
    if negb byte && (va mod 2 =? 1) then fault ExMemory a
    else if p =? PhysMemSize then Crash
    else
      let w := mem_at (a_mem a) p in
      let w' :=
        if byte then
          if va mod 2 =? 1 then (v mod 256) * 256 + w mod 256 else (w / 256) * 256 + v mod 256
        else v in
      Next (with_mem (<[p := w']> (a_mem a)) a)
  end.

(** ** Special registers *)

Inductive spr_val := SprVal (v : Z) | SprIllegal | SprCrash.

(** Kernel reads and writes of the MMU registers go to the user's when bit 4 of
    [MmuCtl1] is set. *)
Definition user_mmu (a : arch) : bool := Z.testbit (sget (a_kern a) MmuCtl1) 4.

Definition read_spr (n : Z) (a : arch) : spr_val :=
  if n =? 0 then SprVal (a_pc a)
  else if n =? 1 then SprVal (sget (a_cur a) Link)
  else if n =? 6 then SprVal (a_cyc a mod 65536)
  else if n =? 7 then SprVal ((a_cyc a / 65536) mod 65536)
  else match a_mode a with
  | UMode => SprIllegal
  | KMode =>
    if (n =? 2) || (n =? 3) || (n =? 4) || (n =? 5) || (n =? 8) then SprVal (sget (a_kern a) n)
    else if n <? 16 then SprVal 0
    else if n <? 24 then SprVal (rget (a_user a) (n - 16))
    else if n =? 25 then SprVal (sget (a_user a) Link)
    else if n <? 31 then SprCrash
    else if n =? 31 then SprIllegal
    else SprVal (if user_mmu a then sget (a_user a) n else sget (a_kern a) n)
  end.

Definition write_spr (n v : Z) (a : arch) : option arch :=
  match a_mode a with
  | UMode => if n =? Link then Some (with_user (sput Link v) a) else None
  | KMode =>
    if (n =? 2) || (n =? 3) || (n =? 4) || (n =? 5) || (n =? 8) then Some (with_kern (sput n v) a)
    else if (16 <=? n) && (n <? 24) then Some (with_user (rput (n - 16) v) a)
    else if n =? 25 then Some (with_user (sput Link v) a)
    else if 32 <=? n then
      Some (if user_mmu a then with_user (sput n v) a else with_kern (sput n v) a)
    else None
  end.

(** ** Control transfer *)

(** [jlr]: a system call, a jump and link or a jump, by the [rA] field. *)
Definition jlr_step (ra rb i : Z) (a : arch) : outcome :=
  if ra =? 0 then
    if (rb =? 0) && (i mod 2 =? 0) && (32 <=? i) then fault i a else fault ExIllegal a
  else if ra =? 1 then
    Next (with_pc ((rget (a_cur a) rb + i) mod 65536) (with_cur (sput Link (a_pc a)) a))
  else if ra =? 2 then Next (with_pc ((rget (a_cur a) rb + i) mod 65536) a)
  else fault ExIllegal a.

Definition rti_step (a : arch) : outcome :=
  let m := sget (a_kern a) Imr mod 256 in
  let go md := Next (with_mode md (with_kern (sput Irr 0)
                 (with_pc (sget (a_kern a) Irr) (with_en true a)))) in
  if m =? 0 then go KMode else if m =? 1 then go UMode else Crash.

Definition kernel_only (a : arch) (o : outcome) : outcome :=
  match a_mode a with UMode => fault ExIllegal a | KMode => o end.

(** [brk] prints a dump: no architectural effect, but the dump reads the eight
    words around the program counter and the first eight of the data page. *)
Definition dump_ok (a : arch) : bool :=
  let p := phys_index false (a_cur a) (a_pc a) in
  (p <? PhysMemSize) && negb (phys_index true (a_cur a) 0 =? PhysMemSize).

(** ** One instruction *)

Definition exec_instr (i : instr) (a : arch) : outcome :=
  let rA r := rget (a_cur a) r in
  match i with
  | Ldw ra rb i =>
    if (ra =? 0) && (rb =? 0) && (i =? 0) then fault ExIllegal a
    else load false ra (eff_addr a rb i) a
  | Ldb ra rb i => load true ra (eff_addr a rb i) a
  | Stw ra rb i => store false (rA ra) (eff_addr a rb i) a
  | Stb ra rb i => store true (rA ra) (eff_addr a rb i) a
  | Beq ra rb i =>
    Next (if rA rb =? rA ra then with_pc ((a_pc a + sx7 i) mod 65536) a else a)
  | Adi ra rb i => Next (write_ra ra (eff_addr a rb i) a)
  | Lui ra i => Next (write_ra ra (i * 64) a)
  | Jlr ra rb i => jlr_step ra rb i a
  | Alu3 o ra rb rc =>
    let a' := with_hc 0 a in Next (write_ra ra (alu3_val o (rA rc) (rA rb) (a_hc a)) a')
  | Lsp ra rb =>
    match read_spr (rA rb mod 64) a with
    | SprVal v => Next (write_ra ra v a)
    | SprIllegal => fault ExIllegal a
    | SprCrash => Crash
    end
  | Lio ra rb => Next (write_ra ra 0 a)
  | Ssp ra rb =>
    match write_spr (rA rb mod 64) (rA ra) a with
    | Some a' => Next a'
    | None => fault ExIllegal a
    end
  | Sio ra rb => Next a
  | Yres _ _ _ => fault ExIllegal a
  | Alu1 o ra =>
    let a' := with_hc (alu1_carry o (rA ra)) a in Next (write_ra ra (alu1_val o (rA ra)) a')
  | Rti => kernel_only a (rti_step a)
  | Rtl => Next (with_pc (sget (a_cur a) Link) a)
  | Di => kernel_only a (Next (with_en false a))
  | Ei => kernel_only a (Next (with_en true a))
  | Hlt => kernel_only a (Next (with_run false a))
  | Brk => kernel_only a (if dump_ok a then Next a else Crash)
  | V06 => fault ExIllegal a
  | Die => fault ExIllegal a
  end.

(** ** One step: exception entry, fetch, execute *)

(** Entry to the kernel handler of a pending exception. *)
Definition enter (a : arch) : arch :=
  let saved := sput Imr (match a_mode a with KMode => Kern | UMode => User end)
                 (sput Icr (a_ex a) (sput Irr (a_pc a) (a_kern a))) in
  with_ex 0 (with_en false (with_pc (a_ex a) (with_mode KMode (with_kern (fun _ => saved) a)))).

Definition isa_fetch_exec (a : arch) : outcome :=
  match xlate false (a_cur a) (a_pc a) with
  | PageFault => fault ExMemory a
  | Phys p =>
    if p =? PhysMemSize then Crash
    else exec_instr (decode_instr (mem_at (a_mem a) p)) (with_pc ((a_pc a + 1) mod 65536) a)
  end.

(** With an exception pending and interrupts disabled (a double fault) the
    emulator's fetch would fail its assertion. *)
Definition isa_step (a : arch) : outcome :=
  if a_ex a =? 0 then isa_fetch_exec a
  else if a_en a then isa_fetch_exec (enter a)
  else Crash.

(** ** Well-formed states *)

Definition wf_reg (rg : w4reg) : Prop :=
  length (gen rg) = 8%nat /\ length (spr rg) = 64%nat /\
  Forall is_u16 (gen rg) /\ Forall is_u16 (spr rg).

(** Exception codes: none, a hardware fault or a system call. *)
Definition ex_ok (e : Z) : Prop := e = 0 \/ (16 <= e <= 62 /\ e mod 2 = 0).

Record wf_arch (a : arch) : Prop := {
  wf_kern : wf_reg (a_kern a);
  wf_user : wf_reg (a_user a);
  wf_pc : is_u16 (a_pc a);
  wf_ex : ex_ok (a_ex a);
  wf_hc : 0 <= a_hc a <= 1;
  wf_mem : map_Forall (fun _ w => is_u16 w) (a_mem a);
  wf_cyc : 0 <= a_cyc a
}.
