(* ===== verification/Decoder.v ===== *)
(** * Decoding: the instruction set's encoding and the emulator's decoder

    The encoding of [Isa] is a bijection between well-formed instructions and
    16-bit words; the combinational outputs of [decode] (exec.go) classify a
    word exactly as [Isa.decode_instr] does. *)

From S2P Require Import Prelude Machine Exec Isa.

(** ** The emulator's bit-field routine *)

Lemma bits_field w hi lo :
  is_u16 w -> 0 <= lo -> lo <= hi -> hi - lo + 1 <= 16 -> bits w hi lo = field w hi lo.
Proof.
  intros Hw H0 H1 H2. unfold bits.
  rewrite (u16_id (Z.shiftr w lo)) by auto with gosem.
  apply shift_mask_field; assumption.
Qed.

Ltac to_field Hw := rewrite ?bits_field by (first [exact Hw | lia]).

Lemma field_lt w hi lo n :
  lo <= hi + 1 -> 2 ^ (hi - lo + 1) = n -> 0 <= field w hi lo < n.
Proof. intros H <-. apply field_range, H. Qed.

Lemma reg_field w : is_reg (field w 2 0) /\ is_reg (field w 5 3) /\ is_reg (field w 8 6).
Proof. split; [| split]; apply field_lt; (lia || reflexivity). Qed.

(** [field] with constant positions, as a quotient and remainder. *)
Lemma field_eq w hi lo d n :
  2 ^ lo = d -> 2 ^ (hi - lo + 1) = n -> field w hi lo = (w / d) mod n.
Proof. intros <- <-. reflexivity. Qed.

Ltac fields :=
  repeat match goal with
  | |- context [field ?w ?hi ?lo] =>
    let d := eval vm_compute in (2 ^ lo) in
    let n := eval vm_compute in (2 ^ (hi - lo + 1)) in
    rewrite (field_eq w hi lo d n eq_refl eq_refl)
  | H : context [field ?w ?hi ?lo] |- _ =>
    let d := eval vm_compute in (2 ^ lo) in
    let n := eval vm_compute in (2 ^ (hi - lo + 1)) in
    rewrite (field_eq w hi lo d n eq_refl eq_refl) in H
  end.

Ltac field_lia := unfold is_u16, is_reg in *; fields; Z.div_mod_to_equations; lia.

(** ** Classification *)

Section Classes.
Context (w : Z) (Hw : is_u16 w).

Lemma isVop_spec : isVop (decode_fields w) = (0xFFF8 <=? w).
Proof using Hw.
  cbn. to_field Hw. apply eq_bool_prop_intro. split; intros H; apply Is_true_true in H;
    apply Is_true_true; bool_facts; [apply Z.leb_le | apply Z.eqb_eq]; field_lia.
Qed.

Lemma isZop_spec : isZop (decode_fields w) = (0xFFC0 <=? w) && (w <? 0xFFF8).
Proof using Hw.
  change (isZop (decode_fields w))
    with (negb (isVop (decode_fields w)) && (bits w 15 6 =? 0x03FF)).
  rewrite isVop_spec. to_field Hw.
  destruct (Z.leb_spec 0xFFF8 w), (Z.leb_spec 0xFFC0 w), (Z.ltb_spec w 0xFFF8),
    (Z.eqb_spec (field w 15 6) 0x3FF); try reflexivity; exfalso; field_lia.
Qed.

Lemma isYop_spec : isYop (decode_fields w) = (0xFE00 <=? w) && (w <? 0xFFC0).
Proof using Hw.
  change (isYop (decode_fields w))
    with (negb (isVop (decode_fields w)) && negb (isZop (decode_fields w))
          && (bits w 15 9 =? 0x7F)).
  rewrite isVop_spec, isZop_spec. to_field Hw.
  destruct (Z.leb_spec 0xFFF8 w), (Z.leb_spec 0xFFC0 w), (Z.ltb_spec w 0xFFF8),
    (Z.leb_spec 0xFE00 w), (Z.ltb_spec w 0xFFC0),
    (Z.eqb_spec (field w 15 9) 0x7F); try reflexivity; exfalso; field_lia.
Qed.

Lemma isXop_spec : isXop (decode_fields w) = (0xF000 <=? w) && (w <? 0xFE00).
Proof using Hw.
  change (isXop (decode_fields w))
    with (negb (isVop (decode_fields w)) && negb (isZop (decode_fields w))
          && negb (isYop (decode_fields w)) && (bits w 15 12 =? 0xF)).
  rewrite isVop_spec, isZop_spec, isYop_spec. to_field Hw.
  destruct (Z.leb_spec 0xFFF8 w), (Z.leb_spec 0xFFC0 w), (Z.ltb_spec w 0xFFF8),
    (Z.leb_spec 0xFE00 w), (Z.ltb_spec w 0xFFC0), (Z.leb_spec 0xF000 w), (Z.ltb_spec w 0xFE00),
    (Z.eqb_spec (field w 15 12) 0xF); try reflexivity; exfalso; field_lia.
Qed.

Lemma isBase_spec : isBase (decode_fields w) = (w <? 0xF000).
Proof using Hw.
  change (isBase (decode_fields w))
    with (negb (isVop (decode_fields w)) && negb (isZop (decode_fields w))
          && negb (isYop (decode_fields w)) && negb (isXop (decode_fields w))).
  rewrite isVop_spec, isZop_spec, isYop_spec, isXop_spec.
  destruct (Z.leb_spec 0xFFF8 w), (Z.leb_spec 0xFFC0 w), (Z.ltb_spec w 0xFFF8),
    (Z.leb_spec 0xFE00 w), (Z.ltb_spec w 0xFFC0), (Z.leb_spec 0xF000 w), (Z.ltb_spec w 0xFE00),
    (Z.ltb_spec w 0xF000); try reflexivity; exfalso; lia.
Qed.

Lemma op_spec : op (decode_fields w) = field w 15 13.
Proof using Hw. cbn. to_field Hw. reflexivity. Qed.
Lemma xop_spec : xop (decode_fields w) = field w 11 9.
Proof using Hw. cbn. to_field Hw. reflexivity. Qed.
Lemma yop_spec : yop (decode_fields w) = field w 8 6.
Proof using Hw. cbn. to_field Hw. reflexivity. Qed.
Lemma zop_spec : zop (decode_fields w) = field w 5 3.
Proof using Hw. cbn. to_field Hw. reflexivity. Qed.
Lemma vop_spec : vop (decode_fields w) = field w 2 0.
Proof using Hw. cbn. to_field Hw. reflexivity. Qed.
Lemma ra_spec : ra (decode_fields w) = field w 2 0.
Proof using Hw. cbn. to_field Hw. reflexivity. Qed.
Lemma rb_spec : rb (decode_fields w) = field w 5 3.
Proof using Hw. cbn. to_field Hw. reflexivity. Qed.
Lemma rc_spec : rc (decode_fields w) = field w 8 6.
Proof using Hw. cbn. to_field Hw. reflexivity. Qed.

(** ** Immediates *)

Lemma imm7_spec : field w 15 13 < 6 -> imm (decode_fields w) = sx7 (field w 12 6) mod 65536.
Proof using Hw.
  intros Ho. cbn. unfold sxtImm. to_field Hw. rewrite (proj2 (Z.ltb_lt _ _) Ho).
  assert (Hi : 0 <= field w 12 6 < 128) by (apply field_lt; (lia || reflexivity)).
  assert (Hn : field w 12 12 = field w 12 6 / 64) by field_lia.
  unfold sx7. destruct (Z.ltb_spec (field w 12 6) 64).
  - rewrite Hn, Z.div_small by lia. cbn. symmetry. apply Z.mod_small. lia.
  - replace (field w 12 12) with 1 by (rewrite Hn; Z.div_mod_to_equations; lia). cbn.
    change 0xFF80 with (Z.shiftl 511 7). rewrite lor_add_shiftl by lia.
    Z.div_mod_to_equations; lia.
Qed.

Lemma imm10_spec : field w 15 13 = 6 -> imm (decode_fields w) = field w 12 3 * 64.
Proof using Hw.
  intros Ho. cbn. unfold sxtImm. to_field Hw. rewrite Ho. cbn.
  rewrite Z.shiftl_mul_pow2 by lia. apply u16_id.
  assert (0 <= field w 12 3 < 1024) by (apply field_lt; (lia || reflexivity)).
  unfold is_u16. lia.
Qed.

Lemma imm6_spec : field w 15 13 = 7 -> w < 0xF000 -> imm (decode_fields w) = field w 12 6.
Proof using Hw.
  intros Ho Hb. cbn. unfold sxtImm. to_field Hw. rewrite Ho. cbn.
  replace (field w 12 12) with 0 by field_lia. reflexivity.
Qed.

End Classes.

(** ** The encoding is a bijection *)

(** Case analysis on a bit field of at most three bits. *)
Lemma field8_cases x : 0 <= x < 8 ->
  x = 0 \/ x = 1 \/ x = 2 \/ x = 3 \/ x = 4 \/ x = 5 \/ x = 6 \/ x = 7.
Proof. lia. Qed.

Ltac field8 w hi lo :=
  let H := fresh "F" in
  assert (H : 0 <= field w hi lo < 8) by (apply field_lt; (lia || reflexivity));
  apply field8_cases in H;
  destruct H as [H | [H | [H | [H | [H | [H | [H | H]]]]]]].

Lemma encode_decode_word w : is_u16 w -> encode (decode_instr w) = w.
Proof.
  intros Hw. unfold decode_instr.
  destruct (Z.ltb_spec w 0xF000).
  { unfold decode_base. field8 w 15 13; rewrite F; unfold encode, enc_rri; field_lia. }
  destruct (Z.ltb_spec w 0xFE00).
  { field8 w 11 9; rewrite F; cbn [encode alu3_of alu3_code]; field_lia. }
  destruct (Z.ltb_spec w 0xFFC0).
  { unfold decode_yop. field8 w 8 6; rewrite F; cbn [encode]; field_lia. }
  destruct (Z.ltb_spec w 0xFFF8).
  { field8 w 5 3; rewrite F; cbn [encode alu1_of alu1_code]; field_lia. }
  unfold decode_vop. field8 w 2 0; rewrite F; cbn [encode]; field_lia.
Qed.

Lemma decode_instr_wf w : is_u16 w -> wf_instr (decode_instr w).
Proof.
  intros Hw. pose proof (reg_field w) as (Ra & Rb & Rc). unfold decode_instr.
  destruct (Z.ltb_spec w 0xF000).
  { assert (0 <= field w 12 6 < 128) by (apply field_lt; (lia || reflexivity)).
    assert (0 <= field w 12 3 < 1024) by (apply field_lt; (lia || reflexivity)).
    unfold decode_base. field8 w 15 13; rewrite F; cbn [wf_instr]; repeat split;
      unfold is_reg in *; try lia. field_lia. }
  destruct (Z.ltb_spec w 0xFE00); [repeat split; unfold is_reg in *; lia |].
  destruct (Z.ltb_spec w 0xFFC0).
  { unfold decode_yop. field8 w 8 6; rewrite F; cbn [wf_instr]; repeat split;
      unfold is_reg in *; try lia. exfalso. field_lia. }
  destruct (Z.ltb_spec w 0xFFF8); [exact Ra |].
  unfold decode_vop. field8 w 2 0; rewrite F; exact I.
Qed.

(** The fields of a concatenation. *)
Section Concat.
Context (ra rb : Z) (Ha : is_reg ra) (Hb : is_reg rb).

Lemma concat_rri o i : 0 <= o < 8 -> 0 <= i < 128 ->
  let w := enc_rri o i rb ra in
  0 <= w < 65536 /\ field w 15 13 = o /\ field w 12 6 = i /\ field w 5 3 = rb /\ field w 2 0 = ra.
Proof using Ha Hb. intros Ho Hi. unfold enc_rri. cbn zeta. repeat split; field_lia. Qed.

Lemma concat_rrr h rc : 0 <= h < 128 -> is_reg rc ->
  let w := h * 512 + rc * 64 + rb * 8 + ra in
  0 <= w < 65536 /\ field w 11 9 = h mod 8 /\ field w 8 6 = rc /\ field w 5 3 = rb /\
  field w 2 0 = ra.
Proof using Ha Hb. intros Hh Hc. cbn zeta. repeat split; field_lia. Qed.

End Concat.

Lemma decode_rri o i rb ra :
  0 <= o < 8 -> 0 <= i < 128 -> (o = 7 -> i < 64) -> is_reg ra -> is_reg rb -> o <> 6 ->
  decode_instr (enc_rri o i rb ra) =
    match o with
    | 0 => Ldw ra rb i | 1 => Ldb ra rb i | 2 => Stw ra rb i | 3 => Stb ra rb i
    | 4 => Beq ra rb i | 5 => Adi ra rb i | _ => Jlr ra rb i
    end.
Proof.
  intros Ho Hi Hj Ha Hb Hn.
  destruct (concat_rri ra rb Ha Hb o i Ho Hi) as (Hr & F1 & F2 & F3 & F4).
  unfold decode_instr. rewrite (proj2 (Z.ltb_lt _ 0xF000)).
  - unfold decode_base. rewrite F1, F2, F3, F4.
    apply field8_cases in Ho. destruct Ho as [-> | [-> | [-> | [-> | [-> | [-> | [-> | ->]]]]]]];
      (reflexivity || congruence).
  - unfold enc_rri, is_reg in *. destruct (Z.eq_dec o 7); [specialize (Hj e) |]; lia.
Qed.

Lemma decode_rrr o ra rb rc :
  is_reg ra -> is_reg rb -> is_reg rc ->
  decode_instr (encode (Alu3 o ra rb rc)) = Alu3 o ra rb rc.
Proof.
  intros Ha Hb Hc. cbn [encode].
  assert (Ho : 0 <= alu3_code o <= 6) by (destruct o; cbn; lia).
  destruct (concat_rrr ra rb Ha Hb (120 + alu3_code o) rc ltac:(lia) Hc) as (Hr & F1 & F2 & F3 & F4).
  replace (15 * 4096 + alu3_code o * 512) with ((120 + alu3_code o) * 512) by lia.
  unfold decode_instr, is_reg in *.
  rewrite (proj2 (Z.ltb_ge _ 0xF000)), (proj2 (Z.ltb_lt _ 0xFE00)), F1, F2, F3, F4 by lia.
  f_equal. destruct o; reflexivity.
Qed.

Lemma decode_rr n ra rb :
  0 <= n <= 6 -> is_reg ra -> is_reg rb ->
  decode_instr (127 * 512 + n * 64 + rb * 8 + ra) =
    match n with 0 => Lsp ra rb | 1 => Lio ra rb | 2 => Ssp ra rb | 3 => Sio ra rb
    | _ => Yres n ra rb end.
Proof.
  intros Hn Ha Hb.
  destruct (concat_rrr ra rb Ha Hb 127 n ltac:(lia) ltac:(unfold is_reg; lia))
    as (Hr & F1 & F2 & F3 & F4).
  unfold decode_instr, is_reg in *.
  rewrite (proj2 (Z.ltb_ge _ 0xF000)), (proj2 (Z.ltb_ge _ 0xFE00)), (proj2 (Z.ltb_lt _ 0xFFC0)) by lia.
  unfold decode_yop. rewrite F2, F3, F4.
  destruct (field8_cases n ltac:(lia)) as [-> | [-> | [-> | [-> | [-> | [-> | [-> | ->]]]]]]];
    reflexivity.
Qed.

Lemma decode_r o ra : is_reg ra -> decode_instr (encode (Alu1 o ra)) = Alu1 o ra.
Proof.
  intros Ha. cbn [encode].
  assert (Ho : 0 <= alu1_code o <= 6) by (destruct o; cbn; lia).
  unfold decode_instr.
  rewrite (proj2 (Z.ltb_ge _ 0xF000)), (proj2 (Z.ltb_ge _ 0xFE00)), (proj2 (Z.ltb_ge _ 0xFFC0)),
    (proj2 (Z.ltb_lt _ 0xFFF8)) by (unfold is_reg in *; lia).
  replace (field _ 5 3) with (alu1_code o) by field_lia.
  replace (field _ 2 0) with ra by field_lia.
  f_equal. destruct o; reflexivity.
Qed.

Lemma decode_lui ra i : is_reg ra -> 0 <= i < 1024 -> decode_instr (encode (Lui ra i)) = Lui ra i.
Proof.
  intros Ha Hi. cbn [encode]. unfold decode_instr.
  rewrite (proj2 (Z.ltb_lt _ 0xF000)) by (unfold is_reg in *; lia).
  unfold decode_base.
  replace (field _ 15 13) with 6 by field_lia.
  replace (field _ 12 3) with i by field_lia.
  replace (field _ 2 0) with ra by field_lia. reflexivity.
Qed.

Lemma decode_encode_instr i : wf_instr i -> decode_instr (encode i) = i.
Proof.
  destruct i; cbn [wf_instr]; intros Hi; repeat match goal with H : _ /\ _ |- _ => destruct H end;
    try (first [apply decode_rrr | apply decode_r | apply decode_lui]; (assumption || lia));
    try reflexivity;
    cbn [encode];
    try (rewrite decode_rri by (assumption || lia); reflexivity);
    rewrite decode_rr by (assumption || lia); try reflexivity.
  assert (Hn : n = 4 \/ n = 5 \/ n = 6) by lia. destruct Hn as [-> | [-> | ->]]; reflexivity.
Qed.

Lemma encode_u16 i : wf_instr i -> is_u16 (encode i).
Proof.
  destruct i as [| | | | | | | |o ? ? ?| | | | | |o ?| | | | | | | |]; cbn [wf_instr encode];
    unfold enc_rri, is_reg, is_u16; try (destruct o; cbn [alu3_code alu1_code]); lia.
Qed.

(** ** The decoded fields determine the instruction word *)

Lemma word_split w : is_u16 w ->
  w = field w 15 13 * 8192 + field w 12 12 * 4096 + field w 11 9 * 512 + field w 8 6 * 64 +
      field w 5 3 * 8 + field w 2 0.
Proof. intros Hw. fields. zdivmod. Qed.

(** Bit 12 is visible in the immediate, or in the class of the instruction. *)
Lemma bit12_spec w : is_u16 w ->
  field w 12 12 = if field w 15 13 =? 7 then (if isBase (decode_fields w) then 0 else 1)
                  else if field w 15 13 =? 6 then imm (decode_fields w) / 32768
                  else if imm (decode_fields w) <? 32768 then 0 else 1.
Proof.
  intros Hw. assert (Ho : 0 <= field w 15 13 < 8) by (apply field_lt; (lia || reflexivity)).
  destruct (Z.eqb_spec (field w 15 13) 7) as [E7 | E7].
  - rewrite isBase_spec by exact Hw. destruct (Z.ltb_spec w 0xF000); fields; zdivmod.
  - destruct (Z.eqb_spec (field w 15 13) 6) as [E6 | E6].
    + rewrite imm10_spec by assumption. fields; zdivmod.
    + rewrite imm7_spec by (assumption || lia). unfold sx7.
      destruct (Z.ltb_spec (field w 12 6) 64);
        match goal with |- context [?x <? 32768] => destruct (Z.ltb_spec x 32768) end; fields; zdivmod.
Qed.

Lemma decode_fields_inj w w' :
  is_u16 w -> is_u16 w' -> decode_fields w = decode_fields w' -> w = w'.
Proof.
  intros Hw Hw' E. rewrite (word_split w Hw), (word_split w' Hw'), !bit12_spec by assumption.
  rewrite <- !op_spec, <- !xop_spec, <- !yop_spec, <- !zop_spec, <- !vop_spec by assumption.
  rewrite E. reflexivity.
Qed.

(** The number of class flags that are set. *)
Definition class_count (d : decoded) : Z :=
  Z.b2z (isBase d) + Z.b2z (isXop d) + Z.b2z (isYop d) + Z.b2z (isZop d) + Z.b2z (isVop d).

Lemma one_class w : is_u16 w -> class_count (decode_fields w) = 1.
Proof.
  intros Hw. unfold class_count.
  rewrite isBase_spec, isXop_spec, isYop_spec, isZop_spec, isVop_spec by exact Hw.
  destruct (Z.ltb_spec w 0xF000), (Z.leb_spec 0xF000 w), (Z.ltb_spec w 0xFE00), (Z.leb_spec 0xFE00 w),
    (Z.ltb_spec w 0xFFC0), (Z.leb_spec 0xFFC0 w), (Z.ltb_spec w 0xFFF8), (Z.leb_spec 0xFFF8 w);
    cbn; lia.
Qed.

(** ** What [decode] extracts from an assembled instruction *)

Definition rri_as (o a b : Z) (i : Z) (d : decoded) : Prop :=
  isBase d = true /\ op d = o /\ ra d = a /\ rb d = b /\ imm d = i.

Definition decoded_as (i : instr) (d : decoded) : Prop :=
  match i with
  | Ldw a b k => rri_as 0 a b (sx7 k mod 65536) d
  | Ldb a b k => rri_as 1 a b (sx7 k mod 65536) d
  | Stw a b k => rri_as 2 a b (sx7 k mod 65536) d
  | Stb a b k => rri_as 3 a b (sx7 k mod 65536) d
  | Beq a b k => rri_as 4 a b (sx7 k mod 65536) d
  | Adi a b k => rri_as 5 a b (sx7 k mod 65536) d
  | Lui a k => isBase d = true /\ op d = 6 /\ ra d = a /\ imm d = k * 64
  | Jlr a b k => rri_as 7 a b k d
  | Alu3 o a b c => isXop d = true /\ xop d = alu3_code o /\ ra d = a /\ rb d = b /\ rc d = c
  | Lsp a b => isYop d = true /\ yop d = 0 /\ ra d = a /\ rb d = b
  | Lio a b => isYop d = true /\ yop d = 1 /\ ra d = a /\ rb d = b
  | Ssp a b => isYop d = true /\ yop d = 2 /\ ra d = a /\ rb d = b
  | Sio a b => isYop d = true /\ yop d = 3 /\ ra d = a /\ rb d = b
  | Yres n a b => isYop d = true /\ yop d = n /\ ra d = a /\ rb d = b
  | Alu1 o a => isZop d = true /\ zop d = alu1_code o /\ ra d = a
  | Rti => isVop d = true /\ vop d = 0
  | Rtl => isVop d = true /\ vop d = 1
  | Di => isVop d = true /\ vop d = 2
  | Ei => isVop d = true /\ vop d = 3
  | Hlt => isVop d = true /\ vop d = 4
  | Brk => isVop d = true /\ vop d = 5
  | V06 => isVop d = true /\ vop d = 6
  | Die => isVop d = true /\ vop d = 7
  end.

Lemma rri_encoded o k rb ra :
  0 <= o < 6 -> is_reg ra -> is_reg rb -> 0 <= k < 128 ->
  rri_as o ra rb (sx7 k mod 65536) (decode_fields (enc_rri o k rb ra)).
Proof.
  intros Ho Ha Hb Hk. destruct (concat_rri ra rb Ha Hb o k ltac:(lia) Hk) as (Hw & Fo & Fi & Fb & Fa).
  unfold rri_as. rewrite isBase_spec, op_spec, ra_spec, rb_spec, imm7_spec, Fo, Fi, Fb, Fa
    by (assumption || (rewrite Fo; lia)).
  repeat split. apply Z.ltb_lt. unfold enc_rri, is_reg in *. lia.
Qed.

Lemma yop_encoded n rb ra :
  0 <= n < 7 -> is_reg ra -> is_reg rb ->
  let d := decode_fields (127 * 512 + n * 64 + rb * 8 + ra) in
  isYop d = true /\ yop d = n /\ Machine.ra d = ra /\ Machine.rb d = rb.
Proof.
  intros Hn Ha Hb. cbv zeta. unfold is_reg in *.
  rewrite isYop_spec, yop_spec, ra_spec, rb_spec by (unfold is_u16; lia).
  rewrite (proj2 (Z.leb_le _ _)), (proj2 (Z.ltb_lt _ _)) by lia. repeat split; field_lia.
Qed.

Lemma decode_fields_encode i : wf_instr i -> decoded_as i (decode_fields (encode i)).
Proof.
  intros Hi. pose proof (encode_u16 i Hi) as Hw.
  destruct i as [| | | | | |a k|a b k|o a b c| | | | | |o a| | | | | | | |];
    cbn [wf_instr] in Hi; cbn [decoded_as];
    lazymatch goal with
    | |- rri_as 7 _ _ _ _ => idtac
    | |- rri_as _ _ _ _ _ => apply rri_encoded; (lia || tauto)
    | |- isYop _ = true /\ _ => apply yop_encoded; (lia || tauto)
    | |- isVop _ = true /\ _ => split; reflexivity
    | _ => idtac
    end; cbn [encode] in *; unfold is_reg, enc_rri in *.
  - rewrite isBase_spec, op_spec, ra_spec, (proj2 (Z.ltb_lt _ _)) by (assumption || lia).
    rewrite imm10_spec by (assumption || field_lia). repeat split; field_lia.
  - unfold rri_as. rewrite isBase_spec, op_spec, ra_spec, rb_spec, (proj2 (Z.ltb_lt _ _)) by (assumption || lia).
    rewrite imm6_spec by (assumption || field_lia). repeat split; field_lia.
  - rewrite isXop_spec, xop_spec, ra_spec, rb_spec, rc_spec by assumption.
    assert (0 <= alu3_code o < 7) by (destruct o; cbn; lia).
    rewrite (proj2 (Z.leb_le _ _)), (proj2 (Z.ltb_lt _ _)) by lia. repeat split; field_lia.
  - rewrite isZop_spec, zop_spec, ra_spec by assumption.
    assert (0 <= alu1_code o < 7) by (destruct o; cbn; lia).
    rewrite (proj2 (Z.leb_le _ _)), (proj2 (Z.ltb_lt _ _)) by lia. repeat split; field_lia.
Qed.
