(* ===== verification/Refine.v ===== *)
(** * Refinement: the five-stage cycle implements the instruction set

    [Rel a m] relates the architectural state [a] of [Isa] to the machine record
    [m] of the emulator; the latches ([alu], [sd], [wb], [ir], [dec]) are not
    part of it.  [cycle_sim] shows that one run of the stages fetch, decode,
    execute, memory and writeback of emul/exec.go from a related record ends in
    a record related to [isa_step a], or panics exactly when [isa_step a] is
    [Crash]. *)

From Stdlib Require Import Btauto.
From S2P Require Import Prelude Machine Exec Isa Decoder.

(** ** The simulation relation *)

Definition mode_code (s : smode) : Z := match s with KMode => Kern | UMode => User end.

Record Rel (a : arch) (m : w4machine) : Prop := {
  r_cyc : cyc m = a_cyc a;
  r_reg : reg m = [a_kern a; a_user a];
  r_pc : pc m = a_pc a;
  r_run : run m = a_run a;
  r_en : en m = a_en a;
  r_mode : mode m = mode_code (a_mode a);
  r_ex : ex m = a_ex a;
  r_hc : hc m = a_hc a;
  r_mem : physmem m = a_mem a
}.

Definition wf_regs (a : arch) : Prop := wf_reg (a_kern a) /\ wf_reg (a_user a).

Lemma wf_arch_regs a : wf_arch a -> wf_regs a.
Proof. intros [Hk Hu _ _ _ _ _]. split; assumption. Qed.

Lemma wf_reg_of s a : wf_regs a -> wf_reg (reg_of s a).
Proof. intros [Hk Hu]. destruct s; assumption. Qed.

Create HintDb rel.

(** Assignments to latches do not change the related state; assignments to
    architectural fields change it accordingly. *)
Section RelUpdates.
Context (a : arch) (m : w4machine) (HR : Rel a m).

Lemma Rel_alu v : Rel a (set_alu v m). Proof using HR. destruct HR; constructor; assumption. Qed.
Lemma Rel_sd v : Rel a (set_sd v m). Proof using HR. destruct HR; constructor; assumption. Qed.
Lemma Rel_wb v : Rel a (set_wb v m). Proof using HR. destruct HR; constructor; assumption. Qed.
Lemma Rel_ir v : Rel a (set_ir v m). Proof using HR. destruct HR; constructor; assumption. Qed.
Lemma Rel_dec v : Rel a (set_dec v m). Proof using HR. destruct HR; constructor; assumption. Qed.

Lemma Rel_pc v : Rel (with_pc v a) (set_pc v m).
Proof using HR. destruct HR; constructor; (assumption || reflexivity). Qed.
Lemma Rel_run v : Rel (with_run v a) (set_run v m).
Proof using HR. destruct HR; constructor; (assumption || reflexivity). Qed.
Lemma Rel_en v : Rel (with_en v a) (set_en v m).
Proof using HR. destruct HR; constructor; (assumption || reflexivity). Qed.
Lemma Rel_ex v : Rel (with_ex v a) (set_ex v m).
Proof using HR. destruct HR; constructor; (assumption || reflexivity). Qed.
Lemma Rel_hc v : Rel (with_hc v a) (set_hc v m).
Proof using HR. destruct HR; constructor; (assumption || reflexivity). Qed.
Lemma Rel_mem v : Rel (with_mem v a) (set_physmem v m).
Proof using HR. destruct HR; constructor; (assumption || reflexivity). Qed.
Lemma Rel_mode s : Rel (with_mode s a) (set_mode (mode_code s) m).
Proof using HR. destruct HR; constructor; (assumption || reflexivity). Qed.

Lemma Rel_reg s rg :
  Rel (with_reg s (fun _ => rg) a) (set_reg (<[Z.to_nat (mode_code s) := rg]> (reg m)) m).
Proof using HR.
  destruct HR as [? Hr ? ? ? ? ? ? ?]. destruct s; constructor; try assumption;
    cbn; rewrite Hr; reflexivity.
Qed.

End RelUpdates.

#[export] Hint Resolve Rel_alu Rel_sd Rel_wb Rel_ir Rel_dec Rel_pc Rel_run Rel_en Rel_ex
  Rel_hc Rel_mem Rel_mode : rel.

(** ** Register reads *)

Lemma gen_lookup rg r : wf_reg rg -> is_reg r -> gen rg !! Z.to_nat r = Some (rget rg r).
Proof.
  intros (Hl & _) Hr. unfold rget, is_reg in *.
  destruct (lookup_is_Some_len (gen rg) (Z.to_nat r)) as [x Hx]; [lia | rewrite Hx; reflexivity].
Qed.

Lemma spr_lookup rg n : wf_reg rg -> 0 <= n < 64 -> spr rg !! Z.to_nat n = Some (sget rg n).
Proof.
  intros (_ & Hl & _) Hn. unfold sget.
  destruct (lookup_is_Some_len (spr rg) (Z.to_nat n)) as [x Hx]; [lia | rewrite Hx; reflexivity].
Qed.

Lemma rget_u16 rg r : wf_reg rg -> is_u16 (rget rg r).
Proof.
  intros (_ & _ & Hf & _). unfold rget. destruct (gen rg !! Z.to_nat r) eqn:Hx; cbn.
  - eapply Forall_lookup_some; eauto.
  - unfold is_u16. lia.
Qed.

Lemma sget_u16 rg n : wf_reg rg -> is_u16 (sget rg n).
Proof.
  intros (_ & _ & _ & Hf). unfold sget. destruct (spr rg !! Z.to_nat n) eqn:Hx; cbn.
  - eapply Forall_lookup_some; eauto.
  - unfold is_u16. lia.
Qed.

Lemma mem_at_u16 mem p : map_Forall (fun _ w => is_u16 w) mem -> is_u16 (mem_at mem p).
Proof.
  intros Hm. unfold mem_at. destruct (mem !! p) as [w |] eqn:Hx; cbn.
  - exact (Hm p w Hx).
  - unfold is_u16. lia.
Qed.

Lemma wf_rput r v rg : wf_reg rg -> is_u16 v -> wf_reg (rput r v rg).
Proof.
  intros (H1 & H2 & H3 & H4) Hv. split; [| split; [| split]]; cbn; rewrite ?length_insert;
    auto using Forall_insert.
Qed.

Lemma wf_sput n v rg : wf_reg rg -> is_u16 v -> wf_reg (sput n v rg).
Proof.
  intros (H1 & H2 & H3 & H4) Hv. split; [| split; [| split]]; cbn; rewrite ?length_insert;
    auto using Forall_insert.
Qed.

Lemma wf_regs_with s f a :
  wf_regs a -> (forall rg, wf_reg rg -> wf_reg (f rg)) -> wf_regs (with_reg s f a).
Proof. intros [Hk Hu] Hf. destruct s; split; cbn; auto. Qed.

Lemma ex_with_reg s f a : a_ex (with_reg s f a) = a_ex a.
Proof. destruct s; reflexivity. Qed.

Lemma gen_cur_sput s n v a : gen (a_cur (with_reg s (sput n v) a)) = gen (a_cur a).
Proof. unfold a_cur, with_reg. destruct s; cbn; destruct (a_mode a); reflexivity. Qed.

Lemma write_spr_wf n v a a' :
  wf_regs a -> is_u16 v -> write_spr n v a = Some a' -> wf_regs a'.
Proof.
  intros [Hk Hu] Hv. unfold write_spr. destruct (a_mode a).
  - repeat case_if; intros H; inversion H; split; cbn; auto using wf_sput, wf_rput.
  - case_if; intros H; inversion H; split; cbn; auto using wf_sput.
Qed.

Lemma write_spr_ex n v a a' : write_spr n v a = Some a' -> a_ex a' = a_ex a.
Proof. unfold write_spr. destruct (a_mode a); repeat case_if; intros H; inversion H; reflexivity. Qed.

(** ** Rules for the primitives on related states *)

Lemma wpe_mapM_const {A B S} E (f : A -> M S B) (l : list A) Q (s : S) :
  (forall x, x ∈ l -> exists v, f x s = Ret (v, s)) -> (forall vs, Q vs s) -> wpe E (mapM f l) Q s.
Proof.
  revert Q. induction l as [| x l IH]; intros Q Hf HQ; [apply wpe_ret, HQ |].
  cbn [mapM]. apply wpe_bind. destruct (Hf x) as [v Hv]; [left |].
  unfold wpe at 1. rewrite Hv. apply wpe_bind, IH; [intros y Hy; apply Hf; right; exact Hy |].
  intros vs. apply wpe_ret, HQ.
Qed.

Section Rules.
Context (E : Prop) (a : arch) (m : w4machine) (HR : Rel a m) (Hwf : wf_regs a).

Lemma wpe_get_reg s Q : Q (reg_of s a) m -> wpe E (get_reg (mode_code s)) Q m.
Proof using HR.
  intros HQ. apply wpe_bind, wpe_gets. rewrite (r_reg _ _ HR). destruct s; exact HQ.
Qed.

Lemma wpe_get_gen s r Q :
  is_reg r -> Q (rget (reg_of s a) r) m -> wpe E (get_gen (mode_code s) r) Q m.
Proof using HR Hwf.
  intros Hr HQ. apply wpe_bind, wpe_get_reg. rewrite gen_lookup by auto using wf_reg_of. exact HQ.
Qed.

Lemma wpe_get_spr s n Q :
  0 <= n < 64 -> Q (sget (reg_of s a) n) m -> wpe E (get_spr (mode_code s) n) Q m.
Proof using HR Hwf.
  intros Hr HQ. apply wpe_bind, wpe_get_reg. rewrite spr_lookup by auto using wf_reg_of. exact HQ.
Qed.

Lemma wpe_set_gen s r v Q :
  is_reg r -> (forall l, Rel (with_reg s (rput r v) a) (set_reg l m) -> Q tt (set_reg l m)) ->
  wpe E (set_gen (mode_code s) r v) Q m.
Proof using HR Hwf.
  intros Hr HQ. apply wpe_bind, wpe_get_reg, wpe_bind.
  rewrite gen_lookup by auto using wf_reg_of. apply wpe_ret, wpe_modify, HQ.
  pose proof (Rel_reg a m HR s (rput r v (reg_of s a))) as H. destruct s; exact H.
Qed.

Lemma wpe_set_spr s n v Q :
  0 <= n < 64 -> (forall l, Rel (with_reg s (sput n v) a) (set_reg l m) -> Q tt (set_reg l m)) ->
  wpe E (set_spr (mode_code s) n v) Q m.
Proof using HR Hwf.
  intros Hr HQ. apply wpe_bind, wpe_get_reg, wpe_bind.
  rewrite spr_lookup by auto using wf_reg_of. apply wpe_ret, wpe_modify, HQ.
  pose proof (Rel_reg a m HR s (sput n v (reg_of s a))) as H. destruct s; exact H.
Qed.

Lemma wpe_cur_gen r Q : is_reg r -> Q (rget (a_cur a) r) m -> wpe E (cur_gen r) Q m.
Proof using HR Hwf.
  intros Hr HQ. apply wpe_bind, wpe_gets. rewrite (r_mode _ _ HR). apply wpe_get_gen; assumption.
Qed.

(** The bit operations of [translate] compute [phys_index]. *)
Lemma wpe_translate d va Q :
  is_u16 va ->
  Q (match xlate d (a_cur a) va with PageFault => ExMemory | Phys _ => ExNone end,
     phys_index d (a_cur a) va) m ->
  wpe E (translate d va) Q m.
Proof using HR Hwf.
  intros Hva HQ. unfold translate. apply wpe_bind, wpe_gets.
  rewrite (r_mode _ _ HR). apply wpe_bind.
  assert (Hq : 0 <= va / 4096 < 16) by zdivmod.
  rewrite (Z.shiftr_div_pow2 va 12) by lia.
  change (2 ^ 12) with 4096.
  apply wpe_get_spr; [destruct d; lia |].
  set (e := sget (reg_of (a_mode a) a) _).
  assert (Hp : (if d then Z.shiftr (Z.lor (u32 (Z.shiftl (Z.land e 0xFFF) 12)) (Z.land va 0xFFF)) 1
                else Z.lor (u32 (Z.shiftl (Z.land e 0xFFF) 12)) (Z.land va 0xFFF))
               = phys_index d (a_cur a) va).
  { change 0xFFF with (Z.shiftl 1 12 - 1). rewrite !land_mask by lia.
    change (2 ^ 12) with 4096.
    assert (0 <= e mod 4096 < 4096) by (apply Z.mod_pos_bound; lia).
    assert (0 <= va mod 4096 < 4096) by (apply Z.mod_pos_bound; lia).
    replace (u32 (Z.shiftl (e mod 4096) 12)) with (Z.shiftl (e mod 4096) 12).
    2: { symmetry. apply Z.mod_small. rewrite Z.shiftl_mul_pow2 by lia. lia. }
    rewrite lor_shiftl_add by lia. rewrite Z.shiftr_div_pow2 by lia.
    unfold phys_index. unfold e. destruct d; cbn [reg_of]; [| f_equal; f_equal; f_equal; f_equal; lia].
    reflexivity. }
  revert HQ. unfold xlate. rewrite Hp. intros HQ.
  destruct (PhysMemSize <? phys_index d (a_cur a) va); exact HQ.
Qed.

Lemma wpe_read_phys p Q :
  0 <= p -> (p < PhysMemSize -> Q (mem_at (a_mem a) p) m) -> (PhysMemSize <= p -> E) ->
  wpe E (read_phys p) Q m.
Proof using HR.
  intros H0 HQ HE. unfold read_phys, in_phys.
  rewrite (proj2 (Z.leb_le 0 p) H0). cbn [andb].
  destruct (Z.ltb_spec p PhysMemSize) as [Hlt | Hge].
  - apply wpe_gets. rewrite (r_mem _ _ HR). apply HQ, Hlt.
  - apply wpe_panic, HE, Hge.
Qed.

Lemma wpe_write_phys p v Q :
  0 <= p ->
  (p < PhysMemSize -> forall mem, Rel (with_mem (<[p := v]> (a_mem a)) a) (set_physmem mem m) ->
   Q tt (set_physmem mem m)) ->
  (PhysMemSize <= p -> E) ->
  wpe E (write_phys p v) Q m.
Proof using HR.
  intros H0 HQ HE. unfold write_phys, in_phys.
  rewrite (proj2 (Z.leb_le 0 p) H0). cbn [andb].
  destruct (Z.ltb_spec p PhysMemSize) as [Hlt | Hge].
  - apply wpe_modify, HQ; [exact Hlt |]. rewrite (r_mem _ _ HR). apply Rel_mem, HR.
  - apply wpe_panic, HE, Hge.
Qed.

End Rules.

(** ** Outcomes of a computation *)

Definition post (o : outcome) (_ : unit) (m : w4machine) : Prop :=
  match o with Next a => Rel a m | Crash => False end.

Definition sim (c : W unit) (m : w4machine) (o : outcome) : Prop := wpe (o = Crash) c (post o) m.

(** Every stage is skipped while an exception is pending. *)
Section Skip.
Context (E : Prop) (m : w4machine) (Q : unit -> w4machine -> Prop) (He : ex m <> 0) (HQ : Q tt m).

Lemma skip_stage (c : W unit) :
  wpe E (e ← gets ex; if negb (e =? 0) then mret tt else c) Q m.
Proof using He HQ.
  apply wpe_bind, wpe_gets. rewrite (proj2 (Z.eqb_neq _ _) He). exact HQ.
Qed.

Lemma memory_skip : wpe E memory Q m.
Proof using He HQ. apply skip_stage. Qed.
Lemma writeback_skip : wpe E writeback Q m.
Proof using He HQ. apply skip_stage. Qed.

End Skip.

Lemma tail_skip E m Q : ex m <> 0 -> Q tt m -> wpe E (memory;; writeback) Q m.
Proof.
  intros He HQ. apply wpe_bind, memory_skip; [exact He |]. apply writeback_skip; assumption.
Qed.

Lemma stages_skip E m Q : ex m <> 0 -> Q tt m -> wpe E (decode;; execute;; memory;; writeback) Q m.
Proof.
  intros He HQ. apply wpe_bind, skip_stage; [exact He |]. apply wpe_bind, skip_stage; [exact He |].
  apply tail_skip; assumption.
Qed.

(** A stage runs when no exception is pending. *)
Lemma run_stage E a m Q (c : W unit) :
  Rel a m -> a_ex a = 0 -> wpe E c Q m ->
  wpe E (e ← gets ex; if negb (e =? 0) then mret tt else c) Q m.
Proof. intros HR Hex H. apply wpe_bind, wpe_gets. rewrite (r_ex _ _ HR), Hex. exact H. Qed.

(** ** Writeback and the stages after execute *)

Section Tail.
Context (E : Prop) (a : arch) (m : w4machine) (Q : unit -> w4machine -> Prop).
Context (HR : Rel a m) (Hwf : wf_regs a) (Hex : a_ex a = 0).

Lemma writeback_ra r :
  writes_back (dec m) = true -> ra (dec m) = r -> is_reg r ->
  (forall m', Rel (write_ra r (wb m) a) m' -> Q tt m') -> wpe E writeback Q m.
Proof using HR Hwf Hex.
  intros Hd Hra Hr HQ. eapply run_stage; [exact HR | exact Hex |].
  apply wpe_bind, wpe_gets. rewrite (r_mode _ _ HR).
  apply wpe_bind. eapply wpe_get_reg; [exact HR |].
  apply wpe_bind, wpe_gets. rewrite Hd, Hra. unfold write_ra in HQ.
  destruct (r =? 0); cbn [negb]; [apply wpe_ret, HQ, HR |].
  apply wpe_bind, wpe_gets. eapply wpe_set_gen; [exact HR | exact Hwf | exact Hr |].
  intros l Hl. apply HQ, Hl.
Qed.

Lemma writeback_none : writes_back (dec m) = false -> Q tt m -> wpe E writeback Q m.
Proof using HR Hwf Hex.
  intros Hd HQ. eapply run_stage; [exact HR | exact Hex |].
  apply wpe_bind, wpe_gets. rewrite (r_mode _ _ HR).
  apply wpe_bind. eapply wpe_get_reg; [exact HR |].
  apply wpe_bind, wpe_gets. rewrite Hd. exact HQ.
Qed.

(** An instruction that does not use the memory stage. *)
Lemma memory_pass :
  4 <= op (dec m) -> isYop (dec m) = false ->
  Q tt (set_wb (alu m) m) -> wpe E memory Q m.
Proof using HR Hex.
  intros Ho Hy HQ. eapply run_stage; [exact HR | exact Hex |].
  apply wpe_bind, wpe_modify, wpe_bind, wpe_gets. cbn [dec set_wb].
  rewrite (proj2 (Z.ltb_ge _ _) Ho), Hy. exact HQ.
Qed.

End Tail.

Lemma tail_alu E a m Q r :
  Rel a m -> wf_regs a -> a_ex a = 0 ->
  4 <= op (dec m) -> isYop (dec m) = false -> writes_back (dec m) = true ->
  ra (dec m) = r -> is_reg r ->
  (forall m', Rel (write_ra r (alu m) a) m' -> Q tt m') -> wpe E (memory;; writeback) Q m.
Proof.
  intros HR Hwf Hex Ho Hy Hd Hra Hr HQ. apply wpe_bind. eapply memory_pass; eauto.
  eapply writeback_ra; eauto with rel.
Qed.

Lemma tail_none E a m Q :
  Rel a m -> wf_regs a -> a_ex a = 0 ->
  4 <= op (dec m) -> isYop (dec m) = false -> writes_back (dec m) = false ->
  (forall m', Rel a m' -> Q tt m') -> wpe E (memory;; writeback) Q m.
Proof.
  intros HR Hwf Hex Ho Hy Hd HQ. apply wpe_bind. eapply memory_pass; eauto.
  eapply writeback_none; eauto with rel.
Qed.

(** A fault raised in the execute stage. *)
Lemma tail_fault E a m e :
  Rel a m -> e <> 0 -> wpe E (memory;; writeback) (post (fault e a)) (set_ex e m).
Proof. intros HR He. apply tail_skip; [exact He |]. apply Rel_ex, HR. Qed.

Lemma phys_index_nonneg d rg va : 0 <= va -> 0 <= phys_index d rg va.
Proof.
  intros Hva. unfold phys_index.
  pose proof (Z.mod_pos_bound (sget rg (32 + (if d then 16 else 0) + va / 4096)) 4096).
  pose proof (Z.mod_pos_bound va 4096).
  destruct d; [apply Z.div_pos |]; lia.
Qed.

Lemma xlate_cases d rg va :
  0 <= va ->
  (xlate d rg va = PageFault /\ PhysMemSize < phys_index d rg va) \/
  (xlate d rg va = Phys (phys_index d rg va) /\ 0 <= phys_index d rg va <= PhysMemSize).
Proof.
  intros Hva. unfold xlate. pose proof (phys_index_nonneg d rg va Hva).
  destruct (Z.ltb_spec PhysMemSize (phys_index d rg va)); [left | right]; split;
    (reflexivity || lia).
Qed.

(** ** Loads and stores *)

(** The memory stage of a general-register load or store. *)
Lemma memory_access E a m Q :
  Rel a m -> wf_regs a -> a_ex a = 0 -> op (dec m) < 4 -> is_u16 (alu m) ->
  let va := alu m in
  match xlate true (a_cur a) va with
  | PageFault => Q tt (set_ex ExMemory (set_wb va m))
  | Phys p => wpe E (memory_op (op (dec m)) p (va mod 2 =? 1)) Q (set_wb va m)
  end -> wpe E memory Q m.
Proof.
  intros HR Hwf Hex Ho Hva va H. eapply run_stage; [exact HR | exact Hex |].
  apply wpe_bind, wpe_modify, wpe_bind, wpe_gets. cbn [dec set_wb alu].
  rewrite (proj2 (Z.ltb_lt _ _) Ho). apply wpe_bind, wpe_gets. cbn [alu set_wb].
  apply wpe_bind. eapply wpe_translate; [apply Rel_wb, HR | exact Hwf | exact Hva |].
  rewrite odd_test. fold va. revert H.
  destruct (xlate_cases true (a_cur a) va (proj1 Hva)) as [[-> _] | [-> _]]; intros H; exact H.
Qed.

Section Access.
Context (a : arch) (m : w4machine) (HR : Rel a m) (Hwf : wf_arch a) (Hex : a_ex a = 0).
Context (Hva : is_u16 (alu m)).

Let Hregs : wf_regs a := wf_arch_regs a Hwf.

Lemma sim_load (byte : bool) r :
  op (dec m) = (if byte then 1 else 0) -> ra (dec m) = r -> is_reg r ->
  sim (memory;; writeback) m (load byte r (alu m) a).
Proof using HR Hwf Hex Hva Hregs.
  intros Ho Hra Hr. unfold sim, load. apply wpe_bind.
  eapply memory_access; [exact HR | exact Hregs | exact Hex | destruct byte; lia | exact Hva |].
  destruct (xlate_cases true (a_cur a) (alu m) (proj1 Hva)) as [[-> _] | [-> Hp]].
  { apply writeback_skip; [discriminate |]. apply Rel_ex, Rel_wb, HR. }
  assert (Hd : writes_back (dec m) = true) by (unfold writes_back; rewrite Ho; destruct byte; reflexivity).
  set (p := phys_index true (a_cur a) (alu m)) in *.
  rewrite Ho. destruct byte; cbn [negb andb memory_op].
  - apply wpe_bind. eapply wpe_read_phys; [apply Rel_wb, HR | lia | intros Hlt | intros Hge].
    2: { rewrite (proj2 (Z.eqb_eq p PhysMemSize)) by lia. reflexivity. }
    rewrite (proj2 (Z.eqb_neq p PhysMemSize)) by lia. rewrite shiftr_8, land_ff.
    destruct (alu m mod 2 =? 1); apply wpe_modify;
      (eapply (writeback_ra _ a _ _); [eauto with rel | exact Hregs | exact Hex | exact Hd | exact Hra
       | exact Hr | auto]).
  - destruct (alu m mod 2 =? 1).
    { apply wpe_modify, writeback_skip; [discriminate |]. apply Rel_ex, Rel_wb, HR. }
    apply wpe_bind. eapply wpe_read_phys; [apply Rel_wb, HR | lia | intros Hlt | intros Hge].
    2: { rewrite (proj2 (Z.eqb_eq p PhysMemSize)) by lia. reflexivity. }
    rewrite (proj2 (Z.eqb_neq p PhysMemSize)) by lia. apply wpe_modify.
    eapply (writeback_ra _ a _ _); [eauto with rel | exact Hregs | exact Hex | exact Hd | exact Hra
      | exact Hr | auto].
Qed.

Lemma sim_store (byte : bool) :
  op (dec m) = (if byte then 3 else 2) -> writes_back (dec m) = false ->
  sim (memory;; writeback) m (store byte (sd m) (alu m) a).
Proof using HR Hwf Hex Hva Hregs.
  intros Ho Hd. unfold sim, store. apply wpe_bind.
  eapply memory_access; [exact HR | exact Hregs | exact Hex | destruct byte; lia | exact Hva |].
  destruct (xlate_cases true (a_cur a) (alu m) (proj1 Hva)) as [[-> _] | [-> Hp]].
  { apply writeback_skip; [discriminate |]. apply Rel_ex, Rel_wb, HR. }
  set (p := phys_index true (a_cur a) (alu m)) in *.
  pose proof (mem_at_u16 (a_mem a) p (wf_mem a Hwf)) as Hw.
  assert (Hwrite : forall v m', Rel a m' -> dec m' = dec m ->
    wpe ((if p =? PhysMemSize then Crash else Next (with_mem (<[p := v]> (a_mem a)) a)) = Crash)
      (write_phys p v)
      (fun _ s' => wpe ((if p =? PhysMemSize then Crash
                         else Next (with_mem (<[p := v]> (a_mem a)) a)) = Crash) writeback
        (post (if p =? PhysMemSize then Crash else Next (with_mem (<[p := v]> (a_mem a)) a))) s') m').
  { intros v m' HR' Hd'. eapply wpe_write_phys; [exact HR' | lia | intros Hlt mem Hm | intros Hge].
    2: { rewrite (proj2 (Z.eqb_eq p PhysMemSize)) by lia. reflexivity. }
    rewrite (proj2 (Z.eqb_neq p PhysMemSize)) by lia.
    eapply writeback_none; [exact Hm | exact Hregs | exact Hex | | exact Hm].
    cbn [dec set_physmem]. rewrite Hd'. exact Hd. }
  rewrite Ho. destruct byte; cbn [negb andb memory_op].
  - apply wpe_bind. eapply wpe_read_phys; [apply Rel_wb, HR | lia | intros Hlt | intros Hge].
    2: { rewrite (proj2 (Z.eqb_eq p PhysMemSize)) by lia. reflexivity. }
    apply wpe_bind, wpe_gets. cbn [sd set_wb].
    rewrite put_high_byte, put_low_byte by exact Hw.
    destruct (alu m mod 2 =? 1); apply Hwrite; (apply Rel_wb, HR || reflexivity).
  - destruct (alu m mod 2 =? 1).
    { apply wpe_modify, writeback_skip; [discriminate |]. apply Rel_ex, Rel_wb, HR. }
    apply wpe_bind, wpe_gets. apply Hwrite; [apply Rel_wb, HR | reflexivity].
Qed.

End Access.

(** ** Special registers *)

Lemma land_63 x : Z.land x (SprSize - 1) = x mod 64.
Proof. apply (land_mask x 6). lia. Qed.

Lemma testbit4 x : negb (Z.land x 0x10 =? 0) = Z.testbit x 4.
Proof. apply (testbit_land_pow2 x 4). lia. Qed.

Section Special.
Context (a : arch) (m : w4machine) (HR : Rel a m) (Hwf : wf_arch a).

Let Hregs : wf_regs a := wf_arch_regs a Hwf.

Definition read_post (v : spr_val) (x : Z) (m' : w4machine) : Prop :=
  match v with
  | SprVal y => x = y /\ m' = m
  | SprIllegal => m' = set_ex ExIllegal m
  | SprCrash => False
  end.

Lemma mode_kern_test : (mode m =? Kern) = match a_mode a with KMode => true | UMode => false end.
Proof using HR. rewrite (r_mode _ _ HR). destruct (a_mode a); reflexivity. Qed.

Lemma mode_user_test : (mode m =? User) = match a_mode a with KMode => false | UMode => true end.
Proof using HR. rewrite (r_mode _ _ HR). destruct (a_mode a); reflexivity. Qed.

Lemma wpe_loadSpecial :
  let v := read_spr (alu m mod 64) a in
  wpe (v = SprCrash) loadSpecial (read_post v) m.
Proof using HR Hwf Hregs.
  cbn zeta. unfold loadSpecial. do 2 (apply wpe_bind, wpe_gets).
  rewrite land_63, mode_kern_test, mode_user_test.
  set (n := alu m mod 64). assert (Hn : 0 <= n < 64) by (apply Z.mod_pos_bound; lia).
  unfold read_spr, PC, Link, Irr, Icr, Imr, CCLS, CCMS, MmuCtl1.
  destruct (Z.eqb_spec n 0).
  { apply wpe_gets. split; [apply (r_pc _ _ HR) | reflexivity]. }
  destruct (Z.eqb_spec n 1).
  { rewrite (r_mode _ _ HR). eapply wpe_get_spr; [exact HR | exact Hregs | lia | split; reflexivity]. }
  destruct ((n =? 2) || (n =? 3) || (n =? 4) || (n =? 5)) eqn:Hs.
  { assert (n = 2 \/ n = 3 \/ n = 4 \/ n = 5) by (repeat rewrite orb_true_iff, ?Z.eqb_eq in Hs; lia).
    rewrite (proj2 (Z.eqb_neq n 6)), (proj2 (Z.eqb_neq n 7)) by lia. cbn [orb].
    destruct (a_mode a) eqn:Em; [| apply wpe_bind, wpe_modify, wpe_ret; reflexivity].
    rewrite (r_mode _ _ HR), Em.
    eapply (wpe_get_spr _ _ _ HR Hregs KMode); [lia | split; reflexivity]. }
  destruct (Z.eqb_spec n 6).
  { apply wpe_bind, wpe_gets, wpe_ret. rewrite (r_cyc _ _ HR).
    change 0xFFFF with (Z.shiftl 1 16 - 1). rewrite land_mask by lia.
    split; [apply u16_idemp | reflexivity]. }
  destruct (Z.eqb_spec n 7).
  { apply wpe_bind, wpe_gets, wpe_ret. rewrite (r_cyc _ _ HR).
    change 0xFFFF0000 with (Z.shiftl (Z.shiftl 1 16 - 1) 16).
    rewrite land_shiftl_r, land_mask, Z.shiftr_shiftl_l, Z.sub_diag, Z.shiftl_0_r by lia.
    rewrite Z.shiftr_div_pow2 by lia. split; [apply u16_idemp | reflexivity]. }
  destruct (a_mode a) eqn:Em; [| apply wpe_bind, wpe_modify, wpe_ret; reflexivity].
  cbn [orb]. destruct (Z.eqb_spec n 8) as [-> |].
  { eapply (wpe_get_spr _ _ _ HR Hregs KMode); [lia | split; reflexivity]. }
  assert (H8 : 8 < n) by (repeat rewrite orb_false_iff, ?Z.eqb_neq in Hs; lia).
  rewrite (proj2 (Z.ltb_lt 8 n) H8). cbn [andb].
  destruct (Z.ltb_spec n 16); [apply wpe_ret; split; reflexivity |].
  rewrite (proj2 (Z.leb_le 16 n)) by lia. cbn [andb].
  destruct (Z.ltb_spec n 24).
  { eapply (wpe_get_gen _ _ _ HR Hregs UMode); [unfold is_reg; lia | split; reflexivity]. }
  rewrite (proj2 (Z.leb_le 24 n)) by lia. cbn [andb].
  destruct (Z.ltb_spec n 31).
  { destruct (n =? 25).
    - eapply (wpe_get_spr _ _ _ HR Hregs UMode); [lia | split; reflexivity].
    - reflexivity. }
  rewrite (proj2 (Z.eqb_neq n 25)) by lia.
  destruct (Z.eqb_spec n 31) as [-> |].
  { apply wpe_bind, wpe_modify, wpe_ret. reflexivity. }
  rewrite (proj2 (Z.leb_le 32 n)) by lia.
  apply wpe_bind. eapply (wpe_get_spr _ _ _ HR Hregs KMode); [lia |].
  rewrite testbit4. unfold user_mmu, MmuCtl1. cbn [reg_of].
  destruct (Z.testbit (sget (a_kern a) 8) 4);
    [eapply (wpe_get_spr _ _ _ HR Hregs UMode) | eapply (wpe_get_spr _ _ _ HR Hregs KMode)];
    (lia || split; reflexivity).
Qed.

(** The effect of [storeSpecial], on the register file only. *)
Lemma wpe_storeSpecial E v Q :
  match write_spr (alu m mod 64) v a with
  | Some a' => forall l, Rel a' (set_reg l m) -> Q tt (set_reg l m)
  | None => Q tt (set_ex ExIllegal m)
  end -> wpe E (storeSpecial v) Q m.
Proof using HR Hwf Hregs.
  unfold storeSpecial. intros HQ. do 2 (apply wpe_bind, wpe_gets).
  rewrite land_63, mode_user_test. revert HQ.
  set (n := alu m mod 64). assert (Hn : 0 <= n < 64) by (apply Z.mod_pos_bound; lia).
  unfold write_spr, Link, Irr, Icr, Imr, MmuCtl1. intros HQ.
  destruct (a_mode a).
  2: { destruct (n =? 1); [| exact HQ].
       eapply (wpe_set_spr _ _ _ HR Hregs UMode); [lia | exact HQ]. }
  destruct ((n =? 2) || (n =? 3) || (n =? 4) || (n =? 5) || (n =? 8)).
  { eapply (wpe_set_spr _ _ _ HR Hregs KMode); [lia | exact HQ]. }
  destruct ((16 <=? n) && (n <? 24)) eqn:Hg.
  { apply andb_prop in Hg as [Hg1 Hg2]. bool_facts.
    eapply (wpe_set_gen _ _ _ HR Hregs UMode); [unfold is_reg; lia | exact HQ]. }
  destruct (n =? 25); [eapply (wpe_set_spr _ _ _ HR Hregs UMode); [lia | exact HQ] |].
  destruct (Z.leb_spec 32 n); [| exact HQ].
  apply wpe_bind. eapply (wpe_get_spr _ _ _ HR Hregs KMode); [lia |].
  rewrite testbit4. unfold user_mmu in HQ. cbn [reg_of].
  change (sget (a_kern a) MmuCtl1) with (sget (a_kern a) 8) in HQ.
  destruct (Z.testbit (sget (a_kern a) 8) 4);
    [eapply (wpe_set_spr _ _ _ HR Hregs UMode) | eapply (wpe_set_spr _ _ _ HR Hregs KMode)];
    (lia || exact HQ).
Qed.

End Special.

(** ** ALU operations *)

(** The 16-bit sums and differences of [alu3] are formed at 16 bits before they
    are widened, so the bit that should become the carry is always 0. *)
Lemma alu_full_spec E x Q m :
  Q tt (set_hc 0 (set_alu (x mod 65536) m)) -> wpe E (alu_full (u32 (u16 x))) Q m.
Proof.
  intros HQ. unfold alu_full, set_alu_hc.
  assert (Hx : u32 (u16 x) = u16 x).
  { apply Z.mod_small. pose proof (u16_range x). unfold is_u16 in *. lia. }
  rewrite Hx, land_ffff. change (Z.land (u16 x) 0x10000) with (Z.land (u16 x) (2 ^ 16)).
  rewrite land_pow2_small by (first [lia | apply u16_range]).
  assert (Hm : u16 x mod 65536 = u16 x) by apply u16_idemp.
  rewrite Hm, u16_idemp.
  apply wpe_bind, wpe_modify, wpe_modify, HQ.
Qed.

Lemma alu3_logic x : is_u16 x -> u16 (Z.land (u32 x) 0xFFFF) = x.
Proof.
  intros Hx. assert (Hu : u32 x = x) by (apply Z.mod_small; unfold is_u16 in Hx; lia).
  rewrite Hu, land_ffff. fold (u16 x). rewrite !u16_id; auto with gosem.
Qed.

Section Alu1.
Context (x : Z) (Hx : is_u16 x).

Lemma swb_spec : Z.lor (Z.shiftr x 8) (u16 (Z.shiftl x 8)) = alu1_val Swb x.
Proof using Hx.
  cbn [alu1_val]. replace (u16 (Z.shiftl x 8)) with (Z.shiftl (x mod 256) 8).
  2: { rewrite !shiftl_8. zdivmod. }
  rewrite shiftr_8. apply lor_add_shiftl; [lia | zdivmod].
Qed.

Lemma sxt_spec :
  (if negb (Z.land x 0x80 =? 0) then Z.lor x 0xFF00 else andnot16 x 0xFF00) = alu1_val Sxt x.
Proof using Hx.
  cbn [alu1_val]. change 0x80 with (2 ^ 7). rewrite testbit_land_pow2, testbit_div by lia.
  change (2 ^ 7) with 128.
  assert (Hl : Z.lor x 0xFF00 = Z.lor (x mod 256) 0xFF00).
  { rewrite <- land_ff. change 0xFF00 with (Z.shiftl (Z.ones 8) 8). change 0xFF with (Z.ones 8).
    apply Z.bits_inj'. intros i Hi. rewrite !Z.lor_spec, Z.land_spec, Z.shiftl_spec by exact Hi.
    destruct (Z.lt_ge_cases i 8); [rewrite (Z.ones_spec_low 8 i) by lia; btauto |].
    destruct (Z.lt_ge_cases i 16).
    - rewrite (Z.ones_spec_low 8 (i - 8)) by lia. btauto.
    - rewrite (proj1 (low_bits_iff 16 ltac:(lia) x (proj1 Hx)) (proj2 Hx) i) by lia. btauto. }
  rewrite Hl. change 0xFF00 with (Z.shiftl 255 8) at 1.
  rewrite lor_add_shiftl by (try apply Z.mod_pos_bound; lia).
  replace (andnot16 x 0xFF00) with (x mod 256) by (rewrite <- land_ff; reflexivity).
  destruct (Z.eqb_spec ((x / 128) mod 2) 1), (Z.ltb_spec (x mod 256) 128); try lia;
    exfalso; zdivmod.
Qed.

Lemma bit15 : Z.land x 0x8000 = (x / 32768) * 32768.
Proof using Hx.
  change 0x8000 with (Z.shiftl 1 15). rewrite land_shiftl_r, land_bit0 by lia.
  rewrite Z.shiftr_div_pow2, Z.shiftl_mul_pow2 by lia. change (2 ^ 15) with 32768.
  rewrite (Z.mod_small (x / 32768)) by zdivmod. reflexivity.
Qed.

Lemma asr_spec : Z.lor (Z.shiftr x 1) (Z.land x 0x8000) = alu1_val Asr x.
Proof using Hx.
  cbn [alu1_val]. rewrite bit15. change 32768 with (2 ^ 15) at 2.
  rewrite <- Z.shiftl_mul_pow2, Z.shiftr_div_pow2 by lia. change (2 ^ 1) with 2.
  rewrite lor_add_shiftl by (try (split; zdivmod); lia).
  change (2 ^ 15) with 32768. destruct (Z.ltb_spec x 32768); zdivmod.
Qed.

Lemma lsl_carry_spec : (if Z.land x 0x8000 =? 0 then 0 else 1) = alu1_carry Lsl x.
Proof using Hx.
  cbn [alu1_carry]. rewrite bit15.
  destruct (Z.eqb_spec (x / 32768 * 32768) 0); zdivmod.
Qed.

Lemma alu1_val_u16 o : is_u16 (alu1_val o x).
Proof using Hx.
  destruct o; cbn [alu1_val]; try destruct (Z.ltb_spec (x mod 256) 128);
    try destruct (Z.ltb_spec x 32768); zdivmod.
Qed.

Lemma alu1_carry_bit o : 0 <= alu1_carry o x <= 1.
Proof using Hx. destruct o; cbn [alu1_carry]; zdivmod. Qed.

End Alu1.

(** ** Instructions *)

(** The state of the machine after the decode stage. *)
Section Instr.
Context (a : arch) (m : w4machine) (w : Z).
Context (HR : Rel a m) (Hwf : wf_arch a) (Hex : a_ex a = 0).
Context (Hw : is_u16 w) (Hir : ir m = w) (Hdec : dec m = decode_fields w).

Let Hregs : wf_regs a := wf_arch_regs a Hwf.
Let d := decode_fields w.

Lemma cur_u16 r : is_u16 (rget (a_cur a) r).
Proof using Hwf. apply rget_u16, wf_reg_of, wf_arch_regs, Hwf. Qed.

Lemma wpe_alu_rb_imm E Q :
  (forall x, x = u16 (rget (a_cur a) (field w 5 3) + imm d) -> Q tt (set_alu x m)) ->
  wpe E alu_rb_imm Q m.
Proof using HR Hregs Hw Hdec.
  intros HQ. unfold alu_rb_imm. apply wpe_bind, wpe_gets. rewrite Hdec, rb_spec by exact Hw.
  apply wpe_bind. eapply wpe_cur_gen; [exact HR | exact Hregs | apply (reg_field w) |].
  apply wpe_modify, HQ. reflexivity.
Qed.

Lemma eff_addr_spec :
  field w 15 13 < 6 ->
  u16 (rget (a_cur a) (field w 5 3) + imm d) = eff_addr a (field w 5 3) (field w 12 6).
Proof using Hw.
  intros Ho. unfold d. rewrite imm7_spec by assumption. unfold u16, eff_addr.
  rewrite Zplus_mod_idemp_r. reflexivity.
Qed.

(** Dispatch on the class of the instruction. *)
Lemma exec_base E Q f :
  w < 0xF000 -> baseops !! Z.to_nat (field w 15 13) = Some f -> wpe E f Q m -> wpe E execute Q m.
Proof using HR Hex Hw Hdec.
  intros Hb Hf H. eapply run_stage; [exact HR | exact Hex |]. apply wpe_bind, wpe_gets.
  rewrite Hdec, isBase_spec, op_spec by exact Hw. rewrite (proj2 (Z.ltb_lt w 0xF000) Hb).
  apply wpe_bind. rewrite Hf. exact H.
Qed.

Lemma exec_other E Q :
  0xF000 <= w ->
  wpe E (if (0xF000 <=? w) && (w <? 0xFE00) then alu3
         else if (0xFE00 <=? w) && (w <? 0xFFC0) then call yops (field w 8 6)
         else if (0xFFC0 <=? w) && (w <? 0xFFF8) then alu1
         else call vops (field w 2 0)) Q m ->
  wpe E execute Q m.
Proof using HR Hex Hw Hdec.
  intros Hb H. eapply run_stage; [exact HR | exact Hex |]. apply wpe_bind, wpe_gets.
  rewrite Hdec, isBase_spec, isXop_spec, isYop_spec, isZop_spec, isVop_spec, yop_spec, vop_spec
    by exact Hw.
  rewrite (proj2 (Z.ltb_ge w 0xF000) Hb).
  destruct ((0xF000 <=? w) && (w <? 0xFE00)) eqn:E1; [exact H |].
  destruct ((0xFE00 <=? w) && (w <? 0xFFC0)) eqn:E2; [exact H |].
  destruct ((0xFFC0 <=? w) && (w <? 0xFFF8)) eqn:E3; [exact H |].
  replace (0xFFF8 <=? w) with true; [exact H |].
  symmetry. apply Z.leb_le. unfold is_u16 in Hw.
  apply andb_false_iff in E1, E2, E3. rewrite ?Z.leb_gt, ?Z.ltb_ge in *. lia.
Qed.

(** Which instructions write back, by class. *)
Lemma wb_base : w < 0xF000 ->
  writes_back d = (field w 15 13 =? 0) || (field w 15 13 =? 1) || (field w 15 13 =? 5)
                  || (field w 15 13 =? 6).
Proof using Hw.
  intros Hb. unfold writes_back, d. rewrite op_spec, isXop_spec, isYop_spec, isZop_spec by exact Hw.
  rewrite (proj2 (Z.leb_gt 0xF000 w)), (proj2 (Z.leb_gt 0xFE00 w)), (proj2 (Z.leb_gt 0xFFC0 w)) by lia.
  cbn [andb]. rewrite !orb_false_r. reflexivity.
Qed.

Lemma base_not_yop : w < 0xF000 -> isYop d = false.
Proof using Hw.
  intros Hb. unfold d. rewrite isYop_spec by exact Hw.
  rewrite (proj2 (Z.leb_gt 0xFE00 w)) by lia. reflexivity.
Qed.

Lemma op7 : 0xF000 <= w -> field w 15 13 = 7.
Proof using Hw. intros Hb. field_lia. Qed.

(** *** Base instructions *)

Lemma imm_u16 : is_u16 (u16 (rget (a_cur a) (field w 5 3) + imm d)).
Proof using. apply u16_range. Qed.

Lemma sim_ldw :
  w < 0xF000 -> field w 15 13 = 0 ->
  sim (execute;; memory;; writeback) m (exec_instr (Ldw (field w 2 0) (field w 5 3) (field w 12 6)) a).
Proof using HR Hwf Hex Hw Hir Hdec Hregs.
  intros Hb Ho. apply wpe_bind. eapply exec_base; [exact Hb | rewrite Ho; reflexivity |].
  unfold ldw. apply wpe_bind, wpe_gets. rewrite Hir. cbn [exec_instr].
  replace ((field w 2 0 =? 0) && (field w 5 3 =? 0) && (field w 12 6 =? 0)) with (w =? 0).
  2: { assert (Hi : field w 12 6 < 128) by (apply field_lt; (lia || reflexivity)).
       destruct (Z.eqb_spec w 0), (Z.eqb_spec (field w 2 0) 0), (Z.eqb_spec (field w 5 3) 0),
         (Z.eqb_spec (field w 12 6) 0); try reflexivity; exfalso; field_lia. }
  destruct (w =? 0). { apply wpe_modify, tail_fault; [exact HR | discriminate]. }
  apply wpe_alu_rb_imm. intros x Hx. rewrite eff_addr_spec in Hx by lia. rewrite <- Hx.
  assert (is_u16 x) by (rewrite Hx; apply u16_range).
  change x with (alu (set_alu x m)).
  eapply sim_load; try assumption; [apply Rel_alu, HR | | | apply (reg_field w)];
    cbn [dec set_alu]; rewrite Hdec; [rewrite op_spec | apply ra_spec]; assumption.
Qed.

Lemma sim_ldb :
  w < 0xF000 -> field w 15 13 = 1 ->
  sim (execute;; memory;; writeback) m (exec_instr (Ldb (field w 2 0) (field w 5 3) (field w 12 6)) a).
Proof using HR Hwf Hex Hw Hir Hdec Hregs.
  intros Hb Ho. apply wpe_bind. eapply exec_base; [exact Hb | rewrite Ho; reflexivity |].
  apply wpe_alu_rb_imm. intros x Hx. rewrite eff_addr_spec in Hx by lia. cbn [exec_instr]. rewrite <- Hx.
  assert (is_u16 x) by (rewrite Hx; apply u16_range).
  change x with (alu (set_alu x m)).
  eapply sim_load; try assumption; [apply Rel_alu, HR | | | apply (reg_field w)];
    cbn [dec set_alu]; rewrite Hdec; [rewrite op_spec | apply ra_spec]; assumption.
Qed.

Lemma sim_stores (byte : bool) :
  w < 0xF000 -> field w 15 13 = (if byte then 3 else 2) ->
  sim (execute;; memory;; writeback) m
    (store byte (rget (a_cur a) (field w 2 0)) (eff_addr a (field w 5 3) (field w 12 6)) a).
Proof using HR Hwf Hex Hw Hir Hdec Hregs.
  intros Hb Ho. apply wpe_bind.
  eapply exec_base; [exact Hb | rewrite Ho; instantiate (1 := stw); destruct byte; reflexivity |].
  apply wpe_bind, wpe_alu_rb_imm. intros x Hx. rewrite eff_addr_spec in Hx by (destruct byte; lia).
  rewrite <- Hx. assert (is_u16 x) by (rewrite Hx; apply u16_range).
  apply wpe_bind, wpe_gets. cbn [dec set_alu]. rewrite Hdec, ra_spec by exact Hw.
  apply wpe_bind. eapply wpe_cur_gen; [apply Rel_alu, HR | exact Hregs | apply (reg_field w) |].
  apply wpe_modify. set (v := rget (a_cur a) (field w 2 0)).
  change x with (alu (set_sd v (set_alu x m))) at 1 2.
  change v with (sd (set_sd v (set_alu x m))) at 1 2.
  eapply sim_store; try assumption; [eauto with rel | |]; cbn [dec set_alu set_sd]; rewrite Hdec.
  - rewrite op_spec; assumption.
  - fold d. rewrite wb_base, Ho by exact Hb. destruct byte; reflexivity.
Qed.

(** The common end of the instructions that do not use the memory stage. *)
Section Ends.
Context (a' : arch) (m' : w4machine).
Context (HR' : Rel a' m') (Hr' : wf_regs a') (Hex' : a_ex a' = 0) (Hd' : dec m' = dec m).
Context (Ho' : 4 <= field w 15 13) (Hy' : isYop d = false).

Lemma alu_end x :
  alu m' = x -> writes_back d = true ->
  sim (memory;; writeback) m' (Next (write_ra (field w 2 0) x a')).
Proof using Hw Hdec HR' Hr' Hex' Hd' Ho' Hy'.
  intros <- Hwb. eapply (tail_alu _ a' m' _ (field w 2 0)); try assumption; rewrite ?Hd', ?Hdec;
    try assumption.
  - rewrite op_spec by exact Hw. exact Ho'.
  - apply ra_spec, Hw.
  - apply (reg_field w).
  - intros m2 H2. exact H2.
Qed.

Lemma none_end : writes_back d = false -> sim (memory;; writeback) m' (Next a').
Proof using Hw Hdec HR' Hr' Hex' Hd' Ho' Hy'.
  intros Hwb. eapply (tail_none _ a' m'); try assumption; rewrite ?Hd', ?Hdec; try assumption.
  - rewrite op_spec by exact Hw. exact Ho'.
  - intros m2 H2. exact H2.
Qed.

End Ends.

Lemma sim_beq :
  w < 0xF000 -> field w 15 13 = 4 ->
  sim (execute;; memory;; writeback) m (exec_instr (Beq (field w 2 0) (field w 5 3) (field w 12 6)) a).
Proof using HR Hwf Hex Hw Hir Hdec Hregs.
  intros Hb Ho. apply wpe_bind. eapply exec_base; [exact Hb | rewrite Ho; reflexivity |].
  unfold beq. apply wpe_bind, wpe_gets. rewrite Hdec, rb_spec, ra_spec by exact Hw.
  apply wpe_bind. eapply wpe_cur_gen; [exact HR | exact Hregs | apply (reg_field w) |].
  apply wpe_bind. eapply wpe_cur_gen; [exact HR | exact Hregs | apply (reg_field w) |].
  assert (Hp : u16 (pc m + imm (decode_fields w)) = (a_pc a + sx7 (field w 12 6)) mod 65536).
  { rewrite (r_pc _ _ HR), imm7_spec by (assumption || lia). apply Zplus_mod_idemp_r. }
  assert (Hn : writes_back d = false) by (rewrite wb_base, Ho by exact Hb; reflexivity).
  cbn [exec_instr]. destruct (rget (a_cur a) (field w 5 3) =? rget (a_cur a) (field w 2 0)).
  - apply wpe_modify. rewrite Hp.
    apply none_end; auto using Rel_pc, base_not_yop; try reflexivity; lia.
  - apply wpe_ret, none_end; auto using base_not_yop; lia.
Qed.

Lemma sim_adi :
  w < 0xF000 -> field w 15 13 = 5 ->
  sim (execute;; memory;; writeback) m (exec_instr (Adi (field w 2 0) (field w 5 3) (field w 12 6)) a).
Proof using HR Hwf Hex Hw Hir Hdec Hregs.
  intros Hb Ho. apply wpe_bind. eapply exec_base; [exact Hb | rewrite Ho; reflexivity |].
  apply wpe_alu_rb_imm. intros x Hx. rewrite eff_addr_spec in Hx by lia. cbn [exec_instr]. rewrite <- Hx.
  apply alu_end; auto using Rel_alu, base_not_yop; try lia.
  rewrite wb_base, Ho by exact Hb. reflexivity.
Qed.

Lemma sim_lui :
  w < 0xF000 -> field w 15 13 = 6 ->
  sim (execute;; memory;; writeback) m (exec_instr (Lui (field w 2 0) (field w 12 3)) a).
Proof using HR Hwf Hex Hw Hir Hdec Hregs.
  intros Hb Ho. apply wpe_bind. eapply exec_base; [exact Hb | rewrite Ho; reflexivity |].
  unfold lui. apply wpe_bind, wpe_gets, wpe_modify. rewrite Hdec, imm10_spec by assumption.
  apply alu_end; auto using Rel_alu, base_not_yop; try lia.
  rewrite wb_base, Ho by exact Hb. reflexivity.
Qed.

Lemma wpe_jump E a' m' Q :
  Rel a' m' -> wf_regs a' -> a_cur a' = a_cur a \/ gen (a_cur a') = gen (a_cur a) ->
  dec m' = dec m -> w < 0xF000 -> field w 15 13 = 7 ->
  (forall p, p = (rget (a_cur a) (field w 5 3) + field w 12 6) mod 65536 -> Q tt (set_pc p m')) ->
  wpe E jump_rb_imm Q m'.
Proof using Hw Hdec.
  intros HR' Hr' Hcur Hd' Hb Ho HQ. unfold jump_rb_imm. apply wpe_bind, wpe_gets.
  rewrite Hd', Hdec, rb_spec, imm6_spec by assumption.
  apply wpe_bind. eapply wpe_cur_gen; [exact HR' | exact Hr' | apply (reg_field w) |].
  apply wpe_modify, HQ. unfold rget, u16. destruct Hcur as [-> | ->]; reflexivity.
Qed.

Lemma sim_jlr :
  w < 0xF000 -> field w 15 13 = 7 ->
  sim (execute;; memory;; writeback) m (exec_instr (Jlr (field w 2 0) (field w 5 3) (field w 12 6)) a).
Proof using HR Hwf Hex Hw Hir Hdec Hregs.
  intros Hb Ho. apply wpe_bind. eapply exec_base; [exact Hb | rewrite Ho; reflexivity |].
  unfold jlr. apply wpe_bind, wpe_gets. rewrite Hir, bits_field by (assumption || lia).
  replace (field w 15 12) with 14 by field_lia. cbn [Z.eqb Pos.eqb negb].
  apply wpe_bind, wpe_ret, wpe_bind, wpe_gets. rewrite Hdec, ra_spec, rb_spec, imm6_spec by assumption.
  assert (Hn : writes_back d = false) by (rewrite wb_base, Ho by exact Hb; reflexivity).
  assert (Hi : 0 <= field w 12 6 < 64) by field_lia.
  cbn [exec_instr]. unfold jlr_step.
  assert (Hill : forall E, wpe E illegal (fun _ s' => wpe E (memory;; writeback)
            (post (fault ExIllegal a)) s') m).
  { intros E. apply wpe_modify, tail_fault; [exact HR | discriminate]. }
  field8 w 2 0; rewrite F; cbn [Z.eqb Pos.eqb]; try apply Hill.
  - rewrite land_bit0.
    assert (Hc : negb (field w 5 3 =? 0) || (field w 12 6 mod 2 =? 1) || (field w 12 6 <? 32)
              || (62 <? field w 12 6)
              = negb ((field w 5 3 =? 0) && (field w 12 6 mod 2 =? 0) && (32 <=? field w 12 6))).
    { pose proof (Z.mod_pos_bound (field w 12 6) 2 ltac:(lia)) as Hm.
      destruct (Z.eqb_spec (field w 5 3) 0), (Z.eqb_spec (field w 12 6 mod 2) 1),
        (Z.eqb_spec (field w 12 6 mod 2) 0), (Z.ltb_spec (field w 12 6) 32),
        (Z.ltb_spec 62 (field w 12 6)), (Z.leb_spec 32 (field w 12 6)); try reflexivity;
        exfalso; Z.div_mod_to_equations; lia. }
    rewrite Hc. destruct ((field w 5 3 =? 0) && _ && _) eqn:Hs; cbn [negb]; [| apply Hill].
    bool_facts. apply wpe_modify, tail_fault; [exact HR | lia].
  - apply wpe_bind, wpe_gets, wpe_bind, wpe_gets. rewrite (r_mode _ _ HR), (r_pc _ _ HR).
    apply wpe_bind. eapply wpe_set_spr; [exact HR | exact Hregs | unfold Link; lia |].
    intros l Hl. assert (Hl1 : wf_regs (with_reg (a_mode a) (sput Link (a_pc a)) a)).
    { apply wf_regs_with; [exact Hregs |]. intros rg Hrg. apply wf_sput, (wf_pc a Hwf). exact Hrg. }
    eapply wpe_jump; [exact Hl | | | reflexivity | exact Hb | exact Ho |].
    + exact Hl1.
    + right. apply gen_cur_sput.
    + intros p ->. apply none_end; auto using base_not_yop; [apply Rel_pc, Hl | | lia].
      change (a_ex (with_cur (sput Link (a_pc a)) a) = 0). unfold with_cur. rewrite ex_with_reg. exact Hex.
  - eapply wpe_jump; [exact HR | exact Hregs | auto | reflexivity | exact Hb | exact Ho |].
    intros p ->. apply none_end; auto using Rel_pc, base_not_yop; try lia; try reflexivity.
Qed.

(** *** Three-operand ALU instructions *)

Lemma xop_wb : 0xF000 <= w < 0xFE00 -> isYop d = false /\ writes_back d = true.
Proof using Hw.
  intros Hr. unfold d, writes_back. rewrite isXop_spec, isYop_spec by exact Hw.
  rewrite (proj2 (Z.leb_le 0xF000 w)), (proj2 (Z.ltb_lt w 0xFE00)), (proj2 (Z.leb_gt 0xFE00 w)) by lia.
  split; [reflexivity |]. cbn [andb]. rewrite !orb_true_r. reflexivity.
Qed.

Lemma sim_alu3 :
  0xF000 <= w < 0xFE00 ->
  sim (execute;; memory;; writeback) m
    (exec_instr (Alu3 (alu3_of (field w 11 9)) (field w 2 0) (field w 5 3) (field w 8 6)) a).
Proof using HR Hwf Hex Hw Hir Hdec Hregs.
  intros Hr. destruct (xop_wb Hr) as [Hy Hwb]. apply wpe_bind, exec_other; [lia |].
  rewrite (proj2 (Z.leb_le 0xF000 w)), (proj2 (Z.ltb_lt w 0xFE00)) by lia. cbn [andb].
  unfold alu3. apply wpe_bind, wpe_gets. rewrite Hdec, rb_spec, rc_spec, xop_spec by exact Hw.
  apply wpe_bind. eapply wpe_cur_gen; [exact HR | exact Hregs | apply (reg_field w) |].
  apply wpe_bind. eapply wpe_cur_gen; [exact HR | exact Hregs | apply (reg_field w) |].
  apply wpe_bind, wpe_gets. rewrite (r_hc _ _ HR). cbn [exec_instr].
  set (x := rget (a_cur a) (field w 8 6)). set (y := rget (a_cur a) (field w 5 3)).
  assert (Hx : is_u16 x) by apply cur_u16. assert (Hy' : is_u16 y) by apply cur_u16.
  assert (Hend : forall z, sim (memory;; writeback) (set_hc 0 (set_alu z m))
                    (Next (write_ra (field w 2 0) z (with_hc 0 a)))).
  { intros z. apply alu_end; auto using Rel_hc, Rel_alu. rewrite op7; lia. }
  assert (Hlog : forall E z Q, is_u16 z -> Q tt (set_hc 0 (set_alu z m)) ->
            wpe E (set_alu_hc (u16 (Z.land (u32 z) 0xFFFF)) 0) Q m).
  { intros E z Q Hz HQ. rewrite alu3_logic by exact Hz. apply wpe_bind, wpe_modify, wpe_modify, HQ. }
  field8 w 11 9; rewrite F; cbn [alu3_of alu3_val].
  - apply alu_full_spec, Hend.
  - apply alu_full_spec. unfold u16 at 1. rewrite Zplus_mod_idemp_l. apply Hend.
  - apply alu_full_spec, Hend.
  - apply alu_full_spec. unfold u16 at 1. rewrite Zminus_mod_idemp_l. apply Hend.
  - apply Hlog; [auto with gosem |]. rewrite andnot16_ldiff by assumption. apply Hend.
  - apply Hlog; [auto with gosem | apply Hend].
  - apply Hlog; [auto with gosem | apply Hend].
  - exfalso. field_lia.
Qed.

(** *** One-operand ALU instructions *)

Lemma sim_alu1 :
  0xFFC0 <= w < 0xFFF8 ->
  sim (execute;; memory;; writeback) m
    (exec_instr (Alu1 (alu1_of (field w 5 3)) (field w 2 0)) a).
Proof using HR Hwf Hex Hw Hir Hdec Hregs.
  intros Hr. apply wpe_bind, exec_other; [lia |].
  rewrite (proj2 (Z.ltb_ge w 0xFE00)), (proj2 (Z.ltb_ge w 0xFFC0)), (proj2 (Z.leb_le 0xFFC0 w)),
    (proj2 (Z.ltb_lt w 0xFFF8)), !andb_false_r by lia. cbn [andb].
  assert (Hy : isYop d = false).
  { unfold d. rewrite isYop_spec, (proj2 (Z.ltb_ge w 0xFFC0)) by (assumption || lia). apply andb_false_r. }
  assert (Hwb : writes_back d = true).
  { unfold writes_back, d. rewrite isZop_spec, (proj2 (Z.leb_le 0xFFC0 w)), (proj2 (Z.ltb_lt w 0xFFF8))
      by (assumption || lia). apply orb_true_r. }
  unfold alu1. apply wpe_bind, wpe_gets. rewrite Hdec, ra_spec, zop_spec by exact Hw.
  apply wpe_bind. eapply wpe_cur_gen; [exact HR | exact Hregs | apply (reg_field w) |].
  set (x := rget (a_cur a) (field w 2 0)). assert (Hx : is_u16 x) by apply cur_u16.
  assert (Hend : forall z c, sim (memory;; writeback) (set_hc c (set_alu z m))
                    (Next (write_ra (field w 2 0) z (with_hc c a)))).
  { intros z c. apply alu_end; auto using Rel_hc, Rel_alu. rewrite op7; lia. }
  cbn [exec_instr]. fold x.
  field8 w 5 3; rewrite F; cbn [alu1_of]; try (apply wpe_bind, wpe_modify, wpe_modify).
  - apply Hend.
  - replace (u16 (1 + not16 x)) with (alu1_val Neg x); [apply Hend |].
    cbn [alu1_val]. unfold not16. zdivmod.
  - rewrite swb_spec by exact Hx. apply Hend.
  - rewrite sxt_spec by exact Hx. apply Hend.
  - rewrite land_bit0, Z.shiftr_div_pow2 by lia. apply Hend.
  - rewrite lsl_carry_spec by exact Hx. rewrite Z.shiftl_mul_pow2 by lia.
    replace (u16 (x * 2 ^ 1)) with (alu1_val Lsl x); [apply Hend |].
    cbn [alu1_val]. unfold u16. f_equal. lia.
  - rewrite land_bit0, asr_spec by exact Hx. apply Hend.
  - exfalso. field_lia.
Qed.

(** *** Special register and I/O instructions *)

Lemma yop_dec : 0xFE00 <= w < 0xFFC0 ->
  isYop d = true /\ writes_back d = (field w 8 6 <? 2).
Proof using Hw.
  intros Hr. unfold d, writes_back.
  rewrite isXop_spec, isYop_spec, isZop_spec, op_spec, yop_spec, op7 by (assumption || lia).
  rewrite (proj2 (Z.leb_le 0xFE00 w)), (proj2 (Z.ltb_lt w 0xFFC0)), (proj2 (Z.ltb_ge w 0xFE00)),
    (proj2 (Z.leb_gt 0xFFC0 w)), andb_false_r by lia.
  split; [reflexivity |]. cbn [andb orb Z.eqb Pos.eqb]. apply orb_false_r.
Qed.

(** The memory stage of a YOP. *)
Lemma memory_yop E m' Q :
  0xFE00 <= w < 0xFFC0 -> Rel a m' -> dec m' = dec m ->
  wpe E (match field w 8 6 with
         | 0 => v ← loadSpecial; modify (set_wb v)
         | 1 => v ← loadIO; modify (set_wb v)
         | 2 => s ← gets sd; storeSpecial s
         | 3 => s ← gets sd; storeIO s
         | _ => mret tt
         end) Q (set_wb (alu m') m') -> wpe E memory Q m'.
Proof using Hex Hw Hdec.
  intros Hr HR' Hd' H. eapply run_stage; [exact HR' | exact Hex |].
  apply wpe_bind, wpe_modify, wpe_bind, wpe_gets. cbn [dec set_wb].
  destruct (yop_dec Hr) as [Hy _]. unfold d in Hy.
  rewrite Hd', Hdec, op_spec, yop_spec, Hy, op7 by (assumption || lia). exact H.
Qed.

Lemma wpe_alu_rb E Q :
  Q tt (set_alu (rget (a_cur a) (field w 5 3)) m) -> wpe E alu_rb Q m.
Proof using HR Hregs Hw Hdec.
  intros HQ. unfold alu_rb. apply wpe_bind, wpe_gets. rewrite Hdec, rb_spec by exact Hw.
  apply wpe_bind. eapply wpe_cur_gen; [exact HR | exact Hregs | apply (reg_field w) |].
  apply wpe_modify, HQ.
Qed.

Lemma wpe_sd_ra E m' Q :
  Rel a m' -> dec m' = dec m ->
  Q tt (set_sd (rget (a_cur a) (field w 2 0)) m') -> wpe E sd_ra Q m'.
Proof using Hregs Hw Hdec.
  intros HR' Hd' HQ. unfold sd_ra. apply wpe_bind, wpe_gets. rewrite Hd', Hdec, ra_spec by exact Hw.
  apply wpe_bind. eapply wpe_cur_gen; [exact HR' | exact Hregs | apply (reg_field w) |].
  apply wpe_modify, HQ.
Qed.

Lemma sim_lsp :
  0xFE00 <= w < 0xFFC0 -> field w 8 6 = 0 ->
  sim (execute;; memory;; writeback) m (exec_instr (Lsp (field w 2 0) (field w 5 3)) a).
Proof using HR Hwf Hex Hw Hir Hdec Hregs.
  intros Hr Hy. destruct (yop_dec Hr) as [_ Hwb]. rewrite Hy in Hwb.
  apply wpe_bind, exec_other; [lia |].
  rewrite (proj2 (Z.ltb_ge w 0xFE00)), (proj2 (Z.leb_le 0xFE00 w)), (proj2 (Z.ltb_lt w 0xFFC0)),
    andb_false_r, Hy by lia.
  apply wpe_bind, wpe_ret, wpe_alu_rb. set (x := rget (a_cur a) (field w 5 3)).
  apply wpe_bind, memory_yop; [exact Hr | apply Rel_alu, HR | reflexivity |]. rewrite Hy.
  apply wpe_bind. cbn [exec_instr alu set_alu set_wb]. fold x.
  eapply wpe_mono; [apply wpe_loadSpecial; [eauto with rel | exact Hwf] | |]; cbn [alu set_alu set_wb].
  - intros ->. reflexivity.
  - intros v m'. destruct (read_spr (x mod 64) a) as [y | |]; cbn [read_post].
    + intros [-> ->]. apply wpe_modify.
      eapply writeback_ra with (a := a) (r := field w 2 0);
        [eauto with rel | exact Hregs | exact Hex | | | apply (reg_field w) | intros m2 H2; exact H2];
        cbn [dec set_wb set_alu]; rewrite Hdec; [exact Hwb | apply ra_spec, Hw].
    + intros ->. apply wpe_modify, writeback_skip; [discriminate |].
      apply Rel_wb, Rel_ex. eauto with rel.
    + intros [].
Qed.

Lemma sim_lio :
  0xFE00 <= w < 0xFFC0 -> field w 8 6 = 1 ->
  sim (execute;; memory;; writeback) m (exec_instr (Lio (field w 2 0) (field w 5 3)) a).
Proof using HR Hwf Hex Hw Hir Hdec Hregs.
  intros Hr Hy. destruct (yop_dec Hr) as [_ Hwb]. rewrite Hy in Hwb.
  apply wpe_bind, exec_other; [lia |].
  rewrite (proj2 (Z.ltb_ge w 0xFE00)), (proj2 (Z.leb_le 0xFE00 w)), (proj2 (Z.ltb_lt w 0xFFC0)),
    andb_false_r, Hy by lia.
  apply wpe_bind, wpe_ret, wpe_alu_rb, wpe_bind, memory_yop;
    [exact Hr | apply Rel_alu, HR | reflexivity |].
  rewrite Hy. apply wpe_bind, wpe_ret, wpe_modify.
  eapply writeback_ra with (a := a) (r := field w 2 0);
    [eauto with rel | exact Hregs | exact Hex | | | apply (reg_field w) | intros m2 H2; exact H2];
    cbn [dec set_wb set_alu]; rewrite Hdec; [exact Hwb | apply ra_spec, Hw].
Qed.

Lemma sim_ssp :
  0xFE00 <= w < 0xFFC0 -> field w 8 6 = 2 ->
  sim (execute;; memory;; writeback) m (exec_instr (Ssp (field w 2 0) (field w 5 3)) a).
Proof using HR Hwf Hex Hw Hir Hdec Hregs.
  intros Hr Hy. destruct (yop_dec Hr) as [_ Hwb]. rewrite Hy in Hwb.
  apply wpe_bind, exec_other; [lia |].
  rewrite (proj2 (Z.ltb_ge w 0xFE00)), (proj2 (Z.leb_le 0xFE00 w)), (proj2 (Z.ltb_lt w 0xFFC0)),
    andb_false_r, Hy by lia.
  apply wpe_bind, wpe_ret, wpe_bind, wpe_alu_rb. set (x := rget (a_cur a) (field w 5 3)).
  apply wpe_sd_ra; [apply Rel_alu, HR | reflexivity |]. set (v := rget (a_cur a) (field w 2 0)).
  apply wpe_bind, memory_yop; [exact Hr | eauto with rel | reflexivity |]. rewrite Hy.
  apply wpe_bind, wpe_gets. cbn [exec_instr sd set_sd set_alu set_wb]. fold x v.
  apply (wpe_storeSpecial a); [eauto with rel | exact Hwf |]. cbn [alu set_alu set_sd set_wb].
  destruct (write_spr (x mod 64) v a) as [a' |] eqn:Hs.
  - intros l Hl. eapply (writeback_none _ a'); [exact Hl | | | | exact Hl].
    + apply (write_spr_wf (x mod 64) v a a' Hregs (cur_u16 _) Hs).
    + rewrite (write_spr_ex _ _ _ _ Hs). exact Hex.
    + cbn [dec set_reg set_wb set_sd set_alu]. rewrite Hdec. exact Hwb.
  - apply writeback_skip; [discriminate |]. apply Rel_ex. eauto with rel.
Qed.

Lemma sim_sio :
  0xFE00 <= w < 0xFFC0 -> field w 8 6 = 3 ->
  sim (execute;; memory;; writeback) m (exec_instr (Sio (field w 2 0) (field w 5 3)) a).
Proof using HR Hwf Hex Hw Hir Hdec Hregs.
  intros Hr Hy. destruct (yop_dec Hr) as [_ Hwb]. rewrite Hy in Hwb.
  apply wpe_bind, exec_other; [lia |].
  rewrite (proj2 (Z.ltb_ge w 0xFE00)), (proj2 (Z.leb_le 0xFE00 w)), (proj2 (Z.ltb_lt w 0xFFC0)),
    andb_false_r, Hy by lia.
  apply wpe_bind, wpe_ret, wpe_bind, wpe_alu_rb, wpe_sd_ra; [apply Rel_alu, HR | reflexivity |].
  apply wpe_bind, memory_yop; [exact Hr | eauto with rel | reflexivity |]. rewrite Hy.
  apply wpe_bind, wpe_gets, wpe_ret.
  eapply (writeback_none _ a); [eauto with rel | exact Hregs | exact Hex | |].
  - cbn [dec set_wb set_sd set_alu]. rewrite Hdec. exact Hwb.
  - cbn. eauto with rel.
Qed.

Lemma sim_yop :
  0xFE00 <= w < 0xFFC0 -> sim (execute;; memory;; writeback) m (exec_instr (decode_yop w) a).
Proof using HR Hwf Hex Hw Hir Hdec Hregs.
  intros Hr. unfold decode_yop.
  destruct (field8_cases (field w 8 6) ltac:(apply field_lt; (lia || reflexivity)))
    as [F | [F | [F | [F | F]]]].
  - rewrite F. apply sim_lsp; assumption.
  - rewrite F. apply sim_lio; assumption.
  - rewrite F. apply sim_ssp; assumption.
  - rewrite F. apply sim_sio; assumption.
  - apply wpe_bind, exec_other; [lia |].
    rewrite (proj2 (Z.ltb_ge w 0xFE00)), (proj2 (Z.leb_le 0xFE00 w)), (proj2 (Z.ltb_lt w 0xFFC0)),
      andb_false_r by lia.
    destruct F as [F | [F | [F | F]]]; rewrite F;
      try (apply wpe_bind, wpe_ret, wpe_modify, tail_fault; [exact HR | discriminate]).
    exfalso. field_lia.
Qed.

(** *** Zero-operand instructions *)

Lemma vop_dec : 0xFFF8 <= w -> isYop d = false /\ writes_back d = false.
Proof using Hw.
  intros Hr. unfold d, writes_back.
  rewrite isXop_spec, isYop_spec, isZop_spec, op_spec, op7 by (assumption || lia).
  rewrite (proj2 (Z.ltb_ge w 0xFE00)), (proj2 (Z.ltb_ge w 0xFFC0)), (proj2 (Z.ltb_ge w 0xFFF8)) by lia.
  rewrite !andb_false_r. split; reflexivity.
Qed.

Lemma exec_vop E Q f :
  0xFFF8 <= w -> vops !! Z.to_nat (field w 2 0) = Some f -> wpe E f Q m -> wpe E execute Q m.
Proof using HR Hex Hw Hdec.
  intros Hr Hf H. apply exec_other; [lia |].
  rewrite (proj2 (Z.ltb_ge w 0xFE00)), (proj2 (Z.ltb_ge w 0xFFC0)), (proj2 (Z.ltb_ge w 0xFFF8)),
    !andb_false_r by lia.
  apply wpe_bind. rewrite Hf. exact H.
Qed.

Lemma sim_privileged f o :
  0xFFF8 <= w ->
  (a_mode a = KMode -> wpe (o = Crash) f (fun _ s' => wpe (o = Crash) (memory;; writeback) (post o) s') m) ->
  let o' := kernel_only a o in
  wpe (o' = Crash) (privileged f) (fun _ s' => wpe (o' = Crash) (memory;; writeback) (post o') s') m.
Proof using HR Hex.
  intros Hr Hf. cbn zeta. unfold privileged, kernel_only. apply wpe_bind, wpe_gets.
  rewrite (mode_user_test a m HR).
  destruct (a_mode a); [apply Hf; reflexivity |].
  apply wpe_modify, tail_fault; [exact HR | discriminate].
Qed.

Lemma read_spr_all E s Q :
  Q m -> wpe E (mapM (fun n => get_spr (mode_code s) n) (seqZ 0 64)) (fun _ s' => Q s') m.
Proof using HR Hregs.
  intros HQ. apply wpe_mapM_const; [| intros _; exact HQ].
  intros n Hn. apply elem_of_seqZ in Hn.
  assert (Hg : wp (get_spr (mode_code s) n) (fun _ s' => s' = m) m).
  { eapply wpe_get_spr; [exact HR | exact Hregs | lia | reflexivity]. }
  apply wp_returns in Hg as (v & s' & Hv & ->). exists v. exact Hv.
Qed.

(** Reading the aligned block of eight words at or below [p]. *)
Lemma read_phys_row E p Q :
  0 <= p -> p mod 8 = 0 -> (p < PhysMemSize -> Q m) -> (PhysMemSize <= p -> E) ->
  wpe E (mapM (fun i => read_phys (p + i)) (seqZ 0 8)) (fun _ s' => Q s') m.
Proof using HR.
  intros Hp Hm HQ HE. destruct (Z.lt_ge_cases p PhysMemSize) as [Hlt | Hge].
  - apply wpe_mapM_const; [| intros _; apply HQ, Hlt].
    intros i Hi. apply elem_of_seqZ in Hi. unfold read_phys, in_phys.
    rewrite (proj2 (Z.leb_le 0 (p + i))), (proj2 (Z.ltb_lt (p + i) PhysMemSize)); [eexists; reflexivity | |].
    + unfold PhysMemSize, K in *. Z.div_mod_to_equations; lia.
    + lia.
  - change (seqZ 0 8) with (0 :: seqZ 1 7). cbn [mapM]. apply wpe_bind.
    unfold read_phys, in_phys. rewrite (proj2 (Z.ltb_ge (p + 0) PhysMemSize)), andb_false_r by lia.
    apply wpe_panic, HE, Hge.
Qed.

Lemma ldiff_7 p : 0 <= p -> Z.ldiff p 7 = p / 8 * 8.
Proof using.
  intros Hp. change 7 with (Z.ones 3). rewrite Z.ldiff_ones_r by lia.
  rewrite Z.shiftr_div_pow2, Z.shiftl_mul_pow2 by lia. reflexivity.
Qed.

Lemma wpe_dump E Q :
  (dump_ok a = true -> Q tt m) -> (dump_ok a = false -> E) -> wpe E dump Q m.
Proof using HR Hwf Hregs.
  intros HQ HE. unfold dump. apply wpe_bind, wpe_gets, wpe_bind.
  rewrite (r_pc _ _ HR). pose proof (wf_pc a Hwf) as Hpc.
  eapply wpe_translate; [exact HR | exact Hregs | exact Hpc |].
  set (p := phys_index false (a_cur a) (a_pc a)).
  assert (Hp : 0 <= p) by (apply phys_index_nonneg, Hpc).
  set (q := phys_index true (a_cur a) 0).
  assert (Hok : dump_ok a = (p <? PhysMemSize) && negb (q =? PhysMemSize)) by reflexivity.
  apply wpe_bind.
  apply (wpe_mono _ (PhysMemSize <= p) _ (fun _ s' => s' = m)).
  { destruct (xlate_cases false (a_cur a) (a_pc a) (proj1 Hpc)) as [[-> _] | [-> _]]; [reflexivity |].
    apply wpe_bind. eapply wpe_read_phys; [exact HR | exact Hp | reflexivity | auto]. }
  { intros Hge. apply HE. rewrite Hok, (proj2 (Z.ltb_ge p PhysMemSize)) by exact Hge. reflexivity. }
  intros _ s' ->. apply wpe_bind, wpe_gets. rewrite (r_mode _ _ HR).
  apply wpe_bind. eapply wpe_get_reg; [exact HR |].
  apply wpe_bind, (read_spr_all _ KMode), wpe_bind, (read_spr_all _ UMode), wpe_bind.
  rewrite ldiff_7 by exact Hp. apply read_phys_row.
  - Z.div_mod_to_equations; lia.
  - apply Z.mod_mul. lia.
  - intros Hlt. assert (Hlt' : p < PhysMemSize) by (unfold PhysMemSize, K in *; Z.div_mod_to_equations; lia).
    rewrite (proj2 (Z.ltb_lt p PhysMemSize)) in Hok by exact Hlt'.
    apply wpe_bind. eapply wpe_translate; [exact HR | exact Hregs | unfold is_u16; lia |].
    destruct (xlate_cases true (a_cur a) 0 ltac:(lia)) as [[-> Hf] | [-> Hq]];
      [fold q in Hf | fold q in Hq].
    + apply wpe_ret, HQ. rewrite Hok, (proj2 (Z.eqb_neq q PhysMemSize)) by lia. reflexivity.
    + apply wpe_bind. eapply read_phys_row; [lia | | intros Hl | intros Hg].
      * unfold q, phys_index. Z.div_mod_to_equations; lia.
      * apply wpe_ret, HQ. rewrite Hok, (proj2 (Z.eqb_neq q PhysMemSize)) by lia. reflexivity.
      * apply HE. rewrite Hok, (proj2 (Z.eqb_eq q PhysMemSize)) by lia. reflexivity.
  - intros Hge. apply HE. rewrite Hok, (proj2 (Z.ltb_ge p PhysMemSize)); [reflexivity |].
    Z.div_mod_to_equations; lia.
Qed.

Lemma sim_rti :
  0xFFF8 <= w -> field w 2 0 = 0 -> sim (execute;; memory;; writeback) m (exec_instr Rti a).
Proof using HR Hwf Hex Hw Hir Hdec Hregs.
  intros Hr Hv. destruct (vop_dec Hr) as [Hy Hwb].
  apply wpe_bind. eapply exec_vop; [exact Hr | rewrite Hv; reflexivity |].
  apply sim_privileged; [exact Hr |]. intros Hm.
  do 2 (apply wpe_bind, wpe_modify). apply wpe_bind.
  assert (HR1 : Rel (with_en true a) (set_en true (set_ex 0 m))).
  { apply Rel_en. destruct HR. constructor; try assumption. cbn. congruence. }
  eapply (wpe_get_spr _ _ _ HR1 Hregs KMode); [unfold Irr; lia |].
  apply wpe_bind, wpe_modify, wpe_bind.
  set (p := sget (reg_of KMode (with_en true a)) Irr).
  assert (HR2 : Rel (with_pc p (with_en true a)) (set_pc p (set_en true (set_ex 0 m)))) by (apply Rel_pc, HR1).
  eapply (wpe_set_spr _ _ _ HR2 Hregs KMode); [unfold Irr; lia |]. intros l HR3.
  assert (Hregs3 : wf_regs (with_kern (sput Irr 0) (with_pc p (with_en true a)))).
  { apply (wf_regs_with KMode); [exact Hregs |]. intros rg Hrg. apply wf_sput; [exact Hrg |].
    unfold is_u16. lia. }
  apply wpe_bind. eapply (wpe_get_spr _ _ _ HR3 Hregs3 KMode); [unfold Imr; lia |].
  apply wpe_modify. cbn [reg_of].
  assert (Hi : sget (a_kern (with_kern (sput Irr 0) (with_pc p (with_en true a)))) Imr
               = sget (a_kern a) Imr).
  { unfold sget. cbn [a_kern with_kern with_pc with_en sput spr].
    rewrite list_lookup_insert_ne by (unfold Irr, Imr; lia). reflexivity. }
  cbn [reg_of with_reg] in *. rewrite Hi. unfold rti_step. cbn [reg_of with_en a_kern] in p. fold p.
  change (u8 (sget (a_kern a) Imr)) with (sget (a_kern a) Imr mod 256).
  set (k := sget (a_kern a) Imr mod 256).
  destruct (Z.eqb_spec k 0) as [-> |]; [| destruct (Z.eqb_spec k 1) as [-> |]].
  - apply none_end; auto; [apply (Rel_mode _ _ HR3 KMode) | rewrite op7; lia].
  - apply none_end; auto; [apply (Rel_mode _ _ HR3 UMode) | rewrite op7; lia].
  - (* an invalid mode: the writeback stage indexes the register files with it *)
    assert (HRm : forall m', ex m' = 0 -> length (reg m') = 2%nat -> mode m' = k ->
              wpe (Crash = Crash) writeback (post Crash) m').
    { intros m' He Hl Hk. unfold writeback. apply wpe_bind, wpe_gets. rewrite He.
      apply wpe_bind, wpe_gets. rewrite Hk. apply wpe_bind, wpe_bind, wpe_gets.
      assert (Hk0 : 0 <= k < 256) by (apply Z.mod_pos_bound; lia).
      rewrite lookup_ge_None_2 by lia. reflexivity. }
    apply wpe_bind. unfold memory. apply wpe_bind, wpe_gets. cbn [ex set_mode set_reg set_pc set_en set_ex].
    apply wpe_bind, wpe_modify, wpe_bind, wpe_gets.
    cbn [dec set_wb set_mode set_reg set_pc set_en set_ex].
    unfold d in Hy. rewrite Hdec, op_spec, op7, Hy by (assumption || lia).
    apply HRm; [reflexivity | | reflexivity].
    change (length (reg (set_reg l (set_pc p (set_en true (set_ex 0 m))))) = 2%nat).
    rewrite (r_reg _ _ HR3). reflexivity.
Qed.

Lemma sim_vop :
  0xFFF8 <= w -> sim (execute;; memory;; writeback) m (exec_instr (decode_vop w) a).
Proof using HR Hwf Hex Hw Hir Hdec Hregs.
  intros Hr. destruct (vop_dec Hr) as [Hy Hwb]. unfold decode_vop.
  assert (H7 : 4 <= field w 15 13) by (rewrite op7; lia).
  field8 w 2 0; rewrite F; [apply sim_rti; assumption | | | | | | |];
    (apply wpe_bind; eapply exec_vop; [exact Hr | rewrite F; reflexivity |]); cbn [exec_instr].
  - unfold rtl. apply wpe_bind, wpe_gets. rewrite (r_mode _ _ HR).
    apply wpe_bind. eapply wpe_get_spr; [exact HR | exact Hregs | unfold Link; lia |].
    apply wpe_modify, none_end; auto using Rel_pc.
  - apply sim_privileged; [exact Hr |]. intros _. apply wpe_modify, none_end; auto using Rel_en.
  - apply sim_privileged; [exact Hr |]. intros _. apply wpe_modify, none_end; auto using Rel_en.
  - apply sim_privileged; [exact Hr |]. intros _. apply wpe_modify, none_end; auto using Rel_run.
  - apply sim_privileged; [exact Hr |]. intros _. apply wpe_dump.
    + intros ->. apply none_end; auto.
    + intros ->. reflexivity.
  - apply wpe_modify, tail_fault; [exact HR | discriminate].
  - unfold die. apply (sim_privileged illegal (fault ExIllegal a)) in Hr.
    + unfold kernel_only in Hr. destruct (a_mode a); exact Hr.
    + intros _. apply wpe_modify, tail_fault; [exact HR | discriminate].
Qed.

(** *** Every instruction *)

Lemma sim_instr : sim (execute;; memory;; writeback) m (exec_instr (decode_instr w) a).
Proof using HR Hwf Hex Hw Hir Hdec Hregs.
  unfold decode_instr. destruct (Z.ltb_spec w 0xF000).
  { unfold decode_base. field8 w 15 13; rewrite F.
    - apply sim_ldw; assumption.
    - apply sim_ldb; assumption.
    - apply (sim_stores false); assumption.
    - apply (sim_stores true); assumption.
    - apply sim_beq; assumption.
    - apply sim_adi; assumption.
    - apply sim_lui; assumption.
    - apply sim_jlr; assumption. }
  destruct (Z.ltb_spec w 0xFE00); [apply sim_alu3; lia |].
  destruct (Z.ltb_spec w 0xFFC0); [apply sim_yop; lia |].
  destruct (Z.ltb_spec w 0xFFF8); [apply sim_alu1; lia |].
  apply sim_vop; assumption.
Qed.

End Instr.

(** ** Fetch and the whole cycle *)

Section Cycle.
Context (a : arch) (m : w4machine) (HR : Rel a m) (Hwf : wf_arch a).

Let Hregs : wf_regs a := wf_arch_regs a Hwf.

Lemma ex_u16 : is_u16 (a_ex a).
Proof using Hwf. destruct (wf_ex a Hwf) as [-> | H]; unfold is_u16; lia. Qed.

(** The exception entry at the head of [fetch]. *)
Lemma wpe_enter E Q :
  (forall m', Rel (enter a) m' -> Q tt m') ->
  wpe E (p ← gets pc;
         set_spr Kern Irr p;;
         set_spr Kern Icr (a_ex a);;
         md ← gets mode;
         set_spr Kern Imr md;;
         modify (set_mode Kern);;
         modify (set_pc (a_ex a));;
         modify (set_en false);;
         modify (set_ex 0)) Q m.
Proof using HR Hwf Hregs.
  intros HQ. pose proof (wf_pc a Hwf) as Hpc. pose proof ex_u16 as Hex.
  assert (Hput : forall n v b, wf_regs b -> is_u16 v -> wf_regs (with_reg KMode (sput n v) b)).
  { intros n v b Hb Hv. apply wf_regs_with; [exact Hb |]. intros rg Hrg. apply wf_sput; assumption. }
  apply wpe_bind, wpe_gets. rewrite (r_pc _ _ HR).
  apply wpe_bind. eapply (wpe_set_spr _ _ _ HR Hregs KMode); [unfold Irr; lia |]. intros l1 HR1.
  assert (H1 := Hput Irr _ _ Hregs Hpc).
  apply wpe_bind. eapply (wpe_set_spr _ _ _ HR1 H1 KMode); [unfold Icr; lia |]. intros l2 HR2.
  assert (H2 := Hput Icr _ _ H1 Hex).
  apply wpe_bind, wpe_gets. cbn [mode set_reg]. rewrite (r_mode _ _ HR).
  apply wpe_bind. eapply (wpe_set_spr _ _ _ HR2 H2 KMode); [unfold Imr; lia |]. intros l3 HR3.
  do 3 (apply wpe_bind, wpe_modify). apply wpe_modify, HQ.
  exact (Rel_ex _ _ (Rel_en _ _ (Rel_pc _ _ (Rel_mode _ _ HR3 KMode) _) _) _).
Qed.

(** Fetch from a state with no exception pending, and the rest of the cycle. *)
Lemma sim_fetch_exec :
  a_ex a = 0 ->
  sim ((p ← gets pc;
        '(e, addr) ← translate false p;
        if negb (e =? ExNone) then modify (set_ex e)
        else
          w ← read_phys addr;
          modify (set_ir w);;
          modify (fun m => set_pc (u16 (pc m + 1)) m));;
       decode;; execute;; memory;; writeback) m (isa_fetch_exec a).
Proof using HR Hwf Hregs.
  intros Hex. pose proof (wf_pc a Hwf) as Hpc. unfold sim, isa_fetch_exec.
  apply wpe_bind, wpe_bind, wpe_gets. rewrite (r_pc _ _ HR).
  apply wpe_bind. eapply wpe_translate; [exact HR | exact Hregs | exact Hpc |].
  destruct (xlate_cases false (a_cur a) (a_pc a) (proj1 Hpc)) as [[-> _] | [-> Hp]].
  { apply wpe_modify, stages_skip; [discriminate | apply Rel_ex, HR]. }
  set (p := phys_index false (a_cur a) (a_pc a)) in *. cbn [Z.eqb negb].
  apply wpe_bind. eapply wpe_read_phys; [exact HR | lia | intros Hlt | intros Hge].
  2: { rewrite (proj2 (Z.eqb_eq p PhysMemSize)) by lia. reflexivity. }
  rewrite (proj2 (Z.eqb_neq p PhysMemSize)) by lia.
  apply wpe_bind, wpe_modify, wpe_modify. cbn [pc set_ir]. rewrite (r_pc _ _ HR).
  set (w := mem_at (a_mem a) p). set (a1 := with_pc ((a_pc a + 1) mod 65536) a).
  assert (HR1 : Rel a1 (set_pc (u16 (a_pc a + 1)) (set_ir w m))) by (apply Rel_pc, Rel_ir, HR).
  assert (Hw : is_u16 w) by (apply mem_at_u16, (wf_mem a Hwf)).
  assert (Hwf1 : wf_arch a1).
  { destruct Hwf. constructor; try assumption. apply u16_range. }
  apply wpe_bind. eapply run_stage; [exact HR1 | exact Hex |]. apply wpe_modify.
  apply sim_instr; [apply Rel_dec, HR1 | exact Hwf1 | exact Hex | exact Hw | reflexivity | reflexivity].
Qed.

End Cycle.

Lemma enter_wf a : wf_arch a -> wf_arch (enter a).
Proof.
  intros Hwf. pose proof (ex_u16 a Hwf) as Hex. destruct Hwf. constructor; try assumption.
  - cbn. repeat apply wf_sput; try assumption. destruct (a_mode a); unfold is_u16, Kern, User; lia.
  - left. reflexivity.
Qed.

Lemma cycle_sim a m : wf_arch a -> Rel a m -> sim cycle m (isa_step a).
Proof.
  intros Hwf HR. unfold sim, cycle. apply wpe_bind. unfold fetch.
  apply wpe_bind, wpe_gets. rewrite (r_ex _ _ HR). unfold isa_step.
  destruct (Z.eqb_spec (a_ex a) 0) as [Hex | Hex]; cbn [negb].
  - apply wpe_bind, wpe_ret.
    apply wpe_bind_inv, (sim_fetch_exec a m HR Hwf Hex).
  - apply wpe_bind, wpe_bind, wpe_gets. rewrite (r_en _ _ HR).
    destruct (a_en a); [| reflexivity]. apply wpe_bind, wpe_ret.
    eapply wpe_enter; [exact HR | exact Hwf |]. intros m' HR'.
    apply wpe_bind_inv, (sim_fetch_exec (enter a) m' HR' (enter_wf a Hwf) eq_refl).
Qed.
