(* ===== verification/IsaProps.v ===== *)
(** * Properties of the instruction set specification

    Invariants of [Isa.isa_step]: well-formedness is preserved, the kernel's
    [r0] is never written, user mode is confined to its own registers and to the
    memory its MMU maps, and the exception entry is undone by [rti]. *)

From S2P Require Import Prelude Machine Exec Isa Decoder Refine.

(** ** Well-formedness *)

Section Wf.
Context (a : arch) (Hwf : wf_arch a).

Lemma wf_with_reg s f : (forall rg, wf_reg rg -> wf_reg (f rg)) -> wf_arch (with_reg s f a).
Proof using Hwf. intros Hf. destruct Hwf. destruct s; constructor; cbn; auto. Qed.

Lemma wf_with_pc v : is_u16 v -> wf_arch (with_pc v a).
Proof using Hwf. intros Hv. destruct Hwf. constructor; auto. Qed.

Lemma wf_with_ex v : ex_ok v -> wf_arch (with_ex v a).
Proof using Hwf. intros Hv. destruct Hwf. constructor; auto. Qed.

Lemma wf_with_hc v : 0 <= v <= 1 -> wf_arch (with_hc v a).
Proof using Hwf. intros Hv. destruct Hwf. constructor; auto. Qed.

Lemma wf_with_en v : wf_arch (with_en v a).
Proof using Hwf. destruct Hwf. constructor; auto. Qed.

Lemma wf_with_run v : wf_arch (with_run v a).
Proof using Hwf. destruct Hwf. constructor; auto. Qed.

Lemma wf_with_mode v : wf_arch (with_mode v a).
Proof using Hwf. destruct Hwf. constructor; auto. Qed.

Lemma wf_with_mem p v : is_u16 v -> wf_arch (with_mem (<[p := v]> (a_mem a)) a).
Proof using Hwf.
  intros Hv. destruct Hwf. constructor; auto. cbn. apply map_Forall_insert_2; assumption.
Qed.

Lemma wf_write_ra r v : is_u16 v -> wf_arch (write_ra r v a).
Proof using Hwf.
  intros Hv. unfold write_ra. destruct (r =? 0); [exact Hwf |].
  apply wf_with_reg. intros rg Hrg. apply wf_rput; assumption.
Qed.

End Wf.

Lemma ex_ok_illegal : ex_ok ExIllegal.
Proof. right. unfold ExIllegal. split; [lia | reflexivity]. Qed.

Lemma ex_ok_memory : ex_ok ExMemory.
Proof. right. unfold ExMemory. split; [lia | reflexivity]. Qed.

Create HintDb isawf.
#[export] Hint Resolve wf_with_pc wf_with_ex wf_with_hc wf_with_en wf_with_run wf_with_mode
  wf_with_mem wf_write_ra ex_ok_illegal ex_ok_memory wf_sput wf_rput : isawf.
#[export] Hint Resolve u16_range : isawf.

Lemma cur_reg_u16 a r : wf_arch a -> is_u16 (rget (a_cur a) r).
Proof. intros H. apply rget_u16, wf_reg_of, wf_arch_regs, H. Qed.

Lemma cur_spr_u16 a n : wf_arch a -> is_u16 (sget (a_cur a) n).
Proof. intros H. apply sget_u16, wf_reg_of, wf_arch_regs, H. Qed.

Lemma eff_addr_u16 a rb i : is_u16 (eff_addr a rb i).
Proof. apply u16_range. Qed.

#[export] Hint Resolve eff_addr_u16 : isawf.

Lemma alu3_val_u16 o x y c : is_u16 x -> is_u16 y -> is_u16 (alu3_val o x y c).
Proof.
  intros Hx Hy. destruct o; cbn [alu3_val]; try apply u16_range; auto with gosem.
  rewrite <- andnot16_ldiff by assumption. auto with gosem.
Qed.

Lemma read_spr_u16 n a v : wf_arch a -> read_spr n a = SprVal v -> is_u16 v.
Proof.
  intros Hwf. unfold read_spr. pose proof Hwf as [Hk Hu Hpc _ _ _ _].
  destruct (a_mode a); repeat case_if; intros H; inversion H; subst; clear H;
    solve [auto using sget_u16, rget_u16, cur_spr_u16 | apply u16_range | unfold is_u16; lia].
Qed.

(** The predicate holds of the next state, if there is one. *)
Definition next_ok (P : arch -> Prop) (o : outcome) : Prop :=
  match o with Next a => P a | Crash => True end.

Lemma load_wf byte r va a : wf_arch a -> next_ok wf_arch (load byte r va a).
Proof.
  intros Hwf. unfold load. destruct (xlate true (a_cur a) va) as [p |]; [| cbn; auto with isawf].
  destruct (_ && _); [cbn; auto with isawf |]. destruct (p =? PhysMemSize); [exact I |].
  apply wf_write_ra; [exact Hwf |].
  pose proof (mem_at_u16 (a_mem a) p (wf_mem a Hwf)) as Hw.
  set (w := mem_at (a_mem a) p) in *. clearbody w.
  destruct byte; [destruct (va mod 2 =? 1) |]; cbv iota; zdivmod.
Qed.

Lemma store_wf byte v va a : wf_arch a -> is_u16 v -> next_ok wf_arch (store byte v va a).
Proof.
  intros Hwf Hv. unfold store. destruct (xlate true (a_cur a) va) as [p |]; [| cbn; auto with isawf].
  destruct (_ && _); [cbn; auto with isawf |]. destruct (p =? PhysMemSize); [exact I |].
  apply wf_with_mem; [exact Hwf |].
  pose proof (mem_at_u16 (a_mem a) p (wf_mem a Hwf)) as Hw.
  set (w := mem_at (a_mem a) p) in *. clearbody w.
  destruct byte; [destruct (va mod 2 =? 1) |]; cbv iota; zdivmod.
Qed.

Lemma write_spr_wf_arch n v a a' :
  wf_arch a -> is_u16 v -> write_spr n v a = Some a' -> wf_arch a'.
Proof.
  intros Hwf Hv. unfold write_spr.
  assert (Hs : forall s k, wf_arch (with_reg s (sput k v) a)).
  { intros s k. apply wf_with_reg; auto using wf_sput. }
  assert (Hr : forall k, wf_arch (with_user (rput k v) a)).
  { intros k. apply (wf_with_reg a Hwf UMode); auto using wf_rput. }
  destruct (a_mode a); repeat case_if; intros H; inversion H; subst;
    (apply Hr || apply (Hs KMode) || apply (Hs UMode)).
Qed.

Lemma exec_instr_wf i a : wf_arch a -> wf_instr i -> next_ok wf_arch (exec_instr i a).
Proof.
  intros Hwf Hi. pose proof (fun r => cur_reg_u16 a r Hwf) as Hr.
  assert (Hm : forall z, is_u16 (z mod 65536)) by (intros; apply u16_range).
  destruct i; cbn [exec_instr wf_instr] in *; unfold kernel_only;
    try (destruct (a_mode a); cbn; auto with isawf; fail);
    try (apply load_wf; assumption); try (apply store_wf; auto);
    try (cbn; auto with isawf; fail).
  - destruct (_ && _ && _); [cbn; auto with isawf | apply load_wf, Hwf].
  - destruct (_ =? _); cbn; auto with isawf.
  - cbn. apply wf_write_ra; [exact Hwf | unfold is_u16; lia].
  - unfold jlr_step. repeat case_if; cbn; auto with isawf.
    + apply wf_with_ex; [exact Hwf |]. right. bool_facts. Z.div_mod_to_equations; lia.
    + apply wf_with_pc; [| apply Hm]. apply wf_with_reg; [exact Hwf |].
      intros rg Hrg. apply wf_sput; [exact Hrg | apply (wf_pc a Hwf)].
  - cbn. apply wf_write_ra; [apply wf_with_hc; [exact Hwf | lia] | apply alu3_val_u16; auto].
  - destruct (read_spr _ a) eqn:E; cbn; auto with isawf.
    apply wf_write_ra; [exact Hwf | eapply read_spr_u16; eauto].
  - cbn. apply wf_write_ra; [exact Hwf | unfold is_u16; lia].
  - destruct (write_spr _ _ a) eqn:E; cbn; auto with isawf. eapply write_spr_wf_arch; eauto.
  - cbn. apply wf_write_ra; [apply wf_with_hc; [exact Hwf | apply alu1_carry_bit, Hr] |].
    apply alu1_val_u16, Hr.
  - destruct (a_mode a); [| cbn; auto with isawf]. unfold rti_step.
    assert (Hrti : forall s, wf_arch (with_mode s (with_kern (sput Irr 0)
              (with_pc (sget (a_kern a) Irr) (with_en true a))))).
    { intros s. apply wf_with_mode, (wf_with_reg _ (wf_with_pc _ (wf_with_en a Hwf true) _
        (sget_u16 _ _ (wf_kern a Hwf))) KMode). intros rg Hrg. apply wf_sput; [exact Hrg |].
      unfold is_u16; lia. }
    repeat case_if; cbn; auto.
  - cbn. apply wf_with_pc; [exact Hwf | apply cur_spr_u16, Hwf].
  - destruct (a_mode a); [destruct (dump_ok a) |]; cbn; auto with isawf.
Qed.

Lemma fetch_exec_wf a : wf_arch a -> next_ok wf_arch (isa_fetch_exec a).
Proof.
  intros Hwf. unfold isa_fetch_exec. destruct (xlate false (a_cur a) (a_pc a)) as [p |];
    [| cbn; auto with isawf].
  destruct (p =? PhysMemSize); [exact I |].
  apply exec_instr_wf; [apply wf_with_pc; [exact Hwf | apply u16_range] |].
  apply decode_instr_wf, mem_at_u16, (wf_mem a Hwf).
Qed.

Lemma isa_step_wf a : wf_arch a -> next_ok wf_arch (isa_step a).
Proof.
  intros Hwf. unfold isa_step. repeat case_if; auto using fetch_exec_wf, enter_wf. exact I.
Qed.

(** ** Confinement of user mode *)

(** What one user-mode instruction may change: its own general registers and
    link register, the program counter, the carry, the pending exception, and
    one word of memory that the user's data MMU maps. *)
Record confined (a a' : arch) : Prop := {
  cf_mode : a_mode a' = a_mode a;
  cf_kern : a_kern a' = a_kern a;
  cf_en : a_en a' = a_en a;
  cf_run : a_run a' = a_run a;
  cf_cyc : a_cyc a' = a_cyc a;
  cf_spr : forall n, n <> Link -> 0 <= n -> sget (a_user a') n = sget (a_user a) n;
  cf_mem : a_mem a' = a_mem a \/
    exists va p w, is_u16 va /\ xlate true (a_user a) va = Phys p /\ p < PhysMemSize /\
      a_mem a' = <[p := w]> (a_mem a)
}.

Lemma confined_refl a : confined a a.
Proof. constructor; auto. Qed.

Lemma confined_ex a e : confined a (with_ex e a).
Proof. constructor; auto. Qed.

Lemma confined_pc a v : confined a (with_pc v a).
Proof. constructor; auto. Qed.

Lemma confined_hc a v a' : confined (with_hc v a) a' -> confined a a'.
Proof. intros []. constructor; assumption. Qed.

Lemma confined_pc_l a v a' : confined (with_pc v a) a' -> confined a a'.
Proof. intros []. constructor; assumption. Qed.

Lemma sget_sput_ne n k v rg : n <> k -> 0 <= n -> 0 <= k -> sget (sput k v rg) n = sget rg n.
Proof. intros Hne Hn Hk. unfold sget, sput. cbn. rewrite list_lookup_insert_ne by lia. reflexivity. Qed.

Lemma rget_rput_ne n k v rg : n <> k -> 0 <= n -> 0 <= k -> rget (rput k v rg) n = rget rg n.
Proof. intros Hne Hn Hk. unfold rget, rput. cbn. rewrite list_lookup_insert_ne by lia. reflexivity. Qed.

Lemma confined_write_ra a r v : a_mode a = UMode -> confined a (write_ra r v a).
Proof.
  intros Hm. unfold write_ra, with_cur. rewrite Hm. destruct (r =? 0); [apply confined_refl |].
  constructor; auto.
Qed.

Lemma confined_link a v : confined a (with_user (sput Link v) a).
Proof.
  constructor; auto. intros n Hne Hn. apply sget_sput_ne; [exact Hne | exact Hn | unfold Link; lia].
Qed.

Section Confine.
Context (a : arch) (Hm : a_mode a = UMode).

Lemma cur_user : a_cur a = a_user a.
Proof using Hm. unfold a_cur. rewrite Hm. reflexivity. Qed.

Lemma load_confined byte r va : next_ok (confined a) (load byte r va a).
Proof using Hm.
  unfold load. destruct (xlate true (a_cur a) va) as [p |]; [| apply confined_ex].
  destruct (_ && _); [apply confined_ex |]. destruct (p =? PhysMemSize); [exact I |].
  apply confined_write_ra, Hm.
Qed.

Lemma store_confined byte v va : is_u16 va -> next_ok (confined a) (store byte v va a).
Proof using Hm.
  intros Hva. unfold store. destruct (xlate true (a_cur a) va) as [p |] eqn:Hx; [| apply confined_ex].
  destruct (_ && _); [apply confined_ex |]. destruct (Z.eqb_spec p PhysMemSize); [exact I |].
  constructor; auto. cbn. right. rewrite cur_user in Hx.
  exists va, p. eexists. split; [exact Hva |]. split; [exact Hx |]. split; [| reflexivity].
  destruct (xlate_cases true (a_user a) va (proj1 Hva)) as [[E _] | [E Hp]]; [congruence |].
  assert (Hpe : p = phys_index true (a_user a) va) by congruence. lia.
Qed.

Lemma exec_confined i : next_ok (confined a) (exec_instr i a).
Proof using Hm.
  destruct i; cbn [exec_instr]; unfold kernel_only; rewrite ?Hm;
    try (apply load_confined); try (apply store_confined, eff_addr_u16);
    try (apply confined_ex); try (cbn; auto using confined_write_ra, confined_refl, confined_pc; fail).
  - destruct (_ && _ && _); [apply confined_ex | apply load_confined].
  - destruct (_ =? _); cbn; auto using confined_refl, confined_pc.
  - unfold jlr_step. repeat case_if; try apply confined_ex; try apply confined_pc.
    unfold with_cur. rewrite Hm. cbn.
    destruct (confined_link a (a_pc a)). constructor; assumption.
  - cbn. apply (confined_hc _ 0). apply confined_write_ra, Hm.
  - destruct (read_spr _ a); cbn; auto using confined_write_ra, confined_ex.
  - unfold write_spr. rewrite Hm. destruct (_ =? Link); cbn; [apply confined_link | apply confined_ex].
  - cbn. eapply confined_hc, confined_write_ra, Hm.
Qed.

End Confine.

Lemma step_confined a : a_mode a = UMode -> a_ex a = 0 -> next_ok (confined a) (isa_step a).
Proof.
  intros Hm Hex. unfold isa_step. rewrite Hex. cbn [Z.eqb]. unfold isa_fetch_exec.
  destruct (xlate false (a_cur a) (a_pc a)) as [p |]; [| apply confined_ex].
  destruct (p =? PhysMemSize); [exact I |]. set (a1 := with_pc _ a).
  pose proof (exec_confined a1 Hm (decode_instr (mem_at (a_mem a) p))) as H.
  destruct (exec_instr _ a1) as [a' |]; [| exact I]. cbn in H |- *. eapply confined_pc_l, H.
Qed.

(** ** Register zero *)

(** The kernel's [r0] is never written, and the user's is not written by a
    user-mode instruction. *)
Definition r0_same (a a' : arch) : Prop :=
  rget (a_kern a') 0 = rget (a_kern a) 0 /\
  (a_mode a = UMode -> a_ex a = 0 -> rget (a_user a') 0 = rget (a_user a) 0).

Lemma r0_write_ra a r v : 0 <= r -> r0_same a (write_ra r v a).
Proof.
  intros Hr. unfold write_ra, r0_same. destruct (Z.eqb_spec r 0); [auto |].
  unfold with_cur. destruct (a_mode a); cbn [with_reg with_kern with_user a_kern a_user];
    split; try reflexivity; intros; try reflexivity; apply rget_rput_ne; lia.
Qed.

Lemma r0_refl a b : a_kern b = a_kern a -> a_user b = a_user a -> r0_same a b.
Proof. unfold r0_same. intros -> ->. auto. Qed.

Lemma rget_sput n k v rg : rget (sput k v rg) n = rget rg n.
Proof. reflexivity. Qed.

Lemma r0_write_spr n v a a' : write_spr n v a = Some a' -> r0_same a a'.
Proof.
  unfold write_spr. destruct (a_mode a) eqn:Hm; repeat case_if; intros H; inversion H; subst;
    unfold r0_same; rewrite Hm; cbn; auto; split; (reflexivity || congruence).
Qed.

Lemma exec_r0 i a : wf_instr i -> next_ok (r0_same a) (exec_instr i a).
Proof.
  intros Hi.
  destruct i; cbn [exec_instr wf_instr] in *; unfold kernel_only, is_reg in *;
    try (destruct (a_mode a); apply r0_refl; reflexivity);
    try (apply r0_refl; reflexivity); try (apply r0_write_ra; lia);
    try (unfold load, store; repeat case_match; try exact I; try (apply r0_refl; reflexivity);
         apply r0_write_ra; lia).
  - unfold jlr_step. repeat case_if; cbn; try (apply r0_refl; reflexivity).
    unfold with_cur, r0_same. destruct (a_mode a); cbn; auto.
  - cbn. apply (r0_write_ra (with_hc 0 a)). lia.
  - destruct (write_spr _ _ a) eqn:E; cbn; [eapply r0_write_spr, E | apply r0_refl; reflexivity].
  - cbn. apply (r0_write_ra (with_hc _ a)). lia.
  - destruct (a_mode a) eqn:Hm; [| apply r0_refl; reflexivity].
    unfold rti_step. repeat case_if; cbn; unfold r0_same; auto.
Qed.

Lemma step_r0 a : wf_arch a -> next_ok (r0_same a) (isa_step a).
Proof.
  intros Hwf.
  assert (H : forall b, a_mem b = a_mem a -> next_ok (r0_same b) (isa_fetch_exec b)).
  { intros b Hb. unfold isa_fetch_exec. destruct (xlate _ _ _) as [p |]; [| apply r0_refl; reflexivity].
    destruct (p =? PhysMemSize); [exact I |]. rewrite Hb.
    apply (exec_r0 _ (with_pc ((a_pc b + 1) mod 65536) b)).
    apply decode_instr_wf, mem_at_u16, (wf_mem a Hwf). }
  unfold isa_step. case_if.
  - apply (H a eq_refl).
  - case_if; [| exact I]. specialize (H (enter a) eq_refl).
    destruct (isa_fetch_exec (enter a)) as [a' |]; [| exact I]. cbn in H |- *. destruct H as [Hk _].
    split; [exact Hk |]. bool_facts. congruence.
Qed.

(** ** Exceptions *)

(** [rti] undoes the exception entry: the interrupted program resumes where it
    was, in its mode, with interrupts enabled. *)
Lemma enter_rti a :
  wf_arch a ->
  exists a', exec_instr Rti (enter a) = Next a' /\
    a_pc a' = a_pc a /\ a_mode a' = a_mode a /\ a_ex a' = 0 /\ a_en a' = true /\
    gen (a_kern a') = gen (a_kern a) /\ a_user a' = a_user a /\ a_mem a' = a_mem a.
Proof.
  intros Hwf. cbn [exec_instr]. unfold kernel_only. cbn [enter a_mode with_ex with_en with_pc with_mode].
  unfold rti_step. destruct (wf_kern a Hwf) as (_ & Hl & _).
  assert (Hi : sget (a_kern (enter a)) Imr = match a_mode a with KMode => Kern | UMode => User end).
  { unfold sget. cbn. rewrite list_lookup_insert_eq; [reflexivity |]. rewrite !length_insert, Hl.
    unfold Imr. lia. }
  assert (Hr : sget (a_kern (enter a)) Irr = a_pc a).
  { unfold sget. cbn. rewrite !list_lookup_insert_ne by (unfold Irr, Icr, Imr; lia).
    rewrite list_lookup_insert_eq; [reflexivity |]. rewrite Hl. unfold Irr. lia. }
  rewrite Hi, Hr. destruct (a_mode a); cbn; eexists; repeat split; reflexivity.
Qed.
