(* ===== verification/Sim.v ===== *)
(** * The simulator: loading, the main loop, the debugger prompt

    [load], [core] (emul/util.go) and [simulate], [prompt] (emul/emul.go).  The
    file given to [load] is its size as [Stat] reports it and the bytes that the
    successive one-byte reads deliver; the debugger's input is the first byte of
    each line read.  [simulate] runs with fuel; [Halted] and the other outcomes
    are results of the Go function, [OutOfFuel] is not. *)

From S2P Require Import Prelude Machine Exec.

(** ** Loading a binary *)

Definition maxSizeBytes : Z := 3 * 64 * K.

(** The read loop of [load]; the result is [nRead]. *)
Fixpoint load_bytes (data : list Z) (off nRead : Z) : W Z :=
  match data with
  | [] => mret nRead
  | b :: rest =>
    if Z.land nRead 1 =? 0 then
      write_phys off b;;
      load_bytes rest off (nRead + 1)
    else
      w ← read_phys off;
      write_phys off (Z.lor w (u16 (Z.shiftl b 8)));;
      load_bytes rest (off + 1) (nRead + 1)
  end.

(** [Some msg] is a non-nil error. *)
Definition load (md : Z) (size : Z) (data : list Z) : W (option string) :=
  if maxSizeBytes <? size then mret (Some "not a binary"%string)
  else
    let off := if md =? User then maxSizeBytes / 2 else 0 in
    nRead ← load_bytes data off 0;
    if negb (nRead =? size) then mret (Some "load didn't read the entire file"%string)
    else mret None.

(** [core]: [binary.Write(f, binary.LittleEndian, physmem)] *)
Definition core (mem : gmap Z Z) : list Z :=
  mjoin ((fun i => let w := mem_at mem i in [w mod 256; w / 256]) <$> seqZ 0 PhysMemSize).

(** ** The debugger prompt *)

(** [prompt]: the continue flag, the new [dbEnabled] and the rest of the input, which is the
    first byte of what each [Read] returns (a line of a terminal).
    At the end of the input [os.Stdin.Read] leaves the buffer as it was and the
    loop never ends: [None]. *)
Fixpoint prompt (db : bool) (stdin : list Z) : option (bool * bool * list Z) :=
  match stdin with
  | [] => None
  | c :: rest =>
    if c =? 99 (* c *) then prompt db rest
    else if c =? 104 (* h *) then prompt db rest
    else if c =? 114 (* r *) then Some (true, false, rest)
    else if c =? 115 (* s *) then Some (true, true, rest)
    else if c =? 120 (* x *) then Some (false, db, rest)
    else prompt db rest
  end.

(** ** The main loop *)

Inductive sim_result :=
| Halted (m : w4machine)
| DoubleFault (m : w4machine)
| Fatal
| Panicked (why : string)
| WaitsForInput
| OutOfFuel.

Definition incr_cyc (m : w4machine) : w4machine := set_cyc (u64 (cyc m + 1)) m.

Definition double_fault (m : w4machine) : bool := negb (ex m =? 0) && negb (en m).

Fixpoint sim_loop (fuel : nat) (db : bool) (stdin : list Z) (m : w4machine) : sim_result :=
  match fuel with
  | O => OutOfFuel
  | S fuel' =>
    if run m then
      match cycle m with
      | Panic w => Panicked w
      | Ret (_, m1) =>
        if double_fault m1 then DoubleFault m1
        else if db then
          match dump m1 with
          | Panic w => Panicked w
          | Ret (_, m2) =>
            match prompt db stdin with
            | None => WaitsForInput
            | Some (go, db', stdin') => sim_loop fuel' db' stdin' (incr_cyc (set_run go m2))
            end
          end
        else sim_loop fuel' db stdin (incr_cyc m1)
      end
    else Halted m
  end.

(** The dump that ends a run that is not quiet. *)
Definition final_dump (quiet : bool) (r : sim_result) : sim_result :=
  match r with
  | Halted m | DoubleFault m =>
    if quiet then r
    else match dump m with Panic w => Panicked w | Ret _ => r end
  | _ => r
  end.

Definition simulate (fuel : nat) (quiet db : bool) (stdin : list Z) (m : w4machine) : sim_result :=
  if negb (ex m =? 0) then Fatal
  else if db then
    match dump m with
    | Panic w => Panicked w
    | Ret (_, m1) =>
      match prompt db stdin with
      | None => WaitsForInput
      | Some (go, db', stdin') =>
        final_dump quiet (sim_loop fuel db' stdin' (incr_cyc (set_run go m1)))
      end
    end
  else final_dump quiet (sim_loop fuel db stdin (incr_cyc m)).

(** [main] after the command line is parsed: the kernel binary, the optional
    user binary, the reset, the simulation.  A file is its size and its bytes; a
    failed load is [fatal]. *)
Definition boot (kern : Z * list Z) (user : option (Z * list Z)) : W (option string) :=
  e ← load Kern kern.1 kern.2;
  match e with
  | Some msg => mret (Some msg)
  | None =>
    e ← match user with
        | None => mret None
        | Some f => load User f.1 f.2
        end;
    match e with
    | Some msg => mret (Some msg)
    | None => reset;; mret None
    end
  end.

Definition main (fuel : nat) (quiet db : bool) (kern : Z * list Z) (user : option (Z * list Z))
    (stdin : list Z) : sim_result :=
  match boot kern user w4 with
  | Panic w => Panicked w
  | Ret (Some _, _) => Fatal
  | Ret (None, m) => simulate fuel quiet db stdin m
  end.

(** One iteration of the loop without the debugger, as a step relation. *)
Inductive sim_step : w4machine -> w4machine -> Prop :=
| sim_step_cycle m m1 :
    run m = true -> cycle m = Ret (tt, m1) -> double_fault m1 = false ->
    sim_step m (incr_cyc m1).
