(* ===== verification/EmulProps.v ===== *)
(** * Theorems about the emulator

    The refinement of the instruction set by [cycle], the machine invariant,
    confinement of user mode, exceptions, memory as bytes, the loader and the
    main loop.  The theorems are stated of the definitions of [Machine], [Exec]
    and [Sim]; [abs] maps a machine record to the architectural state of
    [Isa]. *)

From S2P Require Import Prelude Machine Exec Isa Decoder Refine IsaProps Sim.

(** ** The machine invariant and the abstraction function *)

Definition kern_reg (m : w4machine) : w4reg := default zero_reg (reg m !! 0%nat).
Definition user_reg (m : w4machine) : w4reg := default zero_reg (reg m !! 1%nat).

Record machine_ok (m : w4machine) : Prop := {
  mo_reg : length (reg m) = 2%nat;
  mo_regs : Forall wf_reg (reg m);
  mo_pc : is_u16 (pc m);
  mo_mode : mode m = Kern \/ mode m = User;
  mo_ex : ex_ok (ex m);
  mo_hc : 0 <= hc m <= 1;
  mo_mem : map_Forall (fun _ w => is_u16 w) (physmem m);
  mo_cyc : 0 <= cyc m
}.

Definition abs (m : w4machine) : arch :=
  {| a_cyc := cyc m; a_kern := kern_reg m; a_user := user_reg m; a_pc := pc m;
     a_run := run m; a_en := en m; a_mode := if mode m =? User then UMode else KMode;
     a_ex := ex m; a_hc := hc m; a_mem := physmem m |}.

Lemma two_regs m : length (reg m) = 2%nat -> reg m = [kern_reg m; user_reg m].
Proof.
  unfold kern_reg, user_reg. destruct (reg m) as [| k [| u [| ? ?]]]; cbn; intros H;
    try discriminate. reflexivity.
Qed.

Lemma machine_ok_rel m : machine_ok m -> Rel (abs m) m.
Proof.
  intros []. constructor; try reflexivity; [apply two_regs; assumption |].
  cbn. destruct mo_mode0 as [-> | ->]; reflexivity.
Qed.

Lemma machine_ok_wf m : machine_ok m -> wf_arch (abs m).
Proof.
  intros []. rewrite (two_regs m) in mo_regs0 by assumption.
  inversion_clear mo_regs0 as [| ? ? Hk Hu]. inversion_clear Hu. constructor; assumption.
Qed.

Lemma rel_abs a m : Rel a m -> abs m = a.
Proof.
  intros []. unfold abs, kern_reg, user_reg. rewrite r_reg, r_cyc, r_pc, r_run, r_en, r_mode, r_ex, r_hc, r_mem.
  destruct a as [? ? ? ? ? ? md ? ? ?]. cbn. destruct md; reflexivity.
Qed.

Lemma rel_wf_ok a m : Rel a m -> wf_arch a -> machine_ok m.
Proof.
  intros [] []. constructor; rewrite ?r_reg, ?r_pc, ?r_mode, ?r_ex, ?r_hc, ?r_mem, ?r_cyc; auto.
  destruct (a_mode a); auto.
Qed.

(** Every cycle either takes the step that the specification prescribes, and
    keeps the invariant, or panics where the specification crashes. *)
Lemma cycle_cases m :
  machine_ok m ->
  match isa_step (abs m) with
  | Next a' => exists m', cycle m = Ret (tt, m') /\ abs m' = a' /\ machine_ok m'
  | Crash => exists why, cycle m = Panic why
  end.
Proof.
  intros Hok. pose proof (machine_ok_wf m Hok) as Hwf.
  pose proof (cycle_sim (abs m) m Hwf (machine_ok_rel m Hok)) as H.
  pose proof (isa_step_wf (abs m) Hwf) as Hn. unfold sim, wpe in H.
  destruct (cycle m) as [[[] m'] | why], (isa_step (abs m)) as [a' |]; cbn in *; try contradiction;
    try discriminate; [exists m' | exists why]; auto.
  split; [reflexivity |]. split; [apply rel_abs, H | exact (rel_wf_ok a' m' H Hn)].
Qed.

Lemma cycle_next m m' :
  machine_ok m -> cycle m = Ret (tt, m') -> isa_step (abs m) = Next (abs m') /\ machine_ok m'.
Proof.
  intros Hok Hc. pose proof (cycle_cases m Hok) as H.
  destruct (isa_step (abs m)) as [a' |]; [destruct H as (m2 & H2 & <- & Hok2) | destruct H as [w H2]];
    rewrite Hc in H2; inversion H2; subst; auto.
Qed.

(** ** Memory as bytes *)

(** The byte at a byte address: the low half of a word first. *)
Definition mem_byte (mem : gmap Z Z) (b : Z) : Z :=
  let w := mem_at mem (b / 2) in
  if b mod 2 =? 0 then w mod 256 else (w / 256) mod 256.

Definition words_ok (mem : gmap Z Z) : Prop := map_Forall (fun _ w => is_u16 w) mem.

Lemma mem_at_insert mem a v p : mem_at (<[a := v]> mem) p = if p =? a then v else mem_at mem p.
Proof.
  unfold mem_at. destruct (Z.eqb_spec p a) as [-> | Hne].
  - rewrite lookup_insert_eq. reflexivity.
  - rewrite lookup_insert_ne by congruence. reflexivity.
Qed.

Lemma byte_addr b : b = 2 * (b / 2) + b mod 2 /\ 0 <= b mod 2 <= 1.
Proof. pose proof (Z.div_mod b 2). pose proof (Z.mod_pos_bound b 2). lia. Qed.

(** The bytes after a word is written. *)
Lemma mem_byte_insert mem a v b :
  mem_byte (<[a := v]> mem) b =
    if b =? 2 * a then v mod 256 else if b =? 2 * a + 1 then (v / 256) mod 256 else mem_byte mem b.
Proof.
  unfold mem_byte. rewrite mem_at_insert. destruct (byte_addr b) as [Hb Hr].
  destruct (Z.eqb_spec (b / 2) a), (Z.eqb_spec b (2 * a)), (Z.eqb_spec b (2 * a + 1)),
    (Z.eqb_spec (b mod 2) 0); try reflexivity; lia.
Qed.

Lemma mem_byte_u8 mem b : is_u8 (mem_byte mem b).
Proof. unfold mem_byte. destruct (_ =? 0); apply u8_range. Qed.

Lemma words_ok_insert mem a v : words_ok mem -> is_u16 v -> words_ok (<[a := v]> mem).
Proof. intros H Hv. apply map_Forall_insert_2; assumption. Qed.

Lemma word_of_bytes mem a :
  words_ok mem -> mem_at mem a = mem_byte mem (2 * a) + 256 * mem_byte mem (2 * a + 1).
Proof.
  intros H. pose proof (mem_at_u16 mem a H) as Hw. unfold mem_byte.
  replace (2 * a / 2) with a by (Z.div_mod_to_equations; lia).
  replace ((2 * a + 1) / 2) with a by (Z.div_mod_to_equations; lia).
  replace ((2 * a) mod 2) with 0 by (Z.div_mod_to_equations; lia).
  replace ((2 * a + 1) mod 2) with 1 by (Z.div_mod_to_equations; lia).
  cbn. set (w := mem_at mem a) in *. clearbody w. zdivmod.
Qed.

Lemma mem_byte_lo mem a : words_ok mem -> mem_byte mem (2 * a) = mem_at mem a mod 256.
Proof.
  intros H. rewrite (word_of_bytes mem a H). pose proof (mem_byte_u8 mem (2 * a)).
  pose proof (mem_byte_u8 mem (2 * a + 1)). zdivmod.
Qed.

Lemma mem_byte_hi mem a : words_ok mem -> mem_byte mem (2 * a + 1) = mem_at mem a / 256.
Proof.
  intros H. rewrite (word_of_bytes mem a H). pose proof (mem_byte_u8 mem (2 * a)).
  pose proof (mem_byte_u8 mem (2 * a + 1)). zdivmod.
Qed.

(** ** The general-register loads and stores *)

Lemma in_phys_true a : 0 <= a < PhysMemSize -> in_phys a = true.
Proof. intros H. unfold in_phys. rewrite (proj2 (Z.leb_le _ _)), (proj2 (Z.ltb_lt _ _)) by lia. reflexivity. Qed.

Definition odd_bit (odd : bool) : Z := if odd then 1 else 0.

(** What each of the four memory operations does, on bytes. *)
Definition mem_op_spec (o addr : Z) (odd : bool) (m m' : w4machine) : Prop :=
  let b := 2 * addr + odd_bit odd in
  let old := mem_byte (physmem m) in
  let new := mem_byte (physmem m') in
  match o with
  | 0 => if odd then m' = set_ex ExMemory m else m' = set_wb (old b + 256 * old (b + 1)) m
  | 1 => m' = set_wb (old b) m
  | 2 => if odd then m' = set_ex ExMemory m
         else m' = set_physmem (physmem m') m /\
              forall c, new c = if c =? b then sd m mod 256
                                else if c =? b + 1 then sd m / 256 else old c
  | _ => m' = set_physmem (physmem m') m /\
         forall c, new c = if c =? b then sd m mod 256 else old c
  end.

Lemma memory_op_spec o addr odd m :
  0 <= o < 4 -> 0 <= addr < PhysMemSize -> words_ok (physmem m) -> is_u16 (sd m) ->
  exists m', memory_op o addr odd m = Ret (tt, m') /\ mem_op_spec o addr odd m m' /\
    words_ok (physmem m').
Proof.
  intros Ho Ha Hm Hs. pose proof (in_phys_true addr Ha) as Hp.
  pose proof (mem_at_u16 (physmem m) addr Hm) as Hw.
  pose proof (word_of_bytes (physmem m) addr Hm) as Hwb.
  pose proof (mem_byte_lo (physmem m) addr Hm) as Hb0.
  pose proof (mem_byte_hi (physmem m) addr Hm) as Hb1.
  assert (o = 0 \/ o = 1 \/ o = 2 \/ o = 3) as [-> | [-> | [-> | ->]]] by lia;
    unfold memory_op, read_phys, write_phys; rewrite Hp.
  - destruct odd; eexists; (split; [reflexivity |]); split; try exact Hm; cbn; [reflexivity |].
    rewrite Z.add_0_r. rewrite <- Hwb. reflexivity.
  - destruct odd; eexists; (split; [reflexivity |]); split; try exact Hm; cbn.
    + rewrite Hb1, shiftr_8. reflexivity.
    + rewrite Z.add_0_r, Hb0, land_ff. reflexivity.
  - destruct odd; eexists; (split; [reflexivity |]); (split; [| first [exact Hm | apply words_ok_insert; assumption]]); cbn; [reflexivity |].
    split; [reflexivity |]. intros c. rewrite mem_byte_insert, Z.add_0_r.
    rewrite (Z.mod_small (sd m / 256)) by zdivmod. reflexivity.
  - destruct odd; eexists; (split; [reflexivity |]); cbn; rewrite ?put_high_byte, ?put_low_byte by exact Hw.
    + set (w := mem_at (physmem m) addr) in *.
      split; [split; [reflexivity |] | apply words_ok_insert; [exact Hm | clearbody w; zdivmod]].
      intros c. rewrite mem_byte_insert.
      destruct (Z.eqb_spec c (2 * addr + 1)) as [-> |].
      * rewrite (proj2 (Z.eqb_neq _ _)) by lia. clearbody w; zdivmod.
      * destruct (Z.eqb_spec c (2 * addr)) as [-> |]; [| reflexivity].
        rewrite Hb0. clearbody w. zdivmod.
    + set (w := mem_at (physmem m) addr) in *. rewrite Z.add_0_r.
      split; [split; [reflexivity |] | apply words_ok_insert; [exact Hm | clearbody w; zdivmod]].
      intros c. rewrite mem_byte_insert.
      destruct (Z.eqb_spec c (2 * addr)) as [-> |].
      * clearbody w; zdivmod.
      * destruct (Z.eqb_spec c (2 * addr + 1)) as [-> |]; [| reflexivity].
        rewrite Hb1. clearbody w. zdivmod.
Qed.

(** ** The loader *)

(** The bytes [data] placed from byte address [B] on.  The loader writes whole
    words, so a last byte at an even address clears the byte after it. *)
Definition placed (data : list Z) (B : Z) (old new : gmap Z Z) : Prop :=
  forall b, mem_byte new b =
    if (B <=? b) && (b <? B + Z.of_nat (length data)) then default 0 (data !! Z.to_nat (b - B))
    else if (b =? B + Z.of_nat (length data)) && (b mod 2 =? 1) then 0
    else mem_byte old b.

Lemma placed_cons x data B old mid new :
  (mem_byte mid B = x) ->
  (forall b, b <> B -> mem_byte mid b = if (b =? B + 1) && (b mod 2 =? 1) then 0 else mem_byte old b) ->
  placed data (B + 1) mid new -> placed (x :: data) B old new.
Proof.
  intros Hx Ho Hp b. rewrite Hp. cbn [length]. rewrite Nat2Z.inj_succ.
  destruct (Z.leb_spec (B + 1) b); [rewrite (proj2 (Z.leb_le B b)) by lia |]; cbn [andb].
  - replace (B + 1 + Z.of_nat (length data)) with (B + Z.succ (Z.of_nat (length data))) by lia.
    destruct (Z.ltb_spec b (B + Z.succ (Z.of_nat (length data)))) as [Hlt | Hge].
    + replace (Z.to_nat (b - B)) with (S (Z.to_nat (b - (B + 1)))) by lia. reflexivity.
    + rewrite (Ho b) by lia. destruct (Z.eqb_spec b (B + 1)) as [-> | _]; [| reflexivity].
      destruct (Z.eqb_spec (B + 1) (B + Z.succ (Z.of_nat (length data)))); [| lia].
      destruct (_ mod 2 =? 1); reflexivity.
  - rewrite (proj2 (Z.eqb_neq b (B + 1 + _))) by lia. cbn [andb].
    destruct (Z.leb_spec B b) as [Hle | Hgt].
    + replace b with B by lia. rewrite (proj2 (Z.ltb_lt _ _)) by lia. rewrite Z.sub_diag. exact Hx.
    + rewrite (Ho b) by lia. rewrite !(proj2 (Z.eqb_neq b _)) by lia. reflexivity.
Qed.

Lemma placed_nil B old : (B mod 2 = 1 -> mem_byte old B = 0) -> placed [] B old old.
Proof.
  intros Hodd b. cbn [length]. rewrite Z.add_0_r.
  destruct (Z.leb_spec B b), (Z.ltb_spec b B), (Z.eqb_spec b B) as [-> |]; cbn; try lia; try reflexivity.
  destruct (Z.eqb_spec (B mod 2) 1) as [E |]; [apply Hodd, E | reflexivity].
Qed.

(** One iteration of the read loop, which moves from byte [B] to byte [B + 1]. *)
Section LoadByte.
Context (x off n : Z) (m : w4machine) (Hx : is_u8 x) (Hm : words_ok (physmem m)) (Hoff : 0 <= off)
  (Hp : in_phys off = true).

Definition byte_loaded (off' : Z) (mem1 : gmap Z Z) : Prop :=
  let B := 2 * off + n mod 2 in
  (forall data, load_bytes (x :: data) off n m = load_bytes data off' (n + 1) (set_physmem mem1 m)) /\
  2 * off' + (n + 1) mod 2 = B + 1 /\ words_ok mem1 /\ mem_byte mem1 B = x /\
  (forall b, b <> B -> mem_byte mem1 b =
     if (b =? B + 1) && (b mod 2 =? 1) then 0 else mem_byte (physmem m) b).

Lemma load_byte_even : n mod 2 = 0 -> byte_loaded off (<[off := x]> (physmem m)).
Proof using Hx Hm Hp.
  intros Hn. unfold byte_loaded. cbv zeta. rewrite Hn, Z.add_0_r. split; [| split; [| split; [| split]]].
  - intros data. cbn [load_bytes]. rewrite land_bit0, Hn. cbn [Z.eqb]. unfold write_phys. rewrite Hp.
    reflexivity.
  - Z.div_mod_to_equations; lia.
  - apply words_ok_insert; [exact Hm | unfold is_u8, is_u16 in *; lia].
  - rewrite mem_byte_insert, Z.eqb_refl. zdivmod.
  - intros b Hb. rewrite mem_byte_insert, (proj2 (Z.eqb_neq b (2 * off))) by lia.
    destruct (Z.eqb_spec b (2 * off + 1)) as [-> |]; [| reflexivity].
    replace ((2 * off + 1) mod 2) with 1 by (Z.div_mod_to_equations; lia). cbn. zdivmod.
Qed.

Lemma load_byte_odd :
  n mod 2 = 1 -> mem_byte (physmem m) (2 * off + 1) = 0 ->
  byte_loaded (off + 1) (<[off := x * 256 + mem_at (physmem m) off]> (physmem m)).
Proof using Hx Hm Hp.
  intros Hn Hz. pose proof (mem_at_u16 (physmem m) off Hm) as Hw.
  rewrite (mem_byte_hi _ _ Hm) in Hz. unfold byte_loaded. cbv zeta. rewrite Hn.
  set (w := mem_at (physmem m) off) in *. assert (Hw8 : 0 <= w < 256) by (clearbody w; zdivmod).
  split; [| split; [| split; [| split]]].
  - intros data. cbn [load_bytes]. rewrite land_bit0, Hn. cbn [Z.eqb]. unfold read_phys, write_phys.
    rewrite Hp. unfold mbind, M_bind, modify, gets. fold w. do 4 f_equal.
    rewrite shiftl_8, u16_id by (unfold is_u8, is_u16 in *; lia).
    rewrite <- (shiftl_8 x) at 1. apply lor_add_shiftl; lia.
  - Z.div_mod_to_equations; lia.
  - apply words_ok_insert; [exact Hm | unfold is_u8, is_u16 in *; lia].
  - rewrite mem_byte_insert, Z.eqb_refl, (proj2 (Z.eqb_neq _ _)) by lia.
    unfold is_u8 in Hx. clearbody w. zdivmod.
  - intros b Hb. rewrite mem_byte_insert, (proj2 (Z.eqb_neq b (2 * off + 1))) by lia.
    destruct (Z.eqb_spec b (2 * off)) as [-> |].
    + rewrite (proj2 (Z.eqb_neq _ _)) by lia. cbn. rewrite mem_byte_lo by exact Hm. fold w.
      clearbody w. zdivmod.
    + destruct (Z.eqb_spec b (2 * off + 1 + 1)) as [-> |]; [| reflexivity].
      replace ((2 * off + 1 + 1) mod 2) with 0 by (Z.div_mod_to_equations; lia). reflexivity.
Qed.

End LoadByte.

Lemma load_bytes_spec data off n m :
  Forall is_u8 data -> words_ok (physmem m) -> 0 <= off ->
  2 * off + n mod 2 + Z.of_nat (length data) <= 2 * PhysMemSize ->
  (n mod 2 = 1 -> mem_byte (physmem m) (2 * off + 1) = 0) ->
  exists mem', load_bytes data off n m = Ret (n + Z.of_nat (length data), set_physmem mem' m) /\
    placed data (2 * off + n mod 2) (physmem m) mem' /\ words_ok mem'.
Proof.
  revert off n m. induction data as [| x data IH]; intros off n m Hd Hm Hoff Hlen Hodd.
  - exists (physmem m). cbn [length]. rewrite !Z.add_0_r. split; [destruct m; reflexivity |].
    split; [| exact Hm]. apply placed_nil. intros H. assert (n mod 2 = 1) as -> by (Z.div_mod_to_equations; lia).
    apply Hodd. Z.div_mod_to_equations; lia.
  - inversion_clear Hd as [| ? ? Hx Hd']. cbn [length] in *. rewrite Nat2Z.inj_succ in *.
    pose proof (Z.mod_pos_bound n 2 ltac:(lia)) as Hn2.
    assert (Hp : in_phys off = true) by (apply in_phys_true; lia).
    assert (exists off' mem1, byte_loaded x off n m off' mem1 /\ 0 <= off') as (off' & mem1 & H & Hoff').
    { destruct (Z.eq_dec (n mod 2) 0) as [E | E]; do 2 eexists.
      - split; [apply load_byte_even | exact Hoff]; assumption.
      - split; [apply load_byte_odd |]; auto with lia. }
    destruct H as (Hrun & HB & Hok & Hb & Ho).
    destruct (IH off' (n + 1) (set_physmem mem1 m)) as (mem' & Hrun' & Hpl & Hok'); auto; [lia | |].
    + intros Hn1. cbn. replace (2 * off' + 1) with (2 * off + n mod 2 + 1) by lia.
      rewrite Ho, Z.eqb_refl by lia. replace ((2 * off + n mod 2 + 1) mod 2) with 1 by (Z.div_mod_to_equations; lia).
      reflexivity.
    + exists mem'. rewrite Hrun, Hrun'. split; [rewrite <- Z.add_assoc, (Z.add_comm 1); reflexivity |].
      split; [| exact Hok']. rewrite HB in Hpl. eapply placed_cons; eauto.
Qed.

(** The word offset at which [load] starts. *)
Definition load_off (md : Z) : Z := if md =? User then maxSizeBytes / 2 else 0.

Definition load_error (size : Z) (data : list Z) : option string :=
  if maxSizeBytes <? size then Some "not a binary"%string
  else if Z.of_nat (length data) =? size then None
  else Some "load didn't read the entire file"%string.

Lemma load_spec md size data m :
  Forall is_u8 data -> words_ok (physmem m) -> Z.of_nat (length data) <= maxSizeBytes ->
  exists mem', load md size data m = Ret (load_error size data, set_physmem mem' m) /\
    words_ok mem' /\
    if maxSizeBytes <? size then mem' = physmem m
    else placed data (2 * load_off md) (physmem m) mem'.
Proof.
  intros Hd Hm Hl. unfold load, load_error. destruct (maxSizeBytes <? size).
  - exists (physmem m). split; [destruct m; reflexivity | auto].
  - fold (load_off md). assert (Ho : 0 <= load_off md <= maxSizeBytes / 2).
    { unfold load_off. unfold maxSizeBytes, K. destruct (md =? User); zdivmod. }
    assert (HM : 2 * (maxSizeBytes / 2) + maxSizeBytes <= 2 * PhysMemSize) by (unfold maxSizeBytes, PhysMemSize, K; zdivmod).
    destruct Ho as [Ho1 Ho2].
    destruct (load_bytes_spec data (load_off md) 0 m) as (mem' & Hrun & Hpl & Hok); auto.
    + change (0 mod 2) with 0. lia.
    + change (0 mod 2) with 0. intros H. discriminate H.
    + rewrite Z.add_0_l in Hrun. exists mem'. unfold mbind, M_bind. rewrite Hrun.
      change (0 mod 2) with 0 in Hpl. rewrite Z.add_0_r in Hpl.
      split; [destruct (_ =? size); reflexivity | auto].
Qed.

(** ** The core file *)

Lemma pairs_lookup (f : Z -> Z * Z) l (i : nat) :
  (mjoin ((fun k => [(f k).1; (f k).2]) <$> l)) !! i =
    (fun k => if Nat.even i then (f k).1 else (f k).2) <$> l !! Nat.div2 i.
Proof.
  revert i. induction l as [| k l IH]; intros i; [reflexivity |].
  destruct i as [| [| i]]; [reflexivity | reflexivity |]. exact (IH i).
Qed.

Lemma core_lookup mem i :
  words_ok mem -> 0 <= i < 2 * PhysMemSize -> core mem !! Z.to_nat i = Some (mem_byte mem i).
Proof.
  intros Hm Hi. unfold core.
  rewrite (pairs_lookup (fun k => (mem_at mem k mod 256, mem_at mem k / 256))).
  assert (Hd : Z.of_nat (Nat.div2 (Z.to_nat i)) = i / 2).
  { rewrite Nat.div2_div, Nat2Z.inj_div, Z2Nat.id by lia. reflexivity. }
  destruct (byte_addr i) as [Hb Hr].
  rewrite lookup_seqZ_lt by lia. cbn [fmap option_fmap option_map fst snd]. f_equal.
  rewrite Hd, Z.add_0_l.
  destruct (Nat.even (Z.to_nat i)) eqn:He.
  - apply Nat.even_spec in He. destruct He as [j Hj].
    assert (i mod 2 = 0) by (Z.div_mod_to_equations; lia).
    replace i with (2 * (i / 2)) at 2 by lia. rewrite mem_byte_lo by exact Hm. reflexivity.
  - assert (Ho : Nat.odd (Z.to_nat i) = true) by (unfold Nat.odd; rewrite He; reflexivity).
    apply Nat.odd_spec in Ho. destruct Ho as [j Hj].
    assert (i mod 2 = 1) by (Z.div_mod_to_equations; lia).
    replace i with (2 * (i / 2) + 1) at 2 by lia. rewrite mem_byte_hi by exact Hm. reflexivity.
Qed.

Lemma core_slice mem data B :
  words_ok mem -> 0 <= B -> B + Z.of_nat (length data) <= 2 * PhysMemSize ->
  (forall b, 0 <= b < Z.of_nat (length data) -> mem_byte mem (B + b) = default 0 (data !! Z.to_nat b)) ->
  take (length data) (drop (Z.to_nat B) (core mem)) = data.
Proof.
  intros Hm HB Hl Hb. apply list_eq. intros i. destruct (decide (i < length data)%nat) as [Hi | Hi].
  - rewrite lookup_take_lt, lookup_drop by exact Hi.
    replace (Z.to_nat B + i)%nat with (Z.to_nat (B + Z.of_nat i)) by lia.
    rewrite core_lookup, Hb by (assumption || lia). rewrite Nat2Z.id.
    destruct (lookup_is_Some_len data i Hi) as [x ->]. reflexivity.
  - rewrite lookup_take_ge, lookup_ge_None_2 by lia. reflexivity.
Qed.

(** ** Booting *)

Lemma machine_ok_w4 : machine_ok w4.
Proof.
  assert (Hz : wf_reg zero_reg).
  { repeat split; apply Forall_replicate; unfold is_u16; lia. }
  constructor; cbn; auto; try lia.
  - unfold is_u16. lia.
  - left. reflexivity.
  - apply map_Forall_empty.
Qed.

Lemma machine_ok_physmem m mem : machine_ok m -> words_ok mem -> machine_ok (set_physmem mem m).
Proof. intros [] Hm. constructor; assumption. Qed.

Lemma machine_ok_incr m : machine_ok m -> machine_ok (incr_cyc m).
Proof. intros []. constructor; try assumption. cbn. apply Z.mod_pos_bound. reflexivity. Qed.

Lemma reset_spec m :
  machine_ok m ->
  exists m', reset m = Ret (tt, m') /\ machine_ok m' /\
    abs m' = Arch 0 (sput Imr User (kern_reg m)) (user_reg m) 0 true false KMode 0 (hc m) (physmem m).
Proof.
  intros Hok. pose proof (two_regs m (mo_reg m Hok)) as Hr. pose proof Hok as [Hlen Hregs _ _ _ Hhc Hmem _].
  rewrite Hr in Hregs. inversion_clear Hregs as [| ? ? Hk Hus]. inversion_clear Hus as [| ? ? Hu _].
  destruct (lookup_is_Some_len (spr (kern_reg m)) (Z.to_nat Imr)) as [x Hx].
  { destruct Hk as (_ & -> & _). unfold Imr. lia. }
  set (m' := set_reg [sput Imr User (kern_reg m); user_reg m]
               (set_en false (set_ex 0 (set_mode Kern (set_run true (set_pc 0 (set_cyc 0 m))))))).
  exists m'. split; [| split].
  - unfold reset, set_spr, get_reg, put_reg, mbind, M_bind, modify, gets.
    cbn [reg set_cyc set_pc set_run set_mode set_ex set_en]. rewrite Hr.
    change ([kern_reg m; user_reg m] !! Z.to_nat Kern) with (Some (kern_reg m)).
    cbn [from_opt mret M_ret]. rewrite Hx.
    cbn [from_opt mret M_ret reg set_cyc set_pc set_run set_mode set_ex set_en]. rewrite Hr. reflexivity.
  - constructor; cbn; auto; try lia.
    + repeat apply Forall_cons_2; [apply wf_sput | | constructor]; try assumption. unfold is_u16, User. lia.
    + unfold is_u16. lia.
    + left. reflexivity.
  - reflexivity.
Qed.

(** [Some msg] results of [load] leave the machine well formed too. *)
Lemma boot_ok kern user m :
  Forall is_u8 kern.2 -> Z.of_nat (length kern.2) <= maxSizeBytes ->
  match user with
  | Some f => Forall is_u8 f.2 /\ Z.of_nat (length f.2) <= maxSizeBytes
  | None => True
  end ->
  boot kern user w4 = Ret (None, m) ->
  machine_ok m /\ ex m = 0 /\ rget (kern_reg m) 0 = 0.
Proof.
  intros Hk Hkl Hu. unfold boot.
  destruct (load_spec Kern kern.1 kern.2 w4 Hk (mo_mem _ machine_ok_w4) Hkl) as (mem1 & H1 & Hok1 & _).
  unfold mbind, M_bind. rewrite H1. destruct (load_error kern.1 kern.2); [discriminate |].
  set (m1 := set_physmem mem1 w4).
  assert (Hm1 : machine_ok m1) by (apply machine_ok_physmem; [apply machine_ok_w4 | exact Hok1]).
  assert (Hreset : forall m2, machine_ok m2 -> kern_reg m2 = zero_reg ->
            match reset m2 with Ret (_, s) => (mret None : W (option string)) s | Panic w => Panic w end = Ret (None, m) ->
            machine_ok m /\ ex m = 0 /\ rget (kern_reg m) 0 = 0).
  { intros m2 Hm2 Hz. destruct (reset_spec m2 Hm2) as (m' & -> & Hok' & Ha). intros H. inversion H; subst.
    split; [exact Hok' |]. split; [exact (f_equal a_ex Ha) |].
    change (rget (a_kern (abs m)) 0 = 0). rewrite Ha. cbn [a_kern]. rewrite Hz. reflexivity. }
  destruct user as [f |].
  - destruct Hu as [Hu Hul].
    destruct (load_spec User f.1 f.2 m1 Hu (mo_mem _ Hm1) Hul) as (mem2 & H2 & Hok2 & _).
    rewrite H2. destruct (load_error f.1 f.2); [discriminate |].
    apply Hreset; [apply machine_ok_physmem; assumption | reflexivity].
  - exact (Hreset m1 Hm1 eq_refl).
Qed.

(** ** The cycle counter *)

Lemma cyc_with_cur f a : a_cyc (with_cur f a) = a_cyc a.
Proof. unfold with_cur. destruct (a_mode a); reflexivity. Qed.

Lemma cyc_write_ra r v a : a_cyc (write_ra r v a) = a_cyc a.
Proof. unfold write_ra. destruct (r =? 0); [reflexivity | apply cyc_with_cur]. Qed.

Lemma exec_cyc i a : next_ok (fun a' => a_cyc a' = a_cyc a) (exec_instr i a).
Proof.
  destruct i; cbn [exec_instr]; unfold Isa.load, Isa.store, kernel_only, rti_step, jlr_step, write_spr, fault;
    repeat case_match; simplify_eq; cbn [next_ok]; try exact I; rewrite ?cyc_write_ra; try reflexivity;
    cbn; rewrite ?cyc_with_cur; try reflexivity.
Qed.

Lemma step_cyc a : next_ok (fun a' => a_cyc a' = a_cyc a) (isa_step a).
Proof.
  assert (H : forall b, next_ok (fun a' => a_cyc a' = a_cyc b) (isa_fetch_exec b)).
  { intros b. unfold isa_fetch_exec. destruct (xlate _ _ _) as [p |]; [| reflexivity].
    destruct (p =? PhysMemSize); [exact I |]. apply (exec_cyc _ (with_pc _ b)). }
  unfold isa_step. repeat case_if; [apply H | exact (H (enter a)) | exact I].
Qed.

Lemma cycle_cyc m m' : machine_ok m -> cycle m = Ret (tt, m') -> cyc m' = cyc m.
Proof.
  intros Hok Hc. destruct (cycle_next m m' Hok Hc) as [Hs _].
  pose proof (step_cyc (abs m)) as H. rewrite Hs in H. exact H.
Qed.

(** ** User mode does not crash the emulator *)

(** No MMU entry selects the page that starts at the end of physical memory. *)
Definition mmu_safe (rg : w4reg) : Prop :=
  forall k, 0 <= k < 16 -> sget rg (32 + k) mod 4096 <> 96 /\ sget rg (48 + k) mod 4096 <> 192.

Lemma mmu_safe_index isData rg va : mmu_safe rg -> is_u16 va -> phys_index isData rg va <> PhysMemSize.
Proof.
  intros Hs Hva. destruct (Hs (va / 4096)) as [Hc Hd]; [zdivmod |].
  unfold phys_index, PhysMemSize, K. destruct isData.
  - change (32 + 16) with 48. set (e := sget rg (48 + va / 4096)) in *. clearbody e. zdivmod.
  - change (32 + 0) with 32. set (e := sget rg (32 + va / 4096)) in *. clearbody e. zdivmod.
Qed.

Lemma mmu_safe_xlate isData rg va p :
  mmu_safe rg -> is_u16 va -> xlate isData rg va = Phys p -> (p =? PhysMemSize) = false.
Proof.
  intros Hs Hva. unfold xlate. destruct (_ <? _); [discriminate |]. intros H; inversion H; subst.
  apply Z.eqb_neq, mmu_safe_index; assumption.
Qed.

Section UserSafe.
Context (a : arch) (Hm : a_mode a = UMode) (Hs : mmu_safe (a_user a)).

Lemma user_exec_safe i : exec_instr i a <> Crash.
Proof using Hm Hs.
  pose proof (cur_user a Hm) as Hc.
  assert (Hl : forall b r va, is_u16 va -> Isa.load b r va a <> Crash).
  { intros b r va Hva. unfold Isa.load. destruct (xlate true (a_cur a) va) as [p |] eqn:Hx; [| discriminate].
    rewrite Hc in Hx. rewrite (mmu_safe_xlate true _ va p Hs Hva Hx). destruct (_ && _); discriminate. }
  assert (Ht : forall b v va, is_u16 va -> store b v va a <> Crash).
  { intros b v va Hva. unfold store. destruct (xlate true (a_cur a) va) as [p |] eqn:Hx; [| discriminate].
    rewrite Hc in Hx. rewrite (mmu_safe_xlate true _ va p Hs Hva Hx). destruct (_ && _); discriminate. }
  destruct i; cbn [exec_instr]; unfold kernel_only, jlr_step, read_spr, write_spr; rewrite ?Hm;
    try apply Hl; try apply Ht; try apply eff_addr_u16; repeat case_match; simplify_eq;
    try discriminate. apply Hl, eff_addr_u16.
Qed.

End UserSafe.

Lemma user_step_safe a :
  wf_arch a -> a_mode a = UMode -> a_ex a = 0 -> mmu_safe (a_user a) -> isa_step a <> Crash.
Proof.
  intros Hwf Hm Hex Hs. unfold isa_step. rewrite Hex. cbn [Z.eqb]. unfold isa_fetch_exec.
  rewrite (cur_user a Hm). destruct (xlate false (a_user a) (a_pc a)) as [p |] eqn:Hx; [| discriminate].
  rewrite (mmu_safe_xlate false _ _ p Hs (wf_pc a Hwf) Hx). apply user_exec_safe; assumption.
Qed.

(** ** Runs of user-mode instructions *)

(** Turns of the loop of [simulate], [w4.cyc++] included, with an instruction of the user in each. *)
Inductive user_run : w4machine -> w4machine -> Prop :=
| user_run_refl m : user_run m m
| user_run_step m m1 m2 :
    mode m = User -> ex m = 0 -> cycle m = Ret (tt, m1) -> user_run (incr_cyc m1) m2 -> user_run m m2.

(** The physical words that the user's data MMU maps. *)
Definition user_maps (m : w4machine) (p : Z) : Prop :=
  exists va, is_u16 va /\ xlate true (user_reg m) va = Phys p /\ p < PhysMemSize.

(** What a run of user code may not touch. *)
Record isolated (m m' : w4machine) : Prop := {
  iso_mode : mode m' = User;
  iso_kern : kern_reg m' = kern_reg m;
  iso_en : en m' = en m;
  iso_run : run m' = run m;
  iso_spr : forall n, n <> Link -> 0 <= n -> sget (user_reg m') n = sget (user_reg m) n;
  iso_mem : forall p, ~ user_maps m p -> mem_at (physmem m') p = mem_at (physmem m) p
}.

Lemma xlate_same isData rg rg' va :
  (forall n, n <> Link -> 0 <= n -> sget rg' n = sget rg n) -> is_u16 va ->
  xlate isData rg' va = xlate isData rg va.
Proof.
  intros H Hva. unfold xlate, phys_index. rewrite H; [reflexivity | |];
    unfold Link; destruct isData; zdivmod.
Qed.

Lemma abs_user m : mode m = User -> a_mode (abs m) = UMode.
Proof. intros H. cbn. rewrite H. reflexivity. Qed.

Lemma user_cycle_isolated m m1 :
  machine_ok m -> mode m = User -> ex m = 0 -> cycle m = Ret (tt, m1) -> isolated m m1.
Proof.
  intros Hok Hm Hex Hc. destruct (cycle_next m m1 Hok Hc) as [Hs Hok1].
  pose proof (step_confined (abs m) (abs_user m Hm) Hex) as H. rewrite Hs in H.
  destruct H as [Hmode Hkern Hen Hrun _ Hspr Hmem]. constructor; auto.
  - cbn in Hmode. rewrite Hm in Hmode. destruct (mo_mode m1 Hok1) as [E | E]; [| exact E].
    rewrite E in Hmode. discriminate.
  - intros p Hp. cbn in Hmem. destruct Hmem as [-> | (va & q & w & Hva & Hx & Hq & ->)]; [reflexivity |].
    rewrite mem_at_insert. destruct (Z.eqb_spec p q) as [-> |]; [| reflexivity].
    destruct Hp. exists va. auto.
Qed.

Lemma isolated_trans m m1 m2 : isolated m m1 -> isolated m1 m2 -> isolated m m2.
Proof.
  intros [] []. constructor; try congruence.
  - intros n Hn H0. rewrite iso_spr1, iso_spr0 by assumption. reflexivity.
  - intros p Hp. rewrite iso_mem1, iso_mem0; [reflexivity | exact Hp |].
    intros (va & Hva & Hx & Hlt). apply Hp. exists va.
    rewrite (xlate_same true (user_reg m) (user_reg m1) va iso_spr0 Hva) in Hx. auto.
Qed.

Lemma user_run_isolated m m' :
  machine_ok m -> mode m = User -> user_run m m' -> isolated m m' /\ machine_ok m'.
Proof.
  intros Hok Hm Hr. induction Hr as [m | m m1 m2 Hu Hex Hc _ IH].
  - split; [constructor; auto | exact Hok].
  - assert (H1 : isolated m (incr_cyc m1)) by (destruct (user_cycle_isolated m m1 Hok Hu Hex Hc); constructor; assumption).
    destruct (cycle_next m m1 Hok Hc) as [_ Hok1].
    destruct (IH (machine_ok_incr m1 Hok1) (iso_mode m _ H1)) as [H2 Hok2]. split; [eapply isolated_trans; eauto | exact Hok2].
Qed.
