(* ===== verification/EmulTheorems.v ===== *)
(** * The theorems of the emulator

    What emul/ guarantees, stated of [Machine], [Exec] and [Sim]: the cycle
    refines the instruction set, the machine invariant of every reachable
    state, isolation of user code, exceptions, the loader and the cycle counter.
    Each theorem with hypotheses is followed by an instance. *)

From stdpp Require Import relations.
From S2P Require Import Prelude Machine Exec Isa Decoder Refine IsaProps Sim EmulProps.

(** ** Reachable states *)

(** The states at the head of the loop of [simulate], started by [boot] from the
    initial global variables. *)
Inductive reachable : w4machine -> Prop :=
| reach_boot kern user m :
    Forall is_u8 kern.2 -> Z.of_nat (length kern.2) <= maxSizeBytes ->
    match user with
    | Some f => Forall is_u8 f.2 /\ Z.of_nat (length f.2) <= maxSizeBytes
    | None => True
    end ->
    boot kern user w4 = Ret (None, m) -> reachable (incr_cyc m)
| reach_step m m' : reachable m -> sim_step m m' -> reachable m'.

Lemma sim_step_ok m m' :
  machine_ok m -> sim_step m m' -> machine_ok m' /\ (ex m' <> 0 -> en m' = true).
Proof.
  intros Hok Hs. destruct Hs as [m m1 Hrun Hc Hd]. destruct (cycle_next m m1 Hok Hc) as [_ Hok1].
  split; [apply machine_ok_incr, Hok1 |]. cbn. intros Hex. unfold double_fault in Hd.
  destruct (en m1); [reflexivity |]. rewrite (proj2 (Z.eqb_neq _ _) Hex) in Hd. discriminate.
Qed.

(** ** The main loop *)

Lemma nsteps_cyc n m m' :
  machine_ok m -> nsteps sim_step n m m' -> machine_ok m' /\ u64 (cyc m') = u64 (cyc m + Z.of_nat n).
Proof.
  revert m. induction n as [| n IH]; intros m Hok Hn; inversion Hn as [| ? ? m1 ? H1 Hn']; subst.
  - rewrite Z.add_0_r. auto.
  - destruct (sim_step_ok m m1 Hok H1) as [Hok1 _]. destruct (IH m1 Hok1 Hn') as [Hok' ->].
    split; [exact Hok' |]. destruct H1 as [m m2 Hr Hc _]. cbn. rewrite (cycle_cyc m m2 Hok Hc).
    unfold u64. rewrite Zplus_mod_idemp_l. f_equal. lia.
Qed.

(** ** Exceptions *)

Lemma enter_fetch a :
  wf_arch a -> ex_ok (a_ex a) -> xlate false (a_cur (enter a)) (a_ex a) = xlate false (a_kern a) (a_ex a).
Proof.
  intros Hwf He. unfold xlate, phys_index. cbn [enter a_cur reg_of a_mode with_ex with_en with_pc with_mode
    a_kern with_kern].
  assert (H : 0 <= a_ex a <= 62) by (destruct He as [-> | []]; lia).
  assert (Hd : a_ex a / 4096 = 0) by (Z.div_mod_to_equations; lia). rewrite Hd.
  rewrite !sget_sput_ne by (unfold Irr, Icr, Imr; lia). reflexivity.
Qed.

(** The outcome of a step whose exception handler is a single [rti]. *)
Lemma rti_handler a p :
  wf_arch a -> a_ex a <> 0 -> a_en a = true ->
  xlate false (a_kern a) (a_ex a) = Phys p -> p < PhysMemSize -> mem_at (a_mem a) p = 0xFFF8 ->
  exists a', isa_step a = Next a' /\ a_pc a' = a_pc a /\ a_mode a' = a_mode a /\ a_ex a' = 0 /\
    a_en a' = true /\ gen (a_kern a') = gen (a_kern a) /\ a_user a' = a_user a /\ a_mem a' = a_mem a.
Proof.
  intros Hwf Hex Hen Hx Hp Hw. unfold isa_step. rewrite (proj2 (Z.eqb_neq _ _) Hex), Hen.
  unfold isa_fetch_exec. change (a_pc (enter a)) with (a_ex a).
  rewrite (enter_fetch a Hwf (wf_ex a Hwf)), Hx, (proj2 (Z.eqb_neq p PhysMemSize)) by lia.
  change (a_mem (enter a)) with (a_mem a). rewrite Hw.
  change (decode_instr 0xFFF8) with Rti.
  destruct (enter_rti a Hwf) as (a' & Ha & H). cbn [exec_instr] in *.
  change (kernel_only (with_pc ((a_ex a + 1) mod 65536) (enter a))
            (rti_step (with_pc ((a_ex a + 1) mod 65536) (enter a)))) with (kernel_only (enter a) (rti_step (enter a))).
  rewrite Ha. exists a'. auto.
Qed.

(** ** The refinement *)

(** C1: from every machine that satisfies the invariant, one turn of the
    five-stage loop (fetch, decode, execute, memory, writeback) performs exactly
    the step that the instruction set prescribes: it returns in a machine that
    represents the prescribed next state and satisfies the invariant again, or
    it panics where the specification says that the emulator crashes. *)
Theorem cycle_refines_isa (m : w4machine) (Hok : machine_ok m) :
  match isa_step (abs m) with
  | Next a' => exists m', cycle m = Ret (tt, m') /\ abs m' = a' /\ machine_ok m'
  | Crash => exists why, cycle m = Panic why
  end.
Proof. exact (cycle_cases m Hok). Qed.

(** A machine with the given words at the bottom of memory. *)
Definition with_words (ws : list Z) (m : w4machine) : w4machine :=
  set_physmem (list_to_map (zip (seqZ 0 (Z.of_nat (length ws))) ws)) m.

Lemma words_ok_list l : Forall is_u16 l.*2 -> words_ok (list_to_map l).
Proof.
  induction l as [| [k v] l IH]; cbn; intros H; [apply map_Forall_empty |].
  inversion_clear H. apply words_ok_insert; auto.
Qed.

Lemma machine_ok_with_words ws m : machine_ok m -> Forall is_u16 ws -> machine_ok (with_words ws m).
Proof.
  intros Hm Hw. apply machine_ok_physmem; [exact Hm |]. apply words_ok_list.
  rewrite snd_zip; [exact Hw | rewrite length_seqZ; lia].
Qed.

Lemma machine_ok_mode m md : machine_ok m -> md = Kern \/ md = User -> machine_ok (set_mode md m).
Proof. intros [] H. constructor; assumption. Qed.

Lemma machine_ok_ex m e : machine_ok m -> ex_ok e -> machine_ok (set_ex e m).
Proof. intros [] H. constructor; assumption. Qed.

Lemma machine_ok_en m b : machine_ok m -> machine_ok (set_en b m).
Proof. intros []. constructor; assumption. Qed.

Lemma machine_ok_pc m v : machine_ok m -> is_u16 v -> machine_ok (set_pc v m).
Proof. intros [] H. constructor; assumption. Qed.

Lemma machine_ok_run m b : machine_ok m -> machine_ok (set_run b m).
Proof. intros []. constructor; assumption. Qed.

Ltac solve_ok :=
  repeat first [ apply machine_ok_w4 | apply machine_ok_with_words | apply machine_ok_mode
               | apply machine_ok_ex | apply machine_ok_en | apply machine_ok_pc | apply machine_ok_run ];
  try (repeat (apply Forall_cons_2 || apply Forall_nil_2); unfold is_u16; lia);
  try (left; reflexivity); try (right; split; [lia | reflexivity]); try (right; reflexivity);
  try (unfold is_u16; lia).

(** [adi r1, r0, 5; stw r1, r0, 8; hlt] *)
Definition demo : w4machine := with_words [41281; 16897; 65532] (set_run true w4).

Lemma cycle_refines_isa_witness :
  match isa_step (abs demo) with
  | Next a' => exists m', cycle demo = Ret (tt, m') /\ abs m' = a' /\ machine_ok m'
  | Crash => exists why, cycle demo = Panic why
  end.
Proof. apply (cycle_refines_isa demo). unfold demo. solve_ok. Defined.

(** C2: in every state that the emulator reaches at the head of its main loop,
    from any pair of binaries that load without an error, the machine invariant
    holds (two register files of 8 and 64 16-bit words, a legal mode, a legal
    exception code, a one-bit carry, 16-bit memory words), and an exception is
    pending only with interrupts enabled, so the assertion of [fetch] holds. *)
Theorem reachable_invariant (m : w4machine) (H : reachable m) :
  machine_ok m /\ (ex m <> 0 -> en m = true).
Proof.
  induction H as [kern user m Hk Hkl Hu Hb | m m' _ [IH _] Hs].
  - destruct (boot_ok kern user m Hk Hkl Hu Hb) as (Hok & Hex & _).
    split; [apply machine_ok_incr, Hok |]. intros Hne. destruct (Hne Hex).
  - exact (sim_step_ok m m' IH Hs).
Qed.

Lemma boot_demo : exists m, boot (2, [252; 255]) None w4 = Ret (None, m) /\ ex m = 0.
Proof. vm_compute. eexists. split; reflexivity. Qed.

Lemma reachable_invariant_witness :
  exists m, reachable m /\ machine_ok m /\ (ex m <> 0 -> en m = true).
Proof.
  destruct boot_demo as (m & Hb & _). exists (incr_cyc m).
  assert (Hr : reachable (incr_cyc m)).
  { apply (reach_boot (2, [252; 255]) None m); auto.
    - repeat apply Forall_cons_2; try apply Forall_nil_2; unfold is_u8; cbn; lia.
    - unfold maxSizeBytes, K. cbn. lia. }
  split; [exact Hr | exact (reachable_invariant (incr_cyc m) Hr)].
Defined.

(** ** Isolation of user code *)

(** C3: a run of user-mode instructions, of any length and whatever the
    instructions are, leaves the kernel's registers, the interrupt enable, the
    run flag, every special register of the user except [Link] (so the whole
    user MMU) and every physical word that the user's data MMU does not map as
    they were, and stays in user mode until an exception is taken. *)
Theorem user_isolation (m m' : w4machine) (Hok : machine_ok m) (Hm : mode m = User)
    (Hr : user_run m m') :
  isolated m m' /\ machine_ok m'.
Proof. exact (user_run_isolated m m' Hok Hm Hr). Qed.

Definition user_demo : w4machine := with_words [41281; 16897; 65532] (set_mode User (set_run true w4)).

Lemma user_demo_ok : machine_ok user_demo.
Proof. unfold user_demo. solve_ok. Qed.

(** The machine after one cycle. *)
Definition after_cycle (m : w4machine) : w4machine :=
  match cycle m with Ret (_, m') => m' | Panic _ => m end.

Lemma user_isolation_witness :
  user_run user_demo (incr_cyc (after_cycle user_demo)) /\ rget (user_reg (after_cycle user_demo)) 1 = 5 /\
  isolated user_demo (incr_cyc (after_cycle user_demo)) /\ machine_ok (incr_cyc (after_cycle user_demo)).
Proof.
  assert (Hr : user_run user_demo (incr_cyc (after_cycle user_demo))).
  { eapply user_run_step; [reflexivity | reflexivity | | apply user_run_refl]. vm_compute. reflexivity. }
  split; [exact Hr |]. split; [reflexivity |].
  apply (user_isolation user_demo _ user_demo_ok eq_refl Hr).
Defined.

(** C4: user code cannot crash the emulator unless the kernel gives it an MMU
    entry for the page that starts exactly at the end of physical memory (code
    page 96, data page 192): after any run of user-mode instructions the next
    cycle returns. *)
Theorem user_never_panics (m m' : w4machine) (Hok : machine_ok m) (Hm : mode m = User)
    (Hs : mmu_safe (user_reg m)) (Hr : user_run m m') (Hex : ex m' = 0) :
  exists m2, cycle m' = Ret (tt, m2).
Proof.
  destruct (user_run_isolated m m' Hok Hm Hr) as [Hiso Hok'].
  assert (Hs' : mmu_safe (user_reg m')).
  { intros k Hk. rewrite !(iso_spr m m' Hiso) by (unfold Link; lia). apply Hs, Hk. }
  pose proof (user_step_safe (abs m') (machine_ok_wf m' Hok') (abs_user m' (iso_mode m m' Hiso)) Hex Hs') as Hc.
  pose proof (cycle_cases m' Hok') as H. destruct (isa_step (abs m')); [| destruct (Hc eq_refl)].
  destruct H as (m2 & H & _). eauto.
Qed.

Lemma user_never_panics_witness : exists m2, cycle user_demo = Ret (tt, m2).
Proof.
  apply (user_never_panics user_demo user_demo user_demo_ok eq_refl); [| apply user_run_refl | reflexivity].
  intros k Hk.
  assert (k = 0 \/ k = 1 \/ k = 2 \/ k = 3 \/ k = 4 \/ k = 5 \/ k = 6 \/ k = 7 \/ k = 8 \/ k = 9 \/
          k = 10 \/ k = 11 \/ k = 12 \/ k = 13 \/ k = 14 \/ k = 15) as H by lia.
  repeat destruct H as [-> | H]; try (split; discriminate). subst; split; discriminate.
Defined.

(** C5: an exception and a return from it are transparent.  When an exception is
    pending and the word at its vector is [rti], the cycle that takes it ends
    with the interrupted program counter, mode, general registers, user
    registers and memory unchanged, the exception cleared and interrupts
    enabled. *)
Theorem exception_round_trip (m : w4machine) (p : Z) (Hok : machine_ok m) (Hex : ex m <> 0)
    (Hen : en m = true) (Hx : xlate false (kern_reg m) (ex m) = Phys p) (Hp : p < PhysMemSize)
    (Hw : mem_at (physmem m) p = 0xFFF8) :
  exists m', cycle m = Ret (tt, m') /\ pc m' = pc m /\ mode m' = mode m /\ ex m' = 0 /\ en m' = true /\
    gen (kern_reg m') = gen (kern_reg m) /\ user_reg m' = user_reg m /\ physmem m' = physmem m.
Proof.
  destruct (rti_handler (abs m) p (machine_ok_wf m Hok) Hex Hen Hx Hp Hw)
    as (a' & Hs & Hpc & Hmd & He & Hn & Hg & Hu & Hmem).
  pose proof (cycle_cases m Hok) as H. rewrite Hs in H. destruct H as (m' & Hc & Ha & Hok').
  subst a'. exists m'. cbn in *. repeat split; auto.
  destruct (mo_mode m Hok) as [E | E], (mo_mode m' Hok') as [E' | E']; rewrite E, E' in *;
    (reflexivity || discriminate Hmd).
Qed.

(** A user program interrupted at 7 by [sys 32]; [rti] is at the vector. *)
Definition trap_demo : w4machine :=
  with_words (replicate 32 0 ++ [0xFFF8]) (set_pc 7 (set_ex 32 (set_en true (set_mode User w4)))).

Lemma exception_round_trip_witness :
  exists m', cycle trap_demo = Ret (tt, m') /\ pc m' = 7 /\ mode m' = User /\ ex m' = 0 /\ en m' = true /\
    gen (kern_reg m') = gen (kern_reg trap_demo) /\ user_reg m' = user_reg trap_demo /\
    physmem m' = physmem trap_demo.
Proof.
  apply (exception_round_trip trap_demo 32); try reflexivity; [| discriminate].
  unfold trap_demo. solve_ok.
Defined.

(** ** The main loop *)

(** The cycle counter counts.  After [n] iterations of the loop it has
    advanced by [n], as a 64-bit counter, whatever the instructions were. *)
Theorem cycles_counted (n : nat) (m m' : w4machine) (Hok : machine_ok m) (Hn : nsteps sim_step n m m') :
  u64 (cyc m') = u64 (cyc m + Z.of_nat n).
Proof. exact (proj2 (nsteps_cyc n m m' Hok Hn)). Qed.

Lemma cycles_counted_witness :
  nsteps sim_step 1 demo (incr_cyc (after_cycle demo)) /\ u64 (cyc (incr_cyc (after_cycle demo))) = u64 (0 + 1).
Proof.
  assert (H : nsteps sim_step 1 demo (incr_cyc (after_cycle demo))).
  { eapply nsteps_l; [| apply nsteps_O]. apply (sim_step_cycle demo); vm_compute; reflexivity. }
  split; [exact H |]. apply (cycles_counted 1 demo _); [unfold demo; solve_ok | exact H].
Defined.

(** ** Loading and dumping memory *)

(** C8: [load] puts the bytes of a binary at the physical address of its mode,
    low byte of a word first, changes no other byte (but the one that completes
    the last word, which it clears), changes nothing but memory, and reports a
    file that is too large or that could not be read whole; a file that is too
    large changes nothing. *)
Theorem load_places_bytes (md size : Z) (data : list Z) (m : w4machine)
    (Hd : Forall is_u8 data) (Hok : machine_ok m) (Hl : Z.of_nat (length data) <= maxSizeBytes) :
  exists mem', load md size data m = Ret (load_error size data, set_physmem mem' m) /\
    words_ok mem' /\
    if maxSizeBytes <? size then mem' = physmem m
    else placed data (2 * load_off md) (physmem m) mem'.
Proof. exact (load_spec md size data m Hd (mo_mem m Hok) Hl). Qed.

Lemma u8_list (l : list Z) : forallb (fun z => (0 <=? z) && (z <? 256)) l = true -> Forall is_u8 l.
Proof.
  intros H. apply List.Forall_forall. intros x Hx. rewrite forallb_forall in H. specialize (H x Hx).
  bool_facts. split; lia.
Qed.

Lemma load_places_bytes_witness :
  exists mem', load User 3 [1; 2; 3] w4 = Ret (None, set_physmem mem' w4) /\ words_ok mem' /\
    placed [1; 2; 3] 196608 (physmem w4) mem'.
Proof.
  apply (load_places_bytes User 3 [1; 2; 3] w4);
    [apply u8_list; reflexivity | apply machine_ok_w4 | unfold maxSizeBytes, K; cbn; lia].
Defined.

(** C9: loading and dumping are inverse: the core file written after a
    successful [load] contains the binary, at the byte offset where its mode is
    loaded. *)
Theorem load_core_roundtrip (md : Z) (data : list Z) (m : w4machine)
    (Hd : Forall is_u8 data) (Hok : machine_ok m) (Hl : Z.of_nat (length data) <= maxSizeBytes) :
  exists m', load md (Z.of_nat (length data)) data m = Ret (None, m') /\
    take (length data) (drop (Z.to_nat (2 * load_off md)) (core (physmem m'))) = data.
Proof.
  destruct (load_spec md (Z.of_nat (length data)) data m Hd (mo_mem m Hok) Hl) as (mem' & Hrun & Hw & Hp).
  unfold load_error in Hrun. rewrite (proj2 (Z.ltb_ge _ _) Hl) in *. rewrite Z.eqb_refl in Hrun.
  exists (set_physmem mem' m). split; [exact Hrun |].
  assert (Ho : 0 <= load_off md <= maxSizeBytes / 2)
    by (unfold load_off, maxSizeBytes, K; destruct (md =? User); zdivmod).
  assert (HM : 2 * (maxSizeBytes / 2) + maxSizeBytes <= 2 * PhysMemSize)
    by (unfold maxSizeBytes, PhysMemSize, K; zdivmod).
  apply core_slice; try assumption; try lia. intros b Hb. cbn. rewrite Hp.
  rewrite (proj2 (Z.leb_le _ _)), (proj2 (Z.ltb_lt _ _)) by lia. cbn [andb]. do 3 f_equal. lia.
Qed.

Lemma load_core_roundtrip_witness :
  exists m', load Kern 3 [1; 2; 3] w4 = Ret (None, m') /\
    take 3 (drop (Z.to_nat (2 * load_off Kern)) (core (physmem m'))) = [1; 2; 3].
Proof.
  apply (load_core_roundtrip Kern [1; 2; 3] w4);
    [apply u8_list; reflexivity | apply machine_ok_w4 | unfold maxSizeBytes, K; cbn; lia].
Defined.

(** Memory is byte addressable through the word array.  At any translated
    address, [ldb] reads the addressed byte, [ldw] two bytes with the low one
    first, [stb] changes the addressed byte and no other, [stw] two bytes and no
    other, and a word access at an odd address changes nothing and raises
    [ExMemory]. *)
Theorem memory_op_bytes (o addr : Z) (odd : bool) (m : w4machine) (Ho : 0 <= o < 4)
    (Ha : 0 <= addr < PhysMemSize) (Hok : machine_ok m) (Hs : is_u16 (sd m)) :
  exists m', memory_op o addr odd m = Ret (tt, m') /\ mem_op_spec o addr odd m m'.
Proof.
  destruct (memory_op_spec o addr odd m Ho Ha (mo_mem m Hok) Hs) as (m' & H & Hspec & _). eauto.
Qed.

Lemma memory_op_bytes_witness :
  exists m', memory_op 3 2 true demo = Ret (tt, m') /\ mem_op_spec 3 2 true demo m'.
Proof.
  apply (memory_op_bytes 3 2 true demo); [lia | unfold PhysMemSize, K; lia | | cbn; unfold is_u16; lia].
  unfold demo. solve_ok.
Defined.

(** ** The decoder *)

(** Decoding loses nothing and is unambiguous.  Every 16-bit word belongs
    to exactly one of the five instruction classes, and two words with the same
    decoded fields are the same word. *)
Theorem decode_unambiguous (w w' : Z) (Hw : is_u16 w) (Hw' : is_u16 w') :
  class_count (decode_fields w) = 1 /\ (decode_fields w = decode_fields w' -> w = w').
Proof. split; [apply one_class, Hw | apply decode_fields_inj; assumption]. Qed.

Lemma decode_unambiguous_witness : class_count (decode_fields 65532) = 1.
Proof. apply (decode_unambiguous 65532 0); unfold is_u16; lia. Defined.

(** The assembler's bit-field concatenations are decoded back: from the
    encoding of an instruction [decode] extracts its class, its operation code,
    its register numbers and its immediate (sign-extended to 16 bits, or shifted
    for [lui]), and every 16-bit word is the encoding of the instruction that it
    decodes to. *)
Theorem encode_decode_inverse (i : instr) (w : Z) (Hi : wf_instr i) (Hw : is_u16 w) :
  decoded_as i (decode_fields (encode i)) /\ decode_instr (encode i) = i /\
  encode (decode_instr w) = w.
Proof.
  split; [apply decode_fields_encode, Hi |]. split; [apply decode_encode_instr, Hi |].
  apply encode_decode_word, Hw.
Qed.

Lemma encode_decode_inverse_witness :
  decoded_as (Beq 1 2 127) (decode_fields (encode (Beq 1 2 127))) /\
  encode (decode_instr 0x9FD1) = 0x9FD1.
Proof.
  destruct (encode_decode_inverse (Beq 1 2 127) 0x9FD1) as (H1 & _ & H2);
    [cbn; unfold is_reg; lia | unfold is_u16; lia | auto].
Defined.

(** ** Register zero *)

(** The kernel's [r0] reads as zero in every reachable state, and a
    user-mode instruction never changes the user's [r0]. *)
Theorem r0_black_hole (m : w4machine) (H : reachable m) :
  rget (kern_reg m) 0 = 0 /\
  forall m1, mode m = User -> ex m = 0 -> cycle m = Ret (tt, m1) ->
    rget (user_reg m1) 0 = rget (user_reg m) 0.
Proof.
  assert (Hok : machine_ok m /\ rget (kern_reg m) 0 = 0).
  { induction H as [kern user m Hk Hkl Hu Hb | m m' _ [IH IHr] Hs].
    - destruct (boot_ok kern user m Hk Hkl Hu Hb) as (Hok & _ & Hr).
      split; [apply machine_ok_incr, Hok | exact Hr].
    - split; [apply (sim_step_ok m m' IH Hs) |]. destruct Hs as [m m1 Hrun Hc _].
      pose proof (step_r0 (abs m) (machine_ok_wf m IH)) as H.
      rewrite (proj1 (cycle_next m m1 IH Hc)) in H. destruct H as [Hr0 _]. cbn in Hr0.
      cbn. transitivity (rget (kern_reg m) 0); [exact Hr0 | exact IHr]. }
  destruct Hok as [Hok Hr]. split; [exact Hr |]. intros m1 Hm Hex Hc.
  pose proof (step_r0 (abs m) (machine_ok_wf m Hok)) as Hs.
  rewrite (proj1 (cycle_next m m1 Hok Hc)) in Hs. exact (proj2 Hs (abs_user m Hm) Hex).
Qed.

Lemma r0_black_hole_witness : exists m, reachable m /\ rget (kern_reg m) 0 = 0.
Proof.
  destruct boot_demo as (m & Hb & _). exists (incr_cyc m).
  assert (Hr : reachable (incr_cyc m)).
  { apply (reach_boot (2, [252; 255]) None m); auto.
    - apply u8_list. reflexivity.
    - unfold maxSizeBytes, K. cbn. lia. }
  split; [exact Hr | exact (proj1 (r0_black_hole (incr_cyc m) Hr))].
Defined.

(** The kernel can make the user's [r0] nonzero: a store to special
    register 16 writes it, although it is meant to be a register that reads as
    zero. *)
Theorem store_special_writes_user_r0 (m : w4machine) (v : Z) (Hok : machine_ok m) (Hm : mode m = Kern)
    (Ha : Z.land (alu m) 63 = 16) :
  exists m', storeSpecial v m = Ret (tt, m') /\ rget (user_reg m') 0 = v /\ kern_reg m' = kern_reg m.
Proof.
  pose proof (two_regs m (mo_reg m Hok)) as Hr. pose proof (mo_regs m Hok) as Hf. rewrite Hr in Hf.
  inversion_clear Hf as [| ? ? _ Hus]. inversion_clear Hus as [| ? ? Hu _].
  destruct Hu as (Hl & _). remember (kern_reg m) as k. remember (user_reg m) as u.
  destruct u as [[| g0 gs] sp]; [discriminate |].
  unfold storeSpecial, set_gen, get_reg, put_reg, mbind, M_bind, modify, gets. rewrite Hm.
  change (SprSize - 1) with 63. rewrite Ha. cbn. rewrite Hr. cbn.
  eexists. split; [reflexivity |]. unfold user_reg, kern_reg in *. cbn [set_reg reg]. rewrite Hr in *.
  split; [reflexivity | exact (eq_sym Heqk)].
Qed.

Lemma store_special_writes_user_r0_witness :
  exists m', storeSpecial 7 (set_alu 16 w4) = Ret (tt, m') /\ rget (user_reg m') 0 = 7 /\
    kern_reg m' = kern_reg (set_alu 16 w4).
Proof.
  apply (store_special_writes_user_r0 (set_alu 16 w4) 7); try reflexivity.
  destruct machine_ok_w4. constructor; assumption.
Defined.

(** ** The carry *)

Lemma set_alu_hc_spec a c m : wlp (set_alu_hc a c) (fun _ m' => hc m' = c) m.
Proof. reflexivity. Qed.

Lemma alu_full_carry x m : wlp (alu_full (u32 (u16 x))) (fun _ m' => hc m' = 0) m.
Proof.
  unfold alu_full. eapply wpe_mono; [apply set_alu_hc_spec | auto |]. intros _ m' ->.
  pose proof (u16_range x) as Hx. replace (u32 (u16 x)) with (u16 x).
  2: { unfold u32. rewrite Z.mod_small; [reflexivity | unfold is_u16 in Hx; lia]. }
  change 0x10000 with (2 ^ 16). rewrite (land_pow2_small _ 16); [reflexivity | lia | exact Hx].
Qed.

(** No three-operand instruction ever sets the hidden carry: [add] and
    [sub] compute a 16-bit sum before they widen it, so the carry out is lost
    (0xFFFF + 1 leaves 0, not 1) and a following [adc] or [sbb] adds nothing. *)
Theorem alu3_loses_carry (m m' : w4machine) (Hx : 0 <= xop (dec m) < 7) (Hr : alu3 m = Ret (tt, m')) :
  hc m' = 0.
Proof.
  cut (wlp alu3 (fun _ m' => hc m' = 0) m); [intros H; exact (wpe_run _ _ _ _ _ _ H Hr) |].
  unfold alu3. apply wpe_bind, wpe_gets. apply wpe_bind.
  apply (wpe_mono _ True) with (Q := fun _ _ => True); [unfold wpe; repeat case_match; exact I | auto |].
  intros rs2 s _. apply wpe_bind.
  apply (wpe_mono _ True) with (Q := fun _ _ => True); [unfold wpe; repeat case_match; exact I | auto |].
  intros rs1 s' _. apply wpe_bind, wpe_gets.
  assert (xop (dec m) = 0 \/ xop (dec m) = 1 \/ xop (dec m) = 2 \/ xop (dec m) = 3 \/ xop (dec m) = 4 \/
          xop (dec m) = 5 \/ xop (dec m) = 6) as H by lia.
  repeat destruct H as [H | H]; rewrite H; (apply alu_full_carry || apply set_alu_hc_spec).
Qed.

(** [add r1, r1, r2] with 0xFFFF and 1 in the registers. *)
Definition add_demo : w4machine :=
  set_dec (decode_fields 0xF051) (set_reg [W4reg [0; 0xFFFF; 1; 0; 0; 0; 0; 0] (replicate 64 0); zero_reg] w4).

Lemma alu3_loses_carry_witness : hc (default w4 (match alu3 add_demo with Ret (_, x) => Some x | _ => None end)) = 0.
Proof. apply (alu3_loses_carry add_demo); [vm_compute; split; [discriminate | reflexivity] | reflexivity]. Defined.

(** ** The end of physical memory *)

(** The bounds check of [translate] is off by one: with the program counter
    at a virtual address that maps to the index [PhysMemSize] itself, the fetch
    is not turned into an [ExMemory] exception and the emulator panics. *)
Theorem fetch_at_end_panics (m : w4machine) (Hok : machine_ok m) (Hex : ex m = 0)
    (Hp : phys_index false (a_cur (abs m)) (pc m) = PhysMemSize) :
  exists why, cycle m = Panic why.
Proof.
  pose proof (cycle_cases m Hok) as H. unfold isa_step in H. cbn [abs a_ex] in H. rewrite Hex in H.
  cbn [Z.eqb] in H. unfold isa_fetch_exec, xlate in H. change (a_pc (abs m)) with (pc m) in H.
  rewrite Hp, Z.ltb_irrefl, Z.eqb_refl in H. exact H.
Qed.

(** Code page 0 mapped to page 96. *)
Definition end_demo : w4machine :=
  set_reg [W4reg (replicate 8 0) (<[32%nat := 96]> (replicate 64 0)); zero_reg] w4.

Lemma fetch_at_end_panics_witness : exists why, cycle end_demo = Panic why.
Proof.
  apply (fetch_at_end_panics end_demo); [| reflexivity | reflexivity].
  pose proof machine_ok_w4 as [? Hr ? ? ? ? ? ?]. constructor; try assumption.
  inversion_clear Hr as [| ? ? _ Hz]. apply Forall_cons_2; [| exact Hz].
  assert (H0 : is_u16 0) by (unfold is_u16; lia).
  split; [reflexivity |]. split; [reflexivity |].
  split; [apply Forall_replicate, H0 | cbn; repeat apply Forall_cons_2; unfold is_u16; try lia; apply Forall_nil_2].
Defined.

(** ** The debugger *)

(** Under the debugger a [hlt] does not stop the machine: the answer [s] at
    the prompt overwrites the run flag that [hlt] cleared.  The program [hlt;
    adi r1, r0, 5] single-stepped twice and then left has executed the [adi]. *)
Theorem debugger_ignores_hlt :
  exists m, simulate 10 false true [115; 115; 120] (with_words [65532; 41281] (set_run true w4)) = Halted m /\
    rget (kern_reg m) 1 = 5 /\ cyc m = 3 /\
  exists m2, simulate 10 false false [] (with_words [65532; 41281] (set_run true w4)) = Halted m2 /\
    rget (kern_reg m2) 1 = 0 /\ cyc m2 = 2.
Proof.
  eexists. split; [vm_compute; reflexivity |]. split; [reflexivity |]. split; [reflexivity |].
  eexists. split; [vm_compute; reflexivity |]. split; reflexivity.
Qed.
