(* ===== verification/GoStr.v ===== *)
(** * Byte strings and number parsing

    A Go string is its list of bytes.  [strconv.ParseUint] and
    [strconv.ParseInt] in base 0 (the base is read from the prefix), as the
    fast option of the disassembler and the parser of the assembler call
    them: any error is [None]. *)

From S2P Require Import Prelude.

Fixpoint str (s : string) : list Z :=
  match s with
  | EmptyString => []
  | String c s' => Z.of_nat (Ascii.nat_of_ascii c) :: str s'
  end.

(** [%02x] and [%d] of a byte. *)
Definition hex_lower (d : Z) : Z := if d <? 10 then 48 + d else 87 + d.

Definition fmt_x2 (b : Z) : list Z := [hex_lower (b / 16); hex_lower (b mod 16)].

Definition fmt_byte (b : Z) : list Z :=
  if b <? 10 then [48 + b]
  else if b <? 100 then [48 + b / 10; 48 + b mod 10]
  else [48 + b / 100; 48 + b / 10 mod 10; 48 + b mod 10].

(** ** strconv *)

(** [lower]: the lower-case letter that shares all bits but one. *)
Definition lower (c : Z) : Z := Z.lor c 32.

Definition digit_val (c : Z) : option Z :=
  if (48 <=? c) && (c <=? 57) then Some (c - 48)
  else if (97 <=? lower c) && (lower c <=? 122) then Some (lower c - 97 + 10)
  else None.

(** The base that the prefix of a string selects, and the digits. *)
Definition base_prefix (s : list Z) : Z * list Z :=
  match s with
  | 48 :: c :: d :: ds =>
    if lower c =? 98 then (2, d :: ds)
    else if lower c =? 111 then (8, d :: ds)
    else if lower c =? 120 then (16, d :: ds)
    else (8, c :: d :: ds)
  | 48 :: rest => (8, rest)
  | _ => (10, s)
  end.

(** The loop over the digits: the value and whether an underscore was seen. *)
Fixpoint digits_value (base : Z) (s : list Z) (n : Z) (under : bool) : option (Z * bool) :=
  match s with
  | [] => Some (n, under)
  | c :: s' =>
    if c =? 95 then digits_value base s' n true
    else d ← digit_val c; if base <=? d then None else digits_value base s' (n * base + d) under
  end.

(** [underscoreOK]: underscores separate digits.  [saw] is the kind of the last
    character: a digit, an underscore, or something else. *)
Inductive seen := SawStart | SawDigit | SawUnder | SawOther.

#[export] Instance seen_eq : EqDecision seen.
Proof. solve_decision. Defined.

Fixpoint under_loop (hex : bool) (saw : seen) (s : list Z) : bool :=
  match s with
  | [] => negb (bool_decide (saw = SawUnder))
  | c :: s' =>
    if ((48 <=? c) && (c <=? 57)) || (hex && (97 <=? lower c) && (lower c <=? 102)) then under_loop hex SawDigit s'
    else if c =? 95 then bool_decide (saw = SawDigit) && under_loop hex SawUnder s'
    else negb (bool_decide (saw = SawUnder)) && under_loop hex SawOther s'
  end.

Definition drop_sign (s : list Z) : list Z :=
  match s with
  | c :: s' => if (c =? 45) || (c =? 43) then s' else s
  | [] => []
  end.

Definition underscoreOK (s : list Z) : bool :=
  match drop_sign s with
  | 48 :: c :: rest =>
    if (lower c =? 98) || (lower c =? 111) || (lower c =? 120) then under_loop (lower c =? 120) SawDigit rest
    else under_loop false SawStart (drop_sign s)
  | s' => under_loop false SawStart s'
  end.

(** [strconv.ParseUint(s, 0, bitSize)] *)
Definition ParseUint (s : list Z) (bitSize : Z) : option Z :=
  match s with
  | [] => None
  | _ =>
    let '(base, ds) := base_prefix s in
    r ← digits_value base ds 0 false;
    if 2 ^ bitSize - 1 <? r.1 then None
    else if r.2 && negb (underscoreOK s) then None
    else Some r.1
  end.

(** [strconv.ParseInt(s, 0, 0)]: 64 bits. *)
Definition ParseInt (s : list Z) : option Z :=
  match s with
  | [] => None
  | c :: s' =>
    let neg := c =? 45 in
    un ← ParseUint (if (c =? 45) || (c =? 43) then s' else s) 64;
    if negb neg && (2 ^ 63 <=? un) then None
    else if neg && (2 ^ 63 <? un) then None
    else Some (if neg then - un else un)
  end.

(** Does the loop over the digits stop at a number that is too large? *)
Fixpoint digits_overflow (base max : Z) (s : list Z) (n : Z) : bool :=
  match s with
  | [] => false
  | c :: s' =>
    if c =? 95 then digits_overflow base max s' n
    else match digit_val c with
    | None => false
    | Some d =>
      if base <=? d then false
      else if max <? n * base + d then true else digits_overflow base max s' (n * base + d)
    end
  end.

(** The text of the error of [strconv.ParseInt(s, 0, 0)], for a string of digits
    and letters, which [strconv.Quote] does not change. *)
Definition ParseInt_error (s : list Z) : list Z :=
  let s' := drop_sign s in
  let '(base, ds) := base_prefix s' in
  let range := digits_overflow base (2 ^ 64 - 1) ds 0 || match ParseUint s' 64 with Some _ => true | None => false end in
  str "strconv.ParseInt: parsing " ++ [34] ++ s ++ [34] ++ str ": " ++
  (if range then str "value out of range" else str "invalid syntax").

(** ** Positional notation *)

(** The value of a list of digits that are below the base. *)
Definition digits_num (base : Z) (ds : list Z) : Z := fold_left (fun n d => n * base + d) ds 0.

Definition dec_char (d : Z) : Z := 48 + d.

Lemma digit_val_dec d : 0 <= d < 10 -> digit_val (dec_char d) = Some d.
Proof.
  intros H. unfold digit_val, dec_char.
  rewrite (proj2 (Z.leb_le _ _)), (proj2 (Z.leb_le _ _)) by lia. cbn. f_equal. lia.
Qed.

Lemma small_cases (P : Z -> Prop) n d :
  0 <= d < Z.of_nat n -> Forall P (seqZ 0 (Z.of_nat n)) -> P d.
Proof. intros Hd Hf. rewrite Forall_forall in Hf. apply Hf, elem_of_seqZ. lia. Qed.

Lemma digit_val_hex d : 0 <= d < 16 -> digit_val (hex_lower d) = Some d.
Proof.
  intros H. apply (small_cases (fun d => digit_val (hex_lower d) = Some d) 16 d H).
  repeat (apply Forall_cons; split; [reflexivity |]). constructor.
Qed.

Lemma digits_value_spec base (f : Z -> Z) ds n :
  Forall (fun d => 0 <= d < base /\ digit_val (f d) = Some d /\ f d <> 95) ds ->
  digits_value base (f <$> ds) n false = Some (fold_left (fun n d => n * base + d) ds n, false).
Proof.
  intros Hds. revert n. induction Hds as [| d ds (Hd & Hv & Hu) _ IH]; intros n; [reflexivity |].
  cbn. rewrite (proj2 (Z.eqb_neq _ _) Hu), Hv. cbn.
  rewrite (proj2 (Z.leb_gt _ _)) by lia. apply IH.
Qed.

Lemma str_u8 s : Forall is_u8 (str s).
Proof.
  induction s as [| c s IH]; cbn; constructor; [| exact IH].
  pose proof (Ascii.nat_ascii_bounded c). unfold is_u8. lia.
Qed.

(** A decision procedure for concrete byte strings. *)
Lemma u8_forallb l : forallb (fun z => (0 <=? z) && (z <? 256)) l = true -> Forall is_u8 l.
Proof.
  induction l as [| z l IH]; cbn; intros H; [constructor |]. apply andb_prop in H as [Hz Hl]. bool_facts.
  constructor; [unfold is_u8; lia | auto].
Qed.
