(* ===== verification/Text.v ===== *)
(** * Formatted text

    The verbs of Go's [fmt.Sprintf] that the tools use: [%d] of an unsigned
    number, [%X] and the zero-padded [%0nX], [%5d]. *)

From S2P Require Import Prelude.

Definition digit_char (d : Z) : Ascii.ascii :=
  Ascii.ascii_of_nat (Z.to_nat (if d <? 10 then 48 + d else 55 + d)).

(** The digits of [n] in base [b], most significant first; [fuel] bounds their
    number. *)
Fixpoint digits_acc (fuel : nat) (b n : Z) (acc : string) : string :=
  match fuel with
  | O => acc
  | S fuel' =>
    let acc' := String (digit_char (n mod b)) acc in
    if n <? b then acc' else digits_acc fuel' b (n / b) acc'
  end.

Definition number (b n : Z) : string := digits_acc 20 b n EmptyString.

Fixpoint pad (k : nat) (c : Ascii.ascii) (s : string) : string :=
  match k with O => s | S k' => String c (pad k' c s) end.

Definition pad_to (w : nat) (c : Ascii.ascii) (s : string) : string := pad (w - String.length s) c s.

Definition fmt_d (n : Z) : string := number 10 n.
Definition fmt_wd (w : nat) (n : Z) : string := pad_to w (Ascii.ascii_of_nat 32) (number 10 n).
Definition fmt_X (w : nat) (n : Z) : string := pad_to w (Ascii.ascii_of_nat 48) (number 16 n).

(** The value that a string of digits denotes. *)
Definition char_digit (c : Ascii.ascii) : Z :=
  let n := Z.of_nat (Ascii.nat_of_ascii c) in if n <? 58 then n - 48 else n - 55.

Fixpoint value_acc (b : Z) (s : string) (acc : Z) : Z :=
  match s with
  | EmptyString => acc
  | String c s' => value_acc b s' (acc * b + char_digit c)
  end.

Lemma digit_char_digit d : 0 <= d < 16 -> char_digit (digit_char d) = d.
Proof.
  intros H. unfold char_digit, digit_char.
  rewrite Ascii.nat_ascii_embedding by (destruct (Z.ltb_spec d 10); lia).
  destruct (Z.ltb_spec d 10); rewrite Z2Nat.id by lia.
  - rewrite (proj2 (Z.ltb_lt _ _)) by lia. lia.
  - rewrite (proj2 (Z.ltb_ge _ _)) by lia. lia.
Qed.

Lemma digits_value fuel b n acc :
  2 <= b <= 16 -> 0 <= n < b ^ Z.of_nat fuel -> (0 < fuel)%nat ->
  value_acc b (digits_acc fuel b n acc) 0 = value_acc b acc n.
Proof.
  intros Hb. revert n acc. induction fuel as [| fuel IH]; intros n acc Hn Hf; [lia |].
  pose proof (Z.mod_pos_bound n b ltac:(lia)) as Hm. cbn [digits_acc].
  destruct (Z.ltb_spec n b) as [Hlt | Hge].
  - cbn [value_acc]. rewrite digit_char_digit by lia. rewrite Z.mod_small by lia. reflexivity.
  - rewrite Nat2Z.inj_succ, Z.pow_succ_r in Hn by lia.
    assert (Hq : 0 <= n / b < b ^ Z.of_nat fuel).
    { split; [apply Z.div_pos; lia | apply Z.div_lt_upper_bound; lia]. }
    destruct fuel as [| fuel]; [cbn in Hq; assert (1 <= n / b) by (apply Z.div_le_lower_bound; lia); lia |].
    rewrite IH by (assumption || lia). cbn [value_acc]. rewrite digit_char_digit by lia.
    f_equal. pose proof (Z.div_mod n b). lia.
Qed.

(** A printed number reads back. *)
Lemma number_value b n : 2 <= b <= 16 -> 0 <= n < 65536 -> value_acc b (number b n) 0 = n.
Proof.
  intros Hb Hn. unfold number. rewrite digits_value; [reflexivity | exact Hb | | lia].
  split; [lia |]. apply Z.lt_le_trans with (2 ^ 20); [lia |]. apply Z.pow_le_mono_l. lia.
Qed.

Lemma pad_value b k s : value_acc b (pad k (Ascii.ascii_of_nat 48) s) 0 = value_acc b s 0.
Proof. induction k as [| k IH]; [reflexivity |]. exact IH. Qed.

Lemma fmt_X_value w n : 0 <= n < 65536 -> value_acc 16 (fmt_X w n) 0 = n.
Proof. intros Hn. unfold fmt_X, pad_to. rewrite pad_value. apply number_value; lia. Qed.

Lemma fmt_d_inj n k : 0 <= n < 65536 -> 0 <= k < 65536 -> fmt_d n = fmt_d k -> n = k.
Proof.
  intros Hn Hk E. rewrite <- (number_value 10 n), <- (number_value 10 k) by lia.
  unfold fmt_d in E. rewrite E. reflexivity.
Qed.

Lemma fmt_X_inj w n k : 0 <= n < 65536 -> 0 <= k < 65536 -> fmt_X w n = fmt_X w k -> n = k.
Proof. intros Hn Hk E. rewrite <- (fmt_X_value w n), <- (fmt_X_value w k), E by lia. reflexivity. Qed.

(** ** Strings *)

Lemma str_app_cons c (s t : string) : String c s +:+ t = String c (s +:+ t).
Proof. reflexivity. Qed.

Lemma str_app_assoc (a b c : string) : (a +:+ b) +:+ c = a +:+ (b +:+ c).
Proof. induction a as [| x a IH]; [reflexivity |]. rewrite !str_app_cons. f_equal. exact IH. Qed.

Lemma str_app_nil (a : string) : a +:+ ""%string = a.
Proof. induction a as [| x a IH]; [reflexivity |]. rewrite !str_app_cons. f_equal. exact IH. Qed.

Lemma str_length_app (a b : string) : String.length (a +:+ b) = (String.length a + String.length b)%nat.
Proof. induction a as [| x a IH]; [reflexivity |]. rewrite str_app_cons. cbn [String.length Nat.add]. f_equal. exact IH. Qed.
