(* ===== verification/Dsm.v ===== *)
(** * The disassembler: dsm/dsm.go

    The mnemonic table, the field extraction, the one-instruction decoder, and
    the three passes over an object file.  The passes act on the shared slice
    [instructions]: they are computations over [list string], and an index out
    of range panics.  The file is the list of its bytes, read two at a time with
    [ReadAt]; the lines that pass 3 prints are its result. *)

From S2P Require Import Prelude Text.

(** ** The table *)

Record KeyEntry := MkKey { name : string; nbits : Z; opcode : Z; signature : Z }.

Definition RRI : Z := 1.
Definition RJX : Z := 2.
Definition RRR : Z := 3.
Definition RRX : Z := 5.
Definition RXX : Z := 6.
Definition XXX : Z := 7.

Definition RegNames : list string := ["r0"; "r1"; "r2"; "r3"; "r4"; "r5"; "r6"; "r7"]%string.

Definition KeyTable : list KeyEntry :=
  [ MkKey "ldw" 3 0x0000 RRI; MkKey "ldb" 3 0x2000 RRI; MkKey "stw" 3 0x4000 RRI;
    MkKey "stb" 3 0x6000 RRI; MkKey "beq" 3 0x8000 RRI; MkKey "adi" 3 0xA000 RRI;
    MkKey "lui" 3 0xC000 RJX; MkKey "jlr" 4 0xE000 RRI;

    MkKey "add" 7 0xF000 RRR; MkKey "adc" 7 0xF200 RRR; MkKey "sub" 7 0xF400 RRR;
    MkKey "sbb" 7 0xF600 RRR; MkKey "bic" 7 0xF800 RRR; MkKey "bis" 7 0xFA00 RRR;
    MkKey "xor" 7 0xFC00 RRR;

    MkKey "lsp" 10 0xFE00 RRX; MkKey "lio" 10 0xFE40 RRX; MkKey "ssp" 10 0xFE80 RRX;
    MkKey "sio" 10 0xFEC0 RRX; MkKey "y04" 10 0xFF00 RRX; MkKey "y06" 10 0xFF40 RRX;
    MkKey "y06" 10 0xFF80 XXX;

    MkKey "not" 13 0xFFC0 RXX; MkKey "neg" 13 0xFFC8 RXX; MkKey "sxt" 13 0xFFD0 RXX;
    MkKey "swb" 13 0xFFD8 RXX; MkKey "lsr" 13 0xFFE0 RXX; MkKey "lsl" 13 0xFFE8 RXX;
    MkKey "asr" 13 0xFFF0 RXX;

    MkKey "rti" 16 0xFFF8 XXX; MkKey "rtl" 16 0xFFF9 XXX; MkKey "di " 16 0xFFFA XXX;
    MkKey "ei " 16 0xFFFB XXX; MkKey "hlt" 16 0xFFFC XXX; MkKey "brk" 16 0xFFFD XXX;
    MkKey "v06" 16 0xFFFE XXX; MkKey "die" 16 0xFFFF XXX ]%string.

(** ** One instruction *)

(** [func bits(op uint16, hi uint16, lo uint16) uint16] *)
Definition bits (op hi lo : Z) : Z :=
  let b := u16 (hi - lo + 1) in
  let mask := u16 (u16 (Z.shiftl 1 b) - 1) in
  Z.land (Z.shiftr op lo) mask.

Abbreviation D := (M (list string)).

Definition RegName (i : Z) : D string := from_opt index_panic (RegNames !! Z.to_nat i).

(** The mask of a table entry and the test of the search loop. *)
Definition key_mask (ke : KeyEntry) : Z :=
  let mask := u16 (u16 (Z.shiftl 1 (nbits ke)) - 1) in
  u16 (Z.shiftl mask (16 - nbits ke)).

Definition key_match (op : Z) (ke : KeyEntry) : bool :=
  Z.land op (key_mask ke) =? Z.land (opcode ke) (key_mask ke).

(** The first matching entry; the zero [KeyEntry] if there is none. *)
Definition lookup_key (op : Z) : KeyEntry :=
  match List.find (key_match op) KeyTable with
  | Some ke => ke
  | None => MkKey "" 0 0 0
  end.

Definition decode_args (found : KeyEntry) (op at' : Z) : D string :=
  if signature found =? RRI then
    let imm := bits op 12 6 in
    ra ← RegName (bits op 2 0);
    rb ← RegName (bits op 5 3);
    if bits op 15 13 =? 4 then
      let imm := u16 (Z.land (imm + at' + 1) 0x7F) in
      mret (ra +:+ ", " +:+ rb +:+ ", " +:+ fmt_d imm)%string
    else mret (ra +:+ ", " +:+ rb +:+ ", 0x" +:+ fmt_X 2 imm)%string
  else if signature found =? RJX then
    ra ← RegName (bits op 2 0);
    mret (ra +:+ ", 0x" +:+ fmt_X 3 (bits op 12 3))%string
  else if signature found =? RRR then
    ra ← RegName (bits op 2 0);
    rb ← RegName (bits op 5 3);
    rc ← RegName (bits op 8 6);
    mret (ra +:+ ", " +:+ rb +:+ ", " +:+ rc)%string
  else if signature found =? RRX then
    ra ← RegName (bits op 2 0);
    rb ← RegName (bits op 5 3);
    mret (ra +:+ ", " +:+ rb)%string
  else if signature found =? RXX then RegName (bits op 2 0)
  else if signature found =? XXX then mret ""%string
  else mret ("internal error: unknown signature 0x" +:+ fmt_X 1 (signature found))%string.

(** [func decode(op uint16, at int) string] *)
Definition decode (op at' : Z) : D string :=
  let found := lookup_key op in
  if nbits found =? 0 then mret "internal error: opcode not found"%string
  else args ← decode_args found op at'; mret (name found +:+ " " +:+ args)%string.

(** ** The passes *)

(** [instructions[i] = s] *)
Definition put_line (i : Z) (s : string) : D unit :=
  l ← get_st;
  if (0 <=? i) && (i <? Z.of_nat (length l)) then modify (fun l => <[Z.to_nat i := s]> l)
  else panic index_panic.

(** [func condense(at int, prevInst uint16, inst uint16, pInstr *[]string)] *)
Definition condense (at' prevInst inst : Z) : D unit :=
  let luiSeen := bits prevInst 15 13 =? 6 in
  let joined := Z.lor (u16 (Z.shiftl (bits prevInst 12 3) 6)) (bits inst 12 6) in
  if (bits inst 15 13 =? 5) && (bits inst 5 3 =? bits inst 2 0) && negb (bits inst 2 0 =? 0) then
    if bits inst 12 12 =? 0 then
      if luiSeen then
        put_line (at' - 1) "";;
        ra ← RegName (bits inst 2 0);
        put_line at' ("ldi " +:+ ra +:+ ", 0x" +:+ fmt_X 4 joined)%string
      else
        ra ← RegName (bits inst 2 0);
        put_line at' ("lli " +:+ ra +:+ ", 0x" +:+ fmt_X 2 (bits inst 12 6))%string
    else
      ra ← RegName (bits inst 2 0);
      rb ← RegName (bits inst 5 3);
      put_line at' ("adi " +:+ ra +:+ ", " +:+ rb +:+ ", 0x" +:+ fmt_X 2 (bits inst 12 6))%string
  else if bits inst 15 12 =? 0xE then
    let rb := bits inst 5 3 in
    let imm := bits inst 12 6 in
    match bits inst 2 0 with
    | 0 =>
      if negb (rb =? 0) || negb (Z.land imm 1 =? 0) then
        put_line at' ("die ; ILLEGAL OPCODE 0x" +:+ fmt_X 4 inst)%string
      else put_line at' ("sys " +:+ fmt_d imm)%string
    | 1 =>
      if luiSeen && (rb =? bits prevInst 2 0) then
        put_line (at' - 1) "";;
        r ← RegName (bits inst 5 3);
        put_line at' ("jsr " +:+ r +:+ ", 0x" +:+ fmt_X 4 joined)%string
      else if (imm =? 0) && negb (rb =? 0) then
        r ← RegName (bits inst 5 3);
        put_line at' ("jsr " +:+ r)%string
      else mret tt
    | 2 =>
      if luiSeen && (rb =? bits prevInst 2 0) then
        put_line (at' - 1) "";;
        r ← RegName (bits inst 5 3);
        put_line at' ("jmp " +:+ r +:+ ", " +:+ fmt_d joined)%string
      else if (imm =? 0) && negb (rb =? 0) then
        r ← RegName (bits inst 5 3);
        put_line at' ("jmp " +:+ r)%string
      else mret tt
    | _ => put_line at' ("die ; ILLEGAL OPCODE 0x" +:+ fmt_X 4 inst)%string
    end
  else if inst =? 0xFFC8 then put_line at' "nop"
  else mret tt.

Definition Ki64 : Z := 64 * 1024.

(** [forEachInst]: the callback is applied to the index, the previous word and
    the word, up to the first zero word, the end of the file or 64K words.
    A read of fewer than two bytes ends the loop. *)
Fixpoint forEachInst (op : Z -> Z -> Z -> D unit) (at' prevInst : Z) (data : list Z) : D unit :=
  match data with
  | lo :: hi :: rest =>
    if at' <? Ki64 then
      let inst := Z.lor lo (Z.shiftl hi 8) in
      if inst =? 0 then mret tt
      else op at' prevInst inst;; forEachInst op (at' + 1) inst rest
    else mret tt
  | _ => mret tt
  end.

Definition pass1 (data : list Z) : D unit :=
  forEachInst (fun at' _ inst =>
    s ← decode inst at'; modify (fun l => l ++ [s])) 0 0 data.

Definition pass2 (data : list Z) : D unit :=
  forEachInst (fun at' prev inst => condense at' prev inst) 0 0 data.

(** The line of an instruction, by index. *)
Definition get_line (i : Z) : D string :=
  l ← get_st; from_opt index_panic (if 0 <=? i then l !! Z.to_nat i else None).

(** The long format of pass 3: the lines printed, in order. *)
Fixpoint pass3 (at' : Z) (data : list Z) : D (list string) :=
  match data with
  | lo :: hi :: rest =>
    if at' <? Ki64 then
      let inst := Z.lor lo (Z.shiftl hi 8) in
      if inst =? 0 then mret []
      else
        s ← get_line at';
        more ← pass3 (at' + 1) rest;
        mret ((fmt_wd 5 at' +:+ ": 0x" +:+ fmt_X 4 inst +:+ ": " +:+ s)%string :: more)
    else mret []
  | _ => mret []
  end.

(** [func disassemble(f *os.File) error]: the printed lines. *)
Definition disassemble (qflag : bool) (data : list Z) : D (list string) :=
  pass1 data;;
  pass2 data;;
  if qflag then
    l ← get_st; mret (filter (fun s => s <> ""%string) l)
  else pass3 0 data.
