(* ===== verification/DsmTheorems.v ===== *)
(** * The theorems of the disassembler

    The mnemonic table covers every opcode, the name of an entry is the one
    of the instructions in its tile ([dsm_name]), the passes never panic, and the aliases that pass 2 prints denote what the machine
    does. *)

From S2P Require Import Prelude Text Dsm Machine Isa Decoder Refine IsaProps.

(** ** Fields *)

Lemma dsm_bits_field op hi lo :
  is_u16 op -> 0 <= lo -> lo <= hi -> hi <= 15 -> Dsm.bits op hi lo = field op hi lo.
Proof.
  intros Hop H0 H1 H2. unfold Dsm.bits, field. rewrite (u16_id (hi - lo + 1)) by (unfold is_u16; lia).
  rewrite Z.shiftr_div_pow2 by lia. set (b := hi - lo + 1).
  assert (Hb : 1 <= b <= 16) by (unfold b; lia).
  assert (Hp : 0 < 2 ^ b <= 65536).
  { split; [apply Z.pow_pos_nonneg; lia |]. change 65536 with (2 ^ 16). apply Z.pow_le_mono_r; lia. }
  replace (u16 (u16 (Z.shiftl 1 b) - 1)) with (Z.shiftl 1 b - 1); [apply land_mask; lia |].
  rewrite Z.shiftl_1_l. set (p := 2 ^ b) in *. clearbody p. unfold u16. Z.div_mod_to_equations; lia.
Qed.

(** The two tools extract the same bit fields. *)
Lemma bits_agree w hi lo :
  is_u16 w -> 0 <= lo -> lo <= hi -> hi <= 15 -> Dsm.bits w hi lo = Machine.bits w hi lo.
Proof. intros. rewrite dsm_bits_field, bits_field by (assumption || lia). reflexivity. Qed.

Ltac dsm_fields Hw := rewrite ?(fun hi lo => dsm_bits_field _ hi lo Hw) by lia.

(** ** The table *)

Definition key_size (ke : Dsm.KeyEntry) : Z := 2 ^ (16 - Dsm.nbits ke).

(** The entries of a table tile the interval from [lo] to [hi]. *)
Fixpoint tiles (lo : Z) (tbl : list Dsm.KeyEntry) (hi : Z) : Prop :=
  match tbl with
  | [] => lo = hi
  | ke :: tbl' => Dsm.opcode ke = lo /\ 1 <= Dsm.nbits ke <= 16 /\ lo mod key_size ke = 0 /\
                  tiles (lo + key_size ke) tbl' hi
  end.

Lemma KeyTable_tiles : tiles 0 Dsm.KeyTable 65536.
Proof. repeat (split; [reflexivity || (vm_compute; split; discriminate) |]). reflexivity. Qed.

Lemma key_match_range op ke :
  is_u16 op -> is_u16 (Dsm.opcode ke) -> 1 <= Dsm.nbits ke <= 16 -> Dsm.opcode ke mod key_size ke = 0 ->
  Dsm.key_match op ke = true <-> Dsm.opcode ke <= op < Dsm.opcode ke + key_size ke.
Proof.
  intros Hop Hke Hn Hmul. unfold Dsm.key_match, Dsm.key_mask, key_size in *.
  set (n := Dsm.nbits ke) in *. set (o := Dsm.opcode ke) in *. set (s := 2 ^ (16 - n)) in *.
  assert (Hs : 0 < s) by (apply Z.pow_pos_nonneg; lia).
  assert (Hmask : u16 (Z.shiftl (u16 (u16 (Z.shiftl 1 n) - 1)) (16 - n)) = Z.shiftl (Z.ones n) (16 - n)).
  { rewrite Z.ones_equiv, Z.shiftl_1_l.
    assert (Hp : 0 < 2 ^ n <= 65536).
    { split; [apply Z.pow_pos_nonneg; lia |]. change 65536 with (2 ^ 16). apply Z.pow_le_mono_r; lia. }
    assert (Hps : 2 ^ n * s = 65536).
    { unfold s. rewrite <- Z.pow_add_r by lia. replace (n + (16 - n)) with 16 by lia. reflexivity. }
    replace (u16 (u16 (2 ^ n) - 1)) with (2 ^ n - 1) by (unfold u16; Z.div_mod_to_equations; lia).
    rewrite !Z.shiftl_mul_pow2, <- Z.sub_1_r by lia. fold s. apply u16_id. unfold is_u16. nia. }
  rewrite Hmask, !land_shiftl_r, !Z.shiftr_div_pow2, !Z.land_ones, !Z.shiftl_mul_pow2 by lia. fold s.
  assert (Hq : forall x, is_u16 x -> (x / s) mod 2 ^ n = x / s).
  { intros x Hx. apply Z.mod_small. split; [apply Z.div_pos; unfold is_u16 in *; lia |].
    apply Z.div_lt_upper_bound; [lia |]. unfold s. rewrite <- Z.pow_add_r by lia.
    replace (16 - n + n) with 16 by lia. apply Hx. }
  rewrite !Hq, Z.eqb_eq by assumption. pose proof (Z.div_mod op s). pose proof (Z.div_mod o s).
  pose proof (Z.mod_pos_bound op s Hs). split; [intros E; nia |]. intros Hr.
  f_equal. symmetry. apply Z.div_unique with (op - s * (o / s)); lia.
Qed.

Lemma find_tile tbl lo hi op :
  is_u16 op -> 0 <= lo -> hi <= 65536 -> tiles lo tbl hi -> lo <= op < hi ->
  exists ke, List.find (Dsm.key_match op) tbl = Some ke /\ In ke tbl /\
    Dsm.opcode ke <= op < Dsm.opcode ke + key_size ke.
Proof.
  intros Hop. revert lo. induction tbl as [| ke tbl IH]; intros lo Hlo Hhi Ht Hr; [cbn in Ht; lia |].
  destruct Ht as (Ho & Hn & Hm & Ht). cbn [List.find].
  assert (Hs : 0 < key_size ke) by (apply Z.pow_pos_nonneg; lia).
  assert (Hk : is_u16 (Dsm.opcode ke)) by (unfold is_u16 in *; lia).
  pose proof (key_match_range op ke Hop Hk Hn ltac:(rewrite Ho; exact Hm)) as Hiff.
  destruct (Dsm.key_match op ke) eqn:E.
  - exists ke. split; [reflexivity |]. split; [left; reflexivity | apply Hiff; reflexivity].
  - destruct (IH (lo + key_size ke)) as (ke' & Hf & Hin & Hr'); try lia; [exact Ht |].
    exists ke'. split; [exact Hf |]. split; [right; exact Hin | exact Hr'].
Qed.

Lemma lookup_key_spec op :
  is_u16 op ->
  In (Dsm.lookup_key op) Dsm.KeyTable /\
  Dsm.opcode (Dsm.lookup_key op) <= op < Dsm.opcode (Dsm.lookup_key op) + key_size (Dsm.lookup_key op).
Proof.
  intros Hop. unfold Dsm.lookup_key.
  destruct (find_tile Dsm.KeyTable 0 65536 op Hop) as (ke & -> & H); try lia;
    [apply KeyTable_tiles | apply Hop | exact H].
Qed.

(** ** Mnemonics *)

Definition alu3_name (o : alu3op) : string :=
  match o with Add => "add" | Adc => "adc" | Sub => "sub" | Sbb => "sbb" | Bic => "bic"
  | Bis => "bis" | Xor => "xor" end.

(** The names that dsm/dsm.go gives to the operations that the emulator
    executes: [sxt] and [swb] are exchanged, and [y05] is called [y06]. *)
Definition alu1_name (o : alu1op) : string :=
  match o with Not => "not" | Neg => "neg" | Swb => "sxt" | Sxt => "swb" | Lsr => "lsr"
  | Lsl => "lsl" | Asr => "asr" end.

Definition dsm_name (i : instr) : string :=
  match i with
  | Ldw _ _ _ => "ldw" | Ldb _ _ _ => "ldb" | Stw _ _ _ => "stw" | Stb _ _ _ => "stb"
  | Beq _ _ _ => "beq" | Adi _ _ _ => "adi" | Lui _ _ => "lui" | Jlr _ _ _ => "jlr"
  | Alu3 o _ _ _ => alu3_name o
  | Lsp _ _ => "lsp" | Lio _ _ => "lio" | Ssp _ _ => "ssp" | Sio _ _ => "sio"
  | Yres n _ _ => if n =? 4 then "y04" else "y06"
  | Alu1 o _ => alu1_name o
  | Rti => "rti" | Rtl => "rtl" | Di => "di " | Ei => "ei " | Hlt => "hlt" | Brk => "brk"
  | V06 => "v06" | Die => "die"
  end.

(** Above the operands, a word agrees with the opcode of its tile. *)
Lemma tile_field o k w hi lo :
  0 <= k <= lo -> o mod 2 ^ k = 0 -> o <= w < o + 2 ^ k -> field w hi lo = field o hi lo.
Proof.
  intros Hk Hm Hr. unfold field. f_equal. assert (Hp : 0 < 2 ^ k) by (apply Z.pow_pos_nonneg; lia).
  replace lo with (k + (lo - k)) by lia. rewrite Z.pow_add_r by lia.
  assert (0 < 2 ^ (lo - k)) by (apply Z.pow_pos_nonneg; lia).
  rewrite <- !Z.div_div by lia. f_equal. symmetry. apply Z.div_unique with (w - o); [lia |].
  pose proof (Z.div_mod o (2 ^ k)). lia.
Qed.

(** The instructions whose words lie in the tile of an entry have its name. *)
Lemma tile_name ke w :
  In ke Dsm.KeyTable -> Dsm.opcode ke <= w < Dsm.opcode ke + key_size ke ->
  Dsm.name ke = dsm_name (decode_instr w).
Proof.
  intros Hin Hr.
  assert (Hf : forall hi lo, 16 - Dsm.nbits ke <= lo -> field w hi lo = field (Dsm.opcode ke) hi lo).
  { intros hi lo Hlo. apply (tile_field _ (16 - Dsm.nbits ke)); [| | exact Hr];
      repeat (destruct Hin as [<- | Hin]); try destruct Hin; cbn in *; try lia; reflexivity. }
  unfold key_size in Hr.
  repeat (destruct Hin as [<- | Hin]); [..| destruct Hin]; cbn [Dsm.opcode Dsm.nbits] in *; simpl Z.pow in Hr;
    unfold decode_instr, decode_base, decode_yop, decode_vop;
    destruct (Z.ltb_spec w 0xF000); try lia; try (rewrite (Hf 15 13) by lia; reflexivity);
    destruct (Z.ltb_spec w 0xFE00); try lia; try (rewrite (Hf 11 9) by lia; reflexivity);
    destruct (Z.ltb_spec w 0xFFC0); try lia; try (rewrite (Hf 8 6) by lia; reflexivity);
    destruct (Z.ltb_spec w 0xFFF8); try lia; try (rewrite (Hf 5 3) by lia; reflexivity);
    rewrite (Hf 2 0) by lia; reflexivity.
Qed.

(** ** No index is out of range *)

Definition reg_name (r : Z) : string := default ""%string (Dsm.RegNames !! Z.to_nat r).

Lemma RegName_ret r l : 0 <= r < 8 -> Dsm.RegName r l = Ret (reg_name r, l).
Proof.
  intros Hr. unfold Dsm.RegName, reg_name.
  destruct (lookup_is_Some_len Dsm.RegNames (Z.to_nat r)) as [s ->]; [cbn; lia | reflexivity].
Qed.

Lemma reg_bits op : is_u16 op ->
  0 <= Dsm.bits op 2 0 < 8 /\ 0 <= Dsm.bits op 5 3 < 8 /\ 0 <= Dsm.bits op 8 6 < 8.
Proof. intros H. dsm_fields H. apply reg_field. Qed.

(** Reading a register name by a three-bit field is the identity on the lines. *)
Lemma bind_RegName {A} op hi lo (f : string -> Dsm.D A) l :
  is_u16 op -> 0 <= lo -> hi = lo + 2 -> hi <= 15 ->
  (Dsm.RegName (Dsm.bits op hi lo) ≫= f) l = f (reg_name (Dsm.bits op hi lo)) l.
Proof.
  intros Hop Hlo -> Hhi. unfold mbind, M_bind. rewrite RegName_ret; [reflexivity |].
  dsm_fields Hop. apply field_lt; [lia |]. replace (lo + 2 - lo + 1) with 3 by lia. reflexivity.
Qed.

Definition decode_line (op at' : Z) : string :=
  match Dsm.decode op at' [] with Ret (s, _) => s | Panic _ => ""%string end.

Lemma decode_pure op at' : is_u16 op ->
  exists s, forall l, Dsm.decode op at' l = Ret (s, l).
Proof.
  intros Hop. pose proof (reg_bits op Hop) as (Ha & Hb & Hc). unfold Dsm.decode, Dsm.decode_args.
  destruct (Dsm.nbits _ =? 0); [eexists; reflexivity |].
  repeat case_if; eexists; intros l; unfold mbind, M_bind; rewrite ?RegName_ret by assumption; reflexivity.
Qed.

Lemma decode_ret op at' l : is_u16 op -> Dsm.decode op at' l = Ret (decode_line op at', l).
Proof.
  intros Hop. destruct (decode_pure op at' Hop) as [s Hs]. unfold decode_line. rewrite !Hs. reflexivity.
Qed.

(** What [condense] may do to the lines: keep their number. *)
Definition same_length (l l' : list string) : Prop := length l' = length l.

Lemma put_line_len i s l :
  0 <= i < Z.of_nat (length l) -> Dsm.put_line i s l = Ret (tt, <[Z.to_nat i := s]> l).
Proof.
  intros Hi. unfold Dsm.put_line, mbind, M_bind, get_st.
  rewrite (proj2 (Z.leb_le _ _)), (proj2 (Z.ltb_lt _ _)) by lia. reflexivity.
Qed.

Lemma put_line_wp i s l : 0 <= i < Z.of_nat (length l) -> wp (Dsm.put_line i s) (fun _ => same_length l) l.
Proof. intros Hi. unfold wpe. rewrite put_line_len by exact Hi. apply length_insert. Qed.

Lemma two_lines_wp i s (f : unit -> Dsm.D unit) l :
  1 <= i < Z.of_nat (length l) ->
  (forall l', same_length l l' -> wp (f tt) (fun _ => same_length l) l') ->
  wp (Dsm.put_line (i - 1) s ≫= f) (fun _ => same_length l) l.
Proof.
  intros Hi Hf. apply wpe_bind. eapply wpe_mono; [apply (put_line_wp (i - 1) s l); lia | auto |].
  intros [] l' Hl. apply Hf, Hl.
Qed.

Lemma RegName_wp {A} r (f : string -> Dsm.D A) Q l :
  0 <= r < 8 -> (forall s, wp (f s) Q l) -> wp (Dsm.RegName r ≫= f) Q l.
Proof. intros Hr Hf. apply wpe_bind. unfold wpe at 1. rewrite RegName_ret by exact Hr. apply Hf. Qed.

Lemma put_line_wp' i s l l' :
  same_length l l' -> 0 <= i < Z.of_nat (length l) -> wp (Dsm.put_line i s) (fun _ => same_length l) l'.
Proof.
  unfold same_length. intros E Hi. rewrite <- E in Hi. unfold wpe. rewrite put_line_len by exact Hi.
  rewrite length_insert. exact E.
Qed.

(** A previous word that is [lui] is not the initial 0, so it has an index. *)
Lemma condense_wp at' prev inst l :
  is_u16 inst -> 0 <= at' < Z.of_nat (length l) -> (at' = 0 -> prev = 0) ->
  wp (Dsm.condense at' prev inst) (fun _ => same_length l) l.
Proof.
  intros Hi Hat Hp. pose proof (reg_bits inst Hi) as (Ha & Hb & _).
  assert (Hlui : Dsm.bits prev 15 13 = 6 -> 1 <= at').
  { intros E. destruct (Z.eq_dec at' 0) as [E0 |]; [| lia]. rewrite (Hp E0) in E. discriminate. }
  assert (Hsame : wp (mret tt) (fun _ => same_length l) l) by reflexivity.
  unfold Dsm.condense.
  repeat first
    [ exact Hsame
    | apply two_lines_wp; [bool_facts; split; [apply Hlui; assumption | lia] | intros ? ?]
    | apply RegName_wp; [assumption | intros ?]
    | apply (put_line_wp' _ _ l); [assumption || reflexivity | lia]
    | case_if | case_match ].
Qed.

(** ** The passes *)

(** The instruction words of a file: up to the first zero word, an odd byte or
    64K words. *)
Fixpoint code (at' : Z) (data : list Z) : list Z :=
  match data with
  | lo :: hi :: rest =>
    if at' <? Dsm.Ki64 then
      let w := lo + 256 * hi in
      if w =? 0 then [] else w :: code (at' + 1) rest
    else []
  | _ => []
  end.

(** A callback applied to a list of words. *)
Fixpoint over (op : Z -> Z -> Z -> Dsm.D unit) (at' prev : Z) (ws : list Z) : Dsm.D unit :=
  match ws with
  | [] => mret tt
  | w :: ws' => op at' prev w;; over op (at' + 1) w ws'
  end.

Lemma word_of_pair lo hi : is_u8 lo -> is_u8 hi -> Z.lor lo (Z.shiftl hi 8) = lo + 256 * hi.
Proof. intros Hl Hh. unfold is_u8 in *. rewrite lor_add_shiftl by lia. lia. Qed.

(** Induction on a list two elements at a time. *)
Lemma pair_ind (P : list Z -> Prop) :
  P [] -> (forall x, P [x]) -> (forall x y l, P l -> P (x :: y :: l)) -> forall l, P l.
Proof. intros H0 H1 H2. fix IH 1. intros [| x [| y l]]; [exact H0 | apply H1 | apply H2, IH]. Qed.

Lemma forEachInst_over op data at' prev l :
  Forall is_u8 data -> Dsm.forEachInst op at' prev data l = over op at' prev (code at' data) l.
Proof.
  revert at' prev l. induction data as [| x | lo hi rest IH] using pair_ind; intros at' prev l Hd;
    [reflexivity | reflexivity |].
  inversion_clear Hd as [| ? ? Hlo Hd']. inversion_clear Hd' as [| ? ? Hhi Hd].
  cbn [Dsm.forEachInst code]. rewrite word_of_pair by assumption.
  destruct (at' <? Dsm.Ki64); [| reflexivity]. cbv zeta. destruct (_ =? 0); [reflexivity |].
  cbn [over]. unfold mbind, M_bind. destruct (op at' prev (lo + 256 * hi) l) as [[[] l'] |]; [| reflexivity].
  apply IH, Hd.
Qed.

Lemma code_u16 at' data : Forall is_u8 data -> Forall is_u16 (code at' data).
Proof.
  revert at'. induction data as [| x | lo hi rest IH] using pair_ind; intros at' Hd; [constructor | constructor |].
  inversion_clear Hd as [| ? ? Hlo Hd']. inversion_clear Hd' as [| ? ? Hhi Hd]. cbn [code]. cbv zeta.
  destruct (_ <? _); [| constructor]. destruct (_ =? 0); constructor; auto.
  unfold is_u8, is_u16 in *. lia.
Qed.

Fixpoint lines_from (at' : Z) (ws : list Z) : list string :=
  match ws with [] => [] | w :: ws' => decode_line w at' :: lines_from (at' + 1) ws' end.

Lemma lines_from_length at' ws : length (lines_from at' ws) = length ws.
Proof. revert at'. induction ws as [| w ws IH]; intros at'; cbn; auto. Qed.

Lemma pass1_over at' prev ws l :
  Forall is_u16 ws ->
  over (fun at' _ inst => s ← Dsm.decode inst at'; modify (fun l => l ++ [s])) at' prev ws l =
    Ret (tt, l ++ lines_from at' ws).
Proof.
  revert at' prev l. induction ws as [| w ws IH]; intros at' prev l Hw; cbn [over lines_from].
  - rewrite app_nil_r. reflexivity.
  - inversion_clear Hw. unfold mbind, M_bind. rewrite decode_ret by assumption. cbn.
    rewrite IH by assumption. rewrite <- app_assoc. reflexivity.
Qed.

Lemma pass2_over at' prev ws l :
  Forall is_u16 ws -> 0 <= at' -> (at' = 0 -> prev = 0) ->
  at' + Z.of_nat (length ws) <= Z.of_nat (length l) ->
  wp (over Dsm.condense at' prev ws) (fun _ => same_length l) l.
Proof.
  revert at' prev l. induction ws as [| w ws IH]; intros at' prev l Hw Hat Hp Hl; [reflexivity |].
  inversion_clear Hw. cbn [over length] in *. apply wpe_bind.
  eapply wpe_mono; [apply (condense_wp at' prev w l); auto; lia | auto |].
  intros [] l' Hl'. unfold same_length in *. rewrite <- Hl'. apply IH; auto; lia.
Qed.

(** The line that pass 3 prints for the instruction [w] at index [i]. *)
Definition long_line (i w : Z) (s : string) : string :=
  (fmt_wd 5 i +:+ ": 0x" +:+ fmt_X 4 w +:+ ": " +:+ s)%string.

Fixpoint long_lines (at' : Z) (ws : list Z) (l : list string) : list string :=
  match ws with
  | [] => []
  | w :: ws' => long_line at' w (default ""%string (l !! Z.to_nat at')) :: long_lines (at' + 1) ws' l
  end.

Lemma pass3_spec data at' l :
  Forall is_u8 data -> 0 <= at' -> at' + Z.of_nat (length (code at' data)) <= Z.of_nat (length l) ->
  Dsm.pass3 at' data l = Ret (long_lines at' (code at' data) l, l).
Proof.
  revert at'. induction data as [| x | lo hi rest IH] using pair_ind; intros at' Hd Hat Hl;
    [reflexivity | reflexivity |].
  inversion_clear Hd as [| ? ? Hlo Hd']. inversion_clear Hd' as [| ? ? Hhi Hd].
  cbn [Dsm.pass3 code] in *. rewrite word_of_pair by assumption. cbv zeta in *.
  destruct (at' <? Dsm.Ki64); [| reflexivity]. destruct (_ =? 0); [reflexivity |].
  cbn [length long_lines] in *. unfold Dsm.get_line, mbind, M_bind, get_st.
  rewrite (proj2 (Z.leb_le 0 at')) by lia.
  destruct (lookup_is_Some_len l (Z.to_nat at')) as [s Hs]; [lia |]. rewrite Hs. cbn.
  rewrite IH by (assumption || lia). reflexivity.
Qed.

Lemma disassemble_spec q data :
  Forall is_u8 data ->
  exists out l, Dsm.disassemble q data [] = Ret (out, l) /\
    length l = length (code 0 data) /\
    out = if q then filter (fun s => s <> ""%string) l else long_lines 0 (code 0 data) l.
Proof.
  intros Hd. pose proof (code_u16 0 data Hd) as Hc. unfold Dsm.disassemble, Dsm.pass1, Dsm.pass2.
  unfold mbind, M_bind. rewrite forEachInst_over, pass1_over by assumption. cbn [app].
  assert (H2 : wp (over Dsm.condense 0 0 (code 0 data)) (fun _ => same_length (lines_from 0 (code 0 data)))
                 (lines_from 0 (code 0 data))).
  { apply pass2_over; auto; [lia |]. rewrite lines_from_length. lia. }
  apply wp_returns in H2. destruct H2 as ([] & l & H2 & Hl). unfold same_length in Hl.
  rewrite lines_from_length in Hl.
  rewrite (forEachInst_over (fun at' prev inst => Dsm.condense at' prev inst)) by assumption.
  change (fun at' prev inst => Dsm.condense at' prev inst) with Dsm.condense. rewrite H2.
  destruct q; [exists (filter (fun s => s <> ""%string) l), l; auto |].
  rewrite pass3_spec by (assumption || lia). eauto.
Qed.

(** ** Theorems *)

(** C29: the disassembler is total.  On every file it returns without an index
    out of range; its list holds one line per instruction word before the first
    zero word, and it prints, in the quick format, the lines that pass 2 did not
    blank, and in the long format one line for every word, with its index and
    its opcode. *)
Theorem disassemble_total (q : bool) (data : list Z) (Hd : Forall is_u8 data) :
  exists out l, Dsm.disassemble q data [] = Ret (out, l) /\
    length l = length (code 0 data) /\
    out = if q then filter (fun s => s <> ""%string) l else long_lines 0 (code 0 data) l.
Proof. exact (disassemble_spec q data Hd). Qed.

(** [lui r1, 0x3FF; adi r1, r1, 0x3F; add r1, r2, r1] *)
Definition dsm_demo : list Z := [0xF9; 0xDF; 0xC9; 0xAF; 0x51; 0xF0; 0; 0].

Lemma dsm_demo_u8 : Forall is_u8 dsm_demo.
Proof. repeat apply Forall_cons_2; try apply Forall_nil_2; unfold is_u8; lia. Qed.

Lemma disassemble_total_witness :
  exists out l, Dsm.disassemble true dsm_demo [] = Ret (out, l) /\
    length l = 3%nat /\ out = ["ldi r1, 0xFFFF"; "add r1, r2, r1"]%string.
Proof.
  destruct (disassemble_total true dsm_demo dsm_demo_u8) as (out & l & H & Hl & Ho).
  exists out, l. split; [exact H |]. split; [exact Hl |].
  vm_compute in H. injection H as <- <-. reflexivity.
Defined.

(** The disassembler and the emulator number the one-operand group
    differently: the word that the emulator executes as a byte swap is printed
    as [sxt], and the one that it executes as a sign extension is printed as
    [swb]. *)
Theorem sxt_swb_exchanged (r : Z) (Hr : is_reg r) :
  Dsm.name (Dsm.lookup_key (encode (Alu1 Swb r))) = "sxt"%string /\
  Dsm.name (Dsm.lookup_key (encode (Alu1 Sxt r))) = "swb"%string.
Proof.
  assert (H : forall o, Dsm.name (Dsm.lookup_key (encode (Alu1 o r))) = alu1_name o).
  { intros o. destruct (lookup_key_spec (encode (Alu1 o r))) as [Hin Ht]; [apply encode_u16, Hr |].
    rewrite (tile_name _ _ Hin Ht), decode_encode_instr by exact Hr. reflexivity. }
  split; apply H.
Qed.

Lemma sxt_swb_exchanged_witness :
  Dsm.name (Dsm.lookup_key 0xFFD1) = "sxt"%string /\ Dsm.name (Dsm.lookup_key 0xFFD9) = "swb"%string.
Proof. apply (sxt_swb_exchanged 1). unfold is_reg. lia. Defined.

(** ** Aliases of pass 2 *)

(** The two lines that an alias replaces. *)
Definition aliased (at' : Z) (s : string) (l : list string) : list string :=
  <[Z.to_nat at' := s]> (<[Z.to_nat (at' - 1) := ""%string]> l).

Lemma put_alias at' s l :
  1 <= at' < Z.of_nat (length l) ->
  (Dsm.put_line (at' - 1) "";; Dsm.put_line at' s) l = Ret (tt, aliased at' s l).
Proof.
  intros Hat. unfold mbind, M_bind. rewrite put_line_len by lia.
  rewrite put_line_len by (rewrite length_insert; lia). reflexivity.
Qed.

Section Alias.
Context (r i10 i6 : Z) (Hr : 1 <= r < 8) (Hi10 : 0 <= i10 < 1024) (Hi6 : 0 <= i6 < 64).

Let prev := encode (Lui r i10).

Lemma lui_fields :
  is_u16 prev /\ field prev 15 13 = 6 /\ field prev 12 3 = i10 /\ field prev 2 0 = r.
Proof using Hr Hi10.
  clear Hi6 i6. assert (Hw : is_u16 prev) by (apply encode_u16; cbn; unfold is_reg; lia).
  split; [exact Hw |]. unfold prev. cbn [encode]. repeat split; field_lia.
Qed.

Lemma joined_value : Z.lor (u16 (Z.shiftl (field prev 12 3) 6)) i6 = i10 * 64 + i6.
Proof using Hr Hi10 Hi6.
  destruct lui_fields as (_ & _ & -> & _). rewrite Z.shiftl_mul_pow2, u16_id by (unfold is_u16; lia).
  rewrite <- Z.shiftl_mul_pow2 by lia. apply lor_shiftl_add; lia.
Qed.

Lemma alias_fields ra rb o (Hra : 0 <= ra < 8) (Hrb : 0 <= rb < 8) (Ho : o = 5 \/ o = 7) :
  let w := enc_rri o i6 rb ra in
  is_u16 w /\ field w 15 13 = o /\ field w 12 12 = 0 /\ field w 15 12 = 2 * o /\
  field w 12 6 = i6 /\ field w 5 3 = rb /\ field w 2 0 = ra.
Proof using Hi6.
  clear prev Hi10 Hr i10 r. cbv zeta. unfold enc_rri. assert (Hw : is_u16 (o * 8192 + i6 * 64 + rb * 8 + ra)) by (unfold is_u16; lia).
  split; [exact Hw |]. destruct Ho as [-> | ->]; repeat split; field_lia.
Qed.

Lemma condense_ldi at' l :
  1 <= at' < Z.of_nat (length l) ->
  Dsm.condense at' prev (encode (Adi r r i6)) l =
    Ret (tt, aliased at' ("ldi " +:+ reg_name r +:+ ", 0x" +:+ fmt_X 4 (i10 * 64 + i6))%string l).
Proof using Hr Hi10 Hi6.
  intros Hat. destruct lui_fields as (Hp & P1 & _ & P3).
  destruct (alias_fields r r 5 ltac:(lia) ltac:(lia) ltac:(auto)) as (Hw & F1 & F2 & F3 & F4 & F5 & F6).
  cbn [encode]. unfold Dsm.condense.
  rewrite !(fun hi lo => dsm_bits_field _ hi lo Hp), !(fun hi lo => dsm_bits_field _ hi lo Hw) by lia.
  rewrite P1, F1, F2, F4, F5, F6, joined_value, !Z.eqb_refl, (proj2 (Z.eqb_neq r 0)) by lia. cbn [andb negb Z.eqb Pos.eqb].
  rewrite <- (put_alias at' _ l Hat). unfold mbind, M_bind.
  destruct (Dsm.put_line (at' - 1) "" l) as [[[] l'] |]; [| reflexivity].
  rewrite RegName_ret by lia. reflexivity.
Qed.

Lemma condense_jsr at' l :
  1 <= at' < Z.of_nat (length l) ->
  Dsm.condense at' prev (encode (Jlr 1 r i6)) l =
    Ret (tt, aliased at' ("jsr " +:+ reg_name r +:+ ", 0x" +:+ fmt_X 4 (i10 * 64 + i6))%string l).
Proof using Hr Hi10 Hi6.
  intros Hat. destruct lui_fields as (Hp & P1 & _ & P3).
  destruct (alias_fields 1 r 7 ltac:(lia) ltac:(lia) ltac:(auto)) as (Hw & F1 & F2 & F3 & F4 & F5 & F6).
  cbn [encode]. unfold Dsm.condense.
  rewrite !(fun hi lo => dsm_bits_field _ hi lo Hp), !(fun hi lo => dsm_bits_field _ hi lo Hw) by lia.
  rewrite P1, P3, F1, F3, F4, F5, F6, joined_value, !Z.eqb_refl by lia. cbn [andb negb Z.eqb Pos.eqb].
  change (2 * 7 =? 14) with true. cbv iota.
  rewrite <- (put_alias at' _ l Hat). unfold mbind, M_bind.
  destruct (Dsm.put_line (at' - 1) "" l) as [[[] l'] |]; [| reflexivity].
  rewrite RegName_ret by lia. reflexivity.
Qed.

(** What the machine does with the two pairs of instructions. *)
Lemma lui_value a : wf_arch a ->
  exists a1, exec_instr (Lui r i10) a = Next a1 /\ rget (a_cur a1) r = i10 * 64 /\ wf_arch a1.
Proof using Hr Hi10.
  intros Hwf. eexists. split; [reflexivity |].
  assert (Hw : wf_arch (write_ra r (i10 * 64) a)) by (apply wf_write_ra; [exact Hwf | unfold is_u16; lia]).
  split; [| exact Hw]. unfold write_ra. rewrite (proj2 (Z.eqb_neq r 0)) by lia.
  unfold with_cur, a_cur.
  assert (Hl : forall rg, wf_reg rg -> rget (rput r (i10 * 64) rg) r = i10 * 64).
  { intros rg (Hg & _). unfold rget, rput. cbn. rewrite list_lookup_insert_eq by lia. reflexivity. }
  destruct (a_mode a) eqn:Hm; cbn; rewrite Hm; cbn; apply Hl, Hwf.
Qed.

Lemma adi_value a1 : wf_arch a1 -> rget (a_cur a1) r = i10 * 64 ->
  exists a2, exec_instr (Adi r r i6) a1 = Next a2 /\ rget (a_cur a2) r = i10 * 64 + i6.
Proof using Hr Hi10 Hi6.
  intros Hwf Hv. eexists. split; [reflexivity |].
  assert (He : eff_addr a1 r i6 = i10 * 64 + i6).
  { unfold eff_addr, sx7. rewrite (proj2 (Z.ltb_lt i6 64)), Hv by lia. apply Z.mod_small. lia. }
  rewrite He. unfold write_ra. rewrite (proj2 (Z.eqb_neq r 0)) by lia. unfold with_cur, a_cur.
  assert (Hl : forall rg, wf_reg rg -> rget (rput r (i10 * 64 + i6) rg) r = i10 * 64 + i6).
  { intros rg (Hg & _). unfold rget, rput. cbn. rewrite list_lookup_insert_eq by lia. reflexivity. }
  destruct (a_mode a1) eqn:Hm; cbn; rewrite Hm; cbn; apply Hl, Hwf.
Qed.

End Alias.

(** The aliases mean what the machine does.  After a [lui] of the same
    register, pass 2 blanks the [lui] and prints [ldi rT, V] for an [adi] and
    [jsr rT, V] for a link jump, and executing the two instructions leaves
    exactly [V] in the register, or in the program counter. *)
Theorem alias_value (r i10 i6 at' : Z) (l : list string) (a : arch) (Hr : 1 <= r < 8)
    (Hi10 : 0 <= i10 < 1024) (Hi6 : 0 <= i6 < 64) (Hat : 1 <= at' < Z.of_nat (length l)) (Hwf : wf_arch a) :
  let v := i10 * 64 + i6 in
  Dsm.condense at' (encode (Lui r i10)) (encode (Adi r r i6)) l =
    Ret (tt, aliased at' ("ldi " +:+ reg_name r +:+ ", 0x" +:+ fmt_X 4 v)%string l) /\
  Dsm.condense at' (encode (Lui r i10)) (encode (Jlr 1 r i6)) l =
    Ret (tt, aliased at' ("jsr " +:+ reg_name r +:+ ", 0x" +:+ fmt_X 4 v)%string l) /\
  exists a1 a2 a3, exec_instr (Lui r i10) a = Next a1 /\
    exec_instr (Adi r r i6) a1 = Next a2 /\ rget (a_cur a2) r = v /\
    exec_instr (Jlr 1 r i6) a1 = Next a3 /\ a_pc a3 = v.
Proof.
  cbv zeta. split; [apply condense_ldi; assumption |]. split; [apply condense_jsr; assumption |].
  destruct (lui_value r i10 Hr Hi10 a Hwf) as (a1 & H1 & Hv & Hwf1).
  destruct (adi_value r i10 i6 Hr Hi10 Hi6 a1 Hwf1 Hv) as (a2 & H2 & Hv2).
  exists a1, a2. eexists. split; [exact H1 |]. split; [exact H2 |]. split; [exact Hv2 |].
  split; [reflexivity |]. cbn. rewrite Hv. apply Z.mod_small. lia.
Qed.

Definition zero_arch : arch := Arch 0 zero_reg zero_reg 0 true false KMode 0 0 ∅.

Lemma zero_arch_wf : wf_arch zero_arch.
Proof.
  assert (Hz : wf_reg zero_reg) by (repeat split; apply Forall_replicate; unfold is_u16; lia).
  constructor; cbn; auto; try lia; [unfold is_u16; lia | left; reflexivity | apply map_Forall_empty].
Qed.

Lemma alias_value_witness :
  Dsm.condense 1 (encode (Lui 1 1023)) (encode (Adi 1 1 63)) ["lui"; "adi"]%string =
    Ret (tt, [""; "ldi r1, 0xFFFF"]%string).
Proof.
  destruct (alias_value 1 1023 63 1 ["lui"; "adi"]%string zero_arch) as [H _]; try (cbn; lia).
  - apply zero_arch_wf.
  - rewrite H. reflexivity.
Defined.

Lemma mod_65536_128 x : (x mod 65536) mod 128 = x mod 128.
Proof. Z.div_mod_to_equations; lia. Qed.

Lemma beq_target k at' :
  0 <= k < 128 -> 0 <= at' < 65536 ->
  u16 (Z.land (k + at' + 1) 0x7F) = (((at' + 1) mod 65536 + sx7 k) mod 65536) mod 128.
Proof.
  intros Hk Hat. change 0x7F with (Z.shiftl 1 7 - 1). rewrite land_mask by lia.
  change (2 ^ 7) with 128. rewrite mod_65536_128.
  rewrite <- (Zplus_mod_idemp_l ((at' + 1) mod 65536)), mod_65536_128, Zplus_mod_idemp_l.
  rewrite u16_id by (pose proof (Z.mod_pos_bound (k + at' + 1) 128); unfold is_u16; lia).
  unfold sx7. destruct (Z.ltb_spec k 64); [f_equal; lia |].
  replace (at' + 1 + (k - 128)) with (k + at' + 1 + (-1) * 128) by lia. rewrite Z_mod_plus_full. reflexivity.
Qed.

(** The target that is printed for a [beq] is only the low seven bits of
    the address that the machine branches to: it is right exactly for the
    targets below 128. *)
Theorem beq_target_low_bits (ra rb k at' : Z) (l : list string) (a : arch)
    (Hra : is_reg ra) (Hrb : is_reg rb) (Hk : 0 <= k < 128) (Hat : 0 <= at' < 65536)
    (Hpc : a_pc a = (at' + 1) mod 65536) (Heq : rget (a_cur a) rb = rget (a_cur a) ra) :
  exists a', exec_instr (Beq ra rb k) a = Next a' /\
    Dsm.decode (encode (Beq ra rb k)) at' l =
      Ret (("beq " +:+ reg_name ra +:+ ", " +:+ reg_name rb +:+ ", " +:+ fmt_d (a_pc a' mod 128))%string, l).
Proof.
  eexists. split; [reflexivity |]. cbn [exec_instr]. rewrite Heq, Z.eqb_refl. cbn [a_pc with_pc].
  assert (Hi : wf_instr (Beq ra rb k)) by (cbn; auto).
  pose proof (encode_u16 _ Hi) as Hw. cbn [encode] in Hw |- *.
  destruct (concat_rri ra rb Hra Hrb 4 k ltac:(lia) Hk) as (_ & Fo & Fi & Fb & Fa).
  set (w := enc_rri 4 k rb ra) in *.
  destruct (lookup_key_spec w Hw) as [Hin Ht].
  assert (Hke : Dsm.lookup_key w = Dsm.MkKey "beq" 3 0x8000 Dsm.RRI).
  { assert (Hr : 0x8000 <= w < 0xA000) by (unfold w, enc_rri, is_reg in *; lia). revert Ht.
    repeat (destruct Hin as [<- | Hin]; [unfold key_size; cbn; intros; (reflexivity || lia) |]). destruct Hin. }
  unfold Dsm.decode. rewrite Hke. cbn [Dsm.nbits Z.eqb Pos.eqb]. unfold Dsm.decode_args.
  cbn [Dsm.signature Dsm.name]. change (Dsm.RRI =? Dsm.RRI) with true. cbv iota zeta.
  rewrite !(fun hi lo => dsm_bits_field _ hi lo Hw), Fo, Fi, Fb, Fa by lia. change (4 =? 4) with true. cbv iota.
  rewrite (beq_target k at' Hk Hat), Hpc. unfold mbind, M_bind. rewrite !RegName_ret by assumption.
  reflexivity.
Qed.

Lemma beq_target_low_bits_witness :
  exists a', exec_instr (Beq 1 2 3) (with_pc 301 zero_arch) = Next a' /\
    Dsm.decode (encode (Beq 1 2 3)) 300 [] = Ret ("beq r1, r2, 48"%string, []) /\ a_pc a' = 304.
Proof.
  destruct (beq_target_low_bits 1 2 3 300 [] (with_pc 301 zero_arch)) as (a' & H1 & H2);
    try (unfold is_reg; lia); try reflexivity.
  exists a'. split; [exact H1 |]. injection H1 as <-. split; [exact H2 | reflexivity].
Defined.
