(* ===== verification/DsmLines.v ===== *)
(** * What the disassembler prints, in terms of instructions

    A closed form of the three passes of dsm/dsm.go: the line of an instruction
    (pass 1), what pass 2 makes of two neighbouring instructions, and the text
    of the quick format.  [Itf] feeds these lines back to the assembler. *)

From S2P Require Import Prelude Text Dsm Machine Isa Decoder Refine IsaProps DsmTheorems.

(** ** Lines *)

Inductive arg :=
| AReg (r : Z)
| AHex (w : nat) (n : Z)
| ADec (n : Z).

Definition arg_text (a : arg) : string :=
  match a with
  | AReg r => reg_name r
  | AHex w n => "0x" +:+ fmt_X w n
  | ADec n => fmt_d n
  end.

Fixpoint args_text (l : list arg) : string :=
  match l with
  | [] => ""
  | [a] => arg_text a
  | a :: l' => arg_text a +:+ ", " +:+ args_text l'
  end.

(** The shapes of a printed line: a mnemonic, a space and operands; [nop]; the
    remark on an opcode that the assembler cannot produce. *)
Inductive item :=
| Stmt (mn : string) (args : list arg)
| NopLine
| DieLine (w : Z).

Definition item_text (x : item) : string :=
  match x with
  | Stmt mn args => mn +:+ " " +:+ args_text args
  | NopLine => "nop"
  | DieLine w => "die ; ILLEGAL OPCODE 0x" +:+ fmt_X 4 w
  end.

(** ** Pass 1 *)

Definition args_of (i : instr) (at' : Z) : list arg :=
  match i with
  | Ldw ra rb k | Ldb ra rb k | Stw ra rb k | Stb ra rb k | Adi ra rb k | Jlr ra rb k =>
      [AReg ra; AReg rb; AHex 2 k]
  | Beq ra rb k => [AReg ra; AReg rb; ADec ((k + at' + 1) mod 128)]
  | Lui ra k => [AReg ra; AHex 3 k]
  | Alu3 _ ra rb rc => [AReg ra; AReg rb; AReg rc]
  | Lsp ra rb | Lio ra rb | Ssp ra rb | Sio ra rb => [AReg ra; AReg rb]
  | Yres n ra rb => if n =? 6 then [] else [AReg ra; AReg rb]
  | Alu1 _ ra => [AReg ra]
  | _ => []
  end.

Definition pass1_item (i : instr) (at' : Z) : item := Stmt (dsm_name i) (args_of i at').

(** The table entry of an instruction. *)
Definition key_of (i : instr) : Dsm.KeyEntry :=
  match i with
  | Ldw _ _ _ => Dsm.MkKey "ldw" 3 0x0000 Dsm.RRI | Ldb _ _ _ => Dsm.MkKey "ldb" 3 0x2000 Dsm.RRI
  | Stw _ _ _ => Dsm.MkKey "stw" 3 0x4000 Dsm.RRI | Stb _ _ _ => Dsm.MkKey "stb" 3 0x6000 Dsm.RRI
  | Beq _ _ _ => Dsm.MkKey "beq" 3 0x8000 Dsm.RRI | Adi _ _ _ => Dsm.MkKey "adi" 3 0xA000 Dsm.RRI
  | Lui _ _ => Dsm.MkKey "lui" 3 0xC000 Dsm.RJX | Jlr _ _ _ => Dsm.MkKey "jlr" 4 0xE000 Dsm.RRI
  | Alu3 o _ _ _ => Dsm.MkKey (alu3_name o) 7 (0xF000 + 512 * alu3_code o) Dsm.RRR
  | Lsp _ _ => Dsm.MkKey "lsp" 10 0xFE00 Dsm.RRX | Lio _ _ => Dsm.MkKey "lio" 10 0xFE40 Dsm.RRX
  | Ssp _ _ => Dsm.MkKey "ssp" 10 0xFE80 Dsm.RRX | Sio _ _ => Dsm.MkKey "sio" 10 0xFEC0 Dsm.RRX
  | Yres n _ _ => if n =? 4 then Dsm.MkKey "y04" 10 0xFF00 Dsm.RRX
                  else if n =? 5 then Dsm.MkKey "y06" 10 0xFF40 Dsm.RRX
                  else Dsm.MkKey "y06" 10 0xFF80 Dsm.XXX
  | Alu1 o _ => Dsm.MkKey (alu1_name o) 13 (0xFFC0 + 8 * alu1_code o) Dsm.RXX
  | Rti => Dsm.MkKey "rti" 16 0xFFF8 Dsm.XXX | Rtl => Dsm.MkKey "rtl" 16 0xFFF9 Dsm.XXX
  | Di => Dsm.MkKey "di " 16 0xFFFA Dsm.XXX | Ei => Dsm.MkKey "ei " 16 0xFFFB Dsm.XXX
  | Hlt => Dsm.MkKey "hlt" 16 0xFFFC Dsm.XXX | Brk => Dsm.MkKey "brk" 16 0xFFFD Dsm.XXX
  | V06 => Dsm.MkKey "v06" 16 0xFFFE Dsm.XXX | Die => Dsm.MkKey "die" 16 0xFFFF Dsm.XXX
  end.

(** The tiles of a table are disjoint. *)
Lemma tiles_above tbl lo hi ke : tiles lo tbl hi -> In ke tbl -> lo <= Dsm.opcode ke.
Proof.
  revert lo. induction tbl as [| k tbl IH]; intros lo Ht Hin; [destruct Hin |].
  destruct Ht as (Ho & Hn & _ & Ht). destruct Hin as [<- | Hin]; [lia |].
  specialize (IH _ Ht Hin). assert (0 < key_size k) by (apply Z.pow_pos_nonneg; lia). lia.
Qed.

Lemma tiles_unique tbl lo hi op ke ke' :
  tiles lo tbl hi -> In ke tbl -> In ke' tbl ->
  Dsm.opcode ke <= op < Dsm.opcode ke + key_size ke ->
  Dsm.opcode ke' <= op < Dsm.opcode ke' + key_size ke' -> ke = ke'.
Proof.
  revert lo. induction tbl as [| k tbl IH]; intros lo Ht H H' R R'; [destruct H |].
  destruct Ht as (Ho & Hn & _ & Ht). destruct H as [<- | H], H' as [<- | H'].
  - reflexivity.
  - pose proof (tiles_above _ _ _ _ Ht H'). lia.
  - pose proof (tiles_above _ _ _ _ Ht H). lia.
  - exact (IH _ Ht H H' R R').
Qed.

Lemma key_of_in i : wf_instr i -> In (key_of i) Dsm.KeyTable.
Proof.
  intros Hi. destruct i; try (cbn; tauto).
  - destruct o; cbn; tauto.
  - cbn [key_of]. repeat case_if; cbn; tauto.
  - destruct o; cbn; tauto.
Qed.

Lemma key_of_range i : wf_instr i ->
  Dsm.opcode (key_of i) <= encode i < Dsm.opcode (key_of i) + key_size (key_of i).
Proof.
  intros Hi. destruct i; cbn in Hi; unfold is_reg in Hi; try (unfold key_size; cbn; unfold enc_rri; lia).
  cbn [key_of]. repeat case_if; bool_facts; unfold key_size; cbn; lia.
Qed.

Lemma lookup_key_encode i : wf_instr i -> Dsm.lookup_key (encode i) = key_of i.
Proof.
  intros Hi. destruct (lookup_key_spec (encode i) (encode_u16 i Hi)) as [Hin Hr].
  exact (tiles_unique _ _ _ _ _ _ KeyTable_tiles Hin (key_of_in i Hi) Hr (key_of_range i Hi)).
Qed.

(** The operand fields of an encoded instruction. *)
Definition ra_of (i : instr) : Z :=
  match i with
  | Ldw ra _ _ | Ldb ra _ _ | Stw ra _ _ | Stb ra _ _ | Beq ra _ _ | Adi ra _ _ | Lui ra _ | Jlr ra _ _
  | Alu3 _ ra _ _ | Lsp ra _ | Lio ra _ | Ssp ra _ | Sio ra _ | Yres _ ra _ | Alu1 _ ra => ra
  | i => encode i mod 8
  end.

Lemma field_ra i : wf_instr i -> field (encode i) 2 0 = ra_of i.
Proof.
  intros Hi. destruct i; cbn in Hi; cbn [encode ra_of]; unfold enc_rri; try reflexivity; field_lia.
Qed.

Lemma beq_printed k at' : 0 <= k < 128 -> 0 <= at' -> u16 (Z.land (k + at' + 1) 0x7F) = (k + at' + 1) mod 128.
Proof.
  intros Hk Hat. change 0x7F with (Z.shiftl 1 7 - 1). rewrite land_mask by lia. change (2 ^ 7) with 128.
  apply u16_id. pose proof (Z.mod_pos_bound (k + at' + 1) 128). unfold is_u16. lia.
Qed.

Ltac run_args Hw := unfold Dsm.decode_args; cbn [Dsm.signature Dsm.name Dsm.nbits];
  unfold Dsm.RRI, Dsm.RJX, Dsm.RRR, Dsm.RRX, Dsm.RXX, Dsm.XXX; cbn [Z.eqb Pos.eqb]; cbv zeta;
  dsm_fields Hw; unfold mbind, M_bind.

(** What the entry of an instruction prints as operands. *)
Lemma decode_args_encode i at' : wf_instr i -> 0 <= at' ->
  Dsm.decode_args (key_of i) (encode i) at' [] = Ret (args_text (args_of i at'), []).
Proof.
  intros Hi Hat. pose proof (encode_u16 i Hi) as Hw. pose proof (field_ra i Hi) as Fa.
  assert (Hrri : forall o k rb ra, encode i = enc_rri o k rb ra -> 0 <= o < 8 -> is_reg ra -> is_reg rb -> 0 <= k < 128 ->
    field (encode i) 15 13 = o /\ field (encode i) 12 6 = k /\ field (encode i) 5 3 = rb).
  { intros o k rb ra E Ho Ha Hb Hk. rewrite E. destruct (concat_rri ra rb Ha Hb o k Ho Hk) as (_ & ? & ? & ? & _). auto. }
  assert (Hrrx : forall n rb ra, encode i = 127 * 512 + n * 64 + rb * 8 + ra -> is_reg ra -> is_reg rb -> field (encode i) 5 3 = rb).
  { intros n rb ra E Ha Hb. rewrite E. field_lia. }
  destruct i; cbn in Hi; cbn [key_of args_of].
  all: try (run_args Hw; reflexivity).
  all: try (destruct Hi as (Ha & Hb & Hk); destruct (Hrri _ _ _ _ eq_refl ltac:(lia) Ha Hb ltac:(lia)) as (F1 & F2 & F3);
    run_args Hw; rewrite F1, F2, F3, Fa; cbn [Z.eqb Pos.eqb ra_of]; rewrite ?beq_printed by lia;
    rewrite !RegName_ret by assumption; reflexivity).
  all: try (destruct Hi as (Ha & Hb); run_args Hw; rewrite Fa, (Hrrx _ _ _ eq_refl Ha Hb);
    rewrite !RegName_ret by assumption; reflexivity).
  - destruct Hi as (Ha & Hk). assert (F : field (encode (Lui ra i)) 12 3 = i) by (cbn [encode]; field_lia).
    run_args Hw. rewrite F, Fa. rewrite RegName_ret by assumption. reflexivity.
  - destruct Hi as (Ha & Hb & Hc). assert (F : field (encode (Alu3 o ra rb rc)) 8 6 = rc) by (cbn [encode]; field_lia).
    assert (F' : field (encode (Alu3 o ra rb rc)) 5 3 = rb) by (cbn [encode]; field_lia).
    run_args Hw. rewrite F, Fa, F'.
    rewrite !RegName_ret by assumption. reflexivity.
  - destruct Hi as (Hn & Ha & Hb).
    pose proof (Hrrx _ _ _ eq_refl Ha Hb) as Frb.
    assert (Hc : n = 4 \/ n = 5 \/ n = 6) by lia.
    destruct Hc as [-> | [-> | ->]]; cbn [Z.eqb Pos.eqb]; run_args Hw; rewrite ?Fa, ?Frb; cbn [ra_of]; rewrite ?RegName_ret by assumption; reflexivity.
  - run_args Hw. rewrite Fa, RegName_ret by assumption. reflexivity.
Qed.

Lemma decode_line_encode i at' : wf_instr i -> 0 <= at' ->
  decode_line (encode i) at' = item_text (pass1_item i at').
Proof.
  intros Hi Hat. unfold decode_line, Dsm.decode. rewrite lookup_key_encode by exact Hi.
  assert (Hk : In (key_of i) Dsm.KeyTable) by now apply key_of_in.
  assert (Hn : Dsm.nbits (key_of i) <> 0).
  { intros E. repeat (destruct Hk as [H | Hk]; [rewrite <- H in E; discriminate |]). destruct Hk. }
  rewrite (proj2 (Z.eqb_neq _ _) Hn). unfold mbind, M_bind. rewrite decode_args_encode by assumption.
  assert (Hname : Dsm.name (key_of i) = dsm_name i); [| rewrite Hname; reflexivity].
  destruct i; try reflexivity. cbn in Hi |- *. repeat case_if; bool_facts; (reflexivity || lia).
Qed.

(** ** Pass 2 *)

(** What [condense] makes of an instruction after another: nothing, or a new
    line, and whether the line before is blanked. *)
Definition pass2_item (p i : instr) : option (bool * item) :=
  match i with
  | Adi ra rb k =>
    if (rb =? ra) && negb (ra =? 0) then
      if k <? 64 then
        match p with
        | Lui _ h => Some (true, Stmt "ldi" [AReg ra; AHex 4 (h * 64 + k)])
        | _ => Some (false, Stmt "lli" [AReg ra; AHex 2 k])
        end
      else Some (false, Stmt "adi" [AReg ra; AReg rb; AHex 2 k])
    else None
  | Jlr 0 rb k =>
    if negb (rb =? 0) || negb (k mod 2 =? 0) then Some (false, DieLine (encode i)) else Some (false, Stmt "sys" [ADec k])
  | Jlr 1 rb k =>
    match p with
    | Lui r h =>
      if rb =? r then Some (true, Stmt "jsr" [AReg rb; AHex 4 (h * 64 + k)])
      else if (k =? 0) && negb (rb =? 0) then Some (false, Stmt "jsr" [AReg rb]) else None
    | _ => if (k =? 0) && negb (rb =? 0) then Some (false, Stmt "jsr" [AReg rb]) else None
    end
  | Jlr 2 rb k =>
    match p with
    | Lui r h =>
      if rb =? r then Some (true, Stmt "jmp" [AReg rb; ADec (h * 64 + k)])
      else if (k =? 0) && negb (rb =? 0) then Some (false, Stmt "jmp" [AReg rb]) else None
    | _ => if (k =? 0) && negb (rb =? 0) then Some (false, Stmt "jmp" [AReg rb]) else None
    end
  | Jlr _ _ _ => Some (false, DieLine (encode i))
  | Alu1 Neg 0 => Some (false, NopLine)
  | _ => None
  end.

Definition edit (at' : Z) (o : option (bool * item)) (l : list string) : list string :=
  match o with
  | None => l
  | Some (false, x) => <[Z.to_nat at' := item_text x]> l
  | Some (true, x) => aliased at' (item_text x) l
  end.

(** The facts that [condense] reads from the word before. *)
Definition is_lui (p : instr) : bool := match p with Lui _ _ => true | _ => false end.

Lemma lui_seen p : wf_instr p -> (field (encode p) 15 13 =? 6) = is_lui p.
Proof.
  intros Hp. destruct p; cbn in Hp; cbn [encode is_lui]; unfold enc_rri;
    try (apply Z.eqb_neq; try destruct o; cbn [alu3_code alu1_code]; field_lia); try reflexivity.
  apply Z.eqb_eq. field_lia.
Qed.

Lemma lui_parts r h : is_reg r -> 0 <= h < 1024 ->
  field (encode (Lui r h)) 2 0 = r /\
  forall k, 0 <= k < 64 -> Z.lor (u16 (Z.shiftl (field (encode (Lui r h)) 12 3) 6)) k = h * 64 + k.
Proof.
  intros Hr Hh. split; [cbn [encode]; field_lia |]. intros k Hk.
  assert (F : field (encode (Lui r h)) 12 3 = h) by (cbn [encode]; field_lia). rewrite F.
  rewrite Z.shiftl_mul_pow2, u16_id by (unfold is_u16; lia).
  rewrite <- Z.shiftl_mul_pow2 by lia. apply lor_shiftl_add; lia.
Qed.

(** An instruction that is neither [adi] nor [jlr]. *)
Lemma other_fields i : wf_instr i ->
  match i with Adi _ _ _ | Jlr _ _ _ => False | _ => True end ->
  field (encode i) 15 13 <> 5 /\ field (encode i) 15 12 <> 14.
Proof.
  intros Hi Ho. destruct i; cbn in Hi; try destruct Ho; cbn [encode]; unfold enc_rri;
    try (split; try destruct o; cbn [alu3_code alu1_code]; field_lia); split; discriminate.
Qed.

Lemma neg_r0 i : wf_instr i ->
  (encode i =? 0xFFC8) = match i with Alu1 Neg 0 => true | _ => false end.
Proof.
  intros Hi. destruct (Z.eqb_spec (encode i) 0xFFC8) as [E | E].
  - assert (H : decode_instr (encode i) = i) by now apply decode_encode_instr. rewrite E in H.
    vm_compute in H. subst i. reflexivity.
  - destruct i; try reflexivity. destruct o; try reflexivity. destruct ra; try reflexivity. exfalso. apply E. reflexivity.
Qed.

Lemma condense_other p i at' l :
  wf_instr p -> wf_instr i -> 0 <= at' < Z.of_nat (length l) ->
  match i with Adi _ _ _ | Jlr _ _ _ => False | _ => True end ->
  Dsm.condense at' (encode p) (encode i) l = Ret (tt, edit at' (pass2_item p i) l).
Proof.
  intros Hp Hi Hat Ho. pose proof (encode_u16 i Hi) as Hw. destruct (other_fields i Hi Ho) as [F1 F2].
  unfold Dsm.condense. dsm_fields Hw. rewrite (proj2 (Z.eqb_neq _ _) F1), (proj2 (Z.eqb_neq _ _) F2). cbn [andb].
  rewrite neg_r0 by exact Hi.
  assert (E : forall b : bool, (if b then Dsm.put_line at' "nop" else mret tt) l =
    Ret (tt, edit at' (if b then Some (false, NopLine) else None) l)).
  { intros [|]; [cbn; rewrite put_line_len by exact Hat |]; reflexivity. }
  rewrite E. destruct i; try reflexivity; try destruct Ho. destruct o; try reflexivity. destruct ra; reflexivity.
Qed.

Lemma put_alias_reg at' r (f : string -> string) l :
  1 <= at' < Z.of_nat (length l) -> is_reg r ->
  (Dsm.put_line (at' - 1) "";; s ← Dsm.RegName r; Dsm.put_line at' (f s)) l = Ret (tt, aliased at' (f (reg_name r)) l).
Proof.
  intros Hat Hr. rewrite <- (put_alias at' (f (reg_name r)) l Hat). unfold mbind, M_bind.
  destruct (Dsm.put_line (at' - 1) "" l) as [[[] l'] |]; [| reflexivity]. rewrite RegName_ret by exact Hr. reflexivity.
Qed.

Lemma put_reg at' r (f : string -> string) l :
  0 <= at' < Z.of_nat (length l) -> is_reg r ->
  (s ← Dsm.RegName r; Dsm.put_line at' (f s)) l = Ret (tt, <[Z.to_nat at' := f (reg_name r)]> l).
Proof.
  intros Hat Hr. unfold mbind, M_bind. rewrite RegName_ret by exact Hr. apply put_line_len, Hat.
Qed.

Section CondenseRri.
Context (p : instr) (at' : Z) (l : list string) (Hp : wf_instr p) (Hat : 0 <= at' < Z.of_nat (length l))
  (H0 : is_lui p = true -> 1 <= at').

Lemma condense_adi ra rb k : wf_instr (Adi ra rb k) ->
  Dsm.condense at' (encode p) (encode (Adi ra rb k)) l = Ret (tt, edit at' (pass2_item p (Adi ra rb k)) l).
Proof using Hp Hat H0.
  intros Hi. pose proof (encode_u16 _ Hi) as Hw. pose proof (encode_u16 _ Hp) as Hpw.
  destruct Hi as (Ha & Hb & Hk). destruct (concat_rri ra rb Ha Hb 5 k ltac:(lia) Hk) as (_ & F1 & F2 & F3 & F4).
  assert (F5 : (field (enc_rri 5 k rb ra) 12 12 =? 0) = (k <? 64)).
  { unfold enc_rri. destruct (Z.ltb_spec k 64); [apply Z.eqb_eq | apply Z.eqb_neq]; field_lia. }
  assert (F6 : field (enc_rri 5 k rb ra) 15 12 <> 14) by (unfold enc_rri; field_lia).
  cbn [encode] in Hw |- *. unfold Dsm.condense. cbv zeta. dsm_fields Hw. dsm_fields Hpw.
  rewrite F1, F2, F3, F4, F5, lui_seen, (proj2 (Z.eqb_neq _ _) F6) by exact Hp. cbn [pass2_item Z.eqb Pos.eqb andb].
  destruct ((rb =? ra) && negb (ra =? 0)).
  - destruct (Z.ltb_spec k 64) as [Hk' | Hk'].
    + destruct p; cbn [is_lui]; try exact (put_reg at' ra _ l Hat Ha).
      destruct Hp as [Hr Hh]. rewrite (proj2 (lui_parts _ _ Hr Hh)) by lia.
      apply put_alias_reg; [specialize (H0 eq_refl); lia | exact Ha].
    + unfold mbind at 1, M_bind at 1. rewrite RegName_ret by exact Ha. exact (put_reg at' rb _ l Hat Hb).
  - replace (_ =? 0xFFC8) with false; [reflexivity |]. symmetry. apply (neg_r0 (Adi ra rb k)). cbn. auto.
Qed.

Lemma condense_jlr ra rb k : wf_instr (Jlr ra rb k) ->
  Dsm.condense at' (encode p) (encode (Jlr ra rb k)) l = Ret (tt, edit at' (pass2_item p (Jlr ra rb k)) l).
Proof using Hp Hat H0.
  intros Hi. pose proof (encode_u16 _ Hi) as Hw. pose proof (encode_u16 _ Hp) as Hpw.
  destruct Hi as (Ha & Hb & Hk). destruct (concat_rri ra rb Ha Hb 7 k ltac:(lia) ltac:(lia)) as (_ & F1 & F2 & F3 & F4).
  assert (F6 : field (enc_rri 7 k rb ra) 15 12 = 14) by (unfold enc_rri; field_lia).
  cbn [encode] in Hw |- *. unfold Dsm.condense. cbv zeta. dsm_fields Hw. dsm_fields Hpw.
  rewrite F1, F2, F3, F4, F6, lui_seen, land_bit0 by exact Hp. cbn [Z.eqb Pos.eqb andb].
  assert (Hreg : forall mn, (if (k =? 0) && negb (rb =? 0) then r ← Dsm.RegName rb; Dsm.put_line at' (mn +:+ " " +:+ r)%string else mret tt) l =
    Ret (tt, edit at' (if (k =? 0) && negb (rb =? 0) then Some (false, Stmt mn [AReg rb]) else None) l)).
  { intros mn. destruct (_ && _); [| reflexivity]. exact (put_reg at' rb (fun r => mn +:+ " " +:+ r)%string l Hat Hb). }
  apply field8_cases in Ha. destruct Ha as [-> | [-> | [-> | Hge]]]; cbn [pass2_item].
  - destruct (_ || _); apply put_line_len, Hat.
  - specialize (Hreg "jsr"%string). destruct p; cbn [is_lui andb]; try exact Hreg. destruct Hp as [Hr Hh].
    destruct (lui_parts _ _ Hr Hh) as [-> Hj]. destruct (rb =? ra); [| exact Hreg]. rewrite Hj by lia.
    apply put_alias_reg; [specialize (H0 eq_refl); lia | exact Hb].
  - specialize (Hreg "jmp"%string). destruct p; cbn [is_lui andb]; try exact Hreg. destruct Hp as [Hr Hh].
    destruct (lui_parts _ _ Hr Hh) as [-> Hj]. destruct (rb =? ra); [| exact Hreg]. rewrite Hj by lia.
    apply put_alias_reg; [specialize (H0 eq_refl); lia | exact Hb].
  - decompose [or] Hge; subst ra; apply put_line_len, Hat.
Qed.

Lemma condense_edit i : wf_instr i ->
  Dsm.condense at' (encode p) (encode i) l = Ret (tt, edit at' (pass2_item p i) l).
Proof using Hp Hat H0.
  intros Hi. destruct i; try (apply condense_other; auto; exact I); [now apply condense_adi | now apply condense_jlr].
Qed.

End CondenseRri.

(** ** The quick format *)

Definition final_item (p i : instr) (at' : Z) : item :=
  match pass2_item p i with Some (_, x) => x | None => pass1_item i at' end.

(** Is the line of [i] blanked by the instruction that follows it? *)
Definition blanks (i j : instr) : bool := match pass2_item i j with Some (true, _) => true | _ => false end.

Definition blanked (i : instr) (js : list instr) : bool :=
  match js with j :: _ => blanks i j | [] => false end.

Fixpoint final_lines (at' : Z) (p : instr) (js : list instr) : list string :=
  match js with
  | [] => []
  | i :: js' =>
    (if blanked i js' then ""%string else item_text (final_item p i at')) :: final_lines (at' + 1) i js'
  end.

Fixpoint quick_items (at' : Z) (p : instr) (js : list instr) : list item :=
  match js with
  | [] => []
  | i :: js' => if blanked i js' then quick_items (at' + 1) i js' else final_item p i at' :: quick_items (at' + 1) i js'
  end.

Lemma blanks_lui i j : blanks i j = true -> is_lui i = true.
Proof.
  unfold blanks, pass2_item. destruct i; try reflexivity; destruct j; try discriminate;
    repeat case_if; try discriminate; repeat case_match; try discriminate.
Qed.

Lemma edit_step p i at' pre x rest :
  at' = Z.of_nat (length pre) -> (blanks p i = true -> pre <> []) -> x = item_text (pass1_item i at') ->
  edit at' (pass2_item p i) (pre ++ x :: rest) =
    (if blanks p i then <[Z.to_nat (at' - 1) := ""%string]> pre else pre) ++ item_text (final_item p i at') :: rest.
Proof.
  intros -> Hpre ->. unfold final_item, blanks in *. destruct (pass2_item p i) as [[[|] y] |]; cbn [edit]; [| | reflexivity].
  - specialize (Hpre eq_refl). assert (length pre <> 0%nat) by (destruct pre; [congruence | discriminate]).
    unfold aliased. rewrite insert_app_l by lia. rewrite Nat2Z.id, insert_app_r_alt by (rewrite length_insert; lia).
    rewrite length_insert, Nat.sub_diag. reflexivity.
  - rewrite Nat2Z.id, insert_app_r_alt, Nat.sub_diag by lia. reflexivity.
Qed.

Lemma pass2_final at' p js pre :
  wf_instr p -> Forall wf_instr js -> at' = Z.of_nat (length pre) -> (is_lui p = true -> pre <> []) ->
  over Dsm.condense at' (encode p) (encode <$> js) (pre ++ lines_from at' (encode <$> js)) =
    Ret (tt, (if blanked p js then <[Z.to_nat (at' - 1) := ""%string]> pre else pre) ++ final_lines at' p js).
Proof.
  revert at' p pre. induction js as [| i js IH]; intros at' p pre Hp His Hat Hl; [reflexivity |].
  inversion_clear His as [| ? ? Hi His']. cbn [fmap list_fmap over lines_from final_lines]. unfold mbind, M_bind.
  rewrite condense_edit; [| exact Hp | | | exact Hi].
  - rewrite edit_step; [| exact Hat | intros Hb; eapply Hl, blanks_lui, Hb | apply decode_line_encode; [exact Hi | lia]].
    set (pre' := if blanks p i then _ else pre). assert (Hlen : length pre' = length pre) by (unfold pre'; destruct (blanks p i); [apply length_insert | reflexivity]).
    change (pre' ++ item_text (final_item p i at') :: lines_from (at' + 1) (encode <$> js))
      with (pre' ++ [item_text (final_item p i at')] ++ lines_from (at' + 1) (encode <$> js)).
    rewrite app_assoc, IH; [| exact Hi | exact His' | rewrite length_app, Hlen; cbn; lia | intros _ E; destruct pre'; discriminate].
    cbn [blanked]. fold pre'. f_equal. f_equal. destruct (blanked i js); [| rewrite <- app_assoc; reflexivity].
    replace (Z.to_nat (at' + 1 - 1)) with (length pre' + 0)%nat by lia. rewrite insert_app_r, <- app_assoc. reflexivity.
  - rewrite length_app. cbn. lia.
  - intros Hlp. specialize (Hl Hlp). destruct pre; [congruence |]. cbn in Hat. lia.
Qed.

Lemma item_text_nonempty x : item_text x <> ""%string.
Proof. destruct x as [mn args | | w]; [destruct mn |  |]; discriminate. Qed.

Lemma filter_final at' p js : filter (fun s => s <> ""%string) (final_lines at' p js) = item_text <$> quick_items at' p js.
Proof.
  revert at' p. induction js as [| i js IH]; intros at' p; [reflexivity |]. cbn [final_lines quick_items].
  destruct (blanked i js).
  - rewrite filter_cons_False by congruence. apply IH.
  - rewrite filter_cons_True by apply item_text_nonempty. cbn. f_equal. apply IH.
Qed.

(** The instructions of a file and the text that the quick format prints. *)
Definition instrs (data : list Z) : list instr := decode_instr <$> code 0 data.

Lemma instrs_wf data : Forall is_u8 data -> Forall wf_instr (instrs data) /\ encode <$> instrs data = code 0 data.
Proof.
  intros Hd. pose proof (code_u16 0 data Hd) as Hc. unfold instrs. split.
  - apply Forall_fmap. eapply Forall_impl; [exact Hc |]. intros w. apply decode_instr_wf.
  - rewrite <- list_fmap_compose. rewrite <- (list_fmap_id (code 0 data)) at 2.
    apply list_fmap_ext. intros n w Hw. apply encode_decode_word. eapply Forall_lookup_some; eauto.
Qed.

Lemma quick_disassembly data : Forall is_u8 data ->
  exists l, Dsm.disassemble true data [] = Ret (item_text <$> quick_items 0 (Ldw 0 0 0) (instrs data), l).
Proof.
  intros Hd. pose proof (code_u16 0 data Hd) as Hc. unfold Dsm.disassemble, Dsm.pass1, Dsm.pass2.
  destruct (instrs_wf data Hd) as [Hwf He].
  unfold mbind, M_bind. rewrite forEachInst_over, pass1_over by assumption. cbn [app].
  rewrite (forEachInst_over (fun at' prev inst => Dsm.condense at' prev inst)) by assumption.
  change (fun at' prev inst => Dsm.condense at' prev inst) with Dsm.condense. rewrite <- He.
  change 0 with (encode (Ldw 0 0 0)) at 2.
  pose proof (pass2_final 0 (Ldw 0 0 0) (instrs data) []) as H2. cbn [app] in H2.
  rewrite H2; [| cbn; unfold is_reg; lia | exact Hwf | reflexivity | discriminate].
  assert (Hb : blanked (Ldw 0 0 0) (instrs data) = false).
  { destruct (instrs data) as [| j js]; [reflexivity |]. cbn [blanked]. destruct (blanks (Ldw 0 0 0) j) eqn:E; [| reflexivity].
    apply blanks_lui in E. discriminate. }
  rewrite Hb. cbn [app]. unfold get_st. cbn [mret M_ret]. eexists. unfold mret, M_ret. rewrite filter_final. reflexivity.
Qed.

(** ** Names *)

(** The names of the operations in emul/exec.go: the functions of its tables
    and the comments on the cases of [alu3] and [alu1]. *)
Definition alu3_mnemonic (o : alu3op) : string :=
  match o with Add => "add" | Adc => "adc" | Sub => "sub" | Sbb => "sbc" | Bic => "bic"
  | Bis => "bis" | Xor => "xor" end.

Definition alu1_mnemonic (o : alu1op) : string :=
  match o with Not => "not" | Neg => "neg" | Swb => "swb" | Sxt => "sxt" | Lsr => "lsr"
  | Lsl => "lsl" | Asr => "asr" end.

Definition mnemonic (i : instr) : string :=
  match i with
  | Ldw _ _ _ => "ldw" | Ldb _ _ _ => "ldb" | Stw _ _ _ => "stw" | Stb _ _ _ => "stb"
  | Beq _ _ _ => "beq" | Adi _ _ _ => "adi" | Lui _ _ => "lui" | Jlr _ _ _ => "jlr"
  | Alu3 o _ _ _ => alu3_mnemonic o
  | Lsp _ _ => "lsp" | Lio _ _ => "lio" | Ssp _ _ => "ssp" | Sio _ _ => "sio"
  | Yres n _ _ => "y0" +:+ fmt_d n
  | Alu1 o _ => alu1_mnemonic o
  | Rti => "rti" | Rtl => "rtl" | Di => "di" | Ei => "ei" | Hlt => "hlt" | Brk => "brk"
  | V06 => "v06" | Die => "die"
  end.

(** The key table writes a name of two letters with a blank. *)
Definition three_letters (s : string) : string := if (String.length s <? 3)%nat then s +:+ " " else s.

(** The opcodes that belong to an entry. *)
Definition in_tile (op : Z) (ke : Dsm.KeyEntry) : Prop :=
  Dsm.opcode ke <= op < Dsm.opcode ke + 2 ^ (16 - Dsm.nbits ke).

Lemma printed_name i : wf_instr i ->
  dsm_name i = match i with
               | Alu1 Swb _ => "sxt" | Alu1 Sxt _ => "swb" | Alu3 Sbb _ _ _ => "sbb" | Yres 5 _ _ => "y06"
               | _ => three_letters (mnemonic i)
               end%string.
Proof.
  intros Hi. destruct i; try reflexivity; [destruct o; reflexivity | | destruct o; reflexivity].
  destruct Hi as (Hn & _). assert (Hc : n = 4 \/ n = 5 \/ n = 6) by lia.
  destruct Hc as [-> | [-> | ->]]; reflexivity.
Qed.


