(* ===== verification/DsmMain.v ===== *)
(** * The main program of the disassembler

    dsm.go, [main]: one instruction given on the command line (the option -f), or
    a file.  The flags are arguments, and the file system is a function from names
    to contents. *)

From S2P Require Import Prelude Text GoStr Dsm DsmTheorems.

(** [strings.Split(s, "@")] *)
Fixpoint split_at (sep : Z) (s : list Z) : list (list Z) :=
  match s with
  | [] => [[]]
  | c :: s' =>
    if c =? sep then [] :: split_at sep s'
    else match split_at sep s' with w :: ws => (c :: w) :: ws | [] => [[c]] end
  end.

(** An exit code and the lines printed; the arguments within messages are left
    out of them. *)
Definition invalid (what : string) : Z * list string := (1, ["invalid " +:+ what]%string).

Definition fast (fflag : list Z) : res (Z * list string) :=
  match split_at 64 fflag with
  | [a; b] =>
    match ParseUint a 16 with
    | None => Ret (invalid "instruction")
    | Some op =>
      if 64 * 1024 <=? op then Ret (invalid "instruction")
      else
        match ParseUint b 16 with
        | None => Ret (invalid "PC")
        | Some pc =>
          if 64 * 1024 <=? pc then Ret (invalid "PC")
          else match decode (u16 op) pc [] with Ret (s, _) => Ret (0, [s]) | Panic w => Panic w end
        end
    end
  | _ => Ret (invalid "argument")
  end.

Definition dsm_main (fflag : list Z) (qflag : bool) (args : list (list Z)) (open : list Z -> option (list Z)) :
    res (Z * list string) :=
  if (0 <? length fflag)%nat then fast fflag
  else
    match args with
    | [path] =>
      match open path with
      | None => Ret (2, ["dis: opening"]%string)
      | Some data => match disassemble qflag data [] with Ret (lines, _) => Ret (0, lines) | Panic w => Panic w end
      end
    | _ => Ret (1, ["usage"]%string)
    end.

(** ** Numerals *)

Inductive numeral : list Z -> Z -> Prop :=
| num_zero : numeral [48] 0
| num_dec d ds : 1 <= d < 10 -> Forall (fun d => 0 <= d < 10) ds -> numeral (dec_char <$> (d :: ds)) (digits_num 10 (d :: ds))
| num_hex d ds : Forall (fun d => 0 <= d < 16) (d :: ds) -> numeral (48 :: 120 :: (hex_lower <$> (d :: ds))) (digits_num 16 (d :: ds)).

Lemma hex_lower_facts d : 0 <= d < 16 -> hex_lower d <> 95 /\ hex_lower d <> 64.
Proof. intros H. unfold hex_lower. destruct (d <? 10) eqn:E; [apply Z.ltb_lt in E | apply Z.ltb_ge in E]; lia. Qed.

Lemma ParseUint_plain w base ds v :
  w <> [] -> base_prefix w = (base, ds) -> digits_value base ds 0 false = Some (v, false) ->
  ParseUint w 16 = if 65535 <? v then None else Some v.
Proof.
  intros Hw Hb Hd. unfold ParseUint. destruct w as [| c w]; [congruence |]. rewrite Hb. cbn zeta iota beta. rewrite Hd. cbn [mbind option_bind fst snd].
  change (2 ^ 16 - 1) with 65535. destruct (65535 <? v); reflexivity.
Qed.

Lemma base_prefix_dec d w : 1 <= d < 10 -> base_prefix (dec_char d :: w) = (10, dec_char d :: w).
Proof.
  intros Hd. assert (H : d = 1 \/ d = 2 \/ d = 3 \/ d = 4 \/ d = 5 \/ d = 6 \/ d = 7 \/ d = 8 \/ d = 9) by lia.
  decompose [or] H; subst d; reflexivity.
Qed.

Lemma ParseUint_numeral w n : numeral w n -> ParseUint w 16 = if 65535 <? n then None else Some n.
Proof.
  intros [| d ds Hd Hds | d ds Hds]; [reflexivity | |].
  - eapply ParseUint_plain; [discriminate | now apply base_prefix_dec |].
    apply (digits_value_spec 10 dec_char (d :: ds)). apply Forall_cons_2.
    + split; [lia |]. split; [apply digit_val_dec; lia | unfold dec_char; lia].
    + eapply Forall_impl; [exact Hds |]. intros x Hx. cbv beta in Hx. split; [exact Hx |]. split; [now apply digit_val_dec | unfold dec_char; lia].
  - eapply ParseUint_plain; [discriminate | reflexivity |]. apply (digits_value_spec 16 hex_lower (d :: ds)).
    eapply Forall_impl; [exact Hds |]. intros x Hx. cbv beta in Hx. split; [exact Hx |]. split; [now apply digit_val_hex | now apply hex_lower_facts].
Qed.

Lemma numeral_no_at w n : numeral w n -> Forall (fun c => c <> 64) w.
Proof.
  intros [| d ds Hd Hds | d ds Hds].
  - repeat constructor; lia.
  - apply Forall_fmap, Forall_cons_2; [unfold compose, dec_char; lia |]. eapply Forall_impl; [exact Hds |].
    intros x Hx. cbv beta in Hx. unfold compose, dec_char. lia.
  - apply Forall_cons_2; [lia |]. apply Forall_cons_2; [lia |]. apply Forall_fmap. eapply Forall_impl; [exact Hds |].
    intros x Hx. apply hex_lower_facts, Hx.
Qed.

Lemma split_none w : Forall (fun c => c <> 64) w -> split_at 64 w = [w].
Proof. induction 1 as [| c w Hc _ IH]; [reflexivity |]. cbn. rewrite (proj2 (Z.eqb_neq _ _) Hc), IH. reflexivity. Qed.

Lemma split_two a b : Forall (fun c => c <> 64) a -> Forall (fun c => c <> 64) b -> split_at 64 (a ++ 64 :: b) = [a; b].
Proof.
  intros Ha Hb. induction Ha as [| c a Hc _ IH]; cbn; [rewrite split_none by exact Hb; reflexivity |].
  rewrite (proj2 (Z.eqb_neq _ _) Hc), IH. reflexivity.
Qed.

Lemma digit_val_nonneg c d : digit_val c = Some d -> 0 <= d.
Proof.
  unfold digit_val. destruct ((48 <=? c) && (c <=? 57)) eqn:E1; [| destruct ((97 <=? lower c) && (lower c <=? 122)) eqn:E2].
  - intros [= <-]. bool_facts. lia.
  - intros [= <-]. bool_facts. lia.
  - discriminate.
Qed.

Lemma digits_value_nonneg base s n u r : 0 <= base -> 0 <= n -> digits_value base s n u = Some r -> 0 <= r.1.
Proof.
  intros Hb. revert n u. induction s as [| c s IH]; intros n u Hn H; cbn in H; [injection H as <-; exact Hn |].
  destruct (c =? 95); [eauto |]. destruct (digit_val c) as [d |] eqn:Ed; [| discriminate]. cbn in H.
  destruct (base <=? d); [discriminate |]. apply IH in H; [exact H |].
  assert (0 <= d) by now apply (digit_val_nonneg c). nia.
Qed.

Lemma ParseUint_u16 w n : ParseUint w 16 = Some n -> is_u16 n.
Proof.
  unfold ParseUint. destruct w as [| c w]; [discriminate |]. destruct (base_prefix (c :: w)) as [base ds] eqn:Eb.
  destruct (digits_value base ds 0 false) as [[v u] |] eqn:Ed; [| discriminate]. cbn [mbind option_bind fst snd].
  change (2 ^ 16 - 1) with 65535. destruct (65535 <? v) eqn:Ev; [discriminate |]. apply Z.ltb_ge in Ev.
  assert (0 <= v).
  { apply (digits_value_nonneg base ds 0 false (v, u)); [| lia | exact Ed]. unfold base_prefix in Eb.
    repeat (match type of Eb with (match ?x with _ => _ end) = _ => destruct x end || match type of Eb with (if ?x then _ else _) = _ => destruct x end);
    injection Eb as <- _; lia. }
  destruct (u && negb (underscoreOK (c :: w))); [discriminate |]. intros [= <-]. unfold is_u16. lia.
Qed.

(** The fast option.  Whatever the argument is, the program does not panic:
    it prints one line, and exits with 0 only when the argument is two numbers
    below 2^16, the line then being that of the instruction at that address.
    Every such pair, in decimal or hexadecimal, is accepted with its value, and a
    number of 2^16 or more is rejected, never cut off to 16 bits. *)
Theorem fast_option (fflag : list Z) :
  (exists code line, fast fflag = Ret (code, [line]) /\ (code = 0 \/ code = 1) /\
     (code = 0 -> exists op pc, is_u16 op /\ is_u16 pc /\ line = decode_line op pc)) /\
  forall w1 n1 w2 n2, numeral w1 n1 -> numeral w2 n2 -> fflag = w1 ++ 64 :: w2 ->
    fast fflag = Ret (if 65535 <? n1 then invalid "instruction" else if 65535 <? n2 then invalid "PC" else (0, [decode_line n1 n2])).
Proof.
  split.
  - unfold fast, invalid. destruct (split_at 64 fflag) as [| a [| b [| x l]]]; try (do 2 eexists; split; [reflexivity | split; [auto | discriminate]]).
    destruct (ParseUint a 16) as [op |] eqn:Ea; [| do 2 eexists; split; [reflexivity | split; [auto | discriminate]]].
    destruct (64 * 1024 <=? op); [do 2 eexists; split; [reflexivity | split; [auto | discriminate]] |].
    destruct (ParseUint b 16) as [pc |] eqn:Eb; [| do 2 eexists; split; [reflexivity | split; [auto | discriminate]]].
    destruct (64 * 1024 <=? pc); [do 2 eexists; split; [reflexivity | split; [auto | discriminate]] |].
    apply ParseUint_u16 in Ea, Eb. rewrite u16_id, decode_ret by exact Ea. do 2 eexists. split; [reflexivity |]. eauto 10.
  - intros w1 n1 w2 n2 H1 H2 ->. unfold fast. rewrite split_two by eauto using numeral_no_at.
    pose proof (ParseUint_numeral _ _ H1) as P1. pose proof (ParseUint_numeral _ _ H2) as P2. rewrite P1, P2.
    destruct (65535 <? n1) eqn:E1; [reflexivity |]. destruct (65535 <? n2) eqn:E2.
    + apply ParseUint_u16 in P1. unfold is_u16 in P1. rewrite (proj2 (Z.leb_gt _ _)) by lia. reflexivity.
    + apply ParseUint_u16 in P1, P2. pose proof P1 as Q1. unfold is_u16 in P1, P2. rewrite !(proj2 (Z.leb_gt _ _)) by lia.
      rewrite u16_id, decode_ret by exact Q1. reflexivity.
Qed.

(** [0x8042@7] *)
Lemma fast_option_witness : fast (str "0x8042@7") = Ret (0, [decode_line 0x8042 7]).
Proof.
  destruct (fast_option (str "0x8042@7")) as [_ H].
  apply (H (str "0x8042") 0x8042 (str "7") 7); [| | reflexivity].
  - apply (num_hex 8 [0; 4; 2]). repeat constructor; lia.
  - apply (num_dec 7 []); [lia | constructor].
Defined.
