(* ===== verification/AsmRules.v ===== *)
(** * The assembler's rules: asm/asm

    The assembler is a script that runs customasm on an embedded set of rules.
    The rules are translated here one by one: a mnemonic, the kinds of its
    operands and the words that it produces.  [parse_text] reads the plain
    fragment of the input language that the disassembler writes: one statement
    per line, a mnemonic and operands that are registers or unsigned literals,
    and comments after a semicolon.  Labels, expressions and directives are not
    in that fragment. *)

From S2P Require Import Prelude Text.
From Stdlib Require Import Ascii.

(** ** Lines *)

Inductive operand :=
| OReg (r : Z)
| ONum (n : Z).

Definition chr (n : nat) : Ascii.ascii := Ascii.ascii_of_nat n.

Definition is_blank (c : Ascii.ascii) : bool :=
  Ascii.eqb c (chr 32) || Ascii.eqb c (chr 9) || Ascii.eqb c (chr 13).

Definition flush (cur : string) (ts : list string) : list string :=
  match cur with EmptyString => ts | _ => cur :: ts end.

(** The words and commas of a line; [cur] is the word that is being read. *)
Fixpoint tokens (cur s : string) : list string :=
  match s with
  | EmptyString => flush cur []
  | String c s' =>
    if is_blank c then flush cur (tokens "" s')
    else if Ascii.eqb c (chr 44) then flush cur (","%string :: tokens "" s')
    else if Ascii.eqb c (chr 59) then flush cur []
    else tokens (cur +:+ String c "") s'
  end.

(** A digit, in either case. *)
Definition digit_of (c : Ascii.ascii) : option Z :=
  let n := Z.of_nat (Ascii.nat_of_ascii c) in
  if (48 <=? n) && (n <=? 57) then Some (n - 48)
  else if (65 <=? n) && (n <=? 70) then Some (n - 55)
  else if (97 <=? n) && (n <=? 102) then Some (n - 87)
  else None.

Fixpoint read_digits (b : Z) (s : string) (acc : Z) : option Z :=
  match s with
  | EmptyString => Some acc
  | String c s' => d ← digit_of c; if d <? b then read_digits b s' (acc * b + d) else None
  end.

Definition read_number (s : string) : option Z :=
  match s with
  | EmptyString => None
  | String c0 (String c1 (String c s')) =>
    if Ascii.eqb c0 "0" && Ascii.eqb c1 "x" then read_digits 16 (String c s') 0 else read_digits 10 s 0
  | _ => read_digits 10 s 0
  end.

(** [#subruledef reg] *)
Definition reg_table : list (string * Z) :=
  [("r0", 0); ("r1", 1); ("r2", 2); ("r3", 3); ("r4", 4); ("r5", 5); ("r6", 6); ("r7", 7)]%string.

Definition reg_rule (s : string) : option Z := snd <$> List.find (fun p => String.eqb p.1 s) reg_table.

Definition read_operand (s : string) : option operand :=
  match reg_rule s with
  | Some r => Some (OReg r)
  | None => ONum <$> read_number s
  end.

(** Operands separated by commas. *)
Fixpoint read_operands (ts : list string) : option (list operand) :=
  match ts with
  | [] => Some []
  | [t] => o ← read_operand t; Some [o]
  | t :: sep :: ts' =>
    if String.eqb sep "," then
      match ts' with
      | [] => None
      | _ => o ← read_operand t; os ← read_operands ts'; Some (o :: os)
      end
    else None
  end.

Definition stmt : Type := string * list operand.

(** A line holds at most one statement; [None] is a line outside the fragment. *)
Definition parse_line (s : string) : option (list stmt) :=
  match tokens "" s with
  | [] => Some []
  | mn :: ts => os ← read_operands ts; Some [(mn, os)]
  end.

Fixpoint parse_lines (ls : list string) : option (list stmt) :=
  match ls with
  | [] => Some []
  | l :: ls' => x ← parse_line l; xs ← parse_lines ls'; Some (x ++ xs)
  end.

(** The lines of a text. *)
Fixpoint split_lines (cur s : string) : list string :=
  match s with
  | EmptyString => flush cur []
  | String c s' => if Ascii.eqb c (chr 10) then cur :: split_lines "" s' else split_lines (cur +:+ String c "") s'
  end.

Definition parse_text (s : string) : option (list stmt) := parse_lines (split_lines "" s).

(** ** Rules *)

(** The kinds of operands: the sub-rules [reg], [imm6], [imm7], [imm10] and
    [imm16], and the type [u16].  An unsigned literal fits [iN] and [uN] when it
    is below 2^N. *)
Inductive kind := reg | imm6 | imm7 | imm10 | imm16 | u16k.

Definition fits (n v : Z) : option Z := if (0 <=? v) && (v <? 2 ^ n) then Some v else None.

Definition match_arg (k : kind) (o : operand) : option Z :=
  match k, o with
  | reg, OReg r => Some r
  | imm6, ONum v => fits 6 v
  | imm7, ONum v => fits 7 v
  | imm10, ONum v => fits 10 v
  | imm16, ONum v => fits 16 v
  | u16k, ONum v => fits 16 v
  | _, _ => None
  end.

Fixpoint match_args (ks : list kind) (os : list operand) : option (list Z) :=
  match ks, os with
  | [], [] => Some []
  | k :: ks', o :: os' => v ← match_arg k o; vs ← match_args ks' os'; Some (v :: vs)
  | _, _ => None
  end.

(** Concatenation [a @ b @ ...] of values with their widths. *)
Definition cat (fs : list (Z * Z)) : Z := fold_left (fun acc '(n, v) => acc * 2 ^ n + v mod 2 ^ n) fs 0.

(** What a rule produces at the address [$]: words, or a failed assertion. *)
Inductive production :=
| P0 (f : list Z)
| P1 (f : Z -> option (list Z))
| P2 (f : Z -> Z -> option (list Z))
| P3 (f : Z -> Z -> Z -> Z -> option (list Z)).

Record rule := Rule { r_name : string; r_args : list kind; r_prod : production }.

Definition produce (p : production) (pc : Z) (vs : list Z) : option (list Z) :=
  match p, vs with
  | P0 f, [] => Some f
  | P1 f, [a] => f a
  | P2 f, [a; b] => f a b
  | P3 f, [a; b; c] => f pc a b c
  | _, _ => None
  end.

Definition assert' (b : bool) (x : option (list Z)) : option (list Z) := if b then x else None.

(** The ops with immediate fields. *)
Definition op_rri (o ra rb imm : Z) : Z := cat [(3, o); (7, imm); (3, rb); (3, ra)].
Definition op_beq (pc ra rb adr : Z) : Z := let reladdr := adr - pc - 1 in cat [(3, 4); (7, reladdr); (3, rb); (3, ra)].
Definition op_lui (ra imm : Z) : Z := cat [(3, 6); (10, imm); (3, ra)].

Definition rri (mn : string) (o : Z) : rule :=
  Rule mn [reg; reg; imm7] (P3 (fun _ ra rb imm => Some [op_rri o ra rb imm])).

Definition imm_rules : list rule :=
  [ rri "ldw" 0; rri "ldb" 1; rri "stw" 2; rri "stb" 3;
    Rule "beq" [reg; reg; imm16] (P3 (fun pc ra rb adr => Some [op_beq pc ra rb adr]));
    rri "adi" 5;
    Rule "lui" [reg; imm10] (P2 (fun ra imm => Some [op_lui ra imm])) ].

(** XOPs, YOPs, ZOPs and VOPs. *)
Definition xop (mn : string) (o : Z) : rule :=
  Rule mn [reg; reg; reg] (P3 (fun _ ra rb rc => Some [cat [(4, 0xF); (3, o); (3, rc); (3, rb); (3, ra)]])).

Definition xop_rules : list rule :=
  [ xop "add" 0; xop "adc" 1; xop "sub" 2; xop "sbb" 3; xop "bic" 4; xop "bis" 5; xop "xor" 6 ].

Definition op_yop (o ra rb : Z) : Z := cat [(4, 0xF); (3, 7); (3, o); (3, rb); (3, ra)].

Definition yop (mn : string) (o : Z) : rule := Rule mn [reg; reg] (P2 (fun ra rb => Some [op_yop o ra rb])).

Definition yop_rules : list rule :=
  [ yop "lsp" 0; yop "lio" 1; yop "ssp" 2; yop "sio" 3; yop "y04" 4; yop "y05" 5; yop "y06" 6 ].

Definition op_zop (o ra : Z) : Z := cat [(4, 0xF); (3, 7); (3, 7); (3, o); (3, ra)].

Definition zop (mn : string) (o : Z) : rule := Rule mn [reg] (P1 (fun ra => Some [op_zop o ra])).

Definition zop_rules : list rule :=
  [ zop "not" 0; zop "neg" 1; zop "sxt" 2; zop "swb" 3; zop "lsr" 4; zop "lsl" 5; zop "asr" 6 ].

Definition vop (mn : string) (o : Z) : rule :=
  Rule mn [] (P0 [cat [(4, 0xF); (3, 7); (3, 7); (3, 7); (3, o)]]).

Definition vop_rules : list rule :=
  [ vop "rti" 0; vop "rtl" 1; vop "di" 2; vop "ei" 3; vop "hlt" 4; vop "brk" 5; vop "v06" 6; vop "die" 7 ].

(** Aliases. *)
Definition upper_imm (imm : Z) : Z := Z.land (Z.shiftr imm 6) 0x3FF.
Definition lower_imm (imm : Z) : Z := Z.land imm 0x3F.

Definition op_jlr (imm rb j : Z) : Z := cat [(4, 14); (6, imm); (3, rb); (3, j)].

(** [jsr] and [jmp] with a target, and without. *)
Definition jump (mn : string) (j : Z) : rule :=
  Rule mn [reg; u16k] (P2 (fun rb imm =>
    assert' (negb (rb =? 0)) (Some [op_lui rb (upper_imm imm); op_jlr (lower_imm imm) rb j]))).

Definition jump0 (mn : string) (j : Z) : rule :=
  Rule mn [reg] (P1 (fun rb => assert' (negb (rb =? 0)) (Some [op_jlr 0 rb j]))).

(** [ior], [iow], [srr] and [srw]: [lli] and an access. *)
Definition access (mn : string) (o : Z) : rule :=
  Rule mn [reg; reg; imm6] (P3 (fun _ ra rb imm => Some [op_rri 5 rb rb imm; op_yop o ra rb])).

Definition alias_rules : list rule :=
  [ Rule "lli" [reg; imm6] (P2 (fun ra imm => Some [op_rri 5 ra ra imm]));
    Rule "ldi" [reg; u16k] (P2 (fun ra imm => Some [op_lui ra (upper_imm imm); op_rri 5 ra ra (lower_imm imm)]));
    Rule "lsi" [reg; imm6] (P2 (fun ra imm => Some [op_rri 5 ra 0 imm]));
    Rule "nop" [] (P0 [op_zop 1 0]);
    Rule "sys" [imm6] (P1 (fun i =>
      assert' ((0 <=? i) && (i <? 64)) (assert' (negb (Z.land i 1 =? 1)) (Some [op_jlr i 0 0]))));
    jump "jsr" 1; jump0 "jsr" 1; jump "jmp" 2; jump0 "jmp" 2;
    access "ior" 1; access "iow" 3; access "srr" 0; access "srw" 2 ].

Definition rules : list rule :=
  imm_rules ++ xop_rules ++ yop_rules ++ zop_rules ++ vop_rules ++ alias_rules.

(** ** Assembly *)

Definition rule_for (s : stmt) (r : rule) : bool :=
  String.eqb (r_name r) s.1 && (length (r_args r) =? length s.2)%nat.

(** The words of a statement at an address. *)
Definition assemble_stmt (pc : Z) (s : stmt) : option (list Z) :=
  r ← List.find (rule_for s) rules;
  vs ← match_args (r_args r) s.2;
  produce (r_prod r) pc vs.

Fixpoint assemble (pc : Z) (ss : list stmt) : option (list Z) :=
  match ss with
  | [] => Some []
  | s :: ss' => ws ← assemble_stmt pc s; more ← assemble (pc + Z.of_nat (length ws)) ss'; Some (ws ++ more)
  end.

(** [le]: the bytes of the output file. *)
Fixpoint le_bytes (ws : list Z) : list Z :=
  match ws with [] => [] | w :: ws' => w mod 256 :: w / 256 :: le_bytes ws' end.

(** A statement has one rule: mnemonic and number of operands are a key, so that
    the order of the rules does not matter. *)
Lemma rules_unambiguous : NoDup (fmap (fun r => (r_name r, length (r_args r))) rules).
Proof. apply (bool_decide_unpack _). vm_compute. exact I. Qed.

Example assemble_demo :
  parse_text ("ldi r1, 0xFFFF" +:+ String (chr 10) ("beq r1, r2, 5 ; loop" +:+ String (chr 10) "di "))
    ≫= assemble 0 = Some [0xDFF9; 0xAFC9; 0x8091; 0xFFFA].
Proof. reflexivity. Qed.
