(* ===== verification/Reassemble.v ===== *)
(** * Disassembling and assembling again

    The text that the quick format of dsm/dsm.go prints, read back by the rules
    of asm/asm: which instructions come back, and which do not. *)

From S2P Require Import Prelude Text Dsm Machine Isa Decoder Refine IsaProps DsmTheorems DsmLines AsmRules.
From Stdlib Require Import Ascii.

(** ** Reading back what was printed *)

Fixpoint str_all (f : ascii -> bool) (s : string) : bool :=
  match s with EmptyString => true | String c s' => f c && str_all f s' end.

(** A character that does not end a word. *)
Definition word_char (c : ascii) : bool :=
  negb (is_blank c || Ascii.eqb c (chr 44) || Ascii.eqb c (chr 59) || Ascii.eqb c (chr 10)).

Lemma str_all_app f s t : str_all f (s +:+ t) = str_all f s && str_all f t.
Proof. induction s as [| c s IH]; [reflexivity |]. rewrite str_app_cons. cbn [str_all]. rewrite IH. apply andb_assoc. Qed.

Lemma str_all_impl (f g : ascii -> bool) s : (forall c, f c = true -> g c = true) -> str_all f s = true -> str_all g s = true.
Proof.
  intros Hfg. induction s as [| c s IH]; [reflexivity |]. cbn. intros H. apply andb_prop in H as [H1 H2].
  rewrite (Hfg c H1), IH by exact H2. reflexivity.
Qed.

Lemma tokens_word w s cur : str_all word_char w = true -> tokens cur (w +:+ s) = tokens (cur +:+ w) s.
Proof.
  revert cur. induction w as [| c w IH]; intros cur H; [rewrite str_app_nil; reflexivity |].
  cbn in H. apply andb_prop in H as [Hc Hw]. unfold word_char in Hc. apply negb_true_iff, orb_false_iff in Hc as [Hc _].
  apply orb_false_iff in Hc as [Hc H59]. apply orb_false_iff in Hc as [Hb H44].
  rewrite str_app_cons. cbn [tokens]. rewrite Hb, H44, H59, IH by exact Hw. f_equal. rewrite str_app_assoc. reflexivity.
Qed.

(** A printed digit. *)
Definition is_digit (b : Z) (c : ascii) : bool :=
  match digit_of c with Some d => (d <? b) && (char_digit c =? d) && word_char c && negb (Ascii.eqb "r" c) && negb (Ascii.eqb c "x") | None => false end.

Lemma digit_char_is_digit d : 0 <= d < 16 -> is_digit 16 (digit_char d) = true /\ (d < 10 -> is_digit 10 (digit_char d) = true).
Proof.
  intros H. assert (Hc : d ∈ seqZ 0 16) by (apply elem_of_seqZ; lia). revert d Hc H.
  apply (Forall_forall (fun d => 0 <= d < 16 -> is_digit 16 (digit_char d) = true /\ (d < 10 -> is_digit 10 (digit_char d) = true))).
  vm_compute seqZ. repeat constructor; intros; lia || reflexivity.
Qed.

Lemma digits_acc_digits fuel b n acc :
  (b = 10 \/ b = 16) -> 0 <= n -> str_all (is_digit b) acc = true -> str_all (is_digit b) (digits_acc fuel b n acc) = true.
Proof.
  intros Hb. revert n acc. induction fuel as [| fuel IH]; intros n acc Hn Ha; [exact Ha |]. cbn [digits_acc]. cbv zeta.
  assert (Hd : is_digit b (digit_char (n mod b)) = true).
  { destruct Hb as [-> | ->]; [pose proof (Z.mod_pos_bound n 10) | pose proof (Z.mod_pos_bound n 16)];
      apply digit_char_is_digit; lia. }
  assert (Hs : str_all (is_digit b) (String (digit_char (n mod b)) acc) = true) by (cbn; rewrite Hd; exact Ha).
  case_if; [exact Hs |]. apply IH; [apply Z.div_pos; lia | exact Hs].
Qed.

Lemma pad_digits k s : str_all (is_digit 16) s = true -> str_all (is_digit 16) (pad k (chr 48) s) = true.
Proof. intros Hs. induction k as [| k IH]; [exact Hs |]. cbn [pad str_all]. rewrite IH. reflexivity. Qed.

Lemma digits_acc_cons fuel b n acc : exists c s, digits_acc (S fuel) b n acc = String c s.
Proof.
  revert n acc. induction fuel as [| fuel IH]; intros n acc.
  - cbn. case_if; eauto.
  - remember (S fuel) as f. cbn [digits_acc]. cbv zeta. case_if; [eauto | apply IH].
Qed.

Lemma fmt_X_cons w n : exists c s, fmt_X w n = String c s.
Proof.
  unfold fmt_X, pad_to. destruct (w - String.length _)%nat; [apply digits_acc_cons | cbn; eauto].
Qed.

Lemma fmt_X_digits w n : 0 <= n -> str_all (is_digit 16) (fmt_X w n) = true.
Proof. intros Hn. apply pad_digits, digits_acc_digits; auto. Qed.

Lemma fmt_d_digits n : 0 <= n -> str_all (is_digit 10) (fmt_d n) = true.
Proof. intros Hn. apply digits_acc_digits; auto. Qed.

Lemma is_digit_inv b c : is_digit b c = true ->
  digit_of c = Some (char_digit c) /\ (char_digit c <? b) = true /\ word_char c = true /\
  Ascii.eqb "r" c = false /\ Ascii.eqb c "x" = false.
Proof.
  unfold is_digit. destruct (digit_of c) as [d |]; [| discriminate]. intros H.
  repeat (apply andb_prop in H as [H ?]). match goal with E : (char_digit c =? d) = true |- _ => apply Z.eqb_eq in E as -> end.
  repeat split; try assumption; apply negb_true_iff; assumption.
Qed.

Lemma read_digits_value b s acc : str_all (is_digit b) s = true -> read_digits b s acc = Some (value_acc b s acc).
Proof.
  revert acc. induction s as [| c s IH]; intros acc H; [reflexivity |]. cbn in H. apply andb_prop in H as [Hc Hs].
  apply is_digit_inv in Hc as (Hd & Hlt & _). cbn. rewrite Hd. cbn. rewrite Hlt. apply IH, Hs.
Qed.

Lemma digits_word b s : str_all (is_digit b) s = true -> str_all word_char s = true.
Proof. apply str_all_impl. intros c H. apply is_digit_inv in H. tauto. Qed.

(** ** Operands *)

Definition arg_val (a : arg) : operand :=
  match a with AReg r => OReg r | AHex _ n | ADec n => ONum n end.

Definition wf_arg (a : arg) : Prop :=
  match a with AReg r => is_reg r | AHex _ n | ADec n => is_u16 n end.

Lemma reg_rule_other c s : Ascii.eqb "r" c = false -> reg_rule (String c s) = None.
Proof. intros H. unfold reg_rule, reg_table. cbn [List.find fst String.eqb]. rewrite H. reflexivity. Qed.

Lemma read_hex w n : is_u16 n -> read_operand ("0x" +:+ fmt_X w n) = Some (ONum n).
Proof.
  intros Hn. unfold read_operand. rewrite !str_app_cons, reg_rule_other by reflexivity.
  destruct (fmt_X_cons w n) as (c & s & E). pose proof (fmt_X_digits w n ltac:(apply Hn)) as Hd.
  pose proof (fmt_X_value w n Hn) as Hv. rewrite E in *. change ("" +:+ String c s) with (String c s).
  cbn [read_number]. change (Ascii.eqb "0" "0" && Ascii.eqb "x" "x") with true. cbv iota.
  rewrite read_digits_value, Hv by exact Hd. reflexivity.
Qed.

Lemma read_dec n : is_u16 n -> read_operand (fmt_d n) = Some (ONum n).
Proof.
  intros Hn. destruct (digits_acc_cons 19 10 n EmptyString) as (c & s & E). change (digits_acc 20 10 n "") with (fmt_d n) in E.
  pose proof (fmt_d_digits n ltac:(apply Hn)) as Hd. pose proof (number_value 10 n ltac:(lia) Hn) as Hv.
  change (number 10 n) with (fmt_d n) in Hv. rewrite E in *.
  assert (Hr : read_number (String c s) = read_digits 10 (String c s) 0).
  { destruct s as [| c1 [| c2 s]]; try reflexivity. cbn [read_number]. cbn in Hd. apply andb_prop in Hd as [_ Hd].
    apply andb_prop in Hd as [Hd _]. apply is_digit_inv in Hd as (_ & _ & _ & _ & ->). rewrite andb_false_r. reflexivity. }
  unfold read_operand. rewrite reg_rule_other, Hr, read_digits_value, Hv; [reflexivity | exact Hd |].
  cbn in Hd. apply andb_prop in Hd as [Hd _]. apply is_digit_inv in Hd. tauto.
Qed.

Lemma reg_cases (P : Z -> Prop) : P 0 -> P 1 -> P 2 -> P 3 -> P 4 -> P 5 -> P 6 -> P 7 -> forall r, is_reg r -> P r.
Proof. intros ? ? ? ? ? ? ? ? r Hr. apply field8_cases in Hr. decompose [or] Hr; subst r; assumption. Qed.

Lemma read_arg a : wf_arg a -> read_operand (arg_text a) = Some (arg_val a).
Proof.
  destruct a as [r | w n | n]; cbn [wf_arg arg_text arg_val]; [| apply read_hex | apply read_dec].
  revert r. apply reg_cases; reflexivity.
Qed.

Lemma arg_word a : wf_arg a -> str_all word_char (arg_text a) = true /\ arg_text a <> ""%string.
Proof.
  destruct a as [r | w n | n]; cbn [wf_arg arg_text].
  - revert r. apply reg_cases; split; (reflexivity || discriminate).
  - intros Hn. rewrite !str_app_cons. split; [| discriminate]. cbn. apply (digits_word 16), fmt_X_digits, Hn.
  - intros Hn. split; [apply (digits_word 10), fmt_d_digits, Hn |].
    destruct (digits_acc_cons 19 10 n EmptyString) as (c & s & E). change (digits_acc 20 10 n "") with (fmt_d n) in E. rewrite E. discriminate.
Qed.

(** ** Statements *)

Fixpoint arg_tokens (l : list arg) : list string :=
  match l with
  | [] => []
  | [a] => [arg_text a]
  | a :: l' => arg_text a :: ","%string :: arg_tokens l'
  end.

Lemma flush_word w ts : w <> ""%string -> flush w ts = w :: ts.
Proof. destruct w; [congruence | reflexivity]. Qed.

Lemma args_text_cons a b l : args_text (a :: b :: l) = arg_text a +:+ ", " +:+ args_text (b :: l).
Proof. reflexivity. Qed.

Lemma tokens_word0 w s : str_all word_char w = true -> tokens "" (w +:+ s) = tokens w s.
Proof. exact (tokens_word w s ""). Qed.

Lemma tokens_comma cur s : tokens cur (", " +:+ s) = flush cur (","%string :: tokens "" s).
Proof. reflexivity. Qed.

Lemma tokens_space cur s : tokens cur (" " +:+ s) = flush cur (tokens "" s).
Proof. reflexivity. Qed.

Lemma tokens_args l : Forall wf_arg l -> tokens "" (args_text l) = arg_tokens l.
Proof.
  induction 1 as [| a l Ha Hl IH]; [reflexivity |]. destruct (arg_word a Ha) as [Hw Hne].
  destruct l as [| b l].
  - cbn [args_text arg_tokens]. rewrite <- (str_app_nil (arg_text a)) at 1. rewrite tokens_word0 by exact Hw. cbn [tokens]. apply flush_word, Hne.
  - rewrite args_text_cons, tokens_word0, tokens_comma, flush_word, IH by assumption. reflexivity.
Qed.

Lemma read_operands_cons t sep x ts : String.eqb sep "," = true ->
  read_operands (t :: sep :: x :: ts) = o ← read_operand t; os ← read_operands (x :: ts); Some (o :: os).
Proof. intros H. cbn. rewrite H. reflexivity. Qed.

Lemma read_arg_tokens l : Forall wf_arg l -> read_operands (arg_tokens l) = Some (arg_val <$> l).
Proof.
  induction 1 as [| a l Ha Hl IH]; [reflexivity |]. destruct l as [| b l].
  - cbn. rewrite read_arg by exact Ha. reflexivity.
  - assert (E : exists x ts, arg_tokens (b :: l) = x :: ts) by (destruct l; cbn; eauto). destruct E as (x & ts & E).
    change (arg_tokens (a :: b :: l)) with (arg_text a :: ","%string :: arg_tokens (b :: l)).
    rewrite E, read_operands_cons, read_arg by (reflexivity || exact Ha). rewrite <- E, IH. reflexivity.
Qed.

Definition trim (mn : string) : string :=
  if String.eqb mn "di " then "di" else if String.eqb mn "ei " then "ei" else mn.

Definition item_stmt (x : item) : stmt :=
  match x with
  | Stmt mn args => (trim mn, arg_val <$> args)
  | NopLine => ("nop"%string, [])
  | DieLine _ => ("die"%string, [])
  end.

Definition wf_item (x : item) : Prop :=
  match x with
  | Stmt mn args => (str_all word_char mn = true /\ mn <> ""%string \/ (mn = "di " \/ mn = "ei ")%string /\ args = []) /\ Forall wf_arg args
  | _ => True
  end.

Lemma trim_word mn : str_all word_char mn = true -> trim mn = mn.
Proof.
  intros H. unfold trim. destruct (String.eqb_spec mn "di ") as [-> | _]; [discriminate |].
  destruct (String.eqb_spec mn "ei ") as [-> | _]; [discriminate | reflexivity].
Qed.

(** A printed line is one statement of the plain fragment. *)
Lemma parse_item x : wf_item x -> parse_line (item_text x) = Some [item_stmt x].
Proof.
  destruct x as [mn args | | w]; cbn [wf_item item_text item_stmt]; [| reflexivity | reflexivity].
  intros [[[Hw Hne] | [Hmn ->]] Ha]; [| destruct Hmn as [-> | ->]; reflexivity].
  unfold parse_line. rewrite tokens_word0, tokens_space by exact Hw.
  rewrite flush_word, tokens_args, read_arg_tokens, trim_word by assumption. reflexivity.
Qed.

(** The text that is written to the file, one line after another. *)
Definition newline : string := String (chr 10) "".

Fixpoint text (ls : list string) : string :=
  match ls with [] => "" | l :: ls' => l +:+ newline +:+ text ls' end.

Definition line_char (c : ascii) : bool := negb (Ascii.eqb c (chr 10)).

Lemma split_lines_line l s cur : str_all line_char l = true ->
  split_lines cur (l +:+ newline +:+ s) = (cur +:+ l) :: split_lines "" s.
Proof.
  revert cur. induction l as [| c l IH]; intros cur H.
  - rewrite str_app_nil. reflexivity.
  - cbn in H. apply andb_prop in H as [Hc Hl]. rewrite str_app_cons. cbn [split_lines].
    unfold line_char in Hc. apply negb_true_iff in Hc. rewrite Hc, IH by exact Hl. rewrite str_app_assoc. reflexivity.
Qed.

Lemma word_line s : str_all word_char s = true -> str_all line_char s = true.
Proof.
  apply str_all_impl. unfold word_char, line_char. intros c H. apply negb_true_iff, orb_false_iff in H as [_ ->]. reflexivity.
Qed.

Lemma args_line l : Forall wf_arg l -> str_all line_char (args_text l) = true.
Proof.
  induction 1 as [| a l Ha Hl IH]; [reflexivity |]. destruct (arg_word a Ha) as [Hw _]. apply word_line in Hw.
  destruct l as [| b l]; [exact Hw |]. rewrite args_text_cons, !str_all_app, Hw. exact IH.
Qed.

Lemma item_line x : wf_item x -> match x with DieLine w => 0 <= w | _ => True end -> str_all line_char (item_text x) = true.
Proof.
  destruct x as [mn args | | w]; cbn [wf_item item_text].
  - intros [Hmn Ha] _. rewrite !str_all_app, args_line by exact Ha.
    destruct Hmn as [[Hw _] | [[-> | ->] _]]; [rewrite word_line by exact Hw | |]; reflexivity.
  - reflexivity.
  - intros _ Hw. rewrite str_all_app, (word_line (fmt_X 4 w)) by (apply (digits_word 16), fmt_X_digits, Hw). reflexivity.
Qed.

Definition wf_line (x : item) : Prop := wf_item x /\ match x with DieLine w => 0 <= w | _ => True end.

Lemma parse_text_items xs : Forall wf_line xs -> parse_text (text (item_text <$> xs)) = Some (item_stmt <$> xs).
Proof.
  unfold parse_text. induction 1 as [| x xs [Hx Hd] _ IH]; [reflexivity |]. cbn [fmap list_fmap text].
  rewrite split_lines_line by now apply item_line. cbn [parse_lines].
  change ("" +:+ item_text x) with (item_text x). rewrite parse_item by exact Hx. cbn [mbind option_bind].
  change (list_fmap item string item_text xs) with (item_text <$> xs). rewrite IH. reflexivity.
Qed.

(** ** The words of a rule *)

Lemma fits_ok n v : 0 <= v < 2 ^ n -> fits n v = Some v.
Proof. intros H. unfold fits. rewrite (proj2 (Z.leb_le _ _)), (proj2 (Z.ltb_lt _ _)) by lia. reflexivity. Qed.

Ltac cat_lia := unfold op_rri, op_beq, op_lui, op_jlr, op_yop, op_zop, cat, enc_rri, is_reg in *; cbn [fold_left];
  change (2 ^ 3) with 8 in *; change (2 ^ 4) with 16 in *; change (2 ^ 6) with 64 in *; change (2 ^ 7) with 128 in *;
  change (2 ^ 10) with 1024 in *; Z.div_mod_to_equations; lia.

Section Words.
Context (ra rb : Z) (Ha : is_reg ra) (Hb : is_reg rb).

Lemma op_rri_enc o k : 0 <= o < 8 -> 0 <= k < 128 -> op_rri o ra rb k = enc_rri o k rb ra.
Proof using Ha Hb. intros. cat_lia. Qed.

Lemma op_lui_enc k : 0 <= k < 1024 -> op_lui ra k = encode (Lui ra k).
Proof using Ha. clear Hb. intros. cbn [encode]. cat_lia. Qed.

Lemma op_jlr_enc k : 0 <= k < 64 -> op_jlr k rb ra = encode (Jlr ra rb k).
Proof using Ha Hb. intros. cbn [encode]. cat_lia. Qed.

(** The target that [beq] prints is only known modulo 128, and that is enough. *)
Lemma op_beq_enc pc k : 0 <= k < 128 -> op_beq pc ra rb ((k + pc + 1) mod 128) = enc_rri 4 k rb ra.
Proof using Ha Hb.
  intros Hk. assert (E : ((k + pc + 1) mod 128 - pc - 1) mod 128 = k) by (Z.div_mod_to_equations; lia).
  unfold op_beq, cat. cbn [fold_left]. change (2 ^ 7) with 128. rewrite E. cat_lia.
Qed.

Lemma op_yop_enc n : 0 <= n < 8 -> op_yop n ra rb = 127 * 512 + n * 64 + rb * 8 + ra.
Proof using Ha Hb. intros. cat_lia. Qed.

Lemma op_xop_enc o rc : 0 <= o < 8 -> is_reg rc ->
  cat [(4, 15); (3, o); (3, rc); (3, rb); (3, ra)] = 15 * 4096 + o * 512 + rc * 64 + rb * 8 + ra.
Proof using Ha Hb. intros. cat_lia. Qed.

Lemma op_zop_enc o : 0 <= o < 8 -> op_zop o ra = 1023 * 64 + o * 8 + ra.
Proof using Ha. clear Hb. intros. cat_lia. Qed.

End Words.

Lemma upper_joined h k : 0 <= h < 1024 -> 0 <= k < 64 -> upper_imm (h * 64 + k) = h.
Proof.
  intros Hh Hk. unfold upper_imm. rewrite Z.shiftr_div_pow2 by lia. change 0x3FF with (Z.shiftl 1 10 - 1).
  rewrite land_mask by lia. change (2 ^ 6) with 64. change (2 ^ 10) with 1024. Z.div_mod_to_equations; lia.
Qed.

Lemma lower_joined h k : 0 <= k < 64 -> lower_imm (h * 64 + k) = k.
Proof.
  intros Hk. unfold lower_imm. change 0x3F with (Z.shiftl 1 6 - 1). rewrite land_mask by lia. change (2 ^ 6) with 64.
  Z.div_mod_to_equations; lia.
Qed.

(** Select the rule of a statement and match its operands. *)
Ltac use_rule :=
  cbn [item_stmt fmap list_fmap arg_val]; unfold assemble_stmt;
  match goal with |- context [List.find (rule_for ?s) rules] =>
    let r := eval hnf in (List.find (rule_for s) rules) in change (List.find (rule_for s) rules) with r
  end;
  cbn [mbind option_bind snd];
  unfold rri, xop, yop, zop, vop, jump, jump0, access; cbn [r_args r_prod match_args match_arg];
  rewrite ?fits_ok by (cbn; unfold is_u16, is_reg in *; lia); cbn [mbind option_bind produce].

(** ** Which instructions come back *)

(** The instructions that the disassembler and the assembler agree on, after the
    instruction [p]. *)
Definition canon (p i : instr) : bool :=
  match i with
  | Yres n _ _ => n =? 4
  | Adi ra rb k =>
    match p with
    | Lui r _ => negb ((rb =? ra) && negb (ra =? 0) && (k <? 64)) || (r =? ra)
    | _ => true
    end
  | Jlr ra rb k =>
    if ra =? 0 then (rb =? 0) && (k mod 2 =? 0)
    else if (ra =? 1) || (ra =? 2) then
      negb (rb =? 0) && ((k =? 0) || match p with Lui r _ => r =? rb | _ => false end)
    else false
  | _ => true
  end.

(** What came back instead of [ws]: nothing, or as many other words. *)
Definition differs (o : option (list Z)) (ws : list Z) : Prop :=
  match o with None => True | Some ws' => length ws' = length ws /\ ws' <> ws end.

Definition comes_back (b : bool) (o : option (list Z)) (ws : list Z) : Prop :=
  if b then o = Some ws else differs o ws.

Lemma alu3_code_range o : 0 <= alu3_code o < 8.
Proof. destruct o; cbn; lia. Qed.

Lemma alu1_code_range o : 0 <= alu1_code o < 8.
Proof. destruct o; cbn; lia. Qed.

Lemma pass1_assembles i at' : wf_instr i -> 0 <= at' ->
  match i with Yres n _ _ => n = 4 | Jlr _ _ _ => False | _ => True end ->
  assemble_stmt at' (item_stmt (pass1_item i at')) = Some [encode i].
Proof.
  intros Hi Hat Hc. unfold pass1_item.
  destruct i as [| | | | ra rb k | | | | o ra rb rc | | | | | n ra rb | o ra | | | | | | | |]; cbn in Hi; cbn [dsm_name args_of].
  all: try (use_rule; cbn [encode]; rewrite op_rri_enc by (lia || tauto); reflexivity).
  all: try (use_rule; cbn [encode]; rewrite op_yop_enc by (lia || tauto); reflexivity).
  all: try (use_rule; reflexivity).
  - pose proof (Z.mod_pos_bound (k + at' + 1) 128). use_rule. cbn [encode]. rewrite op_beq_enc by tauto. reflexivity.
  - use_rule. rewrite op_lui_enc by tauto. reflexivity.
  - destruct Hc.
  - destruct o; cbn [alu3_name]; use_rule; cbn [encode]; rewrite op_xop_enc by (lia || tauto); reflexivity.
  - subst n. cbn [Z.eqb Pos.eqb]. use_rule. rewrite op_yop_enc by (lia || tauto). reflexivity.
  - destruct o; cbn [alu1_name]; use_rule; cbn [encode]; rewrite op_zop_enc by (lia || tauto); reflexivity.
Qed.

Lemma differs_one w w' : w' <> w -> differs (Some [w']) [w].
Proof. intros H. split; [reflexivity | congruence]. Qed.

Lemma jlr_small ra rb k : wf_instr (Jlr ra rb k) -> encode (Jlr ra rb k) < 0xF000.
Proof. cbn. unfold is_reg, enc_rri. lia. Qed.

Lemma die_differs at' i w : encode i < 0xFFFF -> differs (assemble_stmt at' (item_stmt (DieLine w))) [encode i].
Proof. intros H. use_rule. apply differs_one. change (cat _) with 0xFFFF. lia. Qed.

(** An instruction that keeps its own line. *)
Section Single.
Context (p : instr) (at' : Z) (Hat : 0 <= at').

Lemma adi_comes_back ra rb k : let i := Adi ra rb k in wf_instr i -> blanks p i = false ->
  comes_back (canon p i) (assemble_stmt at' (item_stmt (final_item p i at'))) [encode i].
Proof using Hat.
  cbv zeta. intros Hi. pose proof Hi as (Ha & Hb & Hk). unfold blanks, final_item, canon. cbn [pass2_item].
  destruct ((rb =? ra) && negb (ra =? 0)) eqn:Ec.
  - apply andb_prop in Ec as [Ec _]. apply Z.eqb_eq in Ec as ->. destruct (Z.ltb_spec k 64) as [Hlt | Hge].
    + destruct p; intros Hbl; try discriminate Hbl; cbn [comes_back]; use_rule; rewrite op_rri_enc by (lia || assumption); reflexivity.
    + intros _. replace (match p with Lui r _ => _ | _ => true end) with true by (destruct p; reflexivity).
      cbn [comes_back]. use_rule. rewrite op_rri_enc by (lia || assumption). reflexivity.
  - intros _. replace (match p with Lui r _ => _ | _ => true end) with true by (destruct p; reflexivity).
    exact (pass1_assembles (Adi ra rb k) at' Hi Hat I).
Qed.

Lemma jlr_differs ra rb k : differs (assemble_stmt at' (item_stmt (pass1_item (Jlr ra rb k) at'))) [encode (Jlr ra rb k)].
Proof using Type. exact I. Qed.

Lemma jump_comes_back j rb k : j = 1 \/ j = 2 -> let i := Jlr j rb k in wf_instr i -> blanks p i = false ->
  comes_back (canon p i) (assemble_stmt at' (item_stmt (final_item p i at'))) [encode i].
Proof using Type.
  intros Hj. cbv zeta. intros Hi Hbl. pose proof Hi as (Ha & Hb & Hk).
  assert (Hp : pass2_item p (Jlr j rb k) =
    if (k =? 0) && negb (rb =? 0) then Some (false, Stmt (if j =? 1 then "jsr" else "jmp") [AReg rb]) else None).
  { unfold blanks in Hbl. destruct Hj as [-> | ->]; destruct p; try reflexivity; cbn [pass2_item] in Hbl |- *;
      destruct (rb =? ra); (discriminate || reflexivity). }
  assert (Hc : canon p (Jlr j rb k) = (k =? 0) && negb (rb =? 0)).
  { replace (canon p (Jlr j rb k)) with (negb (rb =? 0) && ((k =? 0) || match p with Lui r _ => r =? rb | _ => false end)) by (destruct Hj as [-> | ->]; reflexivity).
    rewrite (andb_comm (k =? 0)). f_equal. unfold blanks in Hbl. destruct p; try apply orb_false_r.
    rewrite (Z.eqb_sym ra rb). destruct Hj as [-> | ->]; cbn [pass2_item] in Hbl; destruct (rb =? ra); (discriminate || apply orb_false_r). }
  unfold final_item. rewrite Hp, Hc. destruct ((k =? 0) && negb (rb =? 0)) eqn:E; [| apply jlr_differs].
  apply andb_prop in E as [E0 E1]. apply Z.eqb_eq in E0 as ->. cbn [comes_back].
  destruct Hj as [-> | ->]; cbn [Z.eqb Pos.eqb]; use_rule; rewrite E1, op_jlr_enc by (unfold is_reg; lia || assumption); reflexivity.
Qed.

Lemma jlr_comes_back ra rb k : let i := Jlr ra rb k in wf_instr i -> blanks p i = false ->
  comes_back (canon p i) (assemble_stmt at' (item_stmt (final_item p i at'))) [encode i].
Proof using Type.
  cbv zeta. intros Hi Hbl. pose proof Hi as (Ha & Hb & Hk). pose proof (jlr_small _ _ _ Hi) as Hs.
  assert (Hdie : forall w, differs (assemble_stmt at' (item_stmt (DieLine w))) [encode (Jlr ra rb k)]) by (intros w; apply die_differs; lia).
  apply field8_cases in Ha. destruct Ha as [-> | [-> | [-> | Hge]]]; [| apply jump_comes_back; auto .. |].
  - unfold final_item. cbn [pass2_item canon Z.eqb]. destruct (rb =? 0) eqn:Er; cbn [negb orb andb]; [| apply Hdie].
    destruct (k mod 2 =? 0) eqn:Ek; cbn [negb]; [| apply Hdie]. apply Z.eqb_eq in Er as ->. apply Z.eqb_eq in Ek.
    cbn [comes_back]. use_rule. rewrite (proj2 (Z.leb_le _ _)), (proj2 (Z.ltb_lt _ _)), land_bit0, Ek, op_jlr_enc by (unfold is_reg; lia).
    reflexivity.
  - decompose [or] Hge; subst ra; apply Hdie.
Qed.

Lemma yres_comes_back n ra rb : let i := Yres n ra rb in wf_instr i ->
  comes_back (canon p i) (assemble_stmt at' (item_stmt (final_item p i at'))) [encode i].
Proof using Hat.
  cbv zeta. intros Hi. pose proof Hi as (Hn & Ha & Hb). unfold final_item, canon. cbn [pass2_item].
  assert (Hc : n = 4 \/ n = 5 \/ n = 6) by lia. destruct Hc as [-> | [-> | ->]]; cbn [Z.eqb Pos.eqb comes_back].
  - now apply pass1_assembles.
  - unfold pass1_item. cbn [dsm_name args_of Z.eqb Pos.eqb]. use_rule. rewrite op_yop_enc by (lia || assumption).
    apply differs_one. cbn [encode]. lia.
  - exact I.
Qed.

Lemma single_comes_back i : wf_instr i -> blanks p i = false ->
  comes_back (canon p i) (assemble_stmt at' (item_stmt (final_item p i at'))) [encode i].
Proof using Hat.
  intros Hi Hb.
  assert (H1 : pass2_item p i = None -> canon p i = true ->
    match i with Yres n _ _ => n = 4 | Jlr _ _ _ => False | _ => True end ->
    comes_back (canon p i) (assemble_stmt at' (item_stmt (final_item p i at'))) [encode i]).
  { intros E Hc Hk. unfold final_item. rewrite E, Hc. now apply pass1_assembles. }
  destruct i as [| | | | | ra rb k | | ra rb k | | | | | | n ra rb | o ra | | | | | | | |]; try (apply H1; reflexivity || exact I).
  - now apply adi_comes_back.
  - now apply jlr_comes_back.
  - now apply yres_comes_back.
  - destruct o; try (apply H1; reflexivity || exact I). destruct ra; try (apply H1; reflexivity || exact I). reflexivity.
Qed.

End Single.

(** Two instructions that share a line. *)
Lemma differs_pair a b a' b' : a' <> a -> differs (Some [a'; b']) [a; b].
Proof. intros H. split; [reflexivity | congruence]. Qed.

Lemma jump_pair_comes_back r h j rb k at' : j = 1 \/ j = 2 -> let p := Lui r h in let i := Jlr j rb k in
  wf_instr p -> wf_instr i -> blanks p i = true ->
  comes_back (canon p i) (assemble_stmt at' (item_stmt (final_item p i (at' + 1)))) [encode p; encode i].
Proof.
  intros Hj. cbv zeta. intros [Hr Hh] (Ha & Hb & Hk) Hbl.
  assert (Hp : pass2_item (Lui r h) (Jlr j rb k) =
    if rb =? r then Some (true, Stmt (if j =? 1 then "jsr" else "jmp") [AReg rb; if j =? 1 then AHex 4 (h * 64 + k) else ADec (h * 64 + k)])
    else if (k =? 0) && negb (rb =? 0) then Some (false, Stmt (if j =? 1 then "jsr" else "jmp") [AReg rb]) else None)
    by (destruct Hj as [-> | ->]; reflexivity).
  assert (Hc : canon (Lui r h) (Jlr j rb k) = negb (rb =? 0) && ((k =? 0) || (r =? rb))) by (destruct Hj as [-> | ->]; reflexivity).
  unfold blanks, final_item in *. rewrite Hp, Hc in *. destruct (Z.eqb_spec rb r) as [-> | _];
    [| destruct ((k =? 0) && negb (rb =? 0)); discriminate].
  rewrite Z.eqb_refl, orb_true_r, andb_true_r.
  destruct Hj as [-> | ->]; cbn [Z.eqb Pos.eqb]; use_rule; destruct (negb (r =? 0)); try exact I;
    cbn [assert' comes_back]; rewrite upper_joined, lower_joined, op_lui_enc, op_jlr_enc by (assumption || lia); reflexivity.
Qed.

Lemma pair_comes_back p i at' : wf_instr p -> wf_instr i -> 0 <= at' -> blanks p i = true ->
  comes_back (canon p i) (assemble_stmt at' (item_stmt (final_item p i (at' + 1)))) [encode p; encode i].
Proof.
  intros Hp Hi Hat Hb. pose proof (blanks_lui p i Hb) as Hl. destruct p as [| | | | | | r h | | | | | | | | | | | | | | | |]; try discriminate. clear Hl.
  destruct Hp as [Hr Hh]. unfold blanks, final_item in *. destruct i as [| | | | | ra rb k | | ra rb k | | | | | | | o ra | | | | | | | |]; try discriminate.
  3: { destruct o; try discriminate. destruct ra; discriminate. }
  - destruct Hi as (Ha & Hrb & Hk). cbn [pass2_item canon] in *. destruct ((rb =? ra) && negb (ra =? 0)) eqn:Ec; [| discriminate].
    destruct (Z.ltb_spec k 64) as [Hlt |]; [| discriminate]. cbn [andb negb orb]. apply andb_prop in Ec as [Ec _]. apply Z.eqb_eq in Ec as ->.
    use_rule. rewrite upper_joined, lower_joined, op_lui_enc, op_rri_enc by (lia || assumption).
    destruct (Z.eqb_spec r ra) as [-> | Hne]; [reflexivity |]. apply differs_pair. cbn [encode]. unfold is_reg in *. lia.
  - pose proof Hi as (Ha & Hrb & Hk). apply field8_cases in Ha. destruct Ha as [-> | [-> | [-> | Hge]]].
    + cbn [pass2_item] in Hb. destruct (_ || _) in Hb; discriminate.
    + apply jump_pair_comes_back; auto. split; assumption.
    + apply jump_pair_comes_back; auto. split; assumption.
    + exfalso. decompose [or] Hge; subst ra; discriminate.
Qed.

(** ** Programs *)

Fixpoint canonical (p : instr) (js : list instr) : bool :=
  match js with [] => true | i :: js' => canon p i && canonical i js' end.

Lemma assemble_cons pc s ss ws : assemble_stmt pc s = Some ws ->
  assemble pc (s :: ss) = more ← assemble (pc + Z.of_nat (length ws)) ss; Some (ws ++ more).
Proof. intros H. cbn [assemble]. rewrite H. reflexivity. Qed.

(** One unit, a line with its words, in front of the rest. *)
Lemma unit_comes_back (b c : bool) pc s ss ws rest :
  comes_back b (assemble_stmt pc s) ws ->
  (assemble (pc + Z.of_nat (length ws)) ss = Some rest <-> c = true) ->
  assemble pc (s :: ss) = Some (ws ++ rest) <-> b && c = true.
Proof.
  intros Hu Hr. unfold comes_back, differs in Hu. destruct b.
  - rewrite (assemble_cons _ _ _ _ Hu). cbn [andb]. rewrite <- Hr. destruct (assemble _ ss) as [more |]; cbn; split; intros H; try discriminate.
    + injection H as H. apply app_inv_head in H. congruence.
    + congruence.
  - cbn [andb]. split; [| discriminate]. cbn [assemble]. destruct (assemble_stmt pc s) as [ws' |]; cbn [mbind option_bind]; [| discriminate].
    destruct Hu as [Hl Hne]. destruct (assemble (pc + Z.of_nat (length ws')) ss) as [more |]; cbn [mbind option_bind]; [| discriminate]. intros H. injection H as H.
    apply app_inj_1 in H as [H _]; [contradiction | exact Hl].
Qed.

Lemma canon_blanked i j : blanks i j = true -> forall p, canon p i = true.
Proof. intros H p. apply blanks_lui in H. destruct i; try discriminate. reflexivity. Qed.

Lemma blanks_not_blanked i j js : blanks i j = true -> blanked j js = false.
Proof.
  intros H. destruct js as [| x js]; [reflexivity |]. cbn. destruct (blanks j x) eqn:E; [| reflexivity].
  apply blanks_lui in E. destruct j; discriminate.
Qed.

Lemma reassembled_iff_canonical n p js at' :
  (length js <= n)%nat -> wf_instr p -> Forall wf_instr js -> 0 <= at' -> blanked p js = false ->
  assemble at' (item_stmt <$> quick_items at' p js) = Some (encode <$> js) <-> canonical p js = true.
Proof.
  revert p js at'. induction n as [| n IH]; intros p js at' Hn Hp Hjs Hat Hb.
  - destruct js; [| cbn in Hn; lia]. split; reflexivity.
  - destruct js as [| i js]; [split; reflexivity |]. inversion_clear Hjs as [| ? ? Hi Hjs']. cbn [length] in Hn.
    cbn [quick_items canonical]. destruct (blanked i js) eqn:Ebl.
    + destruct js as [| j js]; [discriminate |]. cbn [blanked] in Ebl. inversion_clear Hjs' as [| ? ? Hj Hjs]. cbn [length] in Hn.
      cbn [quick_items canonical]. rewrite (blanks_not_blanked _ _ js Ebl), (canon_blanked _ _ Ebl). cbn [andb].
      apply (unit_comes_back (canon i j) (canonical j js) at' _ _ [encode i; encode j]); [now apply pair_comes_back |].
      replace (at' + 1 + 1) with (at' + Z.of_nat (length [encode i; encode j])) by (cbn; lia).
      apply IH; [lia | exact Hj | exact Hjs | cbn; lia | now apply (blanks_not_blanked i)].
    + apply (unit_comes_back (canon p i) (canonical i js) at' _ _ [encode i]).
      * apply single_comes_back; [exact Hat | exact Hi |]. exact Hb.
      * apply IH; [lia | exact Hi | exact Hjs' | cbn; lia | exact Ebl].
Qed.

(** Whatever is assembled, it is as many words. *)
Lemma comes_back_length b o ws ws' : comes_back b o ws -> o = Some ws' -> length ws' = length ws.
Proof. unfold comes_back, differs. destruct b; intros H E; rewrite E in H; [injection H as ->; reflexivity | apply H]. Qed.

Lemma reassembled_length n p js at' ws :
  (length js <= n)%nat -> wf_instr p -> Forall wf_instr js -> 0 <= at' -> blanked p js = false ->
  assemble at' (item_stmt <$> quick_items at' p js) = Some ws -> length ws = length js.
Proof.
  revert p js at' ws. induction n as [| n IH]; intros p js at' ws Hn Hp Hjs Hat Hb.
  { destruct js; [| cbn in Hn; lia]. intros [= <-]. reflexivity. }
  destruct js as [| i js]; [intros [= <-]; reflexivity |]. inversion_clear Hjs as [| ? ? Hi Hjs']. cbn [length] in Hn.
  assert (Hstep : forall b s ss us k pc,
    comes_back b (assemble_stmt at' s) us -> pc = at' + Z.of_nat (length us) ->
    (forall more, assemble pc ss = Some more -> length more = k) ->
    assemble at' (s :: ss) = Some ws -> length ws = (length us + k)%nat).
  { intros b s ss us k pc Hu -> Hm H. cbn [assemble] in H. destruct (assemble_stmt at' s) as [us' |] eqn:E; [| discriminate].
    cbn [mbind option_bind] in H. pose proof (comes_back_length _ _ _ _ Hu eq_refl) as Hl. rewrite Hl in H.
    destruct (assemble (at' + Z.of_nat (length us)) ss) as [more |] eqn:Em; [| discriminate]. injection H as <-.
    rewrite length_app, Hl, (Hm more eq_refl). reflexivity. }
  cbn [quick_items]. destruct (blanked i js) eqn:Ebl.
  - destruct js as [| j js]; [discriminate |]. cbn [blanked] in Ebl. inversion_clear Hjs' as [| ? ? Hj Hjs]. cbn [length] in Hn.
    cbn [quick_items]. rewrite (blanks_not_blanked _ _ js Ebl).
    apply (Hstep _ _ _ [encode i; encode j] (length js) (at' + 1 + 1) (pair_comes_back i j at' Hi Hj Hat Ebl)); [cbn; lia |].
    intros more. apply IH; [lia | exact Hj | exact Hjs | lia | now apply (blanks_not_blanked i)].
  - apply (Hstep _ _ _ [encode i] (length js) (at' + 1) (single_comes_back p at' Hat i Hi Hb)); [cbn; lia |].
    intros more. apply IH; [lia | exact Hi | exact Hjs' | lia | exact Ebl].
Qed.

(** ** Printed lines are well-formed *)

Lemma dsm_name_word i : wf_instr i -> str_all word_char (dsm_name i) = true /\ dsm_name i <> ""%string \/
  (dsm_name i = "di " \/ dsm_name i = "ei ")%string /\ forall at', args_of i at' = [].
Proof.
  intros _. destruct i; try (left; split; [reflexivity | discriminate]); try (right; split; [tauto | reflexivity]).
  - left. destruct o; split; (reflexivity || discriminate).
  - left. cbn. case_if; split; (reflexivity || discriminate).
  - left. destruct o; split; (reflexivity || discriminate).
Qed.

Ltac wf_args := repeat apply Forall_cons_2; try apply Forall_nil_2; cbn [wf_arg]; unfold is_u16, is_reg in *; (tauto || lia).

Lemma pass1_wf i at' : wf_instr i -> 0 <= at' -> wf_line (pass1_item i at').
Proof.
  intros Hi Hat. split; [| exact I]. cbn [pass1_item wf_item]. split.
  - destruct (dsm_name_word i Hi) as [H | [H ->]]; [left; exact H | right; auto].
  - destruct i; cbn in Hi; cbn [args_of]; try wf_args.
    + pose proof (Z.mod_pos_bound (i + at' + 1) 128). wf_args.
    + case_if; wf_args.
Qed.

Lemma stmt_wf mn args : str_all word_char mn = true -> mn <> ""%string -> Forall wf_arg args -> wf_line (Stmt mn args).
Proof. intros H Hn Ha. split; [| exact I]. split; [left; auto | exact Ha]. Qed.

Lemma pass2_wf p i b x : wf_instr p -> wf_instr i -> pass2_item p i = Some (b, x) -> wf_line x.
Proof.
  intros Hp Hi. assert (Hd : wf_line (DieLine (encode i))) by (split; [exact I | apply encode_u16, Hi]).
  assert (Hj : forall mn ra rb k (f : Z -> arg), i = Jlr ra rb k -> str_all word_char mn = true -> mn <> ""%string ->
    (forall n, is_u16 n -> wf_arg (f n)) ->
    match p with
    | Lui r h => if rb =? r then Some (true, Stmt mn [AReg rb; f (h * 64 + k)])
                 else if (k =? 0) && negb (rb =? 0) then Some (false, Stmt mn [AReg rb]) else None
    | _ => if (k =? 0) && negb (rb =? 0) then Some (false, Stmt mn [AReg rb]) else None
    end = Some (b, x) -> wf_line x).
  { intros mn ra rb k f -> Hw Hn Hf H. destruct Hi as (Ha & Hb & Hk).
    assert (H1 : wf_line (Stmt mn [AReg rb])) by (apply stmt_wf; [exact Hw | exact Hn | wf_args]).
    destruct p; repeat case_match; simplify_eq; try exact H1. destruct Hp as [Hr Hh].
    apply stmt_wf; [exact Hw | exact Hn |]. constructor; [exact Hb |]. constructor; [apply Hf; unfold is_u16; lia | constructor]. }
  destruct i as [| | | | | ra rb k | | ra rb k | | | | | | | o ra | | | | | | | |]; try discriminate.
  - destruct Hi as (Ha & Hb & Hk). cbn [pass2_item]. destruct (_ && _); [| discriminate]. destruct (Z.ltb_spec k 64).
    + destruct p; intros [= <- <-]; cbn in Hp; apply stmt_wf; try reflexivity; try discriminate; wf_args.
    + intros [= <- <-]. apply stmt_wf; try reflexivity; try discriminate. wf_args.
  - pose proof Hi as (Ha & Hb & Hk). apply field8_cases in Ha. destruct Ha as [-> | [-> | [-> | Hge]]].
    + cbn [pass2_item]. case_if; intros [= <- <-]; [exact Hd |]. apply stmt_wf; try reflexivity; try discriminate. wf_args.
    + apply (Hj "jsr"%string 1 rb k (AHex 4)); try reflexivity; try discriminate. auto.
    + apply (Hj "jmp"%string 2 rb k ADec); try reflexivity; try discriminate. auto.
    + decompose [or] Hge; subst ra; intros [= <- <-]; exact Hd.
  - destruct o; try discriminate. destruct ra; try discriminate. intros [= <- <-]. split; exact I.
Qed.

Lemma quick_wf at' p js : wf_instr p -> Forall wf_instr js -> 0 <= at' -> Forall wf_line (quick_items at' p js).
Proof.
  intros Hp Hjs. revert p at' Hp. induction Hjs as [| i js Hi _ IH]; intros p at' Hp Hat; [constructor |]. cbn [quick_items].
  assert (Hx : wf_line (final_item p i at')).
  { unfold final_item. destruct (pass2_item p i) as [[b x] |] eqn:E; [exact (pass2_wf p i b x Hp Hi E) | now apply pass1_wf]. }
  case_if; [| constructor; [exact Hx |]]; apply IH; auto; lia.
Qed.

(** ** Files *)

Lemma object_length ws : length (le_bytes ws) = (2 * length ws)%nat.
Proof. induction ws as [| w ws IH]; [reflexivity |]. cbn [le_bytes length]. lia. Qed.

Lemma le_bytes_u8 ws : Forall is_u16 ws -> Forall is_u8 (le_bytes ws).
Proof. induction 1 as [| w ws Hw _ IH]; [constructor |]. cbn [le_bytes]. apply Forall_cons_2; [| apply Forall_cons_2; [| exact IH]]; unfold is_u16, is_u8 in *; Z.div_mod_to_equations; lia. Qed.

Lemma code_full at' data : Forall is_u8 data -> length data = (2 * length (code at' data))%nat -> le_bytes (code at' data) = data.
Proof.
  revert at'. induction data as [| x | lo hi rest IH] using pair_ind; intros at' Hd Hl; [reflexivity | cbn in Hl; lia |].
  inversion_clear Hd as [| ? ? Hlo Hd']. inversion_clear Hd' as [| ? ? Hhi Hd]. cbn [code] in *. cbv zeta in *.
  destruct (at' <? Dsm.Ki64); [| cbn in Hl; lia]. destruct (_ =? 0); [cbn in Hl; lia |]. cbn [le_bytes length] in *.
  rewrite IH by (assumption || lia). unfold is_u8 in *. f_equal; [| f_equal]; Z.div_mod_to_equations; lia.
Qed.

Lemma code_le_bytes at' ws : Forall (fun w => is_u16 w /\ w <> 0) ws -> at' + Z.of_nat (length ws) <= 65536 ->
  code at' (le_bytes ws) = ws.
Proof.
  intros Hw. revert at'. induction Hw as [| w ws [Hw Hn] _ IH]; intros at' Hl; [reflexivity |]. cbn [le_bytes code length] in *.
  rewrite (proj2 (Z.ltb_lt at' Dsm.Ki64)) by (unfold Dsm.Ki64; lia). cbv zeta.
  replace (w mod 256 + 256 * (w / 256)) with w by (Z.div_mod_to_equations; lia).
  rewrite (proj2 (Z.eqb_neq w 0) Hn), IH by lia. reflexivity.
Qed.

Lemma le_bytes_inj ws ws' : le_bytes ws = le_bytes ws' -> ws = ws'.
Proof.
  revert ws'. induction ws as [| w ws IH]; intros [| w' ws'] H; try discriminate; [reflexivity |]. cbn in H. injection H as H1 H2 H3.
  rewrite (IH _ H3). f_equal. rewrite (Z.div_mod w 256), (Z.div_mod w' 256) by lia. congruence.
Qed.

(** The first instruction follows the initial value of [prevInst]. *)
Definition canonical_code (data : list Z) : bool := canonical (Ldw 0 0 0) (instrs data).

(** What the rules of the assembler make of a text. *)
Definition assemble_text (s : string) : option (list Z) := ss ← parse_text s; le_bytes <$> assemble 0 ss.

Lemma first_not_blanked js : blanked (Ldw 0 0 0) js = false.
Proof. destruct js as [| j js]; [reflexivity |]. cbn [blanked]. destruct (blanks (Ldw 0 0 0) j) eqn:E; [apply blanks_lui in E; discriminate | reflexivity]. Qed.

Lemma reassembly data : Forall is_u8 data ->
  exists out l, Dsm.disassemble true data [] = Ret (out, l) /\ parse_text (text out) <> None /\
    (assemble_text (text out) = Some data <-> le_bytes (code 0 data) = data /\ canonical_code data = true).
Proof.
  intros Hd. destruct (quick_disassembly data Hd) as [l Hl]. destruct (instrs_wf data Hd) as [Hwf He].
  assert (H0 : wf_instr (Ldw 0 0 0)) by (cbn; unfold is_reg; lia).
  exists (item_text <$> quick_items 0 (Ldw 0 0 0) (instrs data)), l. split; [exact Hl |].
  unfold assemble_text. rewrite parse_text_items by (apply quick_wf; auto; lia). split; [discriminate |]. cbn [mbind option_bind].
  pose proof (reassembled_iff_canonical _ _ _ 0 (le_n _) H0 Hwf ltac:(lia) (first_not_blanked _)) as Hiff.
  rewrite He in Hiff. unfold canonical_code. rewrite <- Hiff. split.
  - intros H. destruct (assemble 0 _) as [ws |] eqn:E; [| discriminate]. injection H as H.
    assert (Hlen : length ws = length (code 0 data)).
    { rewrite <- He, length_fmap. exact (reassembled_length _ _ _ 0 ws (le_n _) H0 Hwf ltac:(lia) (first_not_blanked _) E). }
    assert (Hf : le_bytes (code 0 data) = data) by (apply code_full; [exact Hd |]; rewrite <- H at 1; rewrite object_length; lia).
    split; [exact Hf |]. f_equal. apply le_bytes_inj. congruence.
  - intros [Hf ->]. cbn. f_equal. exact Hf.
Qed.
