(* ===== verification/AsmSource.v ===== *)
(** * Sources that survive the round trip

    The words that the rules of asm/asm produce, and the sources whose object
    code the disassembler prints back exactly: all that do not use the reserved
    operations [y05] and [y06], nor [lui] by itself. *)

From S2P Require Import Prelude Text Dsm Machine Isa Decoder Refine IsaProps DsmTheorems DsmLines AsmRules Reassemble.
From Stdlib Require Import Ascii.

(** ** Operands that were read *)

Definition plain_op (o : operand) : Prop := match o with OReg r => is_reg r | ONum _ => True end.

Lemma reg_rule_reg s r : reg_rule s = Some r -> is_reg r.
Proof.
  unfold reg_rule. destruct (List.find _ reg_table) as [[n v] |] eqn:E; [| discriminate]. intros [= <-].
  apply find_some in E as [Hin _]. unfold reg_table in Hin. cbn in Hin. unfold is_reg.
  repeat (destruct Hin as [[= <- <-] | Hin]; [cbn; lia |]). destruct Hin.
Qed.

Lemma read_operand_plain t o : read_operand t = Some o -> plain_op o.
Proof.
  unfold read_operand. destruct (reg_rule t) as [r |] eqn:E; [intros [= <-]; exact (reg_rule_reg t r E) |].
  destruct (read_number t); [intros [= <-]; exact I | discriminate].
Qed.

Lemma read_operands_plain n ts os : (length ts <= n)%nat -> read_operands ts = Some os -> Forall plain_op os.
Proof.
  revert ts os. induction n as [| n IH]; intros [| t [| sep ts]] os Hn H; cbn [length] in Hn; try lia.
  - injection H as <-. constructor.
  - injection H as <-. constructor.
  - cbn in H. destruct (read_operand t) as [o |] eqn:E; [| discriminate]. injection H as <-. repeat constructor. exact (read_operand_plain t o E).
  - cbn [read_operands] in H. destruct (String.eqb sep ","); [| discriminate]. destruct ts as [| x ts]; [discriminate |].
    destruct (read_operand t) as [o |] eqn:E; [| discriminate]. cbn [mbind option_bind] in H.
    destruct (read_operands (x :: ts)) as [os' |] eqn:E'; [| discriminate]. injection H as <-.
    constructor; [exact (read_operand_plain t o E) | apply (IH (x :: ts)); [cbn [length] in *; lia | exact E']].
Qed.

Definition plain_stmt (s : stmt) : Prop := Forall plain_op s.2.

Lemma parse_lines_plain ls ss : parse_lines ls = Some ss -> Forall plain_stmt ss.
Proof.
  revert ss. induction ls as [| l ls IH]; intros ss H; cbn [parse_lines] in H; [injection H as <-; constructor |].
  unfold parse_line in H. destruct (tokens "" l) as [| mn ts]; cbn [mbind option_bind] in H.
  - destruct (parse_lines ls) as [xs |]; [| discriminate]. injection H as <-. now apply IH.
  - destruct (read_operands ts) as [os |] eqn:E; [| discriminate]. cbn [mbind option_bind] in H.
    destruct (parse_lines ls) as [xs |]; [| discriminate]. injection H as <-. constructor; [| now apply IH].
    exact (read_operands_plain _ ts os (le_n _) E).
Qed.

(** ** Operands of a rule *)

Definition in_kind (k : kind) (v : Z) : Prop :=
  match k with
  | reg => is_reg v
  | imm6 => 0 <= v < 64
  | imm7 => 0 <= v < 128
  | imm10 => 0 <= v < 1024
  | imm16 | u16k => 0 <= v < 65536
  end.

Lemma fits_inv n v x : fits n v = Some x -> 0 <= x < 2 ^ n.
Proof. unfold fits. destruct (_ && _) eqn:E; [| discriminate]. intros [= <-]. bool_facts. lia. Qed.

Lemma match_args_in_kind ks os vs : Forall plain_op os -> match_args ks os = Some vs -> Forall2 in_kind ks vs.
Proof.
  revert os vs. induction ks as [| k ks IH]; intros [| o os] vs Ho H; try discriminate; [injection H as <-; constructor |].
  inversion_clear Ho as [| ? ? Hp Hos]. cbn [match_args] in H. destruct (match_arg k o) as [v |] eqn:Ev; [| discriminate]. cbn [mbind option_bind] in H.
  destruct (match_args ks os) as [vs' |] eqn:Evs; [| discriminate]. injection H as <-. constructor; [| exact (IH _ _ Hos Evs)].
  destruct k, o; try discriminate; cbn [match_arg] in Ev; try (apply fits_inv in Ev; exact Ev). injection Ev as <-. exact Hp.
Qed.

(** ** Words that come back *)

(** Outside the groups of [lui], [jlr], [y05] and [y06]. *)
Definition good_word (w : Z) : Prop := is_u16 w /\ (w < 0xC000 \/ 0xF000 <= w < 0xFF40 \/ 0xFFC0 <= w).

(** Words that form whole units after an instruction that is not [lui]. *)
Definition whole (ws : list Z) : Prop :=
  Forall is_u16 ws /\ forall p, is_lui p = false ->
    canonical p (decode_instr <$> ws) = true /\ is_lui (List.last (decode_instr <$> ws) p) = false.

Lemma canonical_app p js js' : canonical p (js ++ js') = canonical p js && canonical (List.last js p) js'.
Proof.
  revert p. induction js as [| i js IH]; intros p; [reflexivity |]. cbn [app canonical]. rewrite IH, andb_assoc. do 2 f_equal.
  destruct js as [| j js]; [reflexivity |]. cbn [List.last]. clear. revert j. induction js as [| k js IH]; intros j; [reflexivity |]. apply (IH k).
Qed.

Lemma last_cons (i : instr) js p : List.last (i :: js) p = List.last js i.
Proof. revert i p. induction js as [| j js IH]; intros i p; [reflexivity |]. transitivity (List.last js j); [exact (IH j p) | symmetry; apply IH]. Qed.

Lemma last_app (js js' : list instr) p : List.last (js ++ js') p = List.last js' (List.last js p).
Proof. revert p. induction js as [| i js IH]; intros p; [reflexivity |]. cbn [app]. rewrite !last_cons. apply IH. Qed.

Lemma whole_app ws ws' : whole ws -> whole ws' -> whole (ws ++ ws').
Proof.
  intros [Hu H] [Hu' H']. split; [apply Forall_app_2; assumption |]. intros p Hp. destruct (H p Hp) as [Hc Hl].
  destruct (H' _ Hl) as [Hc' Hl']. rewrite fmap_app, canonical_app, last_app, Hc, Hc'. auto.
Qed.

Lemma whole_nil : whole [].
Proof. split; [constructor | auto]. Qed.

Lemma good_whole w : good_word w -> whole [w].
Proof.
  intros [Hw Hr]. split; [repeat constructor; exact Hw || apply Hw |]. intros p Hp. cbn [fmap list_fmap canonical List.last].
  pose proof (encode_decode_word w Hw) as E. pose proof (decode_instr_wf w Hw) as Hi. rewrite andb_true_r.
  destruct (decode_instr w); cbn in Hi, E; unfold enc_rri, is_reg in *; cbn [canon is_lui]; auto; try lia.
  destruct p; auto; discriminate.
Qed.

(** A pair of words that starts with [lui], and a single jump. *)
Lemma instrs_whole js : Forall wf_instr js ->
  (forall p, is_lui p = false -> canonical p js = true /\ is_lui (List.last js p) = false) -> whole (encode <$> js).
Proof.
  intros Hjs H. split; [apply Forall_fmap; eapply Forall_impl; [exact Hjs |]; intros i; apply encode_u16 |].
  replace (decode_instr <$> (encode <$> js)) with js; [exact H |]. rewrite <- list_fmap_compose.
  rewrite <- (list_fmap_id js) at 1. apply list_fmap_ext. intros n i Hi. symmetry. apply decode_encode_instr.
  exact (Forall_lookup_some _ _ _ _ Hjs Hi).
Qed.

Lemma upper_range imm : 0 <= upper_imm imm < 1024.
Proof. unfold upper_imm. change 0x3FF with (Z.shiftl 1 10 - 1). rewrite land_mask by lia. apply Z.mod_pos_bound. lia. Qed.

Lemma lower_range imm : 0 <= lower_imm imm < 64.
Proof. unfold lower_imm. change 0x3F with (Z.shiftl 1 6 - 1). rewrite land_mask by lia. apply Z.mod_pos_bound. lia. Qed.

Section RuleWords.
Context (ra rb : Z) (Ha : is_reg ra) (Hb : is_reg rb).

Lemma rri_good o k : 0 <= o < 8 -> 0 <= k < 128 -> o < 6 -> good_word (op_rri o ra rb k).
Proof using Ha Hb. intros Ho Hk H6. rewrite op_rri_enc by assumption. unfold good_word, is_u16, enc_rri, is_reg in *. lia. Qed.

Lemma beq_good pc k : good_word (op_beq pc ra rb k).
Proof using Ha Hb.
  unfold op_beq, cat, good_word, is_u16, is_reg in *. cbn [fold_left]. pose proof (Z.mod_pos_bound (k - pc - 1) (2 ^ 7)).
  set (x := _ mod 2 ^ 7) in *. change (2 ^ 7) with 128 in *. change (2 ^ 3) with 8. Z.div_mod_to_equations; lia.
Qed.

Lemma xop_good o rc : 0 <= o < 7 -> is_reg rc -> good_word (cat [(4, 15); (3, o); (3, rc); (3, rb); (3, ra)]).
Proof using Ha Hb. intros Ho Hc. rewrite op_xop_enc by (assumption || lia). unfold good_word, is_u16, is_reg in *. lia. Qed.

Lemma yop_good o : 0 <= o < 5 -> good_word (op_yop o ra rb).
Proof using Ha Hb. intros Ho. rewrite op_yop_enc by (assumption || lia). unfold good_word, is_u16, is_reg in *. lia. Qed.

Lemma zop_good o : 0 <= o < 7 -> good_word (op_zop o ra).
Proof using Ha. clear Hb. intros Ho. rewrite op_zop_enc by (assumption || lia). unfold good_word, is_u16, is_reg in *. lia. Qed.

Lemma ldi_whole imm : whole [op_lui ra (upper_imm imm); op_rri 5 ra ra (lower_imm imm)].
Proof using Ha.
  pose proof (upper_range imm). pose proof (lower_range imm). rewrite op_lui_enc, op_rri_enc by (assumption || lia).
  apply (instrs_whole [Lui ra (upper_imm imm); Adi ra ra (lower_imm imm)]).
  - repeat constructor; apply Ha || lia.
  - intros p _. cbn. rewrite Z.eqb_refl, orb_true_r. auto.
Qed.

Lemma jump_whole j imm : j = 1 \/ j = 2 -> rb <> 0 -> whole [op_lui rb (upper_imm imm); op_jlr (lower_imm imm) rb j].
Proof using Hb.
  intros Hj Hn. pose proof (upper_range imm). pose proof (lower_range imm). rewrite op_lui_enc, op_jlr_enc by (unfold is_reg; assumption || lia).
  apply (instrs_whole [Lui rb (upper_imm imm); Jlr j rb (lower_imm imm)]).
  - repeat constructor; unfold is_reg in *; lia.
  - intros p _. cbn [canonical canon List.last is_lui]. rewrite Z.eqb_refl, orb_true_r, (proj2 (Z.eqb_neq rb 0) Hn). destruct Hj as [-> | ->]; auto.
Qed.

Lemma jump0_whole j : j = 1 \/ j = 2 -> rb <> 0 -> whole [op_jlr 0 rb j].
Proof using Hb.
  intros Hj Hn. rewrite op_jlr_enc by (unfold is_reg; assumption || lia). apply (instrs_whole [Jlr j rb 0]).
  - repeat constructor; unfold is_reg in *; lia.
  - intros p _. cbn [canonical canon List.last is_lui]. rewrite (proj2 (Z.eqb_neq rb 0) Hn). destruct Hj as [-> | ->]; auto.
Qed.

End RuleWords.

Lemma vop_good o : 0 <= o < 8 -> good_word (cat [(4, 15); (3, 7); (3, 7); (3, 7); (3, o)]).
Proof.
  intros Ho. unfold good_word, is_u16. replace (cat _) with (0xFFF8 + o); [lia |].
  unfold cat. cbn [fold_left]. change (2 ^ 3) with 8. rewrite (Z.mod_small o) by lia. vm_compute (_ * 8). lia.
Qed.

Lemma sys_whole i : 0 <= i < 64 -> i mod 2 = 0 -> whole [op_jlr i 0 0].
Proof.
  intros Hi He. rewrite op_jlr_enc by (unfold is_reg; lia). apply (instrs_whole [Jlr 0 0 i]).
  - repeat constructor; unfold is_reg; lia.
  - intros p _. cbn [canonical canon List.last is_lui Z.eqb andb]. rewrite He. auto.
Qed.

(** ** Statements *)

Definition ordinary (s : stmt) : bool := negb (existsb (String.eqb s.1) ["y05"; "y06"; "lui"]%string).

Definition rule_whole (pc : Z) (r : rule) : Prop :=
  forall vs ws, Forall2 in_kind (r_args r) vs -> produce (r_prod r) pc vs = Some ws -> whole ws.

Ltac rule_args := intros vs ws Hk H; unfold rri, xop, yop, zop, vop, jump, jump0, access in Hk, H; cbn [r_args r_prod] in Hk, H;
  repeat match goal with
  | K : Forall2 _ (_ :: _) _ |- _ => inversion K; subst; clear K
  | K : Forall2 _ [] _ |- _ => inversion K; subst; clear K
  end; cbn [in_kind] in *; cbn [produce] in H.

Section Rules.
Context (pc : Z).

Lemma imm_whole r : In r imm_rules -> r_name r <> "lui"%string -> rule_whole pc r.
Proof using Type.
  intros Hin Hn. repeat (destruct Hin as [<- | Hin]); try destruct Hin; rule_args; try (now destruct Hn);
    injection H as <-; apply good_whole; (apply rri_good; (assumption || lia)) || (apply beq_good; assumption).
Qed.

Lemma xyzv_whole r : In r (xop_rules ++ yop_rules ++ zop_rules ++ vop_rules) -> r_name r <> "y05"%string -> r_name r <> "y06"%string ->
  rule_whole pc r.
Proof using Type.
  intros Hin H5 H6. repeat (destruct Hin as [<- | Hin]); try destruct Hin; rule_args; try (now destruct H5); try (now destruct H6);
    injection H as <-; apply good_whole;
    first [ apply xop_good; (assumption || lia) | apply yop_good; (assumption || lia) | apply zop_good; (assumption || lia)
          | apply vop_good; lia ].
Qed.

Lemma assert_some b x ws : assert' b x = Some ws -> b = true /\ x = Some ws.
Proof. destruct b; [auto | discriminate]. Qed.

Lemma alias_whole r : In r alias_rules -> rule_whole pc r.
Proof using Type.
  intros Hin. repeat (destruct Hin as [<- | Hin]); try destruct Hin; rule_args;
    repeat (apply assert_some in H as [? H]); injection H as <-; bool_facts.
  - apply good_whole, rri_good; (assumption || lia).
  - now apply ldi_whole.
  - apply good_whole, rri_good; (assumption || unfold is_reg; lia).
  - apply good_whole, zop_good; (unfold is_reg; lia).
  - apply sys_whole; [lia |]. rewrite land_bit0 in *. Z.div_mod_to_equations; lia.
  - apply jump_whole; auto.
  - apply jump0_whole; auto.
  - apply jump_whole; auto.
  - apply jump0_whole; auto.
  - apply (whole_app [_] [_]); apply good_whole; [apply rri_good | apply yop_good]; (assumption || lia).
  - apply (whole_app [_] [_]); apply good_whole; [apply rri_good | apply yop_good]; (assumption || lia).
  - apply (whole_app [_] [_]); apply good_whole; [apply rri_good | apply yop_good]; (assumption || lia).
  - apply (whole_app [_] [_]); apply good_whole; [apply rri_good | apply yop_good]; (assumption || lia).
Qed.

End Rules.

Lemma stmt_whole pc s ws : plain_stmt s -> ordinary s = true -> assemble_stmt pc s = Some ws -> whole ws.
Proof.
  intros Hp Ho H. unfold assemble_stmt in H. destruct (List.find (rule_for s) rules) as [r |] eqn:E; [| discriminate]. cbn [mbind option_bind] in H.
  destruct (match_args (r_args r) s.2) as [vs |] eqn:Ev; [| discriminate]. cbn [mbind option_bind] in H.
  apply find_some in E as [Hin Hr]. unfold rule_for in Hr. apply andb_prop in Hr as [Hr _]. apply String.eqb_eq in Hr.
  assert (Hn : r_name r <> "lui"%string /\ r_name r <> "y05"%string /\ r_name r <> "y06"%string).
  { rewrite Hr. unfold ordinary in Ho. apply negb_true_iff in Ho. repeat split; intros Hs; rewrite Hs in Ho; discriminate. }
  apply (match_args_in_kind _ _ _ Hp) in Ev. revert Ev H. destruct Hn as (H1 & H2 & H3).
  assert (Hw : rule_whole pc r).
  { unfold rules in Hin. apply in_app_or in Hin as [Hin | Hin]; [now apply imm_whole |]. rewrite !app_assoc in Hin.
    apply in_app_or in Hin as [Hin | Hin]; [rewrite <- !app_assoc in Hin; now apply xyzv_whole | now apply alias_whole]. }
  apply Hw.
Qed.

Lemma assemble_whole pc ss ws : Forall plain_stmt ss -> forallb ordinary ss = true -> assemble pc ss = Some ws -> whole ws.
Proof.
  intros Hp. revert pc ws. induction Hp as [| s ss Hs _ IH]; intros pc ws Ho H; cbn [assemble] in H; [injection H as <-; apply whole_nil |].
  cbn [forallb] in Ho. apply andb_prop in Ho as [Ho Hos]. destruct (assemble_stmt pc s) as [us |] eqn:E; [| discriminate]. cbn [mbind option_bind] in H.
  destruct (assemble (pc + Z.of_nat (length us)) ss) as [more |] eqn:Em; [| discriminate]. injection H as <-.
  apply whole_app; [exact (stmt_whole _ _ _ Hs Ho E) | exact (IH _ _ Hos Em)].
Qed.
