(* ===== verification/AsmEmul.v ===== *)
(** * Assembled statements on the emulator

    What the statements of the assembler's rules (asm/asm) do when the emulator
    (emul/exec.go) executes the words that they are assembled to in the main loop
    of [simulate] (emul/emul.go).  [effect] says it for every mnemonic, the aliases
    of several words included, on the architectural state; the words and the stages
    do not appear in it, the cycles between the words of a statement do. *)

From S2P Require Import Prelude Text Machine Exec Isa Decoder Refine IsaProps Sim EmulProps Dsm DsmTheorems DsmLines AsmRules Reassemble AsmSource.

#[local] Open Scope string_scope.
#[local] Open Scope list_scope.
#[local] Open Scope Z_scope.

(** ** The specification *)

Definition value_of (o : operand) : Z := match o with OReg r => r | ONum v => v end.

(** The state at the next word, and at the one after it. *)
Definition at_next (k : Z) (a : arch) : arch := with_pc ((a_pc a + k) mod 65536) a.

(** The end of a turn of the loop, [w4.cyc++]. *)
Definition ticked (a : arch) : arch :=
  Arch (u64 (a_cyc a + 1)) (a_kern a) (a_user a) (a_pc a) (a_run a) (a_en a) (a_mode a) (a_ex a) (a_hc a) (a_mem a).

(** The state in which the next instruction is fetched: a pending exception is entered. *)
Definition entered (a : arch) : arch := if a_ex a =? 0 then a else enter a.

(** [lli]: the register plus a small constant. *)
Definition bumped (r n : Z) (a : arch) : arch := write_ra r ((rget (a_cur a) r + n) mod 65536) a.

(** A jump through a register with a target, which is left rounded to 64 in the register. *)
Definition jump_to (link : bool) (r v : Z) (a : arch) : arch :=
  let a' := write_ra r (v / 64 * 64) a in
  with_pc v (if link then with_cur (sput Link ((a_pc a + 2) mod 65536)) a' else a').

Definition effect3 (mn : string) (x y z : Z) (a : arch) : outcome :=
  match mn with
  | "ldw" => exec_instr (Ldw x y z) (at_next 1 a)
  | "ldb" => exec_instr (Ldb x y z) (at_next 1 a)
  | "stw" => exec_instr (Stw x y z) (at_next 1 a)
  | "stb" => exec_instr (Stb x y z) (at_next 1 a)
  | "beq" => Next (if rget (a_cur a) x =? rget (a_cur a) y then with_pc z a else at_next 1 a)
  | "adi" => exec_instr (Adi x y z) (at_next 1 a)
  | "add" => exec_instr (Alu3 Add x y z) (at_next 1 a)
  | "adc" => exec_instr (Alu3 Adc x y z) (at_next 1 a)
  | "sub" => exec_instr (Alu3 Sub x y z) (at_next 1 a)
  | "sbb" => exec_instr (Alu3 Sbb x y z) (at_next 1 a)
  | "bic" => exec_instr (Alu3 Bic x y z) (at_next 1 a)
  | "bis" => exec_instr (Alu3 Bis x y z) (at_next 1 a)
  | "xor" => exec_instr (Alu3 Xor x y z) (at_next 1 a)
  | "ior" => exec_instr (Lio x y) (at_next 2 (bumped y z (ticked a)))
  | "iow" => exec_instr (Sio x y) (at_next 2 (bumped y z (ticked a)))
  | "srr" => exec_instr (Lsp x y) (at_next 2 (bumped y z (ticked a)))
  | _ => exec_instr (Ssp x y) (at_next 2 (bumped y z (ticked a)))
  end.

Definition effect2 (mn : string) (x y : Z) (a : arch) : outcome :=
  match mn with
  | "lui" => exec_instr (Lui x y) (at_next 1 a)
  | "lsp" => exec_instr (Lsp x y) (at_next 1 a)
  | "lio" => exec_instr (Lio x y) (at_next 1 a)
  | "ssp" => exec_instr (Ssp x y) (at_next 1 a)
  | "sio" => exec_instr (Sio x y) (at_next 1 a)
  | "y04" | "y05" | "y06" => fault ExIllegal (at_next 1 a)
  | "lli" => Next (at_next 1 (bumped x y a))
  | "lsi" => Next (at_next 1 (write_ra x ((rget (a_cur a) 0 + y) mod 65536) a))
  | "ldi" => Next (at_next 2 (write_ra x y (ticked a)))
  | "jsr" => Next (jump_to true x y (ticked a))
  | _ => Next (jump_to false x y (ticked a))
  end.

(** The emulator has [sxt] and [swb] the other way round. *)
Definition effect1 (mn : string) (x : Z) (a : arch) : outcome :=
  match mn with
  | "not" => exec_instr (Alu1 Not x) (at_next 1 a)
  | "neg" => exec_instr (Alu1 Neg x) (at_next 1 a)
  | "sxt" => exec_instr (Alu1 Swb x) (at_next 1 a)
  | "swb" => exec_instr (Alu1 Sxt x) (at_next 1 a)
  | "lsr" => exec_instr (Alu1 Lsr x) (at_next 1 a)
  | "lsl" => exec_instr (Alu1 Lsl x) (at_next 1 a)
  | "asr" => exec_instr (Alu1 Asr x) (at_next 1 a)
  | "sys" => fault (if 32 <=? x then x else ExIllegal) (at_next 1 a)
  | "jsr" => Next (with_pc (rget (a_cur a) x) (with_cur (sput Link ((a_pc a + 1) mod 65536)) a))
  | _ => Next (with_pc (rget (a_cur a) x) a)
  end.

Definition effect0 (mn : string) (a : arch) : outcome :=
  match mn with
  | "rti" => exec_instr Rti (at_next 1 a)
  | "rtl" => exec_instr Rtl (at_next 1 a)
  | "di" => exec_instr Di (at_next 1 a)
  | "ei" => exec_instr Ei (at_next 1 a)
  | "hlt" => exec_instr Hlt (at_next 1 a)
  | "brk" => exec_instr Brk (at_next 1 a)
  | "v06" | "die" => fault ExIllegal (at_next 1 a)
  | _ => Next (with_hc 0 (at_next 1 a))
  end.

Definition effect (mn : string) (vs : list Z) (a : arch) : outcome :=
  match vs with
  | [] => effect0 mn a
  | [x] => effect1 mn x a
  | [x; y] => effect2 mn x y a
  | [x; y; z] => effect3 mn x y z a
  | _ => Crash
  end.

(** The assembler cuts the offset of a [beq] to seven bits: the target is reached from
    within 64 words. *)
Definition in_reach (mn : string) (vs : list Z) (pc : Z) : bool :=
  match vs with
  | [_; _; t] => negb (String.eqb mn "beq") || ((-64 <=? t - pc - 1) && (t - pc - 1 <? 64))
  | _ => true
  end.

(** ** Running the words *)

(** The words are in the memory of instructions from the program counter on. *)
Definition code_at (a : arch) (ws : list Z) : Prop :=
  forall k w, ws !! k = Some w -> exists p,
    xlate false (a_cur a) ((a_pc a + Z.of_nat k) mod 65536) = Phys p /\ p <> PhysMemSize /\ mem_at (a_mem a) p = w.

(** The outcome of [n] turns of the emulator's loop: the loop goes on behind the last of
    them, unless it is a double fault. *)
Definition does (n : nat) (m : w4machine) (o : outcome) : Prop :=
  match o with
  | Next a' => exists m', abs m' = a' /\ machine_ok m' /\ forall fuel stdin,
      sim_loop (n + fuel) false stdin m = if double_fault m' then DoubleFault m' else sim_loop fuel false stdin (incr_cyc m')
  | Crash => exists why, forall fuel stdin, sim_loop (n + fuel) false stdin m = Panicked why
  end.

(** A machine at the head of the loop, as every reachable one that runs. *)
Record ready (m : w4machine) : Prop := {
  rd_ok : machine_ok m;
  rd_run : run m = true;
  rd_en : ex m <> 0 -> en m = true
}.

Definition start (m : w4machine) : arch := entered (abs m).

Section Turns.
Context (m : w4machine) (Hm : ready m).

Lemma start_wf : wf_arch (start m).
Proof using Hm. unfold start, entered. case_if; [| apply enter_wf]; apply machine_ok_wf, rd_ok, Hm. Qed.

Lemma start_ex : a_ex (start m) = 0.
Proof using Type. unfold start, entered. destruct (Z.eqb_spec (a_ex (abs m)) 0); [assumption | reflexivity]. Qed.

Lemma start_run : a_run (start m) = run m.
Proof using Type. unfold start, entered. case_if; reflexivity. Qed.

Lemma step_word w ws : code_at (start m) (w :: ws) -> isa_step (abs m) = exec_instr (decode_instr w) (at_next 1 (start m)).
Proof using Hm.
  intros Hc. destruct (Hc 0%nat w eq_refl) as (p & Hx & Hp & Hw). rewrite Z.add_0_r in Hx.
  pose proof (wf_pc _ start_wf) as Hpc. unfold is_u16 in Hpc. rewrite Z.mod_small in Hx by exact Hpc.
  assert (E : isa_step (abs m) = isa_fetch_exec (start m)).
  { unfold isa_step, start, entered. destruct (Z.eqb_spec (a_ex (abs m)) 0) as [_ | Hne]; [reflexivity |].
    change (a_en (abs m)) with (en m). rewrite (rd_en m Hm Hne). reflexivity. }
  rewrite E. unfold isa_fetch_exec. rewrite Hx, (proj2 (Z.eqb_neq _ _) Hp), Hw. reflexivity.
Qed.

(** One turn of the loop. *)
Lemma loop_turn fuel stdin : sim_loop (S fuel) false stdin m =
  match cycle m with
  | Panic w => Panicked w
  | Ret (_, m1) => if double_fault m1 then DoubleFault m1 else sim_loop fuel false stdin (incr_cyc m1)
  end.
Proof using Hm. cbn [sim_loop]. rewrite (rd_run m Hm). reflexivity. Qed.

(** One word. *)
Lemma does_one w i o : code_at (start m) [w] -> decode_instr w = i -> exec_instr i (at_next 1 (start m)) = o -> does 1 m o.
Proof using Hm.
  intros Hc Hi Ho. pose proof (cycle_cases m (rd_ok m Hm)) as H. rewrite (step_word w [] Hc), Hi, Ho in H. destruct o as [a1 |].
  - destruct H as (m1 & Hcy & Ha & Hok1). exists m1. split; [exact Ha |]. split; [exact Hok1 |]. intros fuel stdin.
    cbn [Nat.add]. rewrite loop_turn, Hcy. reflexivity.
  - destruct H as (why & Hcy). exists why. intros fuel stdin. cbn [Nat.add]. rewrite loop_turn, Hcy. reflexivity.
Qed.

End Turns.

Lemma pc_write r v k a : at_next k (write_ra r v a) = write_ra r v (at_next k a).
Proof. unfold write_ra. destruct (r =? 0); [reflexivity |]. unfold at_next, with_cur, with_reg. destruct a as [? ? ? ? ? ? []]; reflexivity. Qed.

Lemma cur_write_spr r v a : spr (a_cur (write_ra r v a)) = spr (a_cur a).
Proof. unfold write_ra. destruct (r =? 0); [reflexivity |]. unfold a_cur, with_cur, with_reg. destruct a as [? ? ? ? ? ? []]; reflexivity. Qed.

Lemma xlate_spr d rg rg' va : spr rg' = spr rg -> xlate d rg' va = xlate d rg va.
Proof. unfold xlate, phys_index, sget. intros ->. reflexivity. Qed.

(** A field that [write_ra] leaves alone. *)
Ltac write_ra_field := unfold write_ra; case_if; [reflexivity |]; unfold with_cur, with_reg; case_match; reflexivity.

Lemma write_fields r v a : a_pc (write_ra r v a) = a_pc a /\ a_ex (write_ra r v a) = a_ex a /\ a_run (write_ra r v a) = a_run a /\
  a_en (write_ra r v a) = a_en a /\ a_mem (write_ra r v a) = a_mem a.
Proof. repeat split; write_ra_field. Qed.

(** The second word of a statement is executed a cycle later. *)
Lemma second_word r v a : at_next 1 (ticked (write_ra r v (at_next 1 a))) = at_next 2 (write_ra r v (ticked a)).
Proof.
  assert (E : (((a_pc a + 1) mod 65536) + 1) mod 65536 = (a_pc a + 2) mod 65536) by (rewrite Zplus_mod_idemp_l; f_equal; lia).
  unfold write_ra, at_next, with_cur, with_reg, with_kern, with_user, ticked, with_pc. destruct a as [c k u p rn en [] x h mem].
  all: cbn [a_mode a_pc] in *; case_if; cbn [a_cyc a_kern a_user a_pc a_run a_en a_mode a_ex a_hc a_mem]; rewrite E; reflexivity.
Qed.

Lemma ticked_wf a : wf_arch a -> wf_arch (ticked a).
Proof. intros []. constructor; try assumption. cbn. apply Z.mod_pos_bound. reflexivity. Qed.

(** Two words, of which the first only writes a register. *)
Lemma does_two m w1 w2 i1 i2 r v o : ready m -> code_at (start m) [w1; w2] ->
  decode_instr w1 = i1 -> exec_instr i1 (at_next 1 (start m)) = Next (write_ra r v (at_next 1 (start m))) ->
  decode_instr w2 = i2 -> exec_instr i2 (at_next 2 (write_ra r v (ticked (start m)))) = o -> does 2 m o.
Proof.
  intros Hm Hc Hi1 He1 Hi2 He2. pose proof (cycle_cases m (rd_ok m Hm)) as H. rewrite (step_word m Hm w1 [w2] Hc), Hi1, He1 in H.
  destruct H as (m1 & Hcy & Ha & Hok1). set (a1 := write_ra r v (at_next 1 (start m))) in *.
  destruct (write_fields r v (at_next 1 (start m))) as (Fpc & Fex & Frun & _ & Fmem). fold a1 in Fpc, Fex, Frun, Fmem.
  assert (Hex1 : ex m1 = 0) by (change (ex m1) with (a_ex (abs m1)); rewrite Ha, Fex; apply start_ex).
  assert (Hrun1 : run m1 = true) by (change (run m1) with (a_run (abs m1)); rewrite Ha, Frun; change (a_run (start m) = true); rewrite start_run; apply rd_run, Hm).
  assert (Hm1 : ready (incr_cyc m1)) by (constructor; [apply machine_ok_incr, Hok1 | exact Hrun1 | intros Hne; destruct (Hne Hex1)]).
  assert (Hs1 : start (incr_cyc m1) = ticked a1).
  { unfold start, entered. change (a_ex (abs (incr_cyc m1))) with (ex m1). rewrite Hex1. cbn [Z.eqb].
    change (abs (incr_cyc m1)) with (ticked (abs m1)). rewrite Ha. reflexivity. }
  assert (Hd : does 1 (incr_cyc m1) o).
  { apply (does_one (incr_cyc m1) Hm1 w2 i2); rewrite ?Hs1; [| exact Hi2 | unfold a1; rewrite second_word; exact He2].
    intros [| k] w Hk; [injection Hk as <- | discriminate]. destruct (Hc 1%nat w2 eq_refl) as (p & Hx & Hp & Hw).
    exists p. split; [| split; [exact Hp |]].
    - rewrite <- Hx. change (a_pc (ticked a1)) with (a_pc a1). rewrite Fpc, Z.add_0_r. unfold at_next at 1. cbn [a_pc with_pc].
      rewrite Zmod_mod. apply xlate_spr. change (a_cur (ticked a1)) with (a_cur a1). unfold a1. rewrite cur_write_spr. reflexivity.
    - change (a_mem (ticked a1)) with (a_mem a1). rewrite Fmem. exact Hw. }
  assert (Hl : forall fuel stdin, sim_loop (2 + fuel) false stdin m = sim_loop (1 + fuel) false stdin (incr_cyc m1)).
  { intros fuel stdin. cbn [Nat.add]. rewrite (loop_turn m Hm), Hcy. unfold double_fault. rewrite Hex1. reflexivity. }
  unfold does in *. destruct o as [a2 |].
  - destruct Hd as (m2 & H1 & H2 & H3). exists m2. split; [exact H1 |]. split; [exact H2 |]. intros fuel stdin. rewrite Hl. apply H3.
  - destruct Hd as (why & H3). exists why. intros fuel stdin. rewrite Hl. apply H3.
Qed.

(** ** The words decoded *)

Section Words.
Context (ra rb : Z) (Ha : is_reg ra) (Hb : is_reg rb).

Lemma rri_decoded o k : 0 <= o < 6 -> 0 <= k < 128 -> decode_instr (op_rri o ra rb k) =
  nth (Z.to_nat o) [Ldw ra rb k; Ldb ra rb k; Stw ra rb k; Stb ra rb k; Beq ra rb k; Adi ra rb k] Die.
Proof using Ha Hb.
  intros Ho Hk. rewrite op_rri_enc by (assumption || lia).
  assert (Hc : o = 0 \/ o = 1 \/ o = 2 \/ o = 3 \/ o = 4 \/ o = 5) by lia.
  repeat (destruct Hc as [-> | Hc]); try subst o;
    match goal with |- _ = nth _ [?i0; ?i1; ?i2; ?i3; ?i4; ?i5] _ =>
      first [exact (decode_encode_instr i0 (conj Ha (conj Hb Hk))) | exact (decode_encode_instr i1 (conj Ha (conj Hb Hk)))
        | exact (decode_encode_instr i2 (conj Ha (conj Hb Hk))) | exact (decode_encode_instr i3 (conj Ha (conj Hb Hk)))
        | exact (decode_encode_instr i4 (conj Ha (conj Hb Hk))) | exact (decode_encode_instr i5 (conj Ha (conj Hb Hk)))] end.
Qed.

Lemma beq_decoded pc t : decode_instr (op_beq pc ra rb t) = Beq ra rb ((t - pc - 1) mod 128).
Proof using Ha Hb.
  pose proof (Z.mod_pos_bound (t - pc - 1) 128 ltac:(lia)) as Hk.
  replace (op_beq pc ra rb t) with (encode (Beq ra rb ((t - pc - 1) mod 128))); [exact (decode_encode_instr (Beq ra rb ((t - pc - 1) mod 128)) (conj Ha (conj Hb Hk))) |].
  cbn [encode]. unfold op_beq, cat. cbn [fold_left]. change (2 ^ 7) with 128. set (k := (t - pc - 1) mod 128) in *. clearbody k. cat_lia.
Qed.

Lemma lui_decoded k : 0 <= k < 1024 -> decode_instr (op_lui ra k) = Lui ra k.
Proof using Ha. clear Hb. intros Hk. rewrite op_lui_enc by assumption. exact (decode_encode_instr (Lui ra k) (conj Ha Hk)). Qed.

Lemma jlr_decoded k : 0 <= k < 64 -> decode_instr (op_jlr k rb ra) = Jlr ra rb k.
Proof using Ha Hb. intros Hk. rewrite op_jlr_enc by assumption. exact (decode_encode_instr (Jlr ra rb k) (conj Ha (conj Hb Hk))). Qed.

Lemma xop_decoded o rc : is_reg rc -> decode_instr (cat [(4, 0xF); (3, alu3_code o); (3, rc); (3, rb); (3, ra)]) = Alu3 o ra rb rc.
Proof using Ha Hb.
  intros Hc. rewrite op_xop_enc by (assumption || destruct o; cbn; lia). exact (decode_encode_instr (Alu3 o ra rb rc) (conj Ha (conj Hb Hc))).
Qed.

Lemma yop_decoded o : 0 <= o < 7 -> decode_instr (op_yop o ra rb) =
  if o =? 0 then Lsp ra rb else if o =? 1 then Lio ra rb else if o =? 2 then Ssp ra rb else if o =? 3 then Sio ra rb else Yres o ra rb.
Proof using Ha Hb.
  intros Ho. rewrite op_yop_enc by (assumption || lia).
  assert (Hc : o = 0 \/ o = 1 \/ o = 2 \/ o = 3 \/ 4 <= o <= 6) by lia. destruct Hc as [-> | [-> | [-> | [-> | Hc]]]].
  - exact (decode_encode_instr (Lsp ra rb) (conj Ha Hb)).
  - exact (decode_encode_instr (Lio ra rb) (conj Ha Hb)).
  - exact (decode_encode_instr (Ssp ra rb) (conj Ha Hb)).
  - exact (decode_encode_instr (Sio ra rb) (conj Ha Hb)).
  - rewrite !(proj2 (Z.eqb_neq o _)) by lia. exact (decode_encode_instr (Yres o ra rb) (conj Hc (conj Ha Hb))).
Qed.

Lemma zop_decoded o : decode_instr (op_zop (alu1_code o) ra) = Alu1 o ra.
Proof using Ha.
  clear Hb. rewrite op_zop_enc by (assumption || destruct o; cbn; lia). exact (decode_encode_instr (Alu1 o ra) Ha).
Qed.

End Words.

(** ** The effect of the aliases *)

Lemma write_write r u v a : write_ra r v (write_ra r u a) = write_ra r v a.
Proof.
  unfold write_ra. destruct (r =? 0); [reflexivity |]. unfold with_cur, with_reg, with_kern, with_user, rput.
  destruct a as [? ? ? ? ? ? [] ? ? ?]; cbn; rewrite list_insert_insert_eq; reflexivity.
Qed.

Lemma read_write r v a : 1 <= r < 8 -> wf_arch a -> rget (a_cur (write_ra r v a)) r = v.
Proof.
  intros Hr Hwf. unfold write_ra. rewrite (proj2 (Z.eqb_neq r 0)) by lia. unfold with_cur, with_reg, a_cur.
  assert (Hl : forall rg, wf_reg rg -> rget (rput r v rg) r = v).
  { intros rg (Hg & _). unfold rget, rput. cbn. rewrite list_lookup_insert_eq by lia. reflexivity. }
  destruct (a_mode a) eqn:Hm; cbn; rewrite Hm; apply Hl, Hwf.
Qed.

Lemma split_imm v : 0 <= v < 65536 -> upper_imm v = v / 64 /\ lower_imm v = v mod 64.
Proof.
  intros Hv. pose proof (Z.mod_pos_bound v 64 ltac:(lia)). assert (E : v = v / 64 * 64 + v mod 64) by (Z.div_mod_to_equations; lia).
  rewrite E at 1 3. rewrite upper_joined, lower_joined by (Z.div_mod_to_equations; lia). auto.
Qed.

Lemma adi_bumps r n a : 0 <= n < 64 -> exec_instr (Adi r r n) (at_next 1 a) = Next (write_ra r ((rget (a_cur a) r + n) mod 65536) (at_next 1 a)).
Proof. intros Hn. cbn [exec_instr]. unfold eff_addr, sx7. rewrite (proj2 (Z.ltb_lt n 64)) by lia. reflexivity. Qed.

Lemma ldi_effect r v a : is_reg r -> 0 <= v < 65536 -> wf_arch a ->
  exec_instr (Adi r r (v mod 64)) (at_next 2 (write_ra r (v / 64 * 64) a)) = Next (at_next 2 (write_ra r v a)).
Proof.
  intros Hr Hv Hwf. cbn [exec_instr]. f_equal. rewrite pc_write, write_write, <- pc_write. unfold eff_addr, sx7.
  pose proof (Z.mod_pos_bound v 64 ltac:(lia)). rewrite (proj2 (Z.ltb_lt (v mod 64) 64)) by lia.
  destruct (Z.eq_dec r 0) as [-> | Hne]; [reflexivity |]. rewrite pc_write, pc_write. f_equal.
  assert (Hw : wf_arch (at_next 2 a)) by (apply wf_with_pc; [exact Hwf | unfold is_u16; Z.div_mod_to_equations; lia]).
  unfold is_reg in Hr. rewrite read_write by (assumption || lia). Z.div_mod_to_equations; lia.
Qed.

Lemma jump_effect j r v a : j = 1 \/ j = 2 -> 1 <= r < 8 -> 0 <= v < 65536 -> wf_arch a ->
  exec_instr (Jlr j r (v mod 64)) (at_next 2 (write_ra r (v / 64 * 64) a)) = Next (jump_to (j =? 1) r v a).
Proof.
  intros Hj Hr Hv Hwf. cbn [exec_instr]. unfold jlr_step, jump_to. rewrite pc_write.
  assert (Hw : wf_arch (at_next 2 a)) by (apply wf_with_pc; [exact Hwf | unfold is_u16; Z.div_mod_to_equations; lia]).
  rewrite read_write by assumption. replace ((v / 64 * 64 + v mod 64) mod 65536) with v by (Z.div_mod_to_equations; lia).
  unfold write_ra, at_next, with_cur, with_reg. rewrite (proj2 (Z.eqb_neq r 0)) by lia.
  destruct Hj as [-> | ->], a as [? ? ? ? ? ? [] ? ? ?]; reflexivity.
Qed.

(** ** Every rule *)

Definition rule_does (r : rule) : Prop :=
  forall m vs ws, ready m -> Forall2 in_kind (r_args r) vs -> produce (r_prod r) (a_pc (start m)) vs = Some ws ->
    in_reach (r_name r) vs (a_pc (start m)) = true -> code_at (start m) ws -> does (length ws) m (effect (r_name r) vs (start m)).

Ltac rule_case :=
  intros m vs ws Hm Hk H Hreach Hc; unfold rri, xop, yop, zop, vop, jump, jump0, access in Hk, H, Hreach |- *;
  cbn [r_args r_prod r_name] in Hk, H, Hreach |- *;
  repeat match goal with
  | K : Forall2 _ (_ :: _) _ |- _ => inversion K; subst; clear K
  | K : Forall2 _ [] _ |- _ => inversion K; subst; clear K
  end; cbn [in_kind] in *; cbn [produce] in H; repeat (apply assert_some in H as [? H]); injection H as <-; cbn [length].

(** One word, decoded by a lemma. *)
Ltac one_word lem := eapply does_one; [eassumption | eassumption | apply lem; (assumption || lia) | try reflexivity].

Lemma beq_effect a x y t : 0 <= t < 65536 -> -64 <= t - a_pc a - 1 < 64 ->
  exec_instr (Beq x y ((t - a_pc a - 1) mod 128)) (at_next 1 a) = effect3 "beq" x y t a.
Proof.
  intros Ht Hr. cbn [exec_instr effect3]. change (rget (a_cur (at_next 1 a))) with (rget (a_cur a)).
  rewrite Z.eqb_sym. destruct (_ =? _); [| reflexivity]. f_equal. unfold at_next, with_pc. cbn. f_equal. unfold sx7.
  destruct (Z.ltb_spec ((t - a_pc a - 1) mod 128) 64); Z.div_mod_to_equations; lia.
Qed.

Lemma imm_does r : In r imm_rules -> rule_does r.
Proof.
  intros Hin. repeat (destruct Hin as [<- | Hin]); try destruct Hin; rule_case.
  all: first [one_word rri_decoded; fail | one_word lui_decoded; fail | one_word beq_decoded].
  cbn [in_reach String.eqb negb orb] in Hreach. apply beq_effect; [assumption |]. apply andb_prop in Hreach. lia.
Qed.

Lemma xop_does mn o : (forall x y z a, effect3 mn x y z a = exec_instr (Alu3 o x y z) (at_next 1 a)) -> rule_does (xop mn (alu3_code o)).
Proof. intros He. rule_case. one_word xop_decoded. symmetry. apply He. Qed.

Lemma yop_does mn o i : 0 <= o < 7 -> (forall x y, is_reg x -> is_reg y -> decode_instr (op_yop o x y) = i x y) ->
  (forall x y a, effect2 mn x y a = exec_instr (i x y) (at_next 1 a)) -> rule_does (yop mn o).
Proof. intros Ho Hd He. rule_case. one_word Hd. symmetry. apply He. Qed.

Lemma zop_does mn o : (forall x a, effect1 mn x a = exec_instr (Alu1 o x) (at_next 1 a)) -> rule_does (zop mn (alu1_code o)).
Proof. intros He. rule_case. one_word zop_decoded. symmetry. apply He. Qed.

Lemma vop_does mn o : 0 <= o < 8 -> (forall a, effect0 mn a = exec_instr (decode_instr (65528 + o)) (at_next 1 a)) -> rule_does (vop mn o).
Proof.
  intros Ho He. rule_case. eapply does_one; [eassumption | eassumption | | symmetry; apply He].
  f_equal. unfold cat. cbn [fold_left]. change (2 ^ 3) with 8. rewrite (Z.mod_small o) by lia. reflexivity.
Qed.

Lemma xyzv_does r : In r (xop_rules ++ yop_rules ++ zop_rules ++ vop_rules) -> rule_does r.
Proof.
  intros Hin. repeat (destruct Hin as [<- | Hin]); try destruct Hin.
  - exact (xop_does "add" Add (fun _ _ _ _ => eq_refl)).
  - exact (xop_does "adc" Adc (fun _ _ _ _ => eq_refl)).
  - exact (xop_does "sub" Sub (fun _ _ _ _ => eq_refl)).
  - exact (xop_does "sbb" Sbb (fun _ _ _ _ => eq_refl)).
  - exact (xop_does "bic" Bic (fun _ _ _ _ => eq_refl)).
  - exact (xop_does "bis" Bis (fun _ _ _ _ => eq_refl)).
  - exact (xop_does "xor" Xor (fun _ _ _ _ => eq_refl)).
  - apply (yop_does "lsp" 0 Lsp); [lia | intros; rewrite yop_decoded by (assumption || lia); reflexivity | reflexivity].
  - apply (yop_does "lio" 1 Lio); [lia | intros; rewrite yop_decoded by (assumption || lia); reflexivity | reflexivity].
  - apply (yop_does "ssp" 2 Ssp); [lia | intros; rewrite yop_decoded by (assumption || lia); reflexivity | reflexivity].
  - apply (yop_does "sio" 3 Sio); [lia | intros; rewrite yop_decoded by (assumption || lia); reflexivity | reflexivity].
  - apply (yop_does "y04" 4 (Yres 4)); [lia | intros; rewrite yop_decoded by (assumption || lia); reflexivity | reflexivity].
  - apply (yop_does "y05" 5 (Yres 5)); [lia | intros; rewrite yop_decoded by (assumption || lia); reflexivity | reflexivity].
  - apply (yop_does "y06" 6 (Yres 6)); [lia | intros; rewrite yop_decoded by (assumption || lia); reflexivity | reflexivity].
  - exact (zop_does "not" Not (fun _ _ => eq_refl)).
  - exact (zop_does "neg" Neg (fun _ _ => eq_refl)).
  - exact (zop_does "sxt" Swb (fun _ _ => eq_refl)).
  - exact (zop_does "swb" Sxt (fun _ _ => eq_refl)).
  - exact (zop_does "lsr" Lsr (fun _ _ => eq_refl)).
  - exact (zop_does "lsl" Lsl (fun _ _ => eq_refl)).
  - exact (zop_does "asr" Asr (fun _ _ => eq_refl)).
  - apply (vop_does "rti" 0); [lia | reflexivity].
  - apply (vop_does "rtl" 1); [lia | reflexivity].
  - apply (vop_does "di" 2); [lia | reflexivity].
  - apply (vop_does "ei" 3); [lia | reflexivity].
  - apply (vop_does "hlt" 4); [lia | reflexivity].
  - apply (vop_does "brk" 5); [lia | reflexivity].
  - apply (vop_does "v06" 6); [lia | reflexivity].
  - apply (vop_does "die" 7); [lia | reflexivity].
Qed.

Lemma access_does mn o i : 0 <= o < 7 -> (forall x y, is_reg x -> is_reg y -> decode_instr (op_yop o x y) = i x y) ->
  (forall x y z a, effect3 mn x y z a = exec_instr (i x y) (at_next 2 (bumped y z (ticked a)))) -> rule_does (access mn o).
Proof.
  intros Ho Hd He. rule_case. eapply does_two; [eassumption | eassumption | apply rri_decoded; (assumption || lia) | | apply Hd; assumption |].
  - cbn [nth Z.to_nat Pos.to_nat Pos.iter_op Nat.add]. apply adi_bumps. lia.
  - symmetry. apply He.
Qed.

Section Aliases.
Context (m : w4machine) (Hm : ready m).

Lemma ldi_words r v : is_reg r -> 0 <= v < 65536 -> code_at (start m) [op_lui r (upper_imm v); op_rri 5 r r (lower_imm v)] ->
  does 2 m (Next (at_next 2 (write_ra r v (ticked (start m))))).
Proof using Hm.
  intros Hr Hv Hc. destruct (split_imm v Hv) as [Eu El]. rewrite Eu, El in Hc. pose proof (Z.mod_pos_bound v 64 ltac:(lia)).
  apply (does_two m _ _ (Lui r (v / 64)) (Adi r r (v mod 64)) r (v / 64 * 64) _ Hm Hc).
  - apply lui_decoded; [exact Hr | Z.div_mod_to_equations; lia].
  - reflexivity.
  - exact (rri_decoded r r Hr Hr 5 (v mod 64) ltac:(lia) ltac:(lia)).
  - apply ldi_effect; [exact Hr | exact Hv | apply ticked_wf, start_wf, Hm].
Qed.

Lemma jump_words j r v : j = 1 \/ j = 2 -> 1 <= r < 8 -> 0 <= v < 65536 ->
  code_at (start m) [op_lui r (upper_imm v); op_jlr (lower_imm v) r j] -> does 2 m (Next (jump_to (j =? 1) r v (ticked (start m)))).
Proof using Hm.
  intros Hj Hr Hv Hc. destruct (split_imm v Hv) as [Eu El]. rewrite Eu, El in Hc. pose proof (Z.mod_pos_bound v 64 ltac:(lia)).
  apply (does_two m _ _ (Lui r (v / 64)) (Jlr j r (v mod 64)) r (v / 64 * 64) _ Hm Hc).
  - apply lui_decoded; [unfold is_reg; lia | Z.div_mod_to_equations; lia].
  - reflexivity.
  - apply jlr_decoded; unfold is_reg; lia.
  - apply jump_effect; [exact Hj | exact Hr | exact Hv | apply ticked_wf, start_wf, Hm].
Qed.

Lemma jump0_word j r : j = 1 \/ j = 2 -> 1 <= r < 8 -> code_at (start m) [op_jlr 0 r j] ->
  does 1 m (Next (with_pc (rget (a_cur (start m)) r)
    (if j =? 1 then with_cur (sput Link ((a_pc (start m) + 1) mod 65536)) (start m) else start m))).
Proof using Hm.
  intros Hj Hr Hc. apply (does_one m Hm _ (Jlr j r 0) _ Hc); [apply jlr_decoded; unfold is_reg; lia |]. cbn [exec_instr]. unfold jlr_step.
  change (rget (a_cur (at_next 1 (start m)))) with (rget (a_cur (start m))).
  pose proof (cur_reg_u16 _ r (start_wf m Hm)) as Hu. unfold is_u16 in Hu. rewrite Z.add_0_r, (Z.mod_small _ _ Hu).
  destruct Hj as [-> | ->]; [| reflexivity]. cbn [Z.eqb Pos.eqb]. unfold with_cur, with_reg, at_next. cbn [a_mode with_pc].
  destruct (a_mode (start m)); reflexivity.
Qed.

Lemma sys_word i : 0 <= i < 64 -> i mod 2 = 0 -> code_at (start m) [op_jlr i 0 0] ->
  does 1 m (fault (if 32 <=? i then i else ExIllegal) (at_next 1 (start m))).
Proof using Hm.
  intros Hi He Hc. apply (does_one m Hm _ (Jlr 0 0 i) _ Hc); [apply jlr_decoded; unfold is_reg; lia |]. cbn [exec_instr]. unfold jlr_step.
  rewrite He. cbn [Z.eqb andb]. destruct (32 <=? i); reflexivity.
Qed.

Lemma nop_word : code_at (start m) [op_zop 1 0] -> does 1 m (Next (with_hc 0 (at_next 1 (start m)))).
Proof using Hm.
  intros Hc. apply (does_one m Hm _ (Alu1 Neg 0) _ Hc); [apply (zop_decoded 0 ltac:(unfold is_reg; lia) Neg) | reflexivity].
Qed.

(** [lli] and [lsi] *)
Lemma adi_word r rb n : is_reg r -> is_reg rb -> 0 <= n < 64 -> code_at (start m) [op_rri 5 r rb n] ->
  does 1 m (Next (at_next 1 (write_ra r ((rget (a_cur (start m)) rb + n) mod 65536) (start m)))).
Proof using Hm.
  intros Hr Hb Hn Hc. apply (does_one m Hm _ (Adi r rb n) _ Hc); [exact (rri_decoded r rb Hr Hb 5 n ltac:(lia) ltac:(lia)) |].
  rewrite pc_write. cbn [exec_instr]. unfold eff_addr, sx7. rewrite (proj2 (Z.ltb_lt n 64)) by lia. reflexivity.
Qed.

End Aliases.

Lemma reg_nonzero r : is_reg r -> negb (r =? 0) = true -> 1 <= r < 8.
Proof. unfold is_reg. intros Hr Hn. apply negb_true_iff, Z.eqb_neq in Hn. lia. Qed.

Lemma alias_does r : In r alias_rules -> rule_does r.
Proof.
  intros Hin. repeat (destruct Hin as [<- | Hin]); try destruct Hin;
    try (apply (access_does _ 1 Lio); [lia | intros; rewrite yop_decoded by (assumption || lia); reflexivity | reflexivity]);
    try (apply (access_does _ 3 Sio); [lia | intros; rewrite yop_decoded by (assumption || lia); reflexivity | reflexivity]);
    try (apply (access_does _ 0 Lsp); [lia | intros; rewrite yop_decoded by (assumption || lia); reflexivity | reflexivity]);
    try (apply (access_does _ 2 Ssp); [lia | intros; rewrite yop_decoded by (assumption || lia); reflexivity | reflexivity]);
    rule_case.
  - apply adi_word; assumption.
  - apply ldi_words; assumption.
  - apply adi_word; (assumption || unfold is_reg; lia).
  - apply nop_word; assumption.
  - bool_facts. apply sys_word; [assumption | assumption | | assumption]. rewrite land_bit0 in *. Z.div_mod_to_equations; lia.
  - apply (jump_words m Hm 1); auto using reg_nonzero.
  - apply (jump0_word m Hm 1); auto using reg_nonzero.
  - apply (jump_words m Hm 2); auto using reg_nonzero.
  - apply (jump0_word m Hm 2); auto using reg_nonzero.
Qed.

Lemma match_args_values ks os vs : match_args ks os = Some vs -> vs = value_of <$> os.
Proof.
  revert os vs. induction ks as [| k ks IH]; intros [| o os] vs H; try discriminate; [injection H as <-; reflexivity |].
  cbn [match_args] in H. destruct (match_arg k o) as [v |] eqn:Ev; [| discriminate]. cbn [mbind option_bind] in H.
  destruct (match_args ks os) as [vs' |] eqn:Evs; [| discriminate]. injection H as <-. cbn [fmap list_fmap]. f_equal; [| exact (IH _ _ Evs)].
  destruct k, o; try discriminate; cbn [match_arg] in Ev; try (injection Ev as <-; reflexivity);
    unfold fits in Ev; destruct (_ && _); try discriminate; injection Ev as <-; reflexivity.
Qed.

Lemma statement_does (m : w4machine) (s : stmt) (ws : list Z) (Hp : plain_stmt s) (Hm : ready m)
    (Ha : assemble_stmt (a_pc (start m)) s = Some ws) (Hr : in_reach s.1 (value_of <$> s.2) (a_pc (start m)) = true)
    (Hc : code_at (start m) ws) :
  does (length ws) m (effect s.1 (value_of <$> s.2) (start m)).
Proof.
  unfold assemble_stmt in Ha. destruct (List.find (rule_for s) rules) as [r |] eqn:E; [| discriminate]. cbn [mbind option_bind] in Ha.
  destruct (match_args (r_args r) s.2) as [vs |] eqn:Ev; [| discriminate]. cbn [mbind option_bind] in Ha.
  apply find_some in E as [Hin Hn]. unfold rule_for in Hn. apply andb_prop in Hn as [Hn _]. apply String.eqb_eq in Hn.
  rewrite <- (match_args_values _ _ _ Ev), <- Hn in *. apply (match_args_in_kind _ _ _ Hp) in Ev.
  assert (Hd : rule_does r).
  { unfold rules in Hin. apply in_app_or in Hin as [Hin | Hin]; [now apply imm_does |]. rewrite !app_assoc in Hin.
    apply in_app_or in Hin as [Hin | Hin]; [rewrite <- !app_assoc in Hin; now apply xyzv_does | now apply alias_does]. }
  exact (Hd m vs ws Hm Ev Ha Hr Hc).
Qed.


(** ** Assembled, loaded and booted *)

Lemma cat_bound fs : forall acc n, 0 <= n -> 0 <= acc < 2 ^ n -> Forall (fun f => 0 <= f.1) fs ->
  0 <= fold_left (fun acc '(n, v) => acc * 2 ^ n + v mod 2 ^ n) fs acc < 2 ^ (n + foldr Z.add 0 (fst <$> fs)).
Proof.
  induction fs as [| [k v] fs IH]; intros acc n Hn Ha Hf; cbn [fold_left fmap list_fmap foldr fst]; [rewrite Z.add_0_r; exact Ha |].
  apply Forall_cons_1 in Hf as [Hk Hf]. cbn [fst] in Hk. rewrite Z.add_assoc. apply IH; [lia | | exact Hf].
  pose proof (Z.mod_pos_bound v (2 ^ k) ltac:(lia)). rewrite Z.pow_add_r by lia. nia.
Qed.

Lemma cat_u16 fs : Forall (fun f => 0 <= f.1) fs -> foldr Z.add 0 (fst <$> fs) = 16 -> is_u16 (cat fs).
Proof. intros Hf Hs. pose proof (cat_bound fs 0 0 ltac:(lia) ltac:(cbn; lia) Hf) as H. rewrite Hs in H. exact H. Qed.

Lemma rules_u16 r pc vs ws : In r rules -> produce (r_prod r) pc vs = Some ws -> Forall is_u16 ws.
Proof.
  intros Hin H. repeat (destruct Hin as [<- | Hin]); try destruct Hin;
    unfold rri, xop, yop, zop, vop, jump, jump0, access in H; cbn [r_prod] in H;
    repeat (destruct vs as [| ? vs]; try discriminate H); cbn [produce] in H; repeat (apply assert_some in H as [? H]); injection H as <-;
    repeat (apply Forall_cons_2; [apply cat_u16; [repeat (apply Forall_cons_2; [cbn; lia |]); apply Forall_nil_2 | reflexivity] |]); apply Forall_nil_2.
Qed.

Lemma assemble_u16 ss : forall pc ws, assemble pc ss = Some ws -> Forall is_u16 ws.
Proof.
  induction ss as [| s ss IH]; intros pc ws H; cbn [assemble] in H; [injection H as <-; constructor |].
  destruct (assemble_stmt pc s) as [us |] eqn:E; [| discriminate]. cbn [mbind option_bind] in H.
  destruct (assemble (pc + Z.of_nat (length us)) ss) as [more |] eqn:Em; [| discriminate]. injection H as <-.
  apply Forall_app_2; [| exact (IH _ _ Em)]. unfold assemble_stmt in E.
  destruct (List.find (rule_for s) rules) as [r |] eqn:Ef; [| discriminate]. cbn [mbind option_bind] in E.
  destruct (match_args (r_args r) s.2) as [vs |]; [| discriminate]. apply find_some in Ef as [Hin _]. exact (rules_u16 r pc vs us Hin E).
Qed.

(** The program is in memory from 0 on, and the first code page of the current mode is the
    first page of memory, as after a reset. *)
Definition intact (ws : list Z) (a : arch) : bool :=
  (sget (a_cur a) 32 mod 4096 =? 0) &&
  forallb (fun '(k, w) => mem_at (a_mem a) k =? w) (zip (seqZ 0 (Z.of_nat (length ws))) ws).

Lemma intact_spec ws a : intact ws a = true <->
  sget (a_cur a) 32 mod 4096 = 0 /\ forall k w, ws !! k = Some w -> mem_at (a_mem a) (Z.of_nat k) = w.
Proof.
  unfold intact. rewrite andb_true_iff, Z.eqb_eq, forallb_forall. split; intros [H1 H2]; (split; [exact H1 |]).
  - intros k w Hk. apply Z.eqb_eq. apply (H2 (Z.of_nat k, w)). apply list_elem_of_In, list_elem_of_lookup. exists k.
    rewrite lookup_zip_with, Hk, lookup_seqZ_lt by (apply lookup_lt_Some in Hk; lia). reflexivity.
  - intros [k w] Hin. apply Z.eqb_eq. apply list_elem_of_In, list_elem_of_lookup in Hin as [i Hi].
    rewrite lookup_zip_with in Hi. destruct (seqZ _ _ !! i) as [z |] eqn:Ez; [| discriminate]. cbn [mbind option_bind] in Hi.
    destruct (ws !! i) as [w' |] eqn:Ew; [| discriminate]. injection Hi as -> ->.
    apply lookup_seqZ in Ez as [-> _]. rewrite Z.add_0_l. exact (H2 i w Ew).
Qed.

(** The first page holds 4096 words. *)
Lemma intact_code pre us post a : intact (pre ++ us ++ post) a = true -> Z.of_nat (length (pre ++ us ++ post)) <= 4096 ->
  a_pc a = Z.of_nat (length pre) -> code_at a us.
Proof.
  intros Hi Hl Hpc k w Hk. apply intact_spec in Hi as [Hmmu Hmem]. rewrite !length_app in Hl. pose proof (lookup_lt_Some _ _ _ Hk) as Hlt.
  exists (Z.of_nat (length pre + k)). rewrite Hpc, Z.mod_small by lia.
  split; [| split; [unfold PhysMemSize, K; lia |]].
  - unfold xlate, phys_index. rewrite <- Nat2Z.inj_add. set (va := Z.of_nat (length pre + k)). assert (Hva : 0 <= va < 4096) by lia.
    rewrite (Z.div_small va), (Z.mod_small va) by lia. rewrite !Z.add_0_r, Hmmu. change (0 * 4096 + va) with va.
    rewrite (proj2 (Z.ltb_ge PhysMemSize va)) by (unfold PhysMemSize, K; lia). reflexivity.
  - apply Hmem. rewrite lookup_app_r by lia.
    replace (length pre + k - length pre)%nat with k by lia. rewrite lookup_app_l by exact Hlt. exact Hk.
Qed.

Lemma le_bytes_lookup ws : forall k w, ws !! k = Some w ->
  le_bytes ws !! (2 * k)%nat = Some (w mod 256) /\ le_bytes ws !! (2 * k + 1)%nat = Some (w / 256).
Proof.
  induction ws as [| x ws IH]; intros k w Hk; [discriminate |]. destruct k as [| k]; [injection Hk as ->; split; reflexivity |].
  destruct (IH k w Hk) as [H1 H2]. cbn [le_bytes].
  replace (2 * S k)%nat with (S (S (2 * k))) by lia. replace (S (S (2 * k)) + 1)%nat with (S (S (2 * k + 1))) by lia. auto.
Qed.

Lemma boot_loaded ws : Forall is_u16 ws -> Z.of_nat (length ws) <= 4096 ->
  exists m, boot (2 * Z.of_nat (length ws), le_bytes ws) None w4 = Ret (None, m) /\
    ready m /\ ex m = 0 /\ pc m = 0 /\ mode m = Kern /\ cyc m = 0 /\ intact ws (abs m) = true.
Proof.
  intros Hu Hl. assert (Hlen : Z.of_nat (length (le_bytes ws)) = 2 * Z.of_nat (length ws)) by (rewrite object_length; lia).
  destruct (load_spec Kern (2 * Z.of_nat (length ws)) (le_bytes ws) w4 (le_bytes_u8 ws Hu) (mo_mem _ machine_ok_w4)) as (mem & H1 & Hok & Hp);
    [rewrite Hlen; unfold maxSizeBytes, K; lia |].
  assert (Hs : (maxSizeBytes <? 2 * Z.of_nat (length ws)) = false) by (apply Z.ltb_ge; unfold maxSizeBytes, K; lia).
  rewrite Hs in Hp. unfold load_error in H1. rewrite Hs, Hlen, Z.eqb_refl in H1.
  destruct (reset_spec (set_physmem mem w4) (machine_ok_physmem _ _ machine_ok_w4 Hok)) as (m & Hr & Hm & Ha).
  exists m. split; [unfold boot; cbn [fst snd]; rewrite (bind_ret _ _ _ _ _ H1), (bind_ret (mret None) _ None _ _ eq_refl), (bind_ret _ _ _ _ _ Hr); reflexivity |].
  split; [constructor; [exact Hm | exact (f_equal a_run Ha) | intros Hne; destruct Hne; exact (f_equal a_ex Ha)] |].
  split; [exact (f_equal a_ex Ha) |]. split; [exact (f_equal a_pc Ha) |].
  split; [destruct (mo_mode m Hm) as [E | E]; [exact E |]; pose proof (f_equal a_mode Ha) as Hk; cbn in Hk; rewrite E in Hk; discriminate |].
  split; [exact (f_equal a_cyc Ha) |]. apply intact_spec. rewrite Ha. split.
  - cbn [a_cur reg_of a_mode a_kern]. rewrite sget_sput_ne by (unfold Imr; lia). reflexivity.
  - intros k w Hk. cbn [a_mem]. change (physmem (set_physmem mem w4)) with mem.
    rewrite (word_of_bytes mem (Z.of_nat k) Hok). change (2 * load_off Kern) with 0 in Hp.
    pose proof (lookup_lt_Some _ _ _ Hk) as Hlt. destruct (le_bytes_lookup ws k w Hk) as [L0 L1]. pose proof (Forall_lookup_1 _ _ _ _ Hu Hk) as Hw.
    rewrite (Hp (2 * Z.of_nat k)), (Hp (2 * Z.of_nat k + 1)), Hlen.
    rewrite !(proj2 (Z.leb_le 0 _)), !(proj2 (Z.ltb_lt _ (0 + _))) by lia. cbn [andb]. rewrite !Z.sub_0_r.
    replace (Z.to_nat (2 * Z.of_nat k)) with (2 * k)%nat by lia. replace (Z.to_nat (2 * Z.of_nat k + 1)) with (2 * k + 1)%nat by lia.
    rewrite L0, L1. cbn. unfold is_u16 in Hw. Z.div_mod_to_equations; lia.
Qed.

Lemma assemble_split ss1 s ss2 : forall pc ws, assemble pc (ss1 ++ s :: ss2) = Some ws ->
  exists pre us post, ws = pre ++ us ++ post /\ assemble pc ss1 = Some pre /\ assemble_stmt (pc + Z.of_nat (length pre)) s = Some us.
Proof.
  induction ss1 as [| x ss1 IH]; intros pc ws H; cbn [app assemble] in H.
  - destruct (assemble_stmt pc s) as [us |] eqn:E; [| discriminate]. cbn [mbind option_bind] in H.
    destruct (assemble (pc + Z.of_nat (length us)) ss2) as [more |]; [| discriminate]. injection H as <-.
    exists [], us, more. cbn [length Z.of_nat]. rewrite Z.add_0_r. auto.
  - destruct (assemble_stmt pc x) as [xs |] eqn:E; [| discriminate]. cbn [mbind option_bind] in H.
    destruct (assemble (pc + Z.of_nat (length xs)) (ss1 ++ s :: ss2)) as [more |] eqn:Em; [| discriminate]. injection H as <-.
    destruct (IH _ _ Em) as (pre & us & post & -> & H1 & H2). exists (xs ++ pre), us, post. rewrite app_assoc. split; [reflexivity |].
    cbn [assemble]. rewrite E. cbn [mbind option_bind]. rewrite H1. cbn [mbind option_bind]. split; [reflexivity |].
    rewrite <- H2. f_equal. rewrite length_app. lia.
Qed.

Lemma program_step src ss1 s ss2 ws pre m : parse_text src = Some (ss1 ++ s :: ss2) -> assemble 0 (ss1 ++ s :: ss2) = Some ws ->
  Z.of_nat (length ws) <= 4096 -> assemble 0 ss1 = Some pre -> ready m -> a_pc (start m) = Z.of_nat (length pre) ->
  intact ws (start m) = true -> in_reach s.1 (value_of <$> s.2) (Z.of_nat (length pre)) = true ->
  exists us, assemble_stmt (Z.of_nat (length pre)) s = Some us /\ does (length us) m (effect s.1 (value_of <$> s.2) (start m)).
Proof.
  intros Hp Ha Hl Hpre Hm Hpc Hi Hr. destruct (assemble_split ss1 s ss2 0 ws Ha) as (pre' & us & post & -> & H1 & H2).
  rewrite Hpre in H1. injection H1 as <-. rewrite Z.add_0_l in H2. exists us. split; [exact H2 |].
  pose proof (parse_lines_plain _ _ Hp) as Hs. apply Forall_app in Hs as [_ Hs]. apply Forall_cons_1 in Hs as [Hs _]. rewrite <- Hpc in H2, Hr.
  exact (statement_does m s us Hs Hm H2 Hr (intact_code pre us post (start m) Hi Hl Hpc)).
Qed.


(** [ldi r1, 0x1234] and a jump, from the text to the register. *)
Definition two_statements : string := "ldi r1, 0x1234
jmp r2, 0".


(** A machine at a [srr] of the low half of the cycle counter, which is 9 at the start of
    the statement and 10 when it is read. *)
Definition at_srr : w4machine := set_cyc 9 (set_run true (set_physmem {[0 := 0xA192; 1 := 0xFE11]} w4)).

