(* ===== verification/AsmRun.v ===== *)
(** * The run of an assembled program

    A source of the assembler's rules (asm/asm) as a program: an interpreter of its
    statements on the architectural state, and the run of the emulator (emul/emul.go,
    [main] with [-q]) on the file that the source is assembled to, which comes to the
    same end.  System calls, faults and their handlers, both modes, and code that
    stores to memory are included; the interpreter gives up where the source says
    nothing: outside the program, in the middle of a statement, at a [beq] beyond its
    reach, or once the words of the program have been changed or mapped away. *)

From S2P Require Import Prelude Text Machine Exec Isa Decoder Refine IsaProps Sim EmulProps Dsm DsmTheorems DsmLines AsmRules Reassemble AsmSource AsmEmul.

#[local] Open Scope Z_scope.

(** ** The interpreter *)

(** The statement at an address, the first one being at [here]. *)
Fixpoint stmt_at (here : Z) (ss : list stmt) (pc : Z) : option stmt :=
  match ss with
  | [] => None
  | s :: ss' =>
    if here =? pc then Some s
    else us ← assemble_stmt here s; stmt_at (here + Z.of_nat (length us)) ss' pc
  end.

Definition source_step (ws : list Z) (ss : list stmt) (a : arch) : option outcome :=
  let b := entered a in
  if intact ws b then
    s ← stmt_at 0 ss (a_pc b);
    let vs := value_of <$> s.2 in
    if in_reach s.1 vs (a_pc b) then Some (effect s.1 vs b) else None
  else None.

(** How a run ends: with [hlt], with an exception while interrupts are disabled, or with a
    crash of the emulator. *)
Inductive source_end := EndHalt (a : arch) | EndFault (a : arch) | EndCrash.

Fixpoint run_source (n : nat) (ws : list Z) (ss : list stmt) (a : arch) : option source_end :=
  match n with
  | O => None
  | S n' =>
    if a_run a then
      o ← source_step ws ss a;
      match o with
      | Next a' => if negb (a_ex a' =? 0) && negb (a_en a') then Some (EndFault a') else run_source n' ws ss (ticked a')
      | Crash => Some EndCrash
      end
    else Some (EndHalt a)
  end.

(** The emulator has come to this end. *)
Definition ends (r : sim_result) (e : source_end) : Prop :=
  match e with
  | EndHalt a => exists m, r = Halted m /\ abs m = a
  | EndFault a => exists m, r = DoubleFault m /\ abs m = a
  | EndCrash => exists why, r = Panicked why
  end.

(** ** The emulator follows *)

Lemma stmt_at_split ss : forall here pc s, stmt_at here ss pc = Some s ->
  exists ss1 ss2 pre, ss = ss1 ++ s :: ss2 /\ assemble here ss1 = Some pre /\ pc = here + Z.of_nat (length pre).
Proof.
  induction ss as [| x ss IH]; intros here pc s H; [discriminate |]. cbn [stmt_at] in H.
  destruct (Z.eqb_spec here pc) as [-> | _]; [injection H as ->; exists [], ss, []; cbn; rewrite Z.add_0_r; auto |].
  destruct (assemble_stmt here x) as [us |] eqn:E; [| discriminate]. cbn [mbind option_bind] in H.
  destruct (IH _ _ _ H) as (ss1 & ss2 & pre & -> & Hp & ->). exists (x :: ss1), ss2, (us ++ pre). split; [reflexivity |].
  cbn [assemble]. rewrite E. cbn [mbind option_bind]. rewrite Hp, length_app. split; [reflexivity | lia].
Qed.

(** A statement has at most two words. *)
Lemma stmt_words pc s us : assemble_stmt pc s = Some us -> (length us <= 2)%nat.
Proof.
  unfold assemble_stmt. destruct (List.find (rule_for s) rules) as [r |] eqn:Ef; [| discriminate]. cbn [mbind option_bind].
  destruct (match_args (r_args r) s.2) as [vs |]; [| discriminate]. cbn [mbind option_bind]. apply find_some in Ef as [Hin _].
  intros H. repeat (destruct Hin as [<- | Hin]); try destruct Hin;
    unfold rri, xop, yop, zop, vop, jump, jump0, access in H; cbn [r_prod] in H;
    repeat (destruct vs as [| ? vs]; try discriminate H); cbn [produce] in H; repeat (apply assert_some in H as [_ H]);
    injection H as <-; cbn; lia.
Qed.

Section Follow.
Context (src : string) (ss : list stmt) (ws : list Z).
Context (Hp : parse_text src = Some ss) (Ha : assemble 0 ss = Some ws) (Hl : Z.of_nat (length ws) <= 4096).

(** A step of the interpreter is one or two turns of the loop. *)
Lemma step_follows m o : ready m -> source_step ws ss (abs m) = Some o -> exists k, (k <= 2)%nat /\ does k m o.
Proof using Hp Ha Hl.
  intros Hm H. unfold source_step in H. fold (start m) in H. cbv zeta in H. destruct (intact ws (start m)) eqn:Hi; [| discriminate].
  destruct (stmt_at 0 ss (a_pc (start m))) as [s |] eqn:Es; [| discriminate]. cbn [mbind option_bind] in H.
  destruct (in_reach _ _ _) eqn:Hr; [| discriminate]. injection H as <-.
  destruct (stmt_at_split ss 0 _ s Es) as (ss1 & ss2 & pre & -> & Hpre & Hpc). rewrite Z.add_0_l in Hpc. rewrite Hpc in Hr.
  destruct (program_step src ss1 s ss2 ws pre m Hp Ha Hl Hpre Hm Hpc Hi Hr) as (us & Hu & Hd).
  exists (length us). split; [exact (stmt_words _ _ _ Hu) | exact Hd].
Qed.

Lemma run_follows stdin n : forall m e fuel, machine_ok m -> (ex m <> 0 -> en m = true) -> run_source n ws ss (abs m) = Some e ->
  (2 * n <= fuel)%nat -> ends (sim_loop fuel false stdin m) e.
Proof using Hp Ha Hl.
  induction n as [| n IH]; intros m e fuel Hok Hen H Hf; [discriminate |]. cbn [run_source] in H. change (a_run (abs m)) with (run m) in H.
  destruct (run m) eqn:Hrun.
  2: { injection H as <-. exists m. split; [| reflexivity]. destruct fuel; [lia |]. cbn [sim_loop]. rewrite Hrun. reflexivity. }
  destruct (source_step ws ss (abs m)) as [o |] eqn:Eo; [| discriminate]. cbn [mbind option_bind] in H.
  destruct (step_follows m o (Build_ready m Hok Hrun Hen) Eo) as (k & Hk & Hd).
  replace fuel with (k + (fuel - k))%nat by lia. destruct o as [a' |].
  - destruct Hd as (m' & <- & Hok' & Hd). rewrite Hd. change (negb (a_ex (abs m') =? 0) && negb (a_en (abs m'))) with (double_fault m') in H.
    destruct (double_fault m') eqn:Ed; [injection H as <-; exists m'; auto |].
    apply IH; [apply machine_ok_incr, Hok' | | exact H | lia]. cbn. intros Hne. unfold double_fault in Ed.
    rewrite (proj2 (Z.eqb_neq _ _) Hne) in Ed. destruct (en m'); [reflexivity | discriminate].
  - injection H as <-. destruct Hd as (why & Hd). exists why. apply Hd.
Qed.

End Follow.


(** The sum of the numbers from 5 down to 1, stored at 512; then a system call,
    whose handler at 32 halts. *)
Definition sum_source : string := "ei
ldi r1, 5
lsi r3, 1
add r2, r2, r1
sub r1, r3, r1
beq r1, r0, 9
jmp r4, 4
ldi r5, 512
stw r2, r5, 0
sys 32
nop
nop
nop
nop
nop
nop
nop
nop
nop
nop
nop
nop
nop
nop
nop
nop
nop
nop
nop
hlt".

Definition sum_stmts : list stmt := default [] (parse_text sum_source).
Definition sum_words : list Z := default [] (assemble 0 sum_stmts).

