(* ===== verification/Itf.v ===== *)
(** * The integration test driver: itf/itf.go and itf/io.go

    The driver assembles a source, disassembles the object file, assembles the
    disassembly and compares the two object files.  Everything outside the
    driver (the file system and the programs that it starts) is the class [OS];
    [main] is written against that class, and [ItfWorld] gives the instance in
    which the programs are the assembler's rules and the disassembler. *)

From S2P Require Import Prelude Text AsmRules.
From Stdlib Require Import Ascii.

(** ** Paths (package path) *)

Definition slash : ascii := "/".

(** The elements between slashes. *)
Fixpoint split_slash (cur s : string) : list string :=
  match s with
  | EmptyString => [cur]
  | String c s' => if Ascii.eqb c slash then cur :: split_slash "" s' else split_slash (cur +:+ String c "") s'
  end.

Definition nonempty (s : string) : bool := negb (String.eqb s "").

(** [path.Base]: the last element, without trailing slashes. *)
Definition path_Base (p : string) : string :=
  if String.eqb p "" then "."
  else List.last (List.filter nonempty (split_slash "" p)) "/"%string.

(** The part from the last dot on; empty when there is none. *)
Fixpoint from_last_dot (s : string) : string :=
  match s with
  | EmptyString => ""
  | String c s' =>
    let r := from_last_dot s' in
    if nonempty r then r else if Ascii.eqb c "." then s else ""
  end.

(** [path.Ext]: the suffix of the last element, which may be empty. *)
Definition path_Ext (p : string) : string := from_last_dot (List.last (split_slash "" p) ""%string).

(** [path.Clean] *)
Fixpoint clean_elems (rooted : bool) (acc : list string) (es : list string) : list string :=
  match es with
  | [] => List.rev acc
  | e :: es' =>
    if String.eqb e "" || String.eqb e "." then clean_elems rooted acc es'
    else if String.eqb e ".." then
      match acc with
      | a :: acc' => if String.eqb a ".." then clean_elems rooted (e :: acc) es' else clean_elems rooted acc' es'
      | [] => if rooted then clean_elems rooted [] es' else clean_elems rooted [e] es'
      end
    else clean_elems rooted (e :: acc) es'
  end.

Definition rooted (p : string) : bool := match p with String c _ => Ascii.eqb c slash | _ => false end.

Definition path_Clean (p : string) : string :=
  let s := String.concat "/" (clean_elems (rooted p) [] (split_slash "" p)) in
  if rooted p then "/" +:+ s else if nonempty s then s else ".".

(** [path.Join] of two elements that are not empty. *)
Definition path_Join (a b : string) : string := path_Clean (a +:+ "/" +:+ b).

(** [strings.ReplaceAll(s, old, "")]: [skip] characters of an occurrence are
    still to be dropped. *)
Fixpoint remove_from (old : string) (skip : nat) (s : string) : string :=
  match s with
  | EmptyString => ""
  | String c s' =>
    match skip with
    | S k => remove_from old k s'
    | O => if String.prefix old s then remove_from old (String.length old - 1) s' else String c (remove_from old 0 s')
    end
  end.

Definition remove_all (old s : string) : string := if nonempty old then remove_from old 0 s else s.

(** [func makeTmpDir(asmPath string) string] *)
Definition makeTmpDir (asmPath : string) : string :=
  let base := path_Base asmPath in
  let ext := path_Ext asmPath in
  let name := remove_all ext base in
  "./_Test_" +:+ name.

(** ** The outside *)

(** An error is its text; [None] is nil. *)
Definition err : Type := option string.

Class OS (W : Type) := {
  RemoveAll : string -> W -> err * W;
  Mkdir : string -> W -> err * W;
  Create : string -> W -> err * W;
  (** The combined output of a command, and the error of its exit. *)
  CombinedOutput : string -> list string -> W -> (string * err) * W;
  (** A command whose standard output is a file: the error of starting it, or what
      it wrote to standard error and the error of its exit. *)
  RunTo : string -> list string -> string -> W -> (string + (string * err)) * W;
  (** The path of a command, as [cmd.String] prints it. *)
  LookPath : string -> string
}.

(** ** The program *)

(** The state is the outside and the lines written to standard error; a
    computation returns or exits with a code. *)
Inductive done (A : Type) : Type := Val (a : A) | Exited (code : Z).
Arguments Val {A} a.
Arguments Exited {A} code.

Section Program.
Context {W : Type} `{OS W}.

Definition ST : Type := W * list string.
Definition P (A : Type) : Type := ST -> done A * ST.

Definition ret {A} (a : A) : P A := fun s => (Val a, s).
Definition bind {A B} (m : P A) (f : A -> P B) : P B := fun s =>
  match m s with (Val a, s') => f a s' | (Exited c, s') => (Exited c, s') end.

Definition exit {A} (code : Z) : P A := fun s => (Exited code, s).
Definition act {A} (f : W -> A * W) : P A := fun '(w, log) => let '(a, w') := f w in (Val a, (w', log)).

(** io.go *)
Definition pr (s : string) : P unit := fun '(w, log) => (Val tt, (w, log ++ ["itf: " +:+ s]%string)).

Definition fatal (s : string) : P unit := bind (pr s) (fun _ => exit 2).

(** [flag.PrintDefaults()] for the one flag, [-d]. *)
Definition PrintDefaults : P unit := fun '(w, log) =>
  (Val tt, (w, log ++ ["  -d" +:+ String (chr 9) "enable debugging"]%string)).

Definition usage : P unit :=
  bind (pr ("Usage: itf [options] assembler-source" +:+ String (chr 10) "Options:")) (fun _ =>
  bind PrintDefaults (fun _ => exit 1)).

Definition Assembler : string := "../asm/asm".
Definition Disassembler : string := "../dsm/dsm".
Definition Comparer : string := "cmp".

Definition cmd_String (cmd : string) (args : list string) : string := String.concat " " (LookPath cmd :: args).

Definition runAssembler (sourcePath targetPath : string) : P err :=
  let args := ["-o"%string; targetPath; sourcePath] in
  bind (pr ("running: " +:+ cmd_String Assembler args)) (fun _ =>
  bind (act (CombinedOutput Assembler args)) (fun '(output, e) =>
  bind (pr output) (fun _ => ret e))).

Definition runDisassembler (sourcePath targetPath : string) : P err :=
  let args := ["-q"%string; sourcePath] in
  bind (act (Create targetPath)) (fun e =>
  match e with
  | Some _ => ret e
  | None =>
    bind (pr ("running: " +:+ cmd_String Disassembler args +:+ " > " +:+ targetPath)) (fun _ =>
    bind (act (RunTo Disassembler args targetPath)) (fun r =>
    match r with
    | inl e => ret (Some e)
    | inr (slurp, e) => bind (pr slurp) (fun _ => ret e)
    end))
  end).

Definition runCompare (origBinPath reassembledBinPath : string) : P err :=
  let args := [origBinPath; reassembledBinPath] in
  bind (pr ("running: " +:+ cmd_String Comparer args)) (fun _ =>
  bind (act (CombinedOutput Comparer args)) (fun '(output, e) =>
  bind (pr output) (fun _ => ret e))).

(** [if err = ...; err != nil { fatal(...) }] *)
Definition check (m : P err) (what : string) : P unit :=
  bind m (fun e => match e with Some t => fatal (what +:+ t) | None => ret tt end).

Definition main (args : list string) : P unit :=
  match args with
  | [asmPath] =>
    let workDir := makeTmpDir asmPath in
    bind (check (act (RemoveAll workDir)) "removing working directory: ") (fun _ =>
    bind (check (act (Mkdir workDir)) "creating working directory: ") (fun _ =>
    bind (pr ("testing " +:+ asmPath +:+ " in " +:+ workDir +:+ "...")) (fun _ =>
    let binPath := path_Join workDir "wut4.out" in
    bind (check (runAssembler asmPath binPath) ("asm: " +:+ asmPath +:+ ": ")) (fun _ =>
    bind (pr ("assembled " +:+ asmPath +:+ " to " +:+ binPath)) (fun _ =>
    let disassembledSourcePath := path_Join workDir "wut4.dsm" in
    bind (check (runDisassembler binPath disassembledSourcePath) ("dsm: " +:+ binPath +:+ ": ")) (fun _ =>
    bind (pr ("disassembled " +:+ binPath +:+ " to " +:+ disassembledSourcePath)) (fun _ =>
    let reassembledBinPath := path_Join workDir "wut4.out2" in
    bind (check (runAssembler disassembledSourcePath reassembledBinPath) "reassemble: ") (fun _ =>
    bind (pr ("reassembled " +:+ disassembledSourcePath +:+ " to " +:+ reassembledBinPath)) (fun _ =>
    bind (check (runCompare binPath reassembledBinPath) "compare: ") (fun _ =>
    pr "passed"))))))))))
  | _ => usage
  end.

(** The exit code of the program. *)
Definition exit_code (args : list string) (w : W) : Z :=
  match (main args (w, [])).1 with Val _ => 0 | Exited c => c end.

End Program.

Example makeTmpDir_demo : makeTmpDir "tests/t01.w4a" = "./_Test_t01"%string /\
  path_Join (makeTmpDir "tests/t01.w4a") "wut4.out" = "_Test_t01/wut4.out"%string /\
  makeTmpDir "/" = "./_Test_/"%string /\ makeTmpDir "a/.." = "./_Test_"%string /\ makeTmpDir "t.a.w.a" = "./_Test_t.w"%string.
Proof. repeat split; reflexivity. Qed.
