(* ===== verification/AsmScript.v ===== *)
(** * The assembler's script: asm/asm

    The shell script that runs customasm on its embedded rules: the temporary file of
    the rules, the options, the expansion of the unquoted arguments, the check that
    the sources can be read.  The file system is a finite map.  What the script calls
    (customasm, mktemp) and what the shell does with patterns is the record [tools];
    the rules themselves are in [AsmRules]. *)

From S2P Require Import Prelude Text Dsm DsmLines AsmRules Reassemble GoStr Itf.
From Stdlib Require Import Ascii.

(** ** Files *)

(** Files and directories by clean path; the current directory is not listed. *)
Record world := World { files : gmap string (list Z); dirs : gset string }.

Definition under (d q : string) : bool := String.eqb q d || String.prefix (d +:+ "/") q.

Definition parent (q : string) : string := String.concat "/" (List.removelast (split_slash "" q)).

Definition parent_ok (q : string) (w : world) : bool := String.eqb (parent q) "" || bool_decide (parent q ∈ dirs w).

Definition os_RemoveAll (p : string) (w : world) : err * world :=
  let d := path_Clean p in
  (None, World (filter (fun kv => under d kv.1 = false) (files w)) (filter (fun q => under d q = false) (dirs w))).

Definition os_Mkdir (p : string) (w : world) : err * world :=
  let q := path_Clean p in
  if bool_decide (q ∈ dirs w) || bool_decide (is_Some (files w !! q)) then (Some "file exists"%string, w)
  else if parent_ok q w then (None, World (files w) ({[q]} ∪ dirs w))
  else (Some "no such file or directory"%string, w).

Definition write_file (p : string) (data : list Z) (w : world) : err * world :=
  let q := path_Clean p in
  if bool_decide (q ∈ dirs w) then (Some "is a directory"%string, w)
  else if parent_ok q w then (None, World (<[q := data]> (files w)) (dirs w))
  else (Some "no such file or directory"%string, w).

Definition readable (f : string) (w : world) : bool :=
  bool_decide (is_Some (files w !! path_Clean f)) || bool_decide (path_Clean f ∈ dirs w) || String.eqb (path_Clean f) ".".

Definition put (f : string) (data : list Z) (w : world) : world := World (<[f := data]> (files w)) (dirs w).

(** [rm -rf] of a file. *)
Definition remove (f : string) (w : world) : world := World (delete f (files w)) (dirs w).

(** ** The surroundings *)

Record tools := Tools {
  (** customasm on the rules and one source ([None]: it cannot be read as a file): what it
      prints, and the object file that it writes. *)
  customasm : option (list Z) -> string * option (list Z);
  (** customasm on the rules and other arguments: several sources, options. *)
  customasm_args : string -> list string -> world -> (string * err) * world;
  (** The name of the new file that [mktemp rules.XXXXXXXX] makes. *)
  mktemp : world -> string;
  (** The pathname expansion of a word with pattern characters. *)
  glob : world -> string -> list string;
  (** The test [[ ! -r ... ]] with a number of words other than one. *)
  test_words : world -> list string -> bool;
  (** The text of the here-document. *)
  ruleset : list Z
}.

Definition no_slash (s : string) : bool := str_all (fun c => negb (Ascii.eqb c slash)) s.

(** mktemp(1): a name made from the template, of a file that did not exist. *)
Definition mktemp_ok (T : tools) : Prop := forall w,
  files w !! mktemp T w = None /\ exists x, no_slash x = true /\ mktemp T w = "rules." +:+ x.

(** ** Unquoted words *)

Definition is_blank (c : ascii) : bool := Ascii.eqb c (chr 32) || Ascii.eqb c (chr 9) || Ascii.eqb c (chr 10).

Definition is_pattern (c : ascii) : bool := Ascii.eqb c "*" || Ascii.eqb c "?" || Ascii.eqb c "[" || Ascii.eqb c "\".

(** Splitting at blanks. *)
Fixpoint split_words (cur s : string) : list string :=
  match s with
  | EmptyString => flush cur []
  | String c s' => if is_blank c then flush cur (split_words "" s') else split_words (cur +:+ String c "") s'
  end.

Section Script.
Context (T : tools).

(** The words that [$i] stands for. *)
Definition unquoted (w : world) (s : string) : list string :=
  mjoin ((fun x => if str_all (fun c => negb (is_pattern c)) x then [x] else glob T w x) <$> split_words "" s).

(** ** Options *)

Definition complain (why : string) (c : ascii) : string := "../asm/asm: " +:+ why +:+ " -- " +:+ String c newline.

(** The letters of an option argument: the messages, the new [OUTPUT], and whether [-o] takes the
    next argument. *)
Fixpoint letters (out opts : string) : string * string * bool :=
  match opts with
  | EmptyString => (""%string, out, false)
  | String c opts' =>
    if Ascii.eqb c "o" then if String.eqb opts' "" then (""%string, out, true) else (""%string, opts', false)
    else let '(msg, out', more) := letters out opts' in (complain "illegal option" c +:+ msg, out', more)
  end.

(** [while getopts "o:" Option ...; shift $(($OPTIND - 1))]: the messages, [OUTPUT], the rest. *)
Fixpoint getopts (out : string) (args : list string) : string * string * list string :=
  match args with
  | [] => (""%string, out, [])
  | a :: rest =>
    if String.eqb a "--" then (""%string, out, rest)
    else
      match a with
      | String c (String _ _ as opts) =>
        if Ascii.eqb c "-" then
          let '(msg, out', more) := letters out opts in
          if more then
            match rest with
            | [] => (msg +:+ complain "option requires an argument" "o", out', [])
            | v :: rest' => let '(msg', out'', r) := getopts v rest' in (msg +:+ msg', out'', r)
            end
          else let '(msg', out'', r) := getopts out' rest in (msg +:+ msg', out'', r)
        else (""%string, out, args)
      | _ => (""%string, out, args)
      end
  end.

(** ** The script *)

Definition exit_status (n : Z) : err := Some ("exit status " +:+ fmt_d n).

Definition script_usage : string := "usage: asm [-o outputfile] inputfile" +:+ newline.

(** [[ ! -r $i ]] *)
Definition unreadable (w : world) (i : string) : bool :=
  match unquoted w i with
  | [f] => negb (readable f w)
  | ws => test_words T w ws
  end.

(** From the options to the end, with the rules in the file [rules]. *)
Definition script (rules : string) (args : list string) (w : world) : (string * err) * world :=
  let '(msg, out, rest) := getopts "./wut4.out" args in
  match rest with
  | [] => ((msg +:+ script_usage, exit_status 1), w)
  | _ =>
    let ws := mjoin (unquoted w <$> rest) in
    if existsb (unreadable w) ws then ((msg +:+ script_usage, exit_status 1), w)
    else
      let w1 := put rules (ruleset T) w in
      match ws with
      | [src] =>
        if String.prefix "-" src then
          let '((console, e), w2) := customasm_args T out ws w1 in ((msg +:+ console, e), w2)
        else
          match customasm T (files w1 !! path_Clean src) with
          | (console, None) => ((msg +:+ console, exit_status 1), w1)
          | (console, Some data) =>
            match write_file out data w1 with
            | (None, w2) => ((msg +:+ console, None), w2)
            | (Some _, w2) => ((msg +:+ console, exit_status 1), w2)
            end
          end
      | _ => let '((console, e), w2) := customasm_args T out ws w1 in ((msg +:+ console, e), w2)
      end
  end.

(** The whole: the file of the rules is made first and removed at the exit. *)
Definition run_asm (args : list string) (w : world) : (string * err) * world :=
  let rules := mktemp T w in
  let '(r, w') := script rules args (put rules [] w) in
  (r, remove rules w').

(** ** Paths that the shell leaves alone *)

Definition plain_char (c : ascii) : bool := negb (is_blank c) && negb (is_pattern c).

(** A clean path without blanks and pattern characters, which is not taken for an option. *)
Definition plain_path (p : string) : bool :=
  String.eqb (path_Clean p) p && str_all plain_char p && negb (String.prefix "-" p).

Lemma plain_path_inv p : plain_path p = true -> path_Clean p = p /\ str_all plain_char p = true /\ String.prefix "-" p = false.
Proof using Type.
  unfold plain_path. intros H. apply andb_prop in H as [H H3]. apply andb_prop in H as [H1 H2].
  split; [now apply String.eqb_eq |]. split; [exact H2 | now apply negb_true_iff].
Qed.

Lemma flush_app (a : string) c : flush (a +:+ String c "") [] = [a +:+ String c ""].
Proof using Type. destruct a; reflexivity. Qed.

Lemma split_words_plain p : forall cur, str_all plain_char p = true -> split_words cur p = flush (cur +:+ p) [].
Proof using Type.
  induction p as [| c p IH]; intros cur H; [rewrite str_app_nil; reflexivity |]. cbn in H. apply andb_prop in H as [Hc Hp].
  cbn [split_words]. unfold plain_char in Hc. apply andb_prop in Hc as [Hc _]. apply negb_true_iff in Hc. rewrite Hc, IH by exact Hp.
  rewrite str_app_assoc. reflexivity.
Qed.

Lemma plain_no_pattern p : str_all plain_char p = true -> str_all (fun c => negb (is_pattern c)) p = true.
Proof using Type.
  induction p as [| c p IH]; [reflexivity |]. cbn. intros H. apply andb_prop in H as [Hc Hp]. apply andb_prop in Hc as [_ ->]. exact (IH Hp).
Qed.

Lemma plain_nonempty p : plain_path p = true -> p <> ""%string.
Proof using Type. intros H E. apply plain_path_inv in H as [H _]. subst p. discriminate. Qed.

Lemma unquoted_plain w p : plain_path p = true -> unquoted w p = [p].
Proof using Type.
  intros Hp. pose proof (plain_nonempty p Hp) as Hne. apply plain_path_inv in Hp as (_ & Hc & _). unfold unquoted.
  rewrite split_words_plain by exact Hc. change ("" +:+ p) with p. destruct p as [| c p]; [congruence |]. cbn [flush fmap list_fmap mjoin list_join].
  rewrite plain_no_pattern by exact Hc. reflexivity.
Qed.

Lemma getopts_plain out p : plain_path p = true -> getopts "./wut4.out" ["-o"%string; out; p] = (""%string, out, [p]).
Proof using Type.
  intros Hp. apply plain_path_inv in Hp as (_ & _ & Hd). cbn [getopts]. cbn. destruct p as [| c [| c' p]]; [reflexivity | |].
  - destruct (String.eqb (String c "") "--") eqn:E; [apply String.eqb_eq in E; discriminate | reflexivity].
  - cbn in Hd. destruct (Ascii.ascii_dec "-" c) as [<- | Hne]; [destruct p; discriminate |].
    destruct (String.eqb (String c (String c' p)) "--") eqn:E; [apply String.eqb_eq in E; injection E as -> _; congruence |].
    rewrite (proj2 (Ascii.eqb_neq c "-")) by congruence. reflexivity.
Qed.

(** On a plain path the script is a check and a call of customasm. *)
Lemma script_plain rules out p w : plain_path p = true ->
  script rules ["-o"%string; out; p] w =
    if readable p w then
      match customasm T (files (put rules (ruleset T) w) !! p) with
      | (console, None) => ((console, exit_status 1), put rules (ruleset T) w)
      | (console, Some data) =>
        match write_file out data (put rules (ruleset T) w) with
        | (None, w2) => ((console, None), w2)
        | (Some _, w2) => ((console, exit_status 1), w2)
        end
      end
    else ((script_usage, exit_status 1), w).
Proof using Type.
  intros Hp. unfold script. rewrite getopts_plain by exact Hp. cbn [fmap list_fmap mjoin list_join].
  rewrite unquoted_plain by exact Hp. rewrite app_nil_r. cbn [existsb]. unfold unreadable. rewrite unquoted_plain by exact Hp.
  destruct (plain_path_inv p Hp) as (Hc & _ & Hd). destruct (readable p w); cbn [negb orb]; [| reflexivity]. rewrite Hd, Hc. reflexivity.
Qed.

Section Fresh.
Context (Htmp : mktemp_ok T) (out : string) (w : world).
Context (Hout : String.prefix "rules." (path_Clean out) = false).

Lemma prefix_self a b : String.prefix a (a +:+ b) = true.
Proof using Type. induction a as [| c a IH]; [destruct b; reflexivity |]. rewrite str_app_cons. cbn. destruct (Ascii.ascii_dec c c); [exact IH | congruence]. Qed.

Lemma rules_ne_out : mktemp T w <> path_Clean out.
Proof using Htmp Hout. intros E. destruct (Htmp w) as (_ & x & _ & Ex). rewrite <- E, Ex, prefix_self in Hout. discriminate. Qed.

(** The temporary file is gone at the end, whatever was written to it. *)
Lemma removed d1 d2 : remove (mktemp T w) (put (mktemp T w) d1 (put (mktemp T w) d2 w)) = w.
Proof using Htmp. destruct (Htmp w) as [Hf _]. unfold remove, put. cbn. rewrite !delete_insert_eq, delete_id by exact Hf. destruct w; reflexivity. Qed.

Lemma removed_once d : remove (mktemp T w) (put (mktemp T w) d w) = w.
Proof using Htmp. destruct (Htmp w) as [Hf _]. unfold remove, put. cbn. rewrite delete_insert_eq, delete_id by exact Hf. destruct w; reflexivity. Qed.

Lemma write_under data d1 d2 :
  let r := write_file out data (put (mktemp T w) d1 (put (mktemp T w) d2 w)) in
  (r.1, remove (mktemp T w) r.2) = write_file out data w.
Proof using Htmp Hout.
  cbv zeta. unfold write_file. cbv zeta. cbn [dirs put]. unfold parent_ok. cbn [dirs put]. pose proof rules_ne_out as Hne.
  destruct (bool_decide (path_Clean out ∈ dirs w)); [cbn [fst snd]; rewrite removed; reflexivity |].
  destruct (String.eqb _ _ || _); [| cbn [fst snd]; rewrite removed; reflexivity]. cbn [fst snd]. unfold remove, put. cbn [files dirs].
  destruct (Htmp w) as [Hf _]. rewrite delete_insert_ne, !delete_insert_eq, delete_id by (exact Hf || congruence). reflexivity.
Qed.

Lemma run_asm_plain p : plain_path p = true -> p <> mktemp T w ->
  run_asm ["-o"%string; out; p] w =
    if readable p w then
      match customasm T (files w !! p) with
      | (console, None) => ((console, exit_status 1), w)
      | (console, Some data) =>
        match write_file out data w with
        | (None, w2) => ((console, None), w2)
        | (Some _, w2) => ((console, exit_status 1), w2)
        end
      end
    else ((script_usage, exit_status 1), w).
Proof using Htmp Hout.
  intros Hp Hne. unfold run_asm. rewrite script_plain by exact Hp. destruct (plain_path_inv p Hp) as (Hc & _ & _).
  assert (Hr : readable p (put (mktemp T w) [] w) = readable p w) by (unfold readable; cbn [files dirs put]; rewrite Hc, lookup_insert_ne by congruence; reflexivity).
  rewrite Hr. destruct (readable p w); [| rewrite removed_once; reflexivity].
  cbn [files put]. rewrite !lookup_insert_ne by congruence. destruct (customasm T (files w !! p)) as [console [data |]]; [| rewrite removed; reflexivity].
  pose proof (write_under data (ruleset T) []) as Hw. cbv zeta in Hw. destruct (write_file out data (put _ _ _)) as [[e |] w2]; cbn [fst snd] in Hw; rewrite <- Hw; reflexivity.
Qed.

(** Whatever happens, at most the output file is written. *)
Lemma run_asm_writes p : plain_path p = true ->
  let w' := (run_asm ["-o"%string; out; p] w).2 in w' = w \/ exists data, w' = (write_file out data w).2.
Proof using Htmp Hout.
  intros Hp. cbv zeta. unfold run_asm. rewrite script_plain by exact Hp. destruct (readable p _); [| left; cbn [snd]; apply removed_once].
  destruct (customasm T _) as [console [data |]]; [| left; cbn [snd]; apply removed]. right. exists data.
  pose proof (write_under data (ruleset T) []) as Hw. cbv zeta in Hw. destruct (write_file out data (put _ _ _)) as [[e |] w2]; cbn [fst snd] in *; rewrite <- Hw; reflexivity.
Qed.

End Fresh.

End Script.

(** ** An instance *)

(** A name that is longer than every other. *)
Definition longest (fs : gmap string (list Z)) : nat := map_fold (fun f _ n => Nat.max (String.length f) n) 0%nat fs.

Fixpoint xs (n : nat) : string := match n with O => "" | S n' => String "x" (xs n') end.

Definition some_mktemp (w : world) : string := "rules." +:+ xs (longest (files w)).

Lemma longest_le fs f d : fs !! f = Some d -> (String.length f <= longest fs)%nat.
Proof.
  unfold longest. revert f d. induction fs as [| g x fs Hg Hf IH] using map_first_key_ind; intros f d H; [rewrite lookup_empty in H; discriminate |].
  rewrite map_fold_insert_first_key by assumption. destruct (decide (f = g)) as [-> | Hne]; [lia |].
  rewrite lookup_insert_ne in H by congruence. specialize (IH _ _ H). lia.
Qed.

Lemma xs_facts n : no_slash (xs n) = true /\ String.length (xs n) = n.
Proof. induction n as [| n [IH1 IH2]]; [auto |]. split; [exact IH1 | cbn; rewrite IH2; reflexivity]. Qed.

Lemma some_mktemp_fresh w : files w !! some_mktemp w = None /\ exists x, no_slash x = true /\ some_mktemp w = "rules." +:+ x.
Proof.
  split; [| exists (xs (longest (files w))); split; [apply xs_facts | reflexivity]].
  destruct (files w !! some_mktemp w) as [d |] eqn:E; [exfalso | reflexivity]. apply longest_le in E.
  unfold some_mktemp in E. change (String.length ("rules." +:+ xs (longest (files w)))) with (6 + String.length (xs (longest (files w))))%nat in E.
  rewrite (proj2 (xs_facts _)) in E. lia.
Qed.

(** The script on a path with a blank: the words are looked for, and not found. *)
Example blank_path T w : getopts "./wut4.out" ["-o"; "x"; "-q"]%string = (complain "illegal option" "q", "x"%string, []) /\
  unquoted T w "my prog.w4a" = ["my"; "prog.w4a"]%string.
Proof. split; reflexivity. Qed.
