(* ===== verification/ItfWorld.v ===== *)
(** * The driver with its file system and programs

    The instance of [OS] in which the files are a finite map from clean paths to
    contents, asm/asm is the script of [AsmScript], and
    dsm/dsm is [DsmMain.dsm_main]; the directories that the driver uses; what its
    exit code says about the source. *)

From S2P Require Import Prelude Text Dsm Machine Isa Decoder Refine IsaProps DsmTheorems DsmLines AsmRules Reassemble AsmSource GoStr DsmMain Itf AsmScript.
From Stdlib Require Import Ascii.

(** ** The exit code, for any outside *)

Section AnyOS.
Context {W : Type} `{OS W}.

(** The commands of a run that passes, one after the other. *)
Definition all_pass (asmPath : string) (w : W) : Prop :=
  let dir := makeTmpDir asmPath in
  let bin := path_Join dir "wut4.out" in
  let dsm := path_Join dir "wut4.dsm" in
  let bin2 := path_Join dir "wut4.out2" in
  exists w1 w2 w3 w4 w5 w6 w7 o1 o2 o3 o4,
    RemoveAll dir w = (None, w1) /\ Mkdir dir w1 = (None, w2) /\
    CombinedOutput Assembler ["-o"%string; bin; asmPath] w2 = ((o1, None), w3) /\
    Create dsm w3 = (None, w4) /\ RunTo Disassembler ["-q"%string; bin] dsm w4 = (inr (o2, None), w5) /\
    CombinedOutput Assembler ["-o"%string; bin2; dsm] w5 = ((o3, None), w6) /\
    CombinedOutput Comparer [bin; bin2] w6 = ((o4, None), w7).

(** One command of the chain has been run, with the result in [Eq]; after an error
    the program has exited with 2 and the chain is broken. *)
Ltac broken := cbv beta iota delta [fst]; split; [discriminate | intros (? & ? & ? & ? & ? & ? & ? & ? & ? & ? & ? & ? & ? & ? & ? & ? & ? & ?); congruence].

Lemma exit_zero asmPath w : exit_code [asmPath] w = 0 <-> all_pass asmPath w.
Proof.
  unfold exit_code, all_pass, main, check, runAssembler, runDisassembler, runCompare, act, pr, ret, fatal, exit, bind. cbv zeta.
  set (dir := makeTmpDir asmPath). set (bin := path_Join dir "wut4.out"). set (dsm := path_Join dir "wut4.dsm"). set (bin2 := path_Join dir "wut4.out2").
  destruct (RemoveAll dir w) as [[e |] w1] eqn:E1; [broken |].
  destruct (Mkdir dir w1) as [[e |] w2] eqn:E2; [broken |].
  destruct (CombinedOutput Assembler _ w2) as [[o1 [e |]] w3] eqn:E3; [broken |].
  destruct (Create dsm w3) as [[e |] w4] eqn:E4; [broken |].
  destruct (RunTo Disassembler _ dsm w4) as [[e | [o2 [e |]]] w5] eqn:E5; [broken | broken |].
  destruct (CombinedOutput Assembler _ w5) as [[o3 [e |]] w6] eqn:E6; [broken |].
  destruct (CombinedOutput Comparer _ w6) as [[o4 [e |]] w7] eqn:E7; [broken |].
  split; [intros _ | reflexivity]. exists w1, w2, w3, w4, w5, w6, w7, o1, o2, o3, o4. auto 10.
Qed.

(** The exit code is 1 for a wrong number of arguments, else 0 or 2. *)
Lemma exit_codes args w : exit_code args w = 1 /\ length args <> 1%nat \/ (exit_code args w = 0 \/ exit_code args w = 2) /\ length args = 1%nat.
Proof.
  destruct args as [| asmPath [| x args]]; [left; auto | right; split; [| reflexivity] | left; auto].
  unfold exit_code, main, check, runAssembler, runDisassembler, runCompare, act, pr, ret, fatal, exit, bind. cbv zeta.
  destruct (RemoveAll _ w) as [[e |] w1]; [auto |]. destruct (Mkdir _ w1) as [[e |] w2]; [auto |].
  destruct (CombinedOutput _ _ w2) as [[o1 [e |]] w3]; [auto |]. destruct (Create _ w3) as [[e |] w4]; [auto |].
  destruct (RunTo _ _ _ w4) as [[e | [o2 [e |]]] w5]; [auto | auto |].
  destruct (CombinedOutput _ _ w5) as [[o3 [e |]] w6]; [auto |].
  destruct (CombinedOutput _ _ w6) as [[o4 [e |]] w7]; auto.
Qed.

End AnyOS.

(** ** The working directory *)

Lemma split_element a rest cur : no_slash a = true -> split_slash cur (a +:+ String slash rest) = (cur +:+ a) :: split_slash "" rest.
Proof.
  revert cur. induction a as [| c a IH]; intros cur H; [rewrite str_app_nil; reflexivity |].
  cbn in H. apply andb_prop in H as [Hc Ha]. apply negb_true_iff in Hc. rewrite str_app_cons. cbn [split_slash].
  rewrite Hc, IH, str_app_assoc by exact Ha. reflexivity.
Qed.

Lemma split_last a cur : no_slash a = true -> split_slash cur a = [cur +:+ a].
Proof.
  revert cur. induction a as [| c a IH]; intros cur H; [rewrite str_app_nil; reflexivity |].
  cbn in H. apply andb_prop in H as [Hc Ha]. apply negb_true_iff in Hc. cbn [split_slash].
  rewrite Hc, IH, str_app_assoc by exact Ha. reflexivity.
Qed.

Lemma split_all P s cur : str_all P cur = true -> str_all P s = true ->
  Forall (fun e => str_all P e = true) (split_slash cur s).
Proof.
  revert cur. induction s as [| c s IH]; intros cur H Hs; [constructor; [exact H | constructor] |]. cbn in Hs. apply andb_prop in Hs as [Hc Hs].
  cbn [split_slash]. destruct (Ascii.eqb c slash); [constructor; [exact H | now apply IH] |]. apply IH; [| exact Hs].
  rewrite str_all_app, H. cbn. rewrite Hc. reflexivity.
Qed.

Lemma split_no_slash s cur : no_slash cur = true -> Forall (fun e => no_slash e = true) (split_slash cur s).
Proof.
  revert cur. induction s as [| c s IH]; intros cur H; [constructor; [exact H | constructor] |]. cbn [split_slash].
  destruct (Ascii.eqb c slash) eqn:E; [constructor; [exact H | now apply IH] |]. apply IH. unfold no_slash in *.
  rewrite str_all_app, H. cbn. rewrite E. reflexivity.
Qed.

Lemma remove_from_all P old k s : str_all P s = true -> str_all P (remove_from old k s) = true.
Proof.
  revert k. induction s as [| c s IH]; intros k H; [reflexivity |]. cbn in H. apply andb_prop in H as [Hc Hs]. cbn [remove_from].
  destruct k; [| now apply IH]. destruct (String.prefix _ _); [now apply IH |]. cbn. rewrite Hc. now apply IH.
Qed.

Lemma remove_all_all P old s : str_all P s = true -> str_all P (remove_all old s) = true.
Proof. intros H. unfold remove_all. case_if; [now apply remove_from_all | exact H]. Qed.

Lemma last_in {A} (l : list A) d : l <> [] -> In (List.last l d) l.
Proof.
  induction l as [| x l IH]; [congruence |]. intros _. destruct l as [| y l]; [left; reflexivity |]. right. apply IH. discriminate.
Qed.

Lemma Base_cases p : no_slash (path_Base p) = true \/ path_Base p = "/"%string /\ path_Ext p = ""%string.
Proof.
  unfold path_Base, path_Ext. destruct (String.eqb p ""); [left; reflexivity |].
  pose proof (split_no_slash p "" eq_refl) as Hs. destruct (List.filter nonempty (split_slash "" p)) as [| x l] eqn:E.
  - right. split; [reflexivity |]. assert (Hne : split_slash "" p <> []) by (destruct p; [discriminate |]; clear; generalize (String a p); intros s; generalize ""%string;
      induction s; intros cur; cbn; [discriminate | case_if; [discriminate | apply IHs]]).
    destruct (List.last (split_slash "" p) ""%string) as [| c r] eqn:El; [reflexivity |]. exfalso.
    assert (Hin : In (String c r) (List.filter nonempty (split_slash "" p))) by (apply filter_In; split; [rewrite <- El; now apply last_in | reflexivity]).
    rewrite E in Hin. exact Hin.
  - left. assert (Hin : In (List.last (x :: l) "/"%string) (split_slash "" p)).
    { eapply (proj1 (filter_In nonempty _ _)). rewrite E. apply last_in. discriminate. }
    rewrite List.Forall_forall in Hs. exact (Hs _ Hin).
Qed.

(** The last element has no characters of its own, but for the dot of an empty path. *)
Lemma Base_chars P p : P "."%char = true -> P slash = true -> str_all P p = true -> str_all P (path_Base p) = true.
Proof.
  intros Hdot Hsl Hp. unfold path_Base. destruct (String.eqb p ""); [cbn; rewrite Hdot; reflexivity |].
  destruct (List.filter nonempty (split_slash "" p)) as [| x l] eqn:E; [change (P slash && true = true); rewrite Hsl; reflexivity |].
  assert (Hin : In (List.last (x :: l) "/"%string) (split_slash "" p)).
  { eapply (proj1 (filter_In nonempty _ _)). rewrite E. apply last_in. discriminate. }
  pose proof (split_all P p "" eq_refl Hp) as Hs. rewrite List.Forall_forall in Hs. exact (Hs _ Hin).
Qed.

(** The characters of a name are those of the path. *)
Definition chars_of (p n : string) : Prop :=
  forall P, P "."%char = true -> P slash = true -> str_all P p = true -> str_all P n = true.

Lemma makeTmpDir_cases p :
  (exists n, (no_slash n = true /\ chars_of p n) /\ makeTmpDir p = "./_Test_" +:+ n) \/ makeTmpDir p = "./_Test_/"%string.
Proof.
  unfold makeTmpDir. cbv zeta. destruct (Base_cases p) as [H | [-> ->]]; [left | right; reflexivity].
  exists (remove_all (path_Ext p) (path_Base p)). split; [| reflexivity].
  split; [now apply (remove_all_all (fun c => negb (Ascii.eqb c slash))) | intros P H1 H2 H3; now apply remove_all_all, Base_chars].
Qed.

Definition workDir (p : string) : string := path_Clean (makeTmpDir p).

(** A file name that is one ordinary element of a path. *)
Definition plain_name (f : string) : bool :=
  no_slash f && nonempty f && negb (String.eqb f ".") && negb (String.eqb f "..").

Lemma plain_name_inv f : plain_name f = true ->
  no_slash f = true /\ String.eqb f "" = false /\ String.eqb f "." = false /\ String.eqb f ".." = false.
Proof.
  unfold plain_name, nonempty. intros H. repeat (apply andb_prop in H as [H ?]). repeat split; try assumption; apply negb_true_iff; assumption.
Qed.

Lemma test_name n : no_slash n = true -> plain_name ("_Test_" +:+ n) = true.
Proof. intros H. unfold plain_name, no_slash in *. rewrite str_all_app, H. reflexivity. Qed.

Lemma clean_one d : plain_name d = true -> path_Clean d = d /\ path_Clean ("./" +:+ d) = d.
Proof.
  intros H. apply plain_name_inv in H as (Hs & H0 & H1 & H2). unfold path_Clean.
  assert (Hr : rooted d = false) by (destruct d as [| c d]; [reflexivity |]; cbn in Hs |- *; apply andb_prop in Hs as [Hs _]; now apply negb_true_iff in Hs).
  change ("./" +:+ d) with ("." +:+ String slash d). rewrite Hr, split_last, (split_element ".") by (exact Hs || reflexivity).
  change ("" +:+ ".") with "."%string. change ("" +:+ d) with d. rewrite split_last by exact Hs. change ("" +:+ d) with d.
  cbn [clean_elems]. rewrite H0, H1, H2. cbn. unfold nonempty. rewrite H0. auto.
Qed.

Lemma clean_two d f : plain_name d = true -> plain_name f = true ->
  path_Clean (d +:+ "/" +:+ f) = d +:+ "/" +:+ f /\ path_Clean ("./" +:+ d +:+ "/" +:+ f) = d +:+ "/" +:+ f.
Proof.
  intros Hd Hf. apply plain_name_inv in Hd as (Hs & H0 & H1 & H2). apply plain_name_inv in Hf as (Fs & F0 & F1 & F2). unfold path_Clean.
  assert (Hr : rooted (d +:+ "/" +:+ f) = false).
  { destruct d as [| c d]; [discriminate |]. cbn in Hs |- *. apply andb_prop in Hs as [Hs _]. now apply negb_true_iff in Hs. }
  change ("./" +:+ d +:+ "/" +:+ f) with ("." +:+ String slash (d +:+ "/" +:+ f)). rewrite Hr, (split_element ".") by reflexivity.
  change (d +:+ "/" +:+ f) with (d +:+ String slash f). rewrite split_element by exact Hs. change ("" +:+ ".") with "."%string. change ("" +:+ d) with d.
  rewrite split_last by exact Fs. change ("" +:+ f) with f. cbn [clean_elems]. rewrite H0, H1, H2, F0, F1, F2. cbn [orb String.eqb]. cbn.
  assert (Hn : nonempty (d +:+ String slash f) = true) by (destruct d; reflexivity).
  split; [change (d +:+ "/" +:+ f) with (d +:+ String slash f); rewrite Hn; reflexivity | change (d +:+ "/" +:+ f) with (d +:+ String slash f); rewrite Hn; reflexivity].
Qed.

Lemma clean_test_slash f : plain_name f = true -> path_Clean ("./_Test_/" +:+ "/" +:+ f) = "_Test_" +:+ "/" +:+ f.
Proof.
  intros Hf. apply plain_name_inv in Hf as (Fs & F0 & F1 & F2). unfold path_Clean.
  change ("./_Test_/" +:+ "/" +:+ f) with ("." +:+ String slash ("_Test_" +:+ String slash ("" +:+ String slash f))).
  rewrite !split_element by reflexivity. rewrite split_last by exact Fs. change ("" +:+ f) with f.
  cbn [clean_elems]. rewrite F0, F1, F2. reflexivity.
Qed.

(** The working directory is an entry of the current directory whose name begins
    with [_Test_], whatever the argument is. *)
Lemma workDir_spec p : exists n, (no_slash n = true /\ chars_of p n) /\ workDir p = "_Test_" +:+ n /\
  forall f, plain_name f = true -> path_Join (makeTmpDir p) f = workDir p +:+ "/" +:+ f /\ path_Clean (workDir p +:+ "/" +:+ f) = workDir p +:+ "/" +:+ f.
Proof.
  unfold workDir. destruct (makeTmpDir_cases p) as [(n & Hn & ->) | ->].
  - exists n. pose proof (test_name n (proj1 Hn)) as Ht. destruct (clean_one _ Ht) as [_ E].
    change ("./_Test_" +:+ n) with ("./" +:+ "_Test_" +:+ n). rewrite E. split; [exact Hn |]. split; [reflexivity |].
    intros f Hf. destruct (clean_two _ f Ht Hf) as [E1 E2]. split; [| exact E1]. unfold path_Join. rewrite <- E2. reflexivity.
  - exists ""%string. split; [split; [reflexivity | intros P _ _ _; reflexivity] |]. split; [reflexivity |]. intros f Hf. change (path_Clean "./_Test_/") with "_Test_"%string.
    split; [now apply clean_test_slash | apply (clean_two "_Test_" f); [reflexivity | exact Hf]].
Qed.

(** ** Files and programs *)

Fixpoint unstr (l : list Z) : string :=
  match l with [] => "" | c :: l' => String (Ascii.ascii_of_nat (Z.to_nat c)) (unstr l') end.

Lemma unstr_str s : unstr (str s) = s.
Proof. induction s as [| c s IH]; [reflexivity |]. cbn. rewrite Nat2Z.id, Ascii.ascii_nat_embedding, IH. reflexivity. Qed.

(** *** The working directory of a run *)

Section WorkDir.
Context (asmPath : string) (w : world).

Let D := workDir asmPath.

Definition in_dir (f : string) : string := workDir asmPath +:+ "/" +:+ f.

Lemma D_plain : plain_name D = true.
Proof. destruct (workDir_spec asmPath) as (n & Hn & E & _). unfold D. rewrite E. exact (test_name n (proj1 Hn)). Qed.

Lemma parent_in_dir f : plain_name f = true -> parent (in_dir f) = D.
Proof.
  intros Hf. pose proof D_plain as Hd. apply plain_name_inv in Hd as (Hs & _). apply plain_name_inv in Hf as (Fs & _).
  unfold parent, in_dir. fold D. change (D +:+ "/" +:+ f) with (D +:+ String slash f). rewrite split_element, split_last by assumption. reflexivity.
Qed.

Lemma under_in_dir f : under D (in_dir f) = true.
Proof.
  unfold under, in_dir. fold D. replace (D +:+ "/" +:+ f) with ((D +:+ "/") +:+ f) by apply str_app_assoc.
  rewrite prefix_self. apply orb_true_r.
Qed.

Lemma clean_in_dir f : plain_name f = true -> path_Clean (in_dir f) = in_dir f.
Proof. intros Hf. destruct (workDir_spec asmPath) as (n & _ & _ & H). apply H, Hf. Qed.

(** A file of the directory is a plain path when the argument is. *)
Lemma plain_in_dir f : plain_name f = true -> str_all plain_char f = true -> plain_path asmPath = true -> plain_path (in_dir f) = true.
Proof.
  intros Hf Hc Hp. apply plain_path_inv in Hp as (_ & Hp & _). destruct (workDir_spec asmPath) as (n & [_ Hn] & E & _).
  unfold plain_path. rewrite clean_in_dir, String.eqb_refl by exact Hf. unfold in_dir. rewrite E, !str_all_app, Hc.
  rewrite (Hn plain_char eq_refl eq_refl Hp). reflexivity.
Qed.

(** ... and is not a file of the rules. *)
Lemma in_dir_not_rules f : plain_name f = true -> String.prefix "rules." (path_Clean (in_dir f)) = false.
Proof. intros Hf. rewrite clean_in_dir by exact Hf. unfold in_dir. destruct (workDir_spec asmPath) as (n & _ & -> & _). reflexivity. Qed.

(** The world once the directory has been made again. *)
Definition fresh : world :=
  World (filter (fun kv => under (workDir asmPath) kv.1 = false) (files w))
    ({[workDir asmPath]} ∪ filter (fun q => under (workDir asmPath) q = false) (dirs w)).

Lemma under_D : under D D = true.
Proof. unfold under. rewrite String.eqb_refl. reflexivity. Qed.

Lemma make_dir : exists w1, os_RemoveAll (makeTmpDir asmPath) w = (None, w1) /\ os_Mkdir (makeTmpDir asmPath) w1 = (None, fresh).
Proof.
  eexists. split; [reflexivity |]. unfold os_Mkdir. cbv zeta. change (path_Clean (makeTmpDir asmPath)) with D. cbn [files dirs].
  rewrite !bool_decide_eq_false_2.
  - cbn [orb]. unfold parent_ok. replace (parent D) with ""%string; [reflexivity |]. unfold parent.
    rewrite split_last by (pose proof D_plain as Hd; apply plain_name_inv in Hd; tauto). reflexivity.
  - rewrite map_lookup_filter_None_2; [intros [x Hx]; discriminate |]. right. intros x _. cbn. fold D. rewrite under_D. discriminate.
  - rewrite elem_of_filter. fold D. rewrite under_D. intros [H _]. discriminate.
Qed.

(** Files of the working directory can be written. *)
Lemma write_in_dir f data fs : plain_name f = true ->
  write_file (in_dir f) data (World fs (dirs fresh)) = (None, World (<[in_dir f := data]> fs) (dirs fresh)).
Proof.
  intros Hf. unfold write_file. cbv zeta. rewrite clean_in_dir by exact Hf. cbn [files dirs]. rewrite bool_decide_eq_false_2.
  - unfold parent_ok. rewrite parent_in_dir by exact Hf. rewrite bool_decide_eq_true_2; [rewrite orb_true_r; reflexivity |]. cbn. fold D. set_solver.
  - cbn. fold D. rewrite elem_of_union, elem_of_singleton, elem_of_filter, under_in_dir. intros [E | [E _]]; [| discriminate].
    pose proof D_plain as Hd. apply plain_name_inv in Hd as (Hs & _). rewrite <- E in Hs. unfold in_dir, no_slash in Hs.
    rewrite !str_all_app in Hs. cbn in Hs. rewrite andb_false_r in Hs. discriminate.
Qed.

End WorkDir.

Section World.

Context (T : tools).

(** dsm/dsm with the option -q. *)
Definition run_dsm (args : list string) (stdout : string) (w : world) : (string + (string * err)) * world :=
  match args with
  | [opt; src] =>
    match dsm_main [] (String.eqb opt "-q") [str src] (fun p => files w !! path_Clean (unstr p)) with
    | Ret (c, out) =>
      if c =? 0 then let '(e, w') := write_file stdout (str (text out)) w in (inr (""%string, e), w')
      else (inr (text out, exit_status c), w)
    | Panic why => (inr (why, exit_status 2), w)
    end
  | _ => (inr (""%string, exit_status 1), w)
  end.

Definition run_cmp (args : list string) (w : world) : (string * err) * world :=
  match args with
  | [a; b] =>
    match files w !! path_Clean a, files w !! path_Clean b with
    | Some x, Some y => if decide (x = y) then ((""%string, None), w) else (("differ"%string, exit_status 1), w)
    | _, _ => (("No such file or directory"%string, exit_status 2), w)
    end
  | _ => ((""%string, exit_status 2), w)
  end.

#[local] Instance world_OS : OS world := {|
  RemoveAll := os_RemoveAll;
  Mkdir := os_Mkdir;
  Create := fun p => write_file p [];
  CombinedOutput := fun cmd args w =>
    if String.eqb cmd Assembler then run_asm T args w
    else if String.eqb cmd Comparer then run_cmp args w
    else ((""%string, Some "executable file not found"%string), w);
  RunTo := fun cmd args stdout w =>
    if String.eqb cmd Disassembler then run_dsm args stdout w else (inl "executable file not found"%string, w);
  LookPath := fun cmd => if String.eqb cmd Comparer then "/usr/bin/cmp"%string else cmd
|}.

Lemma str_app_inj (a b c : string) : a +:+ b = a +:+ c -> b = c.
Proof. induction a as [| x a IH]; [auto |]. rewrite !str_app_cons. intros [= H]. auto. Qed.

Lemma in_dir_ne p f g : f <> g -> in_dir p f <> in_dir p g.
Proof. intros H E. apply str_app_inj, str_app_inj in E. auto. Qed.

Lemma join_in_dir p f : plain_name f = true -> path_Join (makeTmpDir p) f = in_dir p f.
Proof. intros Hf. destruct (workDir_spec p) as (n & _ & _ & H). apply H, Hf. Qed.

Section Run.
Context (asmPath : string) (w : world) (src : list Z).
Context (Htmp : mktemp_ok T) (Hplain : plain_path asmPath = true).
Context (Hsrc : files w !! asmPath = Some src) (Hout : under (workDir asmPath) asmPath = false).

Abbreviation F := (in_dir asmPath).
Abbreviation Wd fs := (World fs (dirs (fresh asmPath w))).

Lemma source_kept : files (fresh asmPath w) !! asmPath = Some src.
Proof using Hsrc Hout. cbn. apply map_lookup_filter_Some_2; [exact Hsrc | exact Hout]. Qed.

(** The assembler reads a source and writes a file of the working directory. *)
Lemma run_asm_in_dir f p s fs : plain_name f = true -> plain_path p = true -> fs !! p = Some s ->
  run_asm T ["-o"%string; F f; p] (Wd fs) =
    match customasm T (Some s) with
    | (console, None) => ((console, exit_status 1), Wd fs)
    | (console, Some data) => ((console, None), Wd (<[F f := data]> fs))
    end.
Proof using Htmp.
  intros Hf Hp Hs. destruct (Htmp (Wd fs)) as [Hnew _]. cbn [files] in Hnew.
  rewrite (run_asm_plain T Htmp) by (assumption || apply in_dir_not_rules, Hf || (intros E; cbn [files] in *; congruence)).
  unfold readable. destruct (plain_path_inv p Hp) as (Hc & _). cbn [files]. rewrite Hc, Hs. cbn [orb].
  rewrite bool_decide_eq_true_2 by eauto. cbn [orb].
  destruct (customasm T (Some s)) as [console [data |]]; [| reflexivity]. rewrite write_in_dir by exact Hf. reflexivity.
Qed.

Lemma run_dsm_in_dir f g data out l fs : plain_name f = true -> plain_name g = true -> fs !! F f = Some data ->
  Dsm.disassemble true data [] = Ret (out, l) ->
  run_dsm ["-q"%string; F f] (F g) (Wd fs) = (inr (""%string, None), Wd (<[F g := str (text out)]> fs)).
Proof.
  intros Hf Hg Hs Hd. cbn [run_dsm]. change (String.eqb "-q" "-q") with true. unfold dsm_main. cbn [length Nat.ltb Nat.leb files].
  rewrite unstr_str, clean_in_dir, Hs, Hd by exact Hf. cbn [Z.eqb]. rewrite write_in_dir by exact Hg. reflexivity.
Qed.

Lemma run_cmp_in_dir f g x y fs : plain_name f = true -> plain_name g = true -> fs !! F f = Some x -> fs !! F g = Some y ->
  run_cmp [F f; F g] (Wd fs) = if decide (x = y) then ((""%string, None), Wd fs) else (("differ"%string, exit_status 1), Wd fs).
Proof. intros Hf Hg Hx Hy. cbn [run_cmp files]. rewrite !clean_in_dir, Hx, Hy by assumption. reflexivity. Qed.

(** The state after a command whose result is known. *)
Ltac ran E A := rewrite E in A; apply (f_equal snd) in A; cbn [snd] in A; subst.

(** The run passes exactly when the disassembly assembles to the same file. *)
Lemma run_passes console data out l :
  customasm T (Some src) = (console, Some data) -> Dsm.disassemble true data [] = Ret (out, l) ->
  all_pass asmPath w <-> (customasm T (Some (str (text out)))).2 = Some data.
Proof using Htmp Hplain Hsrc Hout.
  intros Hc Hd. destruct (make_dir asmPath w) as (w1 & E1 & E2).
  set (fs0 := files (fresh asmPath w)). change (fresh asmPath w) with (Wd fs0) in E2.
  pose proof (run_asm_in_dir "wut4.out" asmPath src fs0 eq_refl Hplain source_kept) as E3. rewrite Hc in E3.
  set (fs1 := <[F "wut4.out" := data]> fs0) in *.
  pose proof (write_in_dir asmPath w "wut4.dsm" [] fs1 eq_refl) as E4. set (fs2 := <[F "wut4.dsm" := []]> fs1) in *.
  assert (L1 : fs2 !! F "wut4.out" = Some data).
  { unfold fs2, fs1. rewrite lookup_insert_ne, lookup_insert_eq by (apply in_dir_ne; discriminate). reflexivity. }
  pose proof (run_dsm_in_dir "wut4.out" "wut4.dsm" data out l fs2 eq_refl eq_refl L1 Hd) as E5.
  set (fs3 := <[F "wut4.dsm" := str (text out)]> fs2) in *.
  assert (L2 : fs3 !! F "wut4.dsm" = Some (str (text out))) by apply lookup_insert_eq.
  pose proof (run_asm_in_dir "wut4.out2" _ _ fs3 eq_refl (plain_in_dir asmPath "wut4.dsm" eq_refl eq_refl Hplain) L2) as E6.
  unfold all_pass. rewrite !join_in_dir by reflexivity. cbn [RemoveAll Mkdir Create CombinedOutput RunTo world_OS].
  change (String.eqb Assembler Assembler) with true. change (String.eqb Disassembler Disassembler) with true.
  change (String.eqb Comparer Assembler) with false. change (String.eqb Comparer Comparer) with true. cbv iota.
  destruct (customasm T (Some (str (text out)))) as [c2 [data2 |]]; cbn [snd].
  - set (fs4 := <[F "wut4.out2" := data2]> fs3) in *.
    assert (L3 : fs4 !! F "wut4.out" = Some data).
    { unfold fs4, fs3. rewrite !lookup_insert_ne by (apply in_dir_ne; discriminate). exact L1. }
    assert (L4 : fs4 !! F "wut4.out2" = Some data2) by apply lookup_insert_eq.
    pose proof (run_cmp_in_dir "wut4.out" "wut4.out2" data data2 fs4 eq_refl eq_refl L3 L4) as E7. split.
    + intros (v1 & v2 & v3 & v4 & v5 & v6 & v7 & o1 & o2 & o3 & o4 & A1 & A2 & A3 & A4 & A5 & A6 & A7).
      ran E1 A1. ran E2 A2. ran E3 A3. ran E4 A4. ran E5 A5. ran E6 A6.
      rewrite E7 in A7. destruct (decide (data = data2)) as [-> |]; [reflexivity | discriminate].
    + intros [= ->]. rewrite decide_True in E7 by reflexivity.
      exists w1, (Wd fs0), (Wd fs1), (Wd fs2), (Wd fs3), (Wd fs4), (Wd fs4), console, ""%string, c2, ""%string. auto 10.
  - split; [| discriminate].
    intros (v1 & v2 & v3 & v4 & v5 & v6 & v7 & o1 & o2 & o3 & o4 & A1 & A2 & A3 & A4 & A5 & A6 & A7).
    ran E1 A1. ran E2 A2. ran E3 A3. ran E4 A4. ran E5 A5. rewrite E6 in A6. discriminate.
Qed.

End Run.

End World.
