(* ===== verification/ItfTheorems.v ===== *)
(** * The theorems of the round trip

    The disassembler and the assembler, and the driver that tests them against
    each other. *)

From S2P Require Import Prelude Text Dsm Machine Isa Decoder Refine IsaProps DsmTheorems DsmLines AsmRules Reassemble AsmSource GoStr DsmMain Itf AsmScript ItfWorld.

(** ** The disassembler against the assembler's rules *)

(** C12: The round trip of object code.  The quick disassembly of every file is text
    of the assembler's plain fragment, and assembling it again gives the same file
    exactly when the file is nothing but instruction words up to its end (no zero
    word, no data section) and these words are canonical: no [y05] or [y06], every
    link jump a system call with an even number or a [jsr] or [jmp] through a register
    other than r0 that has no offset or follows the [lui] of that register, and no
    [lui] followed by a positive [adi] of another register. *)
Theorem disassembly_reassembles (data : list Z) (Hd : Forall is_u8 data) :
  exists out l, Dsm.disassemble true data [] = Ret (out, l) /\ parse_text (text out) <> None /\
    (assemble_text (text out) = Some data <-> le_bytes (code 0 data) = data /\ canonical_code data = true).
Proof. exact (reassembly data Hd). Qed.

(** The file of [dsm_demo] without its zero word comes back. *)
Lemma disassembly_reassembles_witness :
  exists out l, Dsm.disassemble true [0xF9; 0xDF; 0xC9; 0xAF; 0x51; 0xF0] [] = Ret (out, l) /\
    assemble_text (text out) = Some [0xF9; 0xDF; 0xC9; 0xAF; 0x51; 0xF0].
Proof.
  destruct (disassembly_reassembles [0xF9; 0xDF; 0xC9; 0xAF; 0x51; 0xF0]) as (out & l & H & _ & Hr);
    [apply u8_forallb; reflexivity |].
  exists out, l. split; [exact H |]. apply Hr. split; reflexivity.
Defined.

(** C13: What the assembler writes, the disassembler writes back.  A source of the plain
    fragment that uses neither [y05], [y06] nor a bare [lui], assembled to words of
    which none is zero, is reproduced: the disassembly of its object code assembles
    to the same object code. *)
Theorem source_round_trip (src : string) (ss : list stmt) (ws : list Z) (Hp : parse_text src = Some ss)
    (Ho : forallb ordinary ss = true) (Ha : assemble 0 ss = Some ws) (Hz : Forall (fun w => w <> 0) ws)
    (Hl : Z.of_nat (length ws) <= 65536) :
  exists out l, Dsm.disassemble true (le_bytes ws) [] = Ret (out, l) /\
    assemble_text (text out) = Some (le_bytes ws) /\ assemble_text src = Some (le_bytes ws).
Proof.
  pose proof (assemble_whole 0 ss ws (parse_lines_plain _ _ Hp) Ho Ha) as [Hu Hw].
  destruct (reassembly (le_bytes ws) (le_bytes_u8 ws Hu)) as (out & l & H & _ & Hr). exists out, l. split; [exact H |].
  assert (Hc : code 0 (le_bytes ws) = ws).
  { apply code_le_bytes; [| lia]. apply Forall_and; split; assumption. }
  split; [| unfold assemble_text; rewrite Hp; cbn [mbind option_bind]; rewrite Ha; reflexivity].
  apply Hr. split; [rewrite Hc; reflexivity |]. unfold canonical_code, instrs. rewrite Hc. apply Hw. reflexivity.
Qed.

Definition demo_source : string := "ldi r1, 0x1234
jsr r2, 700 ; call
sys 4
beq r1, r0, 3
nop".

Lemma source_round_trip_witness :
  exists out l, Dsm.disassemble true (default [] (assemble_text demo_source)) [] = Ret (out, l) /\
    assemble_text (text out) = assemble_text demo_source.
Proof.
  destruct (parse_text demo_source) as [ss |] eqn:Hp; [| discriminate].
  destruct (assemble 0 ss) as [ws |] eqn:Ha; [| vm_compute in Hp; injection Hp as <-; discriminate].
  destruct (source_round_trip demo_source ss ws Hp) as (out & l & H & H1 & H2).
  - vm_compute in Hp. injection Hp as <-. reflexivity.
  - exact Ha.
  - vm_compute in Hp. injection Hp as <-. vm_compute in Ha. injection Ha as <-. repeat constructor; discriminate.
  - vm_compute in Hp. injection Hp as <-. vm_compute in Ha. injection Ha as <-. cbn. lia.
  - exists out, l. rewrite H1, H2. auto.
Defined.

(** ** The driver *)

(** What the driver relies on: customasm gives the plain fragment the meaning of the
    rules, as far as the code bank reaches. *)
Definition follows_rules (T : tools) : Prop :=
  forall s ss, parse_text s = Some ss ->
    match assemble 0 ss with
    | None => (customasm T (Some (str s))).2 = None
    | Some ws => Z.of_nat (length ws) < 65536 -> (customasm T (Some (str s))).2 = Some (le_bytes ws)
    end.

(** Surroundings in which customasm is the rules. *)
Definition rules_asm : tools := {|
  customasm := fun s => (""%string, s ≫= fun s => assemble_text (unstr s));
  customasm_args := fun _ _ w => ((""%string, exit_status 1), w);
  mktemp := some_mktemp;
  glob := fun _ x => [x];
  test_words := fun _ _ => false;
  ruleset := []
|}.

Lemma rules_asm_mktemp : mktemp_ok rules_asm.
Proof. exact some_mktemp_fresh. Qed.

Lemma rules_asm_follows : follows_rules rules_asm.
Proof.
  intros s ss Hp. cbn [customasm rules_asm mbind option_bind snd]. unfold assemble_text. rewrite unstr_str, Hp. cbn [mbind option_bind].
  destruct (assemble 0 ss); [intros _ |]; reflexivity.
Qed.

(** Assembling what was printed never needs more words than there were. *)
Lemma assembled_code data out l ss ws : Forall is_u8 data -> Dsm.disassemble true data [] = Ret (out, l) ->
  parse_text (text out) = Some ss -> assemble 0 ss = Some ws -> length ws = length (code 0 data).
Proof.
  intros Hd H Hp Ha. destruct (quick_disassembly data Hd) as [l' H']. rewrite H' in H. injection H as <- <-.
  destruct (instrs_wf data Hd) as [Hwf He]. assert (H0 : wf_instr (Ldw 0 0 0)) by (cbn; unfold is_reg; lia).
  rewrite parse_text_items in Hp by (apply quick_wf; auto; lia). injection Hp as <-. rewrite <- He, length_fmap.
  exact (reassembled_length _ _ _ 0 ws (le_n _) H0 Hwf ltac:(lia) (first_not_blanked _) Ha).
Qed.

Lemma code_length at' data : (2 * length (code at' data) <= length data)%nat.
Proof.
  revert at'. induction data as [| x | lo hi rest IH] using pair_ind; intros at'; cbn [code length]; [lia | lia |].
  cbv zeta. specialize (IH (at' + 1)). repeat case_if; cbn [length] in *; lia.
Qed.

(** The verdict on an object file. *)
Definition object_ok (data : list Z) : bool := bool_decide (le_bytes (code 0 data) = data) && canonical_code data.

Section Driver.
Context (T : tools) (Htmp : mktemp_ok T) (Hrules : follows_rules T).

Lemma reassembled_by_customasm data out l : Forall is_u8 data -> Z.of_nat (length data) < 131072 ->
  Dsm.disassemble true data [] = Ret (out, l) ->
  (customasm T (Some (str (text out)))).2 = Some data <-> object_ok data = true.
Proof using Hrules.
  intros Hd Hlen H. destruct (reassembly data Hd) as (out' & l' & H' & Hp & Hr). rewrite H in H'. injection H' as <- <-.
  unfold object_ok. rewrite andb_true_iff, bool_decide_eq_true, <- Hr. unfold assemble_text.
  destruct (parse_text (text out)) as [ss |] eqn:Ep; [| congruence]. cbn [mbind option_bind]. specialize (Hrules _ _ Ep).
  destruct (assemble 0 ss) as [ws |] eqn:Ea; cbn [fmap option_fmap option_map].
  - rewrite Hrules; [reflexivity |]. rewrite (assembled_code data out l ss ws Hd H Ep Ea). pose proof (code_length 0 data). lia.
  - rewrite Hrules. reflexivity.
Qed.

Lemma driver_verdict asmPath w src console data :
  plain_path asmPath = true -> files w !! asmPath = Some src -> under (workDir asmPath) asmPath = false ->
  customasm T (Some src) = (console, Some data) -> Forall is_u8 data -> Z.of_nat (length data) < 131072 ->
  exit_code (H := world_OS T) [asmPath] w = if object_ok data then 0 else 2.
Proof using Htmp Hrules.
  intros Hp Hs Hu Hc Hd Hlen. destruct (reassembly data Hd) as (out & l & H & _).
  pose proof (exit_zero (H := world_OS T) asmPath w) as H0.
  rewrite (run_passes T asmPath w src Htmp Hp Hs Hu console data out l Hc H), (reassembled_by_customasm data out l Hd Hlen H) in H0.
  destruct (object_ok data); [now apply H0 |].
  destruct (exit_codes (H := world_OS T) [asmPath] w) as [[_ E] | [[E | E] _]]; [now destruct E | | exact E].
  apply H0 in E. discriminate.
Qed.

End Driver.


Definition demo_world (s : string) : world := World {["t01.w4a"%string := str s]} ∅.


(** C15: The exit code, whatever the file system and the programs do.  It is 1 exactly
    for a wrong number of arguments, and else 0 or 2; it is 0 exactly when the
    working directory was removed and made, the source was assembled, the object
    file disassembled, the disassembly assembled and the two object files compared
    equal, each command run in the state that the one before left and none of them
    reporting an error. *)
Theorem itf_exit_status {W : Type} (os : OS W) (args : list string) (w : W) :
  (exit_code args w = 1 <-> length args <> 1%nat) /\
  (exit_code args w = 0 \/ exit_code args w = 1 \/ exit_code args w = 2) /\
  forall asmPath, exit_code [asmPath] w = 0 <-> all_pass asmPath w.
Proof.
  split; [| split; [| intros asmPath; apply exit_zero]].
  - destruct (exit_codes args w) as [[E H] | [[E | E] H]]; rewrite E, ?H; split; intros; (congruence || lia || auto).
  - destruct (exit_codes args w) as [[E H] | [[E | E] H]]; auto.
Qed.

(** ** What the driver leaves alone *)

Section Confined.
Context (T : tools) (Htmp : mktemp_ok T) (asmPath : string) (Hp : plain_path asmPath = true).

#[local] Instance this_OS : OS world := world_OS T.

(** Files and directories outside the working directory are the same. *)
Definition same_outside (w w' : world) : Prop :=
  forall q, under (workDir asmPath) q = false -> files w' !! q = files w !! q /\ (q ∈ dirs w' <-> q ∈ dirs w).

#[local] Instance same_outside_pre : PreOrder same_outside.
Proof using Type.
  split; [intros w q _; split; reflexivity | intros w1 w2 w3 H1 H2 q Hq]. destruct (H1 q Hq) as [F1 D1], (H2 q Hq) as [F2 D2].
  split; [congruence | rewrite D2; exact D1].
Qed.

Definition keeps {A} (m : P (W := world) A) : Prop := forall s, same_outside s.1 (m s).2.1.

Lemma keeps_bind {A B} (m : P A) (f : A -> P B) : keeps m -> (forall a, keeps (f a)) -> keeps (bind m f).
Proof.
  intros Hm Hf s. unfold bind. specialize (Hm s). destruct (m s) as [[a | c] s']; [| exact Hm].
  cbn [fst snd] in Hm. etransitivity; [exact Hm | apply Hf].
Qed.

Lemma keeps_pr s : keeps (pr s).
Proof. intros [w log]. reflexivity. Qed.

Lemma keeps_ret {A} (a : A) : keeps (ret a).
Proof. intros s. reflexivity. Qed.

Lemma keeps_fatal s : keeps (fatal s).
Proof. intros [w log]. reflexivity. Qed.

Lemma keeps_act {A} (f : world -> A * world) : (forall w, same_outside w (f w).2) -> keeps (act f).
Proof. intros Hf [w log]. specialize (Hf w). unfold act. destruct (f w) as [a w']. exact Hf. Qed.

Lemma keeps_check (m : P err) what : keeps m -> keeps (check m what).
Proof. intros Hm. apply keeps_bind; [exact Hm |]. intros [t |]; [apply keeps_fatal | apply keeps_ret]. Qed.

Lemma write_same f data w : plain_name f = true -> same_outside w (write_file (in_dir asmPath f) data w).2.
Proof using Type.
  intros Hf q Hq. unfold write_file. cbv zeta. rewrite clean_in_dir by exact Hf. repeat case_if; try (split; reflexivity). cbn.
  split; [| reflexivity]. apply lookup_insert_ne. intros Eq. pose proof (under_in_dir asmPath f) as Hin. rewrite Eq in Hin. congruence.
Qed.

Lemma run_asm_same f src w : plain_name f = true -> plain_path src = true ->
  same_outside w (run_asm T ["-o"%string; in_dir asmPath f; src] w).2.
Proof using Htmp.
  intros Hf Hs. destruct (run_asm_writes T Htmp (in_dir asmPath f) w (in_dir_not_rules asmPath f Hf) src Hs) as [-> | [data ->]];
    [reflexivity | exact (write_same f data w Hf)].
Qed.

Lemma run_dsm_same f src w : plain_name f = true -> same_outside w (run_dsm ["-q"%string; src] (in_dir asmPath f) w).2.
Proof.
  intros Hf. unfold run_dsm. destruct (dsm_main _ _ _ _) as [[c out] | why]; [| reflexivity]. case_if; [| reflexivity].
  pose proof (write_same f (str (text out)) w Hf) as H. destruct (write_file _ _ w) as [e w']. exact H.
Qed.

Lemma remove_same w : same_outside w (os_RemoveAll (makeTmpDir asmPath) w).2.
Proof using Type.
  intros q Hq. cbn. split; [| rewrite elem_of_filter; tauto]. destruct (files w !! q) as [x |] eqn:E.
  - now apply map_lookup_filter_Some_2.
  - apply map_lookup_filter_None_2. left. exact E.
Qed.

Lemma mkdir_same w : same_outside w (os_Mkdir (makeTmpDir asmPath) w).2.
Proof using Type.
  intros q Hq. unfold os_Mkdir. cbv zeta. repeat case_if; try (split; reflexivity). cbn. split; [reflexivity |].
  rewrite elem_of_union, elem_of_singleton. split; [| auto]. intros [-> | H]; [| exact H].
  fold (workDir asmPath) in Hq. rewrite under_D in Hq. discriminate.
Qed.

Lemma cmp_same args w : same_outside w (run_cmp args w).2.
Proof using Type. intros q _. unfold run_cmp. repeat case_match; split; reflexivity. Qed.

Lemma keeps_runAssembler f src : plain_name f = true -> plain_path src = true -> keeps (runAssembler src (path_Join (makeTmpDir asmPath) f)).
Proof using Htmp.
  intros Hf Hs. rewrite join_in_dir by exact Hf. apply keeps_bind; [apply keeps_pr | intros _]. apply keeps_bind.
  - apply keeps_act. intros w. exact (run_asm_same f src w Hf Hs).
  - intros [o e]. apply keeps_bind; [apply keeps_pr | intros _; apply keeps_ret].
Qed.

Lemma keeps_runDisassembler f src : plain_name f = true -> keeps (runDisassembler src (path_Join (makeTmpDir asmPath) f)).
Proof.
  intros Hf. rewrite join_in_dir by exact Hf. apply keeps_bind; [apply keeps_act; intros w; now apply write_same |].
  intros [e |]; [apply keeps_ret |]. apply keeps_bind; [apply keeps_pr | intros _]. apply keeps_bind.
  - apply keeps_act. intros w. exact (run_dsm_same f src w Hf).
  - intros [e | [o e]]; [apply keeps_ret |]. apply keeps_bind; [apply keeps_pr | intros _; apply keeps_ret].
Qed.

Lemma keeps_main : keeps (main [asmPath]).
Proof using Htmp Hp.
  unfold main. cbv zeta.
  apply keeps_bind; [apply keeps_check, keeps_act, remove_same | intros _].
  apply keeps_bind; [apply keeps_check, keeps_act, mkdir_same | intros _].
  apply keeps_bind; [apply keeps_pr | intros _].
  apply keeps_bind; [apply keeps_check, keeps_runAssembler; [reflexivity | exact Hp] | intros _].
  apply keeps_bind; [apply keeps_pr | intros _].
  apply keeps_bind; [apply keeps_check, keeps_runDisassembler; reflexivity | intros _].
  apply keeps_bind; [apply keeps_pr | intros _].
  apply keeps_bind; [apply keeps_check, keeps_runAssembler; [reflexivity |] | intros _].
  { rewrite join_in_dir by reflexivity. apply plain_in_dir; [reflexivity | reflexivity | exact Hp]. }
  apply keeps_bind; [apply keeps_pr | intros _].
  apply keeps_bind; [| intros _; apply keeps_pr].
  apply keeps_check, keeps_bind; [apply keeps_pr | intros _]. apply keeps_bind; [apply keeps_act; intros w; apply cmp_same |].
  intros [o e]. apply keeps_bind; [apply keeps_pr | intros _; apply keeps_ret].
Qed.

End Confined.

(** C16: The driver leaves everything outside its working directory as it was.  The
    directory is an entry of the current directory whose name begins with [_Test_],
    whatever path is given; and for a path that the shell of the assembler's script leaves
    alone, with a mktemp that makes a new file, every file and every directory outside it
    is at the end what it was at the start: the files of rules that the two runs of the
    script make in the current directory are gone again. *)
Theorem itf_confined (T : tools) (asmPath : string) (w : world) :
  (exists n, no_slash n = true /\ workDir asmPath = "_Test_" +:+ n) /\
  (mktemp_ok T -> plain_path asmPath = true -> forall q, under (workDir asmPath) q = false ->
     let w' := (main (H := world_OS T) [asmPath] (w, [])).2.1 in
     files w' !! q = files w !! q /\ (q ∈ dirs w' <-> q ∈ dirs w)).
Proof.
  split; [destruct (workDir_spec asmPath) as (n & [H1 _] & H2 & _); eauto |]. intros Htmp Hp q Hq.
  exact (keeps_main T Htmp asmPath Hp (w, []) q Hq).
Qed.

Lemma itf_confined_witness :
  files (main (H := world_OS rules_asm) ["t01.w4a"%string] (demo_world demo_source, [])).2.1 !! "t01.w4a"%string = Some (str demo_source).
Proof.
  destruct (itf_confined rules_asm "t01.w4a" (demo_world demo_source)) as [_ H].
  destruct (H rules_asm_mktemp eq_refl "t01.w4a"%string eq_refl) as [E _]. rewrite E. vm_compute. reflexivity.
Defined.

(** A path with a blank is two words for the script, which finds neither of them. *)
Example blank_in_path :
  exit_code (H := world_OS rules_asm) ["my prog.w4a"%string] (World {["my prog.w4a"%string := str "nop"]} ∅) = 2.
Proof. vm_compute. reflexivity. Qed.

(** [itf _Test_a/a.w4a] removes the source: it lies in the working directory. *)
Example source_removed : workDir "_Test_a/a.w4a" = "_Test_a"%string /\
  let w := World {["_Test_a/a.w4a"%string := str "nop"]} {["_Test_a"%string]} in
  (main (H := world_OS rules_asm) ["_Test_a/a.w4a"%string] (w, [])).1 = Exited 2 /\
  files (main (H := world_OS rules_asm) ["_Test_a/a.w4a"%string] (w, [])).2.1 = ∅.
Proof. split; [reflexivity |]. split; vm_compute; reflexivity. Qed.
