(* ===== verification/EmulDump.v ===== *)
(** * What the emulator prints: dump, and the disassembler it starts

    The text of [dump] (emul/emul.go), with the disassembly of the next
    instruction that [rundis] (emul/util.go) gets from dsm/dsm; [Exec.dump] has
    its effect on the machine only.  A line of the dump is proved to name the
    instruction that the next cycle fetches. *)

From S2P Require Import Prelude Text GoStr Machine Exec Isa Decoder Refine IsaProps EmulProps Dsm DsmTheorems DsmLines Reassemble DsmMain.
From Stdlib Require Import Ascii.

(** ** rundis *)

Definition is_empty (s : string) : bool := match s with EmptyString => true | _ => false end.

(** The text without the newline at its end, if there is one. *)
Fixpoint drop_last_newline (s : string) : string :=
  match s with
  | EmptyString => ""
  | String c s' => if is_empty s' && Ascii.eqb c (AsmRules.chr 10) then "" else String c (drop_last_newline s')
  end.

(** [func rundis(arg string) string]: an exit code other than 0 gives the text of the
    error, and so does a disassembler that cannot be started ([nostart], the error of
    starting it); taking the last byte of an empty output panics. *)
Definition rundis (nostart : option string) (arg : string) : res string :=
  match nostart with
  | Some e => Ret e
  | None =>
    match dsm_main (str arg) false [] (fun _ => None) with
    | Panic _ => Ret "exit status 2"%string
    | Ret (c, lines) =>
      if negb (c =? 0) then Ret ("exit status " +:+ fmt_d c)
      else
        let result := text lines in
        if is_empty result then Panic "slice bounds out of range"
        else Ret (drop_last_newline result)
    end
  end.

Definition lift {S A} (r : res A) : M S A := fun s => match r with Ret a => Ret (a, s) | Panic w => Panic w end.

(** ** dump *)

Definition spOrNL (sp : bool) : string := if sp then " " else newline.

(** A row of words, [%04X] each, followed by blanks and at the end a newline. *)
Fixpoint row_text (vs : list Z) : string :=
  match vs with
  | [] => ""
  | v :: vs' => fmt_X 4 v +:+ spOrNL (0 <? length vs')%nat +:+ row_text vs'
  end.

(** [%ns] *)
Definition fmt_s (n : nat) (s : string) : string := pad_to n " " s.

Definition header (s : string) : string := fmt_s 12 s +:+ ": ".

Definition fmt_t (b : bool) : string := if b then "true" else "false".

(** The 64 special registers of a mode, in eight rows. *)
Definition spr_rows (md : Z) : W string :=
  rows ← mapM (fun row => vs ← mapM (fun n => get_spr md n) (seqZ (8 * row) 8); mret (fmt_s 14 "" +:+ row_text vs)) (seqZ 0 8);
  mret (String.concat "" rows).

(** The disassembly of the instruction at the program counter, and its address. *)
Definition inst_text (nostart : option string) : W (Z * string) :=
  p ← gets pc;
  '(e, codeAddr) ← translate false p;
  if negb (e =? ExNone) then mret (codeAddr, "fault@pc = 0x" +:+ fmt_X 4 p +:+ " (0x" +:+ fmt_X 4 e +:+ ")" +:+ newline)
  else
    w ← read_phys codeAddr;
    s ← lift (rundis nostart ("0x" +:+ fmt_X 4 w +:+ "@0x" +:+ fmt_X 4 p));
    mret (codeAddr, "instruction @0x" +:+ fmt_X 4 p +:+ ": " +:+ s +:+ newline).

(** Eight words of data memory from address 0. *)
Definition dmem_text : W string :=
  '(e, dataAddr) ← translate true 0;
  if negb (e =? ExNone) then mret (header "fault@data = 0x0000")
  else
    vs ← mapM (fun i => read_phys (dataAddr + i)) (seqZ 0 8);
    mret (header ("dmem@0x" +:+ fmt_X 6 dataAddr) +:+ row_text vs).

(** The clearing of the screen, and the first line. *)
Definition first_line (hflag : bool) (m : w4machine) : string :=
  (if hflag then String (Ascii.ascii_of_nat 27) ("[2J" +:+ String (Ascii.ascii_of_nat 27) "[0;0H") else "") +:+
  "Run " +:+ fmt_t (run m) +:+ " mode " +:+ (if mode m =? User then "user" else "kern") +:+ " cycle " +:+ fmt_d (cyc m) +:+
  " alu = 0x" +:+ fmt_X 4 (alu m) +:+ " pc = " +:+ fmt_d (pc m) +:+ " exception = 0x" +:+ fmt_X 4 (ex m) +:+ newline.

Definition dump_text (nostart : option string) (hflag : bool) : W string :=
  m ← get_st;
  '(codeAddr, inst) ← inst_text nostart;
  rg ← get_reg (mode m);
  kern ← spr_rows Kern;
  user ← spr_rows User;
  let codeAddr := Z.ldiff codeAddr 7 in
  imem ← mapM (fun i => read_phys (codeAddr + i)) (seqZ 0 8);
  dmem ← dmem_text;
  mret (first_line hflag m +:+ inst +:+ header "reg" +:+ row_text (gen rg) +:+ header "kern spr" +:+ newline +:+ kern +:+
        header "user spr" +:+ newline +:+ user +:+ header ("imem@0x" +:+ fmt_X 6 codeAddr) +:+ row_text imem +:+ dmem).

(** ** Numbers in hexadecimal *)

Definition hex4 (n : Z) : list Z := [n / 4096; n / 256 mod 16; n / 16 mod 16; n mod 16].

Definition hex_string (ds : list Z) : string := foldr (fun d s => String (digit_char d) s) ""%string ds.

Lemma digits_step fuel n acc : 0 <= n -> digits_acc (S fuel) 16 n acc =
  if n <? 16 then String (digit_char n) acc else digits_acc fuel 16 (n / 16) (String (digit_char (n mod 16)) acc).
Proof. intros Hn. cbn [digits_acc]. cbv zeta. destruct (Z.ltb_spec n 16); [rewrite Z.mod_small by lia |]; reflexivity. Qed.

Lemma fmt_X4 n : is_u16 n -> fmt_X 4 n = hex_string (hex4 n).
Proof.
  intros Hn. unfold is_u16 in Hn. unfold fmt_X, pad_to, number, hex4.
  rewrite (digits_step 19) by lia. destruct (Z.ltb_spec n 16) as [H1 | H1].
  { rewrite !Z.div_small, (Z.mod_small n) by lia. reflexivity. }
  rewrite (digits_step 18) by (apply Z.div_pos; lia). destruct (Z.ltb_spec (n / 16) 16) as [H2 | H2].
  { rewrite (Z.div_small n 4096), (Z.div_small n 256), (Z.mod_small (n / 16)) by (Z.div_mod_to_equations; lia). reflexivity. }
  rewrite (digits_step 17) by (Z.div_mod_to_equations; lia). rewrite (Z.div_div n 16 16) by lia. change (16 * 16) with 256.
  destruct (Z.ltb_spec (n / 256) 16) as [H3 | H3].
  { rewrite (Z.div_small n 4096), (Z.mod_small (n / 256)) by (Z.div_mod_to_equations; lia). reflexivity. }
  rewrite (digits_step 16) by (Z.div_mod_to_equations; lia). rewrite (Z.div_div n 256 16) by lia. change (256 * 16) with 4096.
  rewrite (proj2 (Z.ltb_lt (n / 4096) 16)) by (Z.div_mod_to_equations; lia). reflexivity.
Qed.

Definition hex_upper (d : Z) : Z := Z.of_nat (Ascii.nat_of_ascii (digit_char d)).

Lemma hex_upper_facts d : 0 <= d < 16 -> digit_val (hex_upper d) = Some d /\ hex_upper d <> 95 /\ hex_upper d <> 64.
Proof.
  intros H. apply (small_cases (fun d => digit_val (hex_upper d) = Some d /\ hex_upper d <> 95 /\ hex_upper d <> 64) 16 d H).
  repeat (apply Forall_cons; split; [split; [reflexivity | split; discriminate] |]). constructor.
Qed.

Lemma hex4_range n : is_u16 n -> Forall (fun d => 0 <= d < 16) (hex4 n).
Proof. unfold is_u16, hex4. intros H. repeat apply Forall_cons_2; try apply Forall_nil_2; Z.div_mod_to_equations; lia. Qed.

Lemma str_app s t : str (s +:+ t) = str s ++ str t.
Proof. induction s as [| c s IH]; [reflexivity |]. rewrite str_app_cons. cbn [str app]. rewrite IH. reflexivity. Qed.

Lemma str_hex ds : str (hex_string ds) = hex_upper <$> ds.
Proof. induction ds as [| d ds IH]; [reflexivity |]. cbn. f_equal. exact IH. Qed.

(** The argument [0x%04X] of a word. *)
Definition word_arg (n : Z) : list Z := str ("0x" +:+ fmt_X 4 n).

Lemma word_arg_spec n : is_u16 n -> ParseUint (word_arg n) 16 = Some n /\ Forall (fun c => c <> 64) (word_arg n).
Proof.
  intros Hn. unfold word_arg. rewrite fmt_X4, str_app, str_hex by exact Hn. pose proof (hex4_range n Hn) as Hd. split.
  - rewrite (ParseUint_plain (str "0x" ++ (hex_upper <$> hex4 n)) 16 (hex_upper <$> hex4 n) n).
    + unfold is_u16 in Hn. rewrite (proj2 (Z.ltb_ge 65535 n)) by lia. reflexivity.
    + discriminate.
    + reflexivity.
    + rewrite (digits_value_spec 16 hex_upper).
      * f_equal. f_equal. unfold hex4. cbn [fold_left]. unfold is_u16 in Hn. Z.div_mod_to_equations; lia.
      * eapply Forall_impl; [exact Hd |]. intros d Hr. cbv beta in Hr. destruct (hex_upper_facts d Hr) as (H1 & H2 & _). auto.
  - apply Forall_app_2; [repeat constructor; discriminate |]. apply Forall_fmap. eapply Forall_impl; [exact Hd |].
    intros d Hr. apply hex_upper_facts, Hr.
Qed.

Lemma drop_newline s : drop_last_newline (s +:+ newline) = s.
Proof.
  induction s as [| c s IH]; [reflexivity |]. rewrite str_app_cons. cbn [drop_last_newline].
  assert (E : is_empty (s +:+ newline) = false) by (destruct s; reflexivity). rewrite E, IH. reflexivity.
Qed.

(** The emulator gets the line of the instruction from the disassembler. *)
Lemma rundis_line w p : is_u16 w -> is_u16 p -> rundis None ("0x" +:+ fmt_X 4 w +:+ "@0x" +:+ fmt_X 4 p) = Ret (decode_line w p).
Proof.
  intros Hw Hp. destruct (word_arg_spec w Hw) as [Pw Nw]. destruct (word_arg_spec p Hp) as [Pp Np].
  assert (E : str ("0x" +:+ fmt_X 4 w +:+ "@0x" +:+ fmt_X 4 p) = word_arg w ++ 64 :: word_arg p).
  { unfold word_arg. rewrite <- str_app_assoc, str_app. f_equal. }
  unfold rundis. rewrite E. unfold dsm_main. rewrite (proj2 (Nat.ltb_lt 0 _)) by (rewrite length_app; cbn [length]; lia).
  unfold fast. rewrite split_two, Pw by assumption. unfold is_u16 in Hw, Hp. rewrite (proj2 (Z.leb_gt _ w)), Pp, (proj2 (Z.leb_gt _ p)) by lia.
  rewrite u16_id, decode_ret by exact Hw. cbn [negb Z.eqb text]. rewrite str_app_nil.
  assert (Hne : is_empty (decode_line w p +:+ newline) = false) by (destruct (decode_line w p); reflexivity).
  rewrite Hne, drop_newline. reflexivity.
Qed.

(** What [rundis] returns for an instruction: its disassembly, or the error. *)
Definition shown (nostart : option string) (w p : Z) : string := default (decode_line w p) nostart.

Lemma rundis_shown ns w p : is_u16 w -> is_u16 p -> rundis ns ("0x" +:+ fmt_X 4 w +:+ "@0x" +:+ fmt_X 4 p) = Ret (shown ns w p).
Proof. intros Hw Hp. destruct ns as [e |]; [reflexivity | exact (rundis_line w p Hw Hp)]. Qed.

(** ** Reading without changing *)

(** A computation that only reads: it returns the state that it got, or panics. *)
Definition reads {A} (c : W A) : Prop := forall m, match c m with Ret (_, m') => m' = m | Panic _ => True end.

Lemma reads_ret {A} (a : A) : reads (mret a).
Proof. intros m. reflexivity. Qed.

Lemma reads_gets {A} (f : w4machine -> A) : reads (gets f).
Proof. intros m. reflexivity. Qed.

Lemma reads_opt {A} why (o : option A) : reads (from_opt why o).
Proof. intros m. destruct o; cbn; auto. Qed.

Lemma reads_bind {A B} (c : W A) (f : A -> W B) : reads c -> (forall a, reads (f a)) -> reads (c ≫= f).
Proof.
  intros Hc Hf m. unfold mbind, M_bind. specialize (Hc m). destruct (c m) as [[a m'] |]; [| exact I]. subst m'. apply Hf.
Qed.

Lemma reads_get_spr md n : reads (get_spr md n).
Proof. apply reads_bind; [apply reads_bind; [apply reads_gets | intros l; apply reads_opt] | intros rg; apply reads_opt]. Qed.

Lemma reads_read_phys a : reads (read_phys a).
Proof. unfold read_phys. case_if; [apply reads_gets | intros m; exact I]. Qed.

Lemma reads_translate d v : reads (translate d v).
Proof.
  unfold translate. cbv zeta. apply reads_bind; [apply reads_gets | intros md]. apply reads_bind; [apply reads_get_spr | intros e].
  repeat case_if; apply reads_ret.
Qed.

Lemma reads_run {A} (c : W A) m a m' : reads c -> c m = Ret (a, m') -> m' = m.
Proof. intros H E. specialize (H m). rewrite E in H. exact H. Qed.

Lemma bind_inv {A B} (c : W A) (f : A -> W B) m b m' : (c ≫= f) m = Ret (b, m') -> exists a m1, c m = Ret (a, m1) /\ f a m1 = Ret (b, m').
Proof. unfold mbind, M_bind. destruct (c m) as [[a m1] |]; [eauto | discriminate]. Qed.

Lemma bind_panic {A B} (c : W A) (f : A -> W B) m w : c m = Panic w -> (c ≫= f) m = Panic w.
Proof. intros E. unfold mbind, M_bind. rewrite E. reflexivity. Qed.

Lemma mapM_ret {A B} (f : A -> W B) (g : A -> B) l m : (forall x, x ∈ l -> f x m = Ret (g x, m)) -> mapM f l m = Ret (g <$> l, m).
Proof.
  intros H. induction l as [| x l IH]; [reflexivity |].
  change (mapM f (x :: l)) with (y ← f x; k ← mapM f l; mret (y :: k)).
  rewrite (bind_ret _ _ _ _ _ (H x ltac:(constructor))).
  rewrite (bind_ret _ _ _ _ _ (IH ltac:(intros y Hy; apply H; now constructor))). reflexivity.
Qed.

(** ** The line of the next instruction *)

Section Next.
Context (ns : option string) (m : w4machine) (Hok : machine_ok m).

Lemma mem_u16 a : is_u16 (mem_at (physmem m) a).
Proof using Hok.
  unfold mem_at. destruct (physmem m !! a) as [w |] eqn:E; cbn; [| unfold is_u16; lia]. exact (mo_mem m Hok a w E).
Qed.

Lemma read_phys_u16 addr w : read_phys addr m = Ret (w, m) -> is_u16 w.
Proof using Hok. unfold read_phys. destruct (in_phys addr); [| discriminate]. intros [= <-]. apply mem_u16. Qed.

(** The text for an address that is mapped, and for one that is not. *)
Lemma inst_text_mapped addr w : translate false (pc m) m = Ret ((ExNone, addr), m) -> read_phys addr m = Ret (w, m) ->
  inst_text ns m = Ret ((addr, "instruction @0x" +:+ fmt_X 4 (pc m) +:+ ": " +:+ shown ns w (pc m) +:+ newline), m).
Proof using Hok.
  intros Et Er. unfold inst_text. rewrite (bind_ret (gets pc) _ (pc m) m m eq_refl), (bind_ret _ _ _ _ _ Et).
  change (negb (ExNone =? ExNone)) with false. cbv iota. rewrite (bind_ret _ _ _ _ _ Er), (bind_ret (lift _) _ (shown ns w (pc m)) m m); [reflexivity |].
  unfold lift. rewrite rundis_shown; [reflexivity | exact (read_phys_u16 _ _ Er) | apply Hok].
Qed.

Lemma inst_text_fault e addr : translate false (pc m) m = Ret ((e, addr), m) -> e <> ExNone ->
  inst_text ns m = Ret ((addr, "fault@pc = 0x" +:+ fmt_X 4 (pc m) +:+ " (0x" +:+ fmt_X 4 e +:+ ")" +:+ newline), m).
Proof using Type.
  intros Et Hne. unfold inst_text. rewrite (bind_ret (gets pc) _ (pc m) m m eq_refl), (bind_ret _ _ _ _ _ Et), (proj2 (Z.eqb_neq e ExNone) Hne).
  reflexivity.
Qed.

(** What a fetch that returns has read, or the fault that it has raised. *)
Lemma fetch_reads m1 : ex m = 0 -> fetch m = Ret (tt, m1) ->
  exists e addr, translate false (pc m) m = Ret ((e, addr), m) /\
    if e =? ExNone then ex m1 = 0 /\ read_phys addr m = Ret (ir m1, m) else ex m1 = e.
Proof using Hok.
  intros H0 Hf. unfold fetch, mbind, M_bind, gets in Hf. rewrite H0 in Hf. cbn [negb Z.eqb] in Hf. unfold mret, M_ret in Hf.
  destruct (translate false (pc m) m) as [[[e addr] m2] |] eqn:Et; [| discriminate].
  apply (reads_run _ _ _ _ (reads_translate false (pc m))) in Et as Em. subst m2. exists e, addr. split; [reflexivity |].
  destruct (e =? ExNone) eqn:Ee; cbn [negb] in Hf.
  - destruct (read_phys addr m) as [[w m2] |] eqn:Er; [| discriminate].
    apply (reads_run _ _ _ _ (reads_read_phys addr)) in Er as Em. subst m2. injection Hf as <-. split; [exact H0 | reflexivity].
  - injection Hf as <-. reflexivity.
Qed.

(** Every dump has the text of the instruction at the program counter. *)
Lemma dump_has_inst h addr inst m1 out m' : inst_text ns m = Ret ((addr, inst), m1) -> dump_text ns h m = Ret (out, m') ->
  exists post, out = first_line h m +:+ inst +:+ post.
Proof using Type.
  intros Hi Hd. apply bind_inv in Hd as (m0 & m2 & E0 & Hd). injection E0 as <- <-.
  apply bind_inv in Hd as ([c i] & m2 & E1 & Hd). rewrite Hi in E1. injection E1 as <- <- <-.
  do 5 (apply bind_inv in Hd as (? & ? & _ & Hd)). injection Hd as <- _. eexists. reflexivity.
Qed.

(** The line that the dump has for the next fetch, [m1] being the machine after it. *)
Definition next_line (m1 : w4machine) : string :=
  if ex m1 =? 0 then
    "instruction @0x" +:+ fmt_X 4 (pc m) +:+ ": " +:+ default (item_text (pass1_item (decode_instr (ir m1)) (pc m))) ns +:+ newline
  else "fault@pc = 0x" +:+ fmt_X 4 (pc m) +:+ " (0x" +:+ fmt_X 4 (ex m1) +:+ ")" +:+ newline.

Lemma dump_shows h m1 out m' : ex m = 0 -> fetch m = Ret (tt, m1) -> dump_text ns h m = Ret (out, m') ->
  exists post, out = first_line h m +:+ next_line m1 +:+ post.
Proof using Hok.
  intros H0 Hf Hd. destruct (fetch_reads m1 H0 Hf) as (e & addr & Et & H). unfold next_line. destruct (Z.eqb_spec e ExNone) as [-> | Hne].
  - destruct H as [H1 Er]. rewrite H1. cbn [Z.eqb]. pose proof (read_phys_u16 _ _ Er) as Hir.
    rewrite <- decode_line_encode, encode_decode_word; [| exact Hir | now apply decode_instr_wf | apply Hok].
    exact (dump_has_inst h _ _ _ out m' (inst_text_mapped addr (ir m1) Et Er) Hd).
  - rewrite H, (proj2 (Z.eqb_neq e 0) Hne). exact (dump_has_inst h _ _ _ out m' (inst_text_fault e addr Et Hne) Hd).
Qed.

(** *** The text and the effect agree *)

(** Both return, without a change, or both panic alike. *)
Definition agree {A B} (c : W A) (d : W B) : Prop :=
  match c m, d m with
  | Ret (_, m1), Ret (_, m2) => m1 = m /\ m2 = m
  | Panic w, Panic w' => w = w'
  | _, _ => False
  end.

Lemma agree_bind {A B A' B'} (c : W A) (d : W B) (f : A -> W A') (g : B -> W B') :
  agree c d -> (forall a b, c m = Ret (a, m) -> d m = Ret (b, m) -> agree (f a) (g b)) -> agree (c ≫= f) (d ≫= g).
Proof using Type.
  unfold agree at 1 3. intros H Hf. unfold mbind, M_bind. destruct (c m) as [[a m1] |], (d m) as [[b m2] |]; try destruct H; subst; auto.
  exact (Hf a b eq_refl eq_refl).
Qed.

Lemma agree_same {A} (c : W A) : reads c -> agree c c.
Proof using Type. intros H. specialize (H m). unfold agree. destruct (c m) as [[a m1] |]; auto. Qed.

Lemma agree_ret {A B} (a : A) (b : B) : agree (mret a) (mret b).
Proof using Type. cbv. auto. Qed.

(** Both computations skip a read of their own. *)
Lemma agree_l {A B A'} (c : W A) (f : A -> W A') (d : W B) a : c m = Ret (a, m) -> agree (f a) d -> agree (c ≫= f) d.
Proof using Type. intros E H. unfold agree in *. rewrite (bind_ret c f a m m E). exact H. Qed.

Lemma agree_r {A B B'} (c : W A) (d : W B) (g : B -> W B') b : d m = Ret (b, m) -> agree c (g b) -> agree c (d ≫= g).
Proof using Type. intros E H. unfold agree in *. rewrite (bind_ret d g b m m E). exact H. Qed.

Lemma reads_mapM {A B} (f : A -> W B) l : (forall x, reads (f x)) -> reads (mapM f l).
Proof using Type.
  intros H. induction l as [| x l IH]; [apply reads_ret |]. apply (reads_bind (f x)); [apply H | intros y].
  apply reads_bind; [exact IH | intros k; apply reads_ret].
Qed.

Lemma get_spr_ok md n : md = Kern \/ md = User -> 0 <= n < 64 -> exists v, get_spr md n m = Ret (v, m).
Proof using Hok.
  intros Hmd Hn. destruct (lookup_is_Some_len (reg m) (Z.to_nat md)) as [rg Hrg].
  { rewrite (mo_reg m Hok). destruct Hmd as [-> | ->]; unfold Kern, User; lia. }
  pose proof (Forall_lookup_some _ _ _ _ (mo_regs m Hok) Hrg) as (_ & Hl & _).
  destruct (lookup_is_Some_len (spr rg) (Z.to_nat n)) as [v Hv]; [rewrite Hl; lia |]. exists v.
  unfold get_spr, get_reg, mbind, M_bind, gets. rewrite Hrg. cbn. rewrite Hv. reflexivity.
Qed.

Lemma mapM_spr md l : md = Kern \/ md = User -> Forall (fun n => 0 <= n < 64) l -> exists vs, mapM (fun n => get_spr md n) l m = Ret (vs, m).
Proof using Hok.
  intros Hmd. induction 1 as [| n l Hn _ [vs IH]]; [eexists; reflexivity |]. destruct (get_spr_ok md n Hmd Hn) as [v Hv]. exists (v :: vs).
  change (mapM (fun n => get_spr md n) (n :: l)) with (y ← get_spr md n; k ← mapM (fun n => get_spr md n) l; mret (y :: k)).
  rewrite (bind_ret _ _ _ _ _ Hv), (bind_ret _ _ _ _ _ IH). reflexivity.
Qed.

Lemma spr_rows_ok md : md = Kern \/ md = User -> exists s, spr_rows md m = Ret (s, m).
Proof using Hok.
  intros Hmd. set (f := fun row => vs ← mapM (fun n => get_spr md n) (seqZ (8 * row) 8); mret (fmt_s 14 "" +:+ row_text vs)).
  assert (H : forall l, Forall (fun r => 0 <= r < 8) l -> exists rows, mapM f l m = Ret (rows, m)).
  { induction 1 as [| r l Hr _ [rows IH]]; [eexists; reflexivity |].
    destruct (mapM_spr md (seqZ (8 * r) 8) Hmd) as [vs Hvs]; [apply Forall_forall; intros n Hn; apply elem_of_seqZ in Hn; lia |].
    assert (Hf : f r m = Ret (fmt_s 14 "" +:+ row_text vs, m)) by (unfold f; rewrite (bind_ret _ _ _ _ _ Hvs); reflexivity).
    eexists. change (mapM f (r :: l)) with (y ← f r; k ← mapM f l; mret (y :: k)).
    rewrite (bind_ret _ _ _ _ _ Hf), (bind_ret _ _ _ _ _ IH). reflexivity. }
  destruct (H (seqZ 0 8)) as [rows Hr]; [apply Forall_forall; intros n Hn; apply elem_of_seqZ in Hn; lia |].
  eexists. unfold spr_rows. fold f. rewrite (bind_ret _ _ _ _ _ Hr). reflexivity.
Qed.

(** The part of both after the instruction. *)
Lemma agree_rest codeAddr (K : w4reg -> string -> string -> list Z -> string -> string) :
  agree
    (rg ← get_reg (mode m); kern ← spr_rows Kern; user ← spr_rows User;
     imem ← mapM (fun i => read_phys (Z.ldiff codeAddr 7 + i)) (seqZ 0 8);
     dmem ← dmem_text; mret (K rg kern user imem dmem))
    (md ← gets mode; _ ← get_reg md;
     _ ← mapM (fun n => get_spr Kern n) (seqZ 0 64); _ ← mapM (fun n => get_spr User n) (seqZ 0 64);
     _ ← mapM (fun i => read_phys (Z.ldiff codeAddr 7 + i)) (seqZ 0 8);
     '(e, dataAddr) ← translate true 0;
     if e =? ExNone then _ ← mapM (fun i => read_phys (dataAddr + i)) (seqZ 0 8); mret tt else mret tt).
Proof using Hok.
  apply (agree_r _ (gets mode) _ (mode m)); [reflexivity |]. apply agree_bind.
  { apply agree_same, reads_bind; [apply reads_gets | intros l; apply reads_opt]. }
  intros rg rg' _ _. destruct (spr_rows_ok Kern) as [k Hk]; [auto |]. destruct (spr_rows_ok User) as [u Hu]; [auto |].
  assert (H64 : Forall (fun n => 0 <= n < 64) (seqZ 0 64)) by (apply Forall_forall; intros n Hn; apply elem_of_seqZ in Hn; lia).
  destruct (mapM_spr Kern _ ltac:(auto) H64) as [vk Hvk]. destruct (mapM_spr User _ ltac:(auto) H64) as [vu Hvu].
  apply (agree_l _ _ _ k Hk), (agree_l _ _ _ u Hu), (agree_r _ _ _ vk Hvk), (agree_r _ _ _ vu Hvu).
  apply agree_bind; [apply agree_same, reads_mapM; intros i; apply reads_read_phys |]. intros im im' _ _.
  unfold dmem_text. pose proof (reads_translate true 0 m) as Ht. destruct (translate true 0 m) as [[[e d] m2] |] eqn:Et.
  - subst m2. destruct (Z.eqb_spec e ExNone) as [-> | Hne].
    + pose proof (reads_mapM (fun i => read_phys (d + i)) (seqZ 0 8) (fun i => reads_read_phys _)) as Hr. specialize (Hr m).
      apply (agree_r _ _ _ _ Et). change (ExNone =? ExNone) with true. cbv iota.
      unfold agree. destruct (mapM (fun i => read_phys (d + i)) (seqZ 0 8) m) as [[vs m2] |] eqn:Em.
      * subst m2. rewrite (bind_ret _ _ _ _ _ Em). erewrite bind_ret; [split; reflexivity |]. rewrite (bind_ret _ _ _ _ _ Et).
        change (negb (ExNone =? ExNone)) with false. cbv iota. rewrite (bind_ret _ _ _ _ _ Em). reflexivity.
      * rewrite (bind_panic _ _ _ _ Em). erewrite bind_panic; [reflexivity |]. rewrite (bind_ret _ _ _ _ _ Et).
        change (negb (ExNone =? ExNone)) with false. cbv iota. apply (bind_panic _ _ _ _ Em).
    + apply (agree_r _ _ _ _ Et). cbv beta iota. rewrite (proj2 (Z.eqb_neq e ExNone) Hne).
      unfold agree. erewrite bind_ret; [split; reflexivity |]. rewrite (bind_ret _ _ _ _ _ Et). rewrite (proj2 (Z.eqb_neq e ExNone) Hne). reflexivity.
  - unfold agree. rewrite (bind_panic _ _ _ _ Et). erewrite bind_panic; [reflexivity |]. apply (bind_panic _ _ _ _ Et).
Qed.

Lemma dump_text_agrees h : agree (dump_text ns h) dump.
Proof using Hok.
  unfold dump_text, dump. apply (agree_l get_st _ _ m); [reflexivity |]. apply (agree_r _ (gets pc) _ (pc m)); [reflexivity |].
  pose proof (reads_translate false (pc m) m) as Ht. destruct (translate false (pc m) m) as [[[e addr] m2] | why] eqn:Et.
  - subst m2. apply (agree_r _ _ _ _ Et). cbv beta iota. destruct (Z.eqb_spec e ExNone) as [-> | Hne].
    + pose proof (reads_read_phys addr m) as Hr. destruct (read_phys addr m) as [[w m2] | why] eqn:Er.
      * subst m2. apply (agree_l (inst_text ns) _ _ _ (inst_text_mapped addr w Et Er)).
        apply (agree_r _ (_ ← read_phys addr; mret tt) _ tt); [rewrite (bind_ret _ _ _ _ _ Er); reflexivity |]. apply agree_rest.
      * unfold agree. rewrite (bind_panic (inst_text ns) _ m why).
        { rewrite (bind_panic (_ ← read_phys addr; mret tt) _ m why); [reflexivity | apply (bind_panic _ _ _ _ Er)]. }
        unfold inst_text. rewrite (bind_ret (gets pc) _ (pc m) m m eq_refl), (bind_ret _ _ _ _ _ Et). apply (bind_panic _ _ _ _ Er).
    + apply (agree_l (inst_text ns) _ _ _ (inst_text_fault e addr Et Hne)).
      apply (agree_r _ (mret tt) _ tt); [reflexivity |]. apply agree_rest.
  - unfold agree. rewrite (bind_panic _ _ _ _ Et), (bind_panic (inst_text ns) _ m why); [reflexivity |].
    unfold inst_text. rewrite (bind_ret (gets pc) _ (pc m) m m eq_refl). apply (bind_panic _ _ _ _ Et).
Qed.

End Next.


(** The dump before [hlt] at address 0. *)
Definition halting : w4machine := set_physmem {[0 := 0xFFFC]} (set_run true w4).

Lemma halting_ok : machine_ok halting.
Proof.
  assert (Hz : wf_reg zero_reg) by (repeat split; apply Forall_replicate; unfold is_u16; lia).
  constructor; cbn; auto; try lia; [unfold is_u16; lia | left; reflexivity | apply map_Forall_singleton; unfold is_u16; lia].
Qed.

