(* ===== verification/EmulRun.v ===== *)
(** * A run of the emulator: interrupts from the keyboard, and what it prints

    The goroutine of [main] (emul/emul.go) sets [dbEnabled] when an interrupt
    arrives, at any time.  The loop of [simulate] reads it once per cycle, so what
    counts of the interleaving is, for each cycle, whether an interrupt came since
    the last reading: a list of booleans, which also bounds the run.  The end of
    [simulate] and the start of [main], with their messages and exit codes, are
    here as well. *)

From S2P Require Import Prelude Text GoStr Machine Exec Isa Decoder Refine IsaProps Sim EmulProps Dsm DsmTheorems DsmLines Reassemble DsmMain EmulDump.

(** ** The loop with interrupts *)

(** The result, and [blockedForInput]. *)
Fixpoint signal_loop (sigs : list bool) (db blocked : bool) (stdin : list Z) (m : w4machine) : sim_result * bool :=
  match sigs with
  | [] => (OutOfFuel, blocked)
  | caught :: sigs' =>
    if run m then
      match cycle m with
      | Panic w => (Panicked w, blocked)
      | Ret (_, m1) =>
        if double_fault m1 then (DoubleFault m1, blocked)
        else if db || caught then
          match dump m1 with
          | Panic w => (Panicked w, blocked)
          | Ret (_, m2) =>
            match prompt true stdin with
            | None => (WaitsForInput, true)
            | Some (go, db', stdin') => signal_loop sigs' db' true stdin' (incr_cyc (set_run go m2))
            end
          end
        else signal_loop sigs' false blocked stdin (incr_cyc m1)
      end
    else (Halted m, blocked)
  end.

(** ** The end of a run *)

Definition halt_message (m : w4machine) : string :=
  ("halt" +:+ if double_fault m then ": double fault: exception " +:+ fmt_d (ex m) else "")%string.

Definition cycles_message (blocked : bool) (elapsed : string) (m : w4machine) : string :=
  (fmt_d (cyc m) +:+ " cycles executed" +:+ if blocked then "" else " in " +:+ elapsed)%string.

(** What the program comes to: an exit code with the last lines it prints, a crash, or a
    run that goes on or waits. *)
Inductive ending := Exit (code : Z) (last : list string) | Crashes (why : string) | GoesOn | Waits.

Definition report (nostart : option string) (quiet hflag : bool) (elapsed : string) (r : sim_result * bool) : ending :=
  match r with
  | (Halted m, blocked) | (DoubleFault m, blocked) =>
    if quiet then Exit 0 []
    else
      match dump_text nostart hflag m with
      | Panic w => Crashes w
      | Ret (t, _) => Exit 0 [t; halt_message m; cycles_message blocked elapsed m]
      end
  | (Fatal, _) => Exit 2 []
  | (Panicked w, _) => Crashes w
  | (WaitsForInput, _) => Waits
  | (OutOfFuel, _) => GoesOn
  end.

(** [simulate], entered with [dbEnabled] as the flags and the interrupts so far have it. *)
Definition run_simulate (sigs : list bool) (db : bool) (stdin : list Z) (m : w4machine) : sim_result * bool :=
  if negb (ex m =? 0) then (Fatal, false)
  else if db then
    match dump m with
    | Panic w => (Panicked w, false)
    | Ret (_, m1) =>
      match prompt db stdin with
      | None => (WaitsForInput, true)
      | Some (go, db', stdin') => signal_loop sigs db' true stdin' (incr_cyc (set_run go m1))
      end
    end
  else signal_loop sigs false false stdin (incr_cyc m).

(** ** The command line *)

Record flags := MkFlags { dflag : bool; hflag : bool; pflag : bool; qflag : bool; uflag : string }.

(** A file that opens is its size and its bytes.  [early]: an interrupt before the
    simulation starts; [profile]: the profile can be written; [nostart]: the error of
    starting the disassembler, if any. *)
Definition emul_main (f : flags) (args : list string) (open : string -> option (Z * list Z)) (profile early : bool)
    (nostart : option string) (sigs : list bool) (stdin : list Z) (elapsed : string) : ending :=
  match args with
  | [path] =>
    if pflag f && (dflag f || negb profile) then Exit 2 []
    else
      match open path with
      | None => Exit 2 []
      | Some kern =>
        match (if String.eqb (uflag f) "" then Some None else Some <$> open (uflag f)) with
        | None => Exit 2 []
        | Some user =>
          match boot kern user w4 with
          | Panic w => Crashes w
          | Ret (Some _, _) => Exit 2 []
          | Ret (None, m) => report nostart (qflag f) (hflag f) elapsed (run_simulate sigs (dflag f || early) stdin m)
          end
        end
      end
  | _ => Exit 1 []
  end.

(** ** Interrupts that are answered with run *)

Lemma dump_returns m : machine_ok m -> dump_ok (abs m) = true -> dump m = Ret (tt, m).
Proof.
  intros Hok Hd. pose proof (wpe_dump (abs m) m (machine_ok_rel m Hok) (machine_ok_wf m Hok) False (fun _ s => s = m)) as H.
  unfold wpe in H. destruct (dump m) as [[[] m'] |]; [rewrite H; auto; congruence | destruct H; auto; congruence].
Qed.

(** No interrupt comes in a cycle that executes [hlt], nor where the dump would panic. *)
Fixpoint undisturbed (sigs : list bool) (m : w4machine) : bool :=
  match sigs with
  | [] => true
  | caught :: sigs' =>
    if run m then
      match cycle m with
      | Panic _ => true
      | Ret (_, m1) =>
        double_fault m1 || ((negb caught || (run m1 && dump_ok (abs m1))) && undisturbed sigs' (incr_cyc m1))
      end
    else true
  end.

Lemma set_run_same m : run m = true -> set_run true m = m.
Proof. destruct m. cbn. intros ->. reflexivity. Qed.

Lemma signals_lemma sigs : forall k blocked m, machine_ok m -> undisturbed sigs m = true -> (length sigs <= k)%nat ->
  (signal_loop sigs false blocked (replicate k 114) m).1 = sim_loop (length sigs) false [] m.
Proof.
  induction sigs as [| caught sigs IH]; intros k blocked m Hok Hu Hk; [reflexivity |]. cbn [length] in Hk. cbn [signal_loop sim_loop undisturbed length] in *.
  destruct (run m); [| reflexivity]. destruct (cycle m) as [[[] m1] |] eqn:Hc; [| reflexivity].
  destruct (double_fault m1); [reflexivity |]. cbn [orb] in *. apply andb_prop in Hu as [Hs Hu].
  destruct (cycle_next m m1 Hok Hc) as [_ Hok1]. destruct caught; cbn [negb orb] in *; [| apply IH; [apply machine_ok_incr, Hok1 | exact Hu | lia]].
  apply andb_prop in Hs as [Hr Hd]. rewrite (dump_returns m1 Hok1 Hd). destruct k as [| k]; [lia |]. cbn [replicate prompt Z.eqb Pos.eqb].
  rewrite (set_run_same m1 Hr). apply IH; [apply machine_ok_incr, Hok1 | exact Hu | lia].
Qed.

(** C7: Interrupts from the keyboard are transparent.  Whenever interrupts arrive, and the user
    answers each prompt with [r], the run has the result of a run without interrupts:
    the same final machine, double fault, panic, or none yet; but for an interrupt in the
    cycle that executes [hlt], which the answer to the prompt undoes, and where the dump
    itself panics.  In the first case the emulator goes on behind the [hlt]. *)
Theorem signals_transparent (sigs : list bool) (m : w4machine) (Hok : machine_ok m) :
  (undisturbed sigs m = true ->
     (signal_loop sigs false false (replicate (length sigs) 114) m).1 = sim_loop (length sigs) false [] m) /\
  (forall m1 blocked stdin, run m = true -> cycle m = Ret (tt, m1) -> double_fault m1 = false -> dump_ok (abs m1) = true ->
     signal_loop (true :: sigs) false blocked (114 :: stdin) m = signal_loop sigs false true stdin (incr_cyc (set_run true m1))).
Proof.
  split; [intros Hu; apply signals_lemma; [exact Hok | exact Hu | lia] |].
  intros m1 blocked stdin Hr Hc Hf Hd. destruct (cycle_next m m1 Hok Hc) as [_ Hok1]. cbn [signal_loop]. rewrite Hr, Hc, Hf.
  cbn [orb]. rewrite (dump_returns m1 Hok1 Hd). reflexivity.
Qed.

(** [adi r1, r0, 5] and [hlt], with an interrupt in the first cycle, which changes nothing,
    and in the second, which makes the emulator run on. *)
Definition two_cycles : w4machine := set_physmem {[0 := 41281; 1 := 0xFFFC]} (set_run true w4).

Lemma signals_transparent_witness :
  (exists m, signal_loop [true; false; false] false false [114; 114; 114] two_cycles = (Halted m, true) /\
     sim_loop 3 false [] two_cycles = Halted m /\ rget (kern_reg m) 1 = 5) /\
  exists m1, signal_loop [true] false false [114] halting = (OutOfFuel, true) /\ cycle halting = Ret (tt, m1) /\ run m1 = false.
Proof.
  assert (Hok : machine_ok two_cycles).
  { apply machine_ok_physmem; [| apply map_Forall_insert_2; [unfold is_u16; lia |]; apply map_Forall_singleton; unfold is_u16; lia].
    destruct machine_ok_w4. constructor; assumption. }
  split.
  - pose proof (proj1 (signals_transparent [true; false; false] two_cycles Hok) ltac:(vm_compute; reflexivity)) as H.
    destruct (signal_loop [true; false; false] false false [114; 114; 114] two_cycles) as [r b] eqn:E.
    change (replicate (length [true; false; false]) 114) with [114; 114; 114] in H. rewrite E in H. cbn [fst length] in H.
    vm_compute in E. injection E as <- <-. eexists. split; [reflexivity |]. split; [symmetry; exact H | reflexivity].
  - destruct (cycle halting) as [[[] m1] |] eqn:Hc; [| vm_compute in Hc; discriminate]. exists m1.
    assert (Hd : double_fault m1 = false /\ dump_ok (abs m1) = true /\ run m1 = false) by (vm_compute in Hc; injection Hc as <-; vm_compute; auto).
    destruct Hd as (H1 & H2 & H3). split; [| split; [reflexivity | exact H3]].
    rewrite (proj2 (signals_transparent [] halting halting_ok) m1 false [] eq_refl Hc H1 H2). reflexivity.
Defined.

(** ** Exit codes *)

Lemma report_code ns q h elapsed r : match report ns q h elapsed r with
  | Exit 0 _ => exists m, r.1 = Halted m \/ r.1 = DoubleFault m
  | Exit c _ => c = 2
  | _ => True
  end.
Proof.
  destruct r as [[m | m | | w | |] blocked]; cbn [report]; auto; (destruct q; [exists m; auto |]);
    destruct (dump_text ns h m) as [[t m'] |]; auto; exists m; auto.
Qed.

(** The exit code is 1 exactly for a wrong number of arguments, and else 0 or 2; it is 0
    only when the kernel binary was loaded and the machine has stopped. *)
Theorem emul_exit_codes (f : flags) (args : list string) (open : string -> option (Z * list Z)) (profile early : bool)
    (nostart : option string) (sigs : list bool) (stdin : list Z) (elapsed : string) :
  match emul_main f args open profile early nostart sigs stdin elapsed with
  | Exit 0 _ => exists path kern user m0 m blocked, args = [path] /\ open path = Some kern /\ boot kern user w4 = Ret (None, m0) /\
      (run_simulate sigs (dflag f || early) stdin m0 = (Halted m, blocked) \/
       run_simulate sigs (dflag f || early) stdin m0 = (DoubleFault m, blocked))
  | Exit 1 _ => length args <> 1%nat
  | Exit c _ => c = 2 /\ length args = 1%nat
  | _ => length args = 1%nat
  end.
Proof.
  destruct args as [| path [| ? ?]]; [discriminate | | discriminate]. cbn [emul_main length].
  destruct (pflag f && (dflag f || negb profile)); [auto |]. destruct (open path) as [kern |] eqn:Ho; [| auto].
  destruct (if String.eqb (uflag f) "" then _ else _) as [user |]; [| auto].
  destruct (boot kern user w4) as [[[e |] m0] | w] eqn:Hb; [auto | | auto].
  pose proof (report_code nostart (qflag f) (hflag f) elapsed (run_simulate sigs (dflag f || early) stdin m0)) as H.
  destruct (run_simulate sigs (dflag f || early) stdin m0) as [r blocked] eqn:Er.
  destruct (report _ _ _ _) as [[| c | c] l | w | |]; [| injection H as ->; auto | discriminate H | reflexivity ..].
  destruct H as [m [H | H]]; cbn [fst] in H; subst r; exists path, kern, user, m0, m, blocked; auto 10.
Qed.
