(* ===== verification/Yapl.v ===== *)
(** * The YAPL-1 compiler: yapl-1/

    The first pass of the compiler: error codes (error.go), output (io.go), the
    string and symbol tables (sym.go), the lexer (lex.go) and the parser
    (parse.go), over one record of the package's global variables.  Go arrays are
    finite maps with default zero, read and written under the array's bounds
    check; words are 16-bit.  Standard input is a list of bytes followed by a
    sticky end of file or read error ([Getb]'s result once the bytes are used
    up); standard output is the list of bytes written.  [Exit] ends the program
    like a panic.  The directory yapl-2 holds the same Go files. *)

From S2P Require Import Prelude Text.

(** ** types.go and error.go *)

Definition SYMTAB_MAX : Z := 4096.
Definition SYMLEN_MAX : Z := 16.
Definition STRTAB_MAX : Z := 8192.
Definition AstMaxNode : Z := 2048.

Definition AstKindError : Z := 1.
Definition AstKindUsr : Z := 2.
Definition AstXtraDecl : Z := 1.

Record Syment := MkSym { Val : Z; Len : Z; Info : Z }.
Record AstNode := MkAst { Sym : Z; Size : Z; Kind : Z; Xtra : Z }.

Definition ErrBase : Z := 0xC000.
Definition E_EOF : Z := 0xFFFF.
Definition E_IOERR : Z := 0xFFFE.
Definition TT_EOF : Z := E_EOF.

Definition ERR_LEX_INVAL : Z := 0xC101.
Definition ERR_LEX_IO : Z := 0xC102.
Definition ERR_LEX_UNEXP : Z := 0xC103.
Definition ERR_PARSE_ERR : Z := 0xC201.
Definition ERR_SYM_REDEF : Z := 0xC601.
Definition ERR_SYM_NODEF : Z := 0xC602.
Definition ERR_INT_NOSTR : Z := 0xC701.
Definition ERR_INT_NOSYM : Z := 0xC702.
Definition ERR_INT_TOOBIG : Z := 0xC703.
Definition ERR_INT_BUG : Z := 0xC704.
Definition ERR_INT_INIT : Z := 0xC705.
Definition ERR_INT_CAST : Z := 0xC706.

Definition errorTable : list Z :=
  [ ERR_LEX_INVAL; ERR_LEX_IO; ERR_LEX_UNEXP; ERR_PARSE_ERR; ERR_SYM_REDEF; ERR_SYM_NODEF;
    ERR_INT_NOSTR; ERR_INT_NOSYM; ERR_INT_TOOBIG; ERR_INT_BUG; ERR_INT_INIT; ERR_INT_CAST ].

Definition errorMessages : list string :=
  [ "invalid character"; "i/o error on input"; "unexpected char"; "syntax error";
    "symbol redefined"; "symbol undefined"; "string table full"; "symbol table full";
    "symbol or string too long"; "unspecified internal error"; "initialization error";
    "bad cast" ]%string.

Definition ERR_CONTINUE : Z := 1.
Definition ERR_FATAL : Z := 2.

(** [IsError], of any of the index types and tokens. *)
Definition IsError (q : Z) : bool := ErrBase <=? q.

(** ** The global variables *)

Record yst := Yst {
  input : list Z;               (* unread bytes of inFD *)
  tail : Z;                     (* what Getb returns after them *)
  out : list Z;                 (* bytes written to STDOUT *)
  lineCount : Z;
  pbt : Z;
  strtab : gmap Z Z;
  strtabNext : Z;
  symtab : gmap Z Syment;
  symtabNext : Z;
  lastKeySymIndex : Z;
  AstNodes : gmap Z AstNode;
  astNodeNext : Z
}.

Definition set_input v s := Yst v s.(tail) s.(out) s.(lineCount) s.(pbt) s.(strtab) s.(strtabNext) s.(symtab) s.(symtabNext) s.(lastKeySymIndex) s.(AstNodes) s.(astNodeNext).
Definition set_out v s := Yst s.(input) s.(tail) v s.(lineCount) s.(pbt) s.(strtab) s.(strtabNext) s.(symtab) s.(symtabNext) s.(lastKeySymIndex) s.(AstNodes) s.(astNodeNext).
Definition set_line v s := Yst s.(input) s.(tail) s.(out) v s.(pbt) s.(strtab) s.(strtabNext) s.(symtab) s.(symtabNext) s.(lastKeySymIndex) s.(AstNodes) s.(astNodeNext).
Definition set_pbt v s := Yst s.(input) s.(tail) s.(out) s.(lineCount) v s.(strtab) s.(strtabNext) s.(symtab) s.(symtabNext) s.(lastKeySymIndex) s.(AstNodes) s.(astNodeNext).
Definition set_strtab v s := Yst s.(input) s.(tail) s.(out) s.(lineCount) s.(pbt) v s.(strtabNext) s.(symtab) s.(symtabNext) s.(lastKeySymIndex) s.(AstNodes) s.(astNodeNext).
Definition set_strnext v s := Yst s.(input) s.(tail) s.(out) s.(lineCount) s.(pbt) s.(strtab) v s.(symtab) s.(symtabNext) s.(lastKeySymIndex) s.(AstNodes) s.(astNodeNext).
Definition set_symtab v s := Yst s.(input) s.(tail) s.(out) s.(lineCount) s.(pbt) s.(strtab) s.(strtabNext) v s.(symtabNext) s.(lastKeySymIndex) s.(AstNodes) s.(astNodeNext).
Definition set_symnext v s := Yst s.(input) s.(tail) s.(out) s.(lineCount) s.(pbt) s.(strtab) s.(strtabNext) s.(symtab) v s.(lastKeySymIndex) s.(AstNodes) s.(astNodeNext).
Definition set_lastkey v s := Yst s.(input) s.(tail) s.(out) s.(lineCount) s.(pbt) s.(strtab) s.(strtabNext) s.(symtab) s.(symtabNext) v s.(AstNodes) s.(astNodeNext).
Definition set_ast v s := Yst s.(input) s.(tail) s.(out) s.(lineCount) s.(pbt) s.(strtab) s.(strtabNext) s.(symtab) s.(symtabNext) s.(lastKeySymIndex) v s.(astNodeNext).
Definition set_astnext v s := Yst s.(input) s.(tail) s.(out) s.(lineCount) s.(pbt) s.(strtab) s.(strtabNext) s.(symtab) s.(symtabNext) s.(lastKeySymIndex) s.(AstNodes) v.

(** The program before [Init], on an input. *)
Definition yst0 (data : list Z) (tl : Z) : yst :=
  Yst data tl [] 1 0 ∅ 1 ∅ 1 0 ∅ (AstMaxNode - 1).

Abbreviation Y := (M yst).

Definition Assert (b : bool) (msg : string) : Y unit := if b then mret tt else panic msg.

Definition Exit {A} : Y A := panic "exit status 2".

Definition ErrorAs (msg : string) (e : Z) : Y Z :=
  Assert (ErrBase <=? e) msg;; mret e.

Definition ErrorAsToken (e : Z) : Y Z := ErrorAs "ErrorAsToken(): not an error" e.
Definition ErrorAsSymIndex (e : Z) : Y Z := ErrorAs "ErrorAsSymIndex(): not an error" e.
Definition ErrorAsStrIndex (e : Z) : Y Z := ErrorAs "ErrorAsStrIndex(): not an error" e.
Definition ErrorAsAstIndex (e : Z) : Y Z := ErrorAs "ErrorAsAstIndex(): not an error" e.

(** Array accesses. *)
Definition in_array (i n : Z) : bool := (0 <=? i) && (i <? n).

Definition str_at (m : gmap Z Z) (i : Z) : Z := default 0 (m !! i).
Definition sym_at (m : gmap Z Syment) (i : Z) : Syment := default (MkSym 0 0 0) (m !! i).
Definition ast_at (m : gmap Z AstNode) (i : Z) : AstNode := default (MkAst 0 0 0 0) (m !! i).

Definition read_str (i : Z) : Y Z :=
  if in_array i STRTAB_MAX then gets (fun s => str_at (strtab s) i) else panic index_panic.
Definition write_str (i v : Z) : Y unit :=
  if in_array i STRTAB_MAX then modify (fun s => set_strtab (<[i := v]> (strtab s)) s)
  else panic index_panic.
Definition read_sym (i : Z) : Y Syment :=
  if in_array i SYMTAB_MAX then gets (fun s => sym_at (symtab s) i) else panic index_panic.
Definition write_sym (i : Z) (v : Syment) : Y unit :=
  if in_array i SYMTAB_MAX then modify (fun s => set_symtab (<[i := v]> (symtab s)) s)
  else panic index_panic.
Definition write_ast (i : Z) (v : AstNode) : Y unit :=
  if in_array i AstMaxNode then modify (fun s => set_ast (<[i := v]> (AstNodes s)) s)
  else panic index_panic.
Definition read_ast (i : Z) : Y AstNode :=
  if in_array i AstMaxNode then gets (fun s => ast_at (AstNodes s) i) else panic index_panic.

(** [LookupError] *)
Fixpoint lookup_error (tbl : list Z) (i : nat) (code : Z) : Y string :=
  match tbl with
  | [] => mret "internal error: unknown error code"%string
  | v :: tbl' =>
    if v =? code then from_opt index_panic (errorMessages !! i)
    else lookup_error tbl' (S i) code
  end.

Definition LookupError (code : Z) : Y string := lookup_error errorTable 0 code.

(** ** io.go *)

(** [Getb(inFD)]: the only descriptor that the program reads. *)
Definition Getb : Y Z :=
  i ← gets input;
  match i with
  | [] => gets tail
  | b :: rest => modify (set_input rest);; mret b
  end.

(** [Putb(STDOUT, v)], where the write succeeds; its result is used nowhere. *)
Definition Putb (v : Z) : Y unit := modify (fun s => set_out (out s ++ [v]) s).

(** The dynamic type of an argument of [Printf]: the only ones that it
    distinguishes are [Word], [Byte] and [string]. *)
Inductive arg := AWord (w : Z) | AByte (b : Z) | AStr (s : string) | AOther.

Definition byte_of (c : Ascii.ascii) : Z := Z.of_nat (Ascii.nat_of_ascii c).

Definition printOops : Y unit := Putb 63;; Putb 63;; Putb 63.

Fixpoint put_string (s : string) : Y unit :=
  match s with
  | EmptyString => mret tt
  | String c s' => Putb (byte_of c);; put_string s'
  end.

Definition printS (a : arg) : Y unit :=
  match a with
  | AStr s => put_string s
  | _ => Putb 115;; Putb 63
  end.

(** [hexChars[i]] *)
Definition hexChar (i : Z) : Z := if i <? 10 then 48 + i else 55 + i.

Definition printX (a : arg) : Y unit :=
  match a with
  | AWord w =>
    Putb (hexChar (Z.shiftr w 12));;
    Putb (hexChar (Z.land (Z.shiftr w 8) 0xF));;
    Putb (hexChar (Z.land (Z.shiftr w 4) 0xF));;
    Putb (hexChar (Z.land w 0xF))
  | AByte w =>
    Putb (hexChar (Z.land (Z.shiftr w 4) 0xF));;
    Putb (hexChar (Z.land w 0xF))
  | _ => Putb 63;; Putb 63;; Putb 63;; Putb 63
  end.

Definition putC (a : arg) : Y unit :=
  match a with
  | AByte b => Putb b
  | _ => panic "interface conversion"
  end.

(** [Printf], with the format state and the arguments that remain. *)
Fixpoint printf_loop (s : string) (fmt : bool) (args : list arg) : Y unit :=
  match s with
  | EmptyString => mret tt
  | String ch s' =>
    let c := byte_of ch in
    if fmt then
      if c =? 110 (* n *) then Putb 10;; printf_loop s' false args
      else match args with
      | [] => printOops;; printf_loop s' false args
      | a :: rest =>
        if c =? 115 (* s *) then printS a;; printf_loop s' false rest
        else if c =? 120 (* x *) then printX a;; printf_loop s' false rest
        else if c =? 99 (* c *) then putC a;; printf_loop s' false rest
        else printOops;; printf_loop s' false args
      end
    else if c =? 37 (* % *) then printf_loop s' true args
    else Putb c;; printf_loop s' false args
  end.

Definition Printf (s : string) (args : list arg) : Y unit := printf_loop s false args.

Definition LineNumber : Y Z := gets lineCount.

Definition PrintErr (fmt : string) (code sev val : Z) : Y unit :=
  n ← LineNumber;
  msg ← LookupError code;
  Printf "; Error: line %x: %s: " [AWord n; AStr msg];;
  Printf fmt [AWord val];;
  Printf "%n" [];;
  if sev =? ERR_FATAL then Exit else mret tt.

(** ** sym.go *)

Definition StrtabAllocate : Y Z :=
  n ← gets strtabNext;
  if u16 (STRTAB_MAX - n) <? SYMLEN_MAX then ErrorAsStrIndex ERR_INT_NOSTR else mret n.

Definition StrtabRemaining : Y Z :=
  n ← gets strtabNext;
  if u16 (STRTAB_MAX - n) <? SYMLEN_MAX then mret 0 else mret (u16 (STRTAB_MAX - n)).

Definition StrtabDiscard : Y unit := mret tt.

(** [NumLookup]: [k] entries from index [i] on. *)
Fixpoint num_scan (k : nat) (i val : Z) : Y Z :=
  match k with
  | O => ErrorAsSymIndex ERR_SYM_NODEF
  | S k' =>
    e ← read_sym i;
    if (Len e =? 0) && (Val e =? val) then mret i else num_scan k' (i + 1) val
  end.

Definition NumLookup (val : Z) : Y Z := n ← gets symtabNext; num_scan (Z.to_nat n) 0 val.

(** The comparison of two strings of the table: is there no difference? *)
Fixpoint same_string (k : nat) (j s val : Z) : Y bool :=
  match k with
  | O => mret true
  | S k' =>
    x ← read_str (u16 (s + j));
    y ← read_str (u16 (val + j));
    if negb (x =? y) then mret false else same_string k' (j + 1) s val
  end.

Fixpoint sym_scan (k : nat) (i val len : Z) : Y Z :=
  match k with
  | O => ErrorAsSymIndex ERR_SYM_NODEF
  | S k' =>
    e ← read_sym i;
    if Len e =? len then
      same ← same_string (Z.to_nat len) 0 (Val e) val;
      if (same : bool) then mret i else sym_scan k' (i + 1) val len
    else sym_scan k' (i + 1) val len
  end.

Definition SymLookup (val len : Z) : Y Z :=
  if len =? 0 then ErrorAsSymIndex ERR_INT_BUG
  else if SYMLEN_MAX <? len then ErrorAsSymIndex ERR_INT_TOOBIG
  else n ← gets symtabNext; sym_scan (Z.to_nat n) 0 val len.

Definition SymEnter (val len : Z) : Y Z :=
  symIndex ← (if len =? 0 then NumLookup val else SymLookup val len);
  next ← gets symtabNext;
  if symIndex <? next then mret symIndex
  else if SYMTAB_MAX <=? next then ErrorAsSymIndex ERR_INT_NOSYM
  else
    modify (set_symnext (u16 (next + 1)));;
    modify (fun s => set_strnext (u16 (strtabNext s + len)) s);;
    write_sym next (MkSym val len 0);;
    mret next.

(** ** lex.go: token encoding *)

Definition TT_TYPE : Z := 0xC000.
Definition TT_USR : Z := 0x0000.
Definition TT_KEY : Z := 0x4000.
Definition TT_NUM : Z := 0x8000.
Definition TT_ERR : Z := ErrBase.

Definition IsUsrTok (t : Z) : bool := Z.land t TT_USR =? TT_USR.
Definition IsKeyTok (t : Z) : bool := Z.land t TT_KEY =? TT_KEY.
Definition IsNumTok (t : Z) : bool := Z.land t TT_NUM =? TT_NUM.
Definition IsErrTok (t : Z) : bool := Z.land t TT_ERR =? TT_ERR.

Definition IsMatch (m t : Z) : Y bool :=
  let ty := Z.land m TT_TYPE in
  if (ty =? TT_USR) || (ty =? TT_NUM) then mret (Z.land t TT_TYPE =? Z.land m TT_TYPE)
  else if ty =? TT_KEY then mret (t =? m)
  else if ty =? TT_ERR then mret false
  else panic "invalid TT_TYPE".

Definition TokenAsSymIndex (t : Z) : Z := Z.land t (not16 ErrBase).

Definition isHash (b : Z) : bool := b =? 35.
Definition isWhite (b : Z) : bool := (b =? 32) || (b =? 9) || (b =? 10).
Definition isDigit (b : Z) : bool := (48 <=? b) && (b <=? 57).
Definition isLowerLetter (b : Z) : bool := (97 <=? b) && (b <=? 122).
Definition isUpperLetter (b : Z) : bool := (65 <=? b) && (b <=? 90).
Definition isPunctuation (b : Z) : bool :=
  (b =? 61) || (b =? 43) || (b =? 123) || (b =? 125) || (b =? 59).

Definition convert (b : Z) : Z := u8 (b - 48).

Definition PrintTok (t : Z) : Y unit :=
  if IsErrTok t then Printf "; token: error %x%n" [AWord t]
  else
    let n := TokenAsSymIndex t in
    e ← read_sym n;
    if Len e =? 0 then Printf "; token: number %x%n" [AWord (Val e)]
    else c ← read_str (Val e); Printf "; token: string %c%n" [AByte c].

Definition PushbackToken (t : Z) : Y unit :=
  p ← gets pbt;
  Assert ((p =? 0) && negb (t =? 0)) "PushbackToken()";;
  modify (set_pbt t).

(** ** lex.go: the lexer *)

(** The value of a loop that has used up its fuel; not a result of the program. *)
Definition out_of_fuel : string := "out of fuel".

(** What the loop does with a byte that is neither white space nor comment. *)
Definition lex_byte (pos b : Z) : Y Z :=
  if isDigit b then
    n ← SymEnter (convert b) 0;
    mret (Z.lor TT_NUM n)
  else
    write_str pos b;;
    if isLowerLetter b then
      n ← SymEnter pos 1;
      mret (Z.lor TT_USR n)
    else if isUpperLetter b || isPunctuation b then
      n ← SymEnter pos 1;
      mret (Z.lor TT_KEY n)
    else StrtabDiscard;; ErrorAsToken ERR_LEX_INVAL.

(** After the loop. *)
Definition lex_end (b : Z) : Y Z :=
  if b =? E_EOF then mret TT_EOF
  else if 0xFF <? b then ErrorAsToken ERR_LEX_IO
  else ErrorAsToken ERR_INT_NOSTR.

(** The loop of [internalGetToken].  Every iteration that continues has consumed
    a byte, so the number of unread bytes bounds their number. *)
Fixpoint lex_loop (fuel : nat) (pos len : Z) (inComment : bool) : Y Z :=
  match fuel with
  | O => panic out_of_fuel
  | S fuel' =>
    b ← Getb;
    if (0xFF <? b) || (len =? 0) then lex_end b
    else if b =? 10 then
      modify (fun s => set_line (u16 (lineCount s + 1)) s);;
      lex_loop fuel' pos len false
    else if inComment then lex_loop fuel' pos len inComment
    else if isHash b then lex_loop fuel' pos len true
    else if isWhite b then lex_loop fuel' pos len inComment
    else lex_byte pos b
  end.

Definition internalGetToken : Y Z :=
  p ← gets pbt;
  if negb (p =? 0) then
    modify (set_pbt 0);; mret p
  else
    pos ← StrtabAllocate;
    len ← StrtabRemaining;
    i ← gets input;
    lex_loop (S (length i)) pos len false.

(** [LexDebug] is true. *)
Definition GetToken : Y Z := tk ← internalGetToken; PrintTok tk;; mret tk.

(** ** sym.go: the symbols of the language *)

Definition AddLangSymbol (symRaw t : Z) : Y Z :=
  let sym := Z.land symRaw 0xFF in
  let constval := TokenAsSymIndex t in
  pos ← StrtabAllocate;
  write_str pos sym;;
  result ← SymEnter pos 1;
  (if ErrBase <=? result then PrintErr "defining sym %x" ERR_INT_INIT ERR_FATAL sym else mret tt);;
  (if negb (result =? constval) then PrintErr "defining sym %x" ERR_INT_INIT ERR_FATAL sym else mret tt);;
  modify (set_lastkey result);;
  mret result.

Definition key (n : Z) : Z := Z.lor TT_KEY n.
Definition tok_P : Z := key 8.
Definition tok_F : Z := key 6.
Definition tok_V : Z := key 10.
Definition SEMI : Z := key 12.
Definition EQU : Z := key 13.
Definition BCLOSE : Z := key 15.

(** The characters of the language symbols and their tokens, in the order of
    [SymInit]. *)
Definition langSymbols : list (Z * Z) :=
  [ (65, key 1); (66, key 2); (67, key 3); (68, key 4);
    (69, key 5); (70, tok_F); (73, key 7); (80, tok_P); (81, key 9); (86, tok_V);
    (35, key 11); (59, SEMI); (61, EQU); (123, key 14); (125, BCLOSE); (43, key 16);
    (63, key 17) ].

Fixpoint add_symbols (l : list (Z * Z)) : Y unit :=
  match l with
  | [] => mret tt
  | (c, t) :: l' => _ ← AddLangSymbol c t; add_symbols l'
  end.

Definition SymInit : Y unit := add_symbols langSymbols.

Definition isKeySym (si : Z) : Y bool := l ← gets lastKeySymIndex; mret (si <=? l).

(** [Printf] of a [SymIndex]: its dynamic type is neither [Word] nor [Byte]. *)
Definition PrintSym (n : Z) : Y unit :=
  if IsError n then Printf "; SymIndex TT_ERR %x%n" [AOther]
  else
    let n := Z.land n (not16 ErrBase) in
    Printf "; SymIndex %x " [AOther];;
    e ← read_sym n;
    if Len e =? 0 then Printf "num %x%n" [AWord (Val e)]
    else c ← read_str (Val e); Printf "sym %c%n" [AByte c].

(** ** parse.go *)

Definition allocAstNode : Y Z :=
  result ← gets astNodeNext;
  Assert (1 <=? result) "out of AST nodes";;
  modify (set_astnext (u16 (result - 1)));;
  mret result.

Definition Snapshot : Y Z := gets astNodeNext.

Definition AllocatedSince (snapshot : Z) : Y Z :=
  n ← gets astNodeNext;
  let result := u16 (snapshot - n) in
  Assert (result <? AstMaxNode) "bad snapshot in AllocatedSince()";;
  mret result.

Definition MakeAstNode (sym size kind xtra : Z) : Y Z :=
  result ← allocAstNode;
  write_ast result (MkAst sym size kind xtra);;
  mret result.

Definition IsSyntaxErrorNode (a : Z) : Y bool := nd ← read_ast a; mret (Kind nd =? AstKindError).

Definition IsAstError (a : Z) : Y bool := if IsError a then mret true else IsSyntaxErrorNode a.

Definition TokenToString (t : Z) : string := "TODO TokenToString()".

(** [resync]: read tokens up to a semicolon, a closing brace or end of file. *)
Fixpoint resync (fuel : nat) : Y unit :=
  match fuel with
  | O => panic out_of_fuel
  | S fuel' =>
    t ← GetToken;
    if negb (t =? SEMI) && negb (t =? BCLOSE) && negb (t =? TT_EOF) then resync fuel'
    else if t =? TT_EOF then PushbackToken t else mret tt
  end.

(** The error node keeps its [Xtra] field. *)
Definition syntaxError (fuel : nat) (msg : string) (bad : Z) : Y Z :=
  n ← LineNumber;
  Printf "; syntax error: line %x: expected %s but got %s%n" [AWord n; AStr msg; AStr (TokenToString bad)];;
  result ← allocAstNode;
  sym ← ErrorAsSymIndex TT_ERR;
  old ← read_ast result;
  write_ast result (MkAst sym 1 AstKindError (Xtra old));;
  resync fuel;;
  mret result.

Definition function : Y Z := mret 0.
Definition assign : Y Z := mret 0.

Definition variable (fuel : nat) : Y Z :=
  v ← GetToken;
  if IsError v then ErrorAsAstIndex v
  else if negb (IsUsrTok v) then syntaxError fuel "variable" v
  else
    decl ← MakeAstNode (TokenAsSymIndex v) 1 AstKindUsr AstXtraDecl;
    t ← GetToken;
    if IsError t then ErrorAsAstIndex t
    else if t =? SEMI then mret decl
    else if t =? EQU then assign
    else syntaxError fuel "semicolon or assignment" t.

Definition declaration (fuel : nat) : Y Z :=
  t ← GetToken;
  if IsError t then ErrorAsAstIndex t
  else if t =? tok_V then variable fuel
  else if t =? tok_F then function
  else syntaxError fuel "declaration" t.

(** The loop of [program]: declarations until one is an error, which is
    forgotten (the loop's [result] hides the function's). *)
Fixpoint declarations (fuel : nat) : Y unit :=
  match fuel with
  | O => panic out_of_fuel
  | S fuel' =>
    result ← declaration fuel';
    if negb (IsError result) then declarations fuel' else mret tt
  end.

Definition program (fuel : nat) : Y Z :=
  let result := 0 in
  pos ← Snapshot;
  declarations fuel;;
  if IsError result then mret result
  else
    n ← AllocatedSince pos;
    MakeAstNode (TokenAsSymIndex tok_P) (u16 (1 + n)) 0 0.

Definition Parse (fuel : nat) : Y Z := program fuel.

(** ** yc.go *)

(** [Init(STDIN)]: [LexInit] sets [inFD] to the descriptor 0, which it is from the
    start. *)
Definition Init : Y unit := SymInit.

(** The loop of [main] over the nodes, from the node that [Parse] returns. *)
Fixpoint print_nodes (k : nat) (a : Z) : Y unit :=
  match k with
  | O => mret tt
  | S k' =>
    Printf "AstNode %x Sym " [AWord a];;
    nd ← read_ast a;
    PrintSym (Sym nd);;
    print_nodes k' (a + 1)
  end.

Definition main (fuel : nat) : Y unit :=
  Init;;
  a ← Parse fuel;
  print_nodes (Z.to_nat (AstMaxNode - a)) a.
