(* ===== verification/YaplSym.v ===== *)
(** * The symbol table of YAPL-1 refines a list of distinct symbols

    [contents] maps the string and symbol tables of [Yapl] to the list of the
    symbols they hold; [SymEnter] is proved to be interning in that list. *)

From S2P Require Import Prelude Text Yapl.

(** ** Symbols *)

Inductive content := Num (v : Z) | Str (l : list Z).

#[export] Instance content_eq : EqDecision content.
Proof. solve_decision. Defined.

Definition str_slice (m : gmap Z Z) (p n : Z) : list Z := (fun j => str_at m (p + j)) <$> seqZ 0 n.

Definition content_of (m : gmap Z Z) (e : Syment) : content :=
  if Len e =? 0 then Num (Val e) else Str (str_slice m (Val e) (Len e)).

Definition contents (s : yst) : list content :=
  (fun i => content_of (strtab s) (sym_at (symtab s) i)) <$> seqZ 0 (symtabNext s).

(** An entry's value is a word and its string lies in the committed part of the
    string table. *)
Definition entry_ok (s : yst) (e : Syment) : Prop :=
  is_u16 (Val e) /\ 0 <= Len e <= SYMLEN_MAX /\ (Len e <> 0 -> Val e + Len e <= strtabNext s).

Record tab_ok (s : yst) : Prop := {
  to_sym : 1 <= symtabNext s <= SYMTAB_MAX;
  to_str : 1 <= strtabNext s <= STRTAB_MAX;
  to_entries : forall i, 0 <= i < symtabNext s -> entry_ok s (sym_at (symtab s) i);
  to_nodup : NoDup (contents s)
}.

Lemma contents_length s : 0 <= symtabNext s -> length (contents s) = Z.to_nat (symtabNext s).
Proof. intros H. unfold contents. rewrite length_fmap, length_seqZ. reflexivity. Qed.

Lemma contents_lookup s i :
  0 <= i < symtabNext s -> contents s !! Z.to_nat i = Some (content_of (strtab s) (sym_at (symtab s) i)).
Proof.
  intros Hi. unfold contents. rewrite list_lookup_fmap, lookup_seqZ_lt by lia. cbn. do 3 f_equal. lia.
Qed.

(** ** The primitives *)

Lemma in_array_true i n : 0 <= i < n -> in_array i n = true.
Proof. intros H. unfold in_array. rewrite (proj2 (Z.leb_le _ _)), (proj2 (Z.ltb_lt _ _)) by lia. reflexivity. Qed.

Lemma read_sym_ret i s : 0 <= i < SYMTAB_MAX -> read_sym i s = Ret (sym_at (symtab s) i, s).
Proof. intros H. unfold read_sym. rewrite in_array_true by exact H. reflexivity. Qed.

Lemma read_str_ret i s : 0 <= i < STRTAB_MAX -> read_str i s = Ret (str_at (strtab s) i, s).
Proof. intros H. unfold read_str. rewrite in_array_true by exact H. reflexivity. Qed.

Lemma write_str_ret i v s : 0 <= i < STRTAB_MAX -> write_str i v s = Ret (tt, set_strtab (<[i := v]> (strtab s)) s).
Proof. intros H. unfold write_str. rewrite in_array_true by exact H. reflexivity. Qed.

Lemma ErrorAs_ret msg e s : ErrBase <= e -> ErrorAs msg e s = Ret (e, s).
Proof. intros H. unfold ErrorAs, Assert. rewrite (proj2 (Z.leb_le _ _) H). reflexivity. Qed.

Lemma str_slice_cons m p n : 0 < n -> str_slice m p n = str_at m p :: str_slice m (p + 1) (n - 1).
Proof.
  intros Hn. unfold str_slice. rewrite seqZ_cons by exact Hn. cbn. rewrite Z.add_0_r. f_equal.
  replace (Z.pred n) with (n - 1) by lia. change (Z.succ 0) with (0 + 1).
  rewrite <- (Z.add_comm 1 0). rewrite <- fmap_add_seqZ. rewrite <- list_fmap_compose.
  apply list_fmap_ext. intros i x _. cbn. f_equal. lia.
Qed.

(** The loop that compares two strings decides whether they are equal. *)
Lemma same_string_spec k j a b s :
  0 <= j -> 0 <= a -> 0 <= b -> a + j + Z.of_nat k <= STRTAB_MAX -> b + j + Z.of_nat k <= STRTAB_MAX ->
  same_string k j a b s =
    Ret (bool_decide (str_slice (strtab s) (a + j) (Z.of_nat k) = str_slice (strtab s) (b + j) (Z.of_nat k)), s).
Proof.
  revert j. induction k as [| k IH]; intros j Hj Ha Hb Hal Hbl; [reflexivity |].
  cbn [same_string]. rewrite !u16_id by (unfold is_u16, STRTAB_MAX in *; lia).
  unfold mbind, M_bind. rewrite !read_str_ret by lia.
  rewrite !(str_slice_cons (strtab s) _ (Z.of_nat (S k))) by lia.
  replace (Z.of_nat (S k) - 1) with (Z.of_nat k) by lia.
  destruct (Z.eqb_spec (str_at (strtab s) (a + j)) (str_at (strtab s) (b + j))) as [E | E]; cbn [negb].
  - rewrite IH by lia. rewrite E, !Z.add_assoc. do 2 f_equal. apply bool_decide_ext.
    split; [intros ->; reflexivity | intros H; inversion H; reflexivity].
  - rewrite bool_decide_eq_false_2; [reflexivity |]. intros H. inversion H. contradiction.
Qed.

(** ** Searching *)

(** The index of the first occurrence, from [i] on. *)
Fixpoint index_of (c : content) (l : list content) (i : Z) : Z :=
  match l with
  | [] => ERR_SYM_NODEF
  | x :: l' => if bool_decide (x = c) then i else index_of c l' (i + 1)
  end.

Lemma index_of_cases c l i :
  (exists k : nat, index_of c l i = i + Z.of_nat k /\ l !! k = Some c) \/
  (index_of c l i = ERR_SYM_NODEF /\ c ∉ l).
Proof.
  revert i. induction l as [| x l IH]; intros i; cbn [index_of].
  - right. split; [reflexivity | apply not_elem_of_nil].
  - destruct (bool_decide_reflect (x = c)) as [-> | Hne].
    + left. exists O. split; [lia | reflexivity].
    + destruct (IH (i + 1)) as [(k & -> & Hk) | [-> Hn]].
      * left. exists (S k). split; [lia | exact Hk].
      * right. split; [reflexivity |]. rewrite not_elem_of_cons. auto.
Qed.

Definition contents_from (s : yst) (i : Z) (k : nat) : list content :=
  (fun i => content_of (strtab s) (sym_at (symtab s) i)) <$> seqZ i (Z.of_nat k).

Lemma contents_from_S s i k :
  contents_from s i (S k) = content_of (strtab s) (sym_at (symtab s) i) :: contents_from s (i + 1) k.
Proof.
  unfold contents_from. rewrite seqZ_cons by lia.
  replace (Z.pred (Z.of_nat (S k))) with (Z.of_nat k) by lia. reflexivity.
Qed.

Lemma num_scan_spec k i val s :
  0 <= i -> i + Z.of_nat k <= SYMTAB_MAX ->
  num_scan k i val s = Ret (index_of (Num val) (contents_from s i k) i, s).
Proof.
  revert i. induction k as [| k IH]; intros i Hi Hk.
  - exact (ErrorAs_ret _ ERR_SYM_NODEF s ltac:(unfold ErrBase, ERR_SYM_NODEF; lia)).
  - cbn [num_scan]. unfold mbind, M_bind. rewrite read_sym_ret by lia.
    rewrite contents_from_S. cbn [index_of]. unfold content_of.
    destruct (Z.eqb_spec (Len (sym_at (symtab s) i)) 0) as [E | E]; cbn [andb].
    + destruct (Z.eqb_spec (Val (sym_at (symtab s) i)) val) as [<- | Hne].
      * rewrite bool_decide_eq_true_2 by reflexivity. reflexivity.
      * rewrite bool_decide_eq_false_2 by congruence. apply IH; lia.
    + rewrite bool_decide_eq_false_2 by congruence. apply IH; lia.
Qed.

Lemma sym_scan_spec k i val len s :
  0 <= i -> i + Z.of_nat k <= symtabNext s -> tab_ok s -> 1 <= len <= SYMLEN_MAX -> 0 <= val ->
  val + len <= STRTAB_MAX ->
  sym_scan k i val len s = Ret (index_of (Str (str_slice (strtab s) val len)) (contents_from s i k) i, s).
Proof.
  intros Hi0 Hk0 Hok Hl Hv Hvl. revert i Hi0 Hk0. induction k as [| k IH]; intros i Hi Hk.
  - exact (ErrorAs_ret _ ERR_SYM_NODEF s ltac:(unfold ErrBase, ERR_SYM_NODEF; lia)).
  - pose proof (to_sym s Hok) as Hs. pose proof (to_str s Hok) as Ht.
    destruct (to_entries s Hok i ltac:(lia)) as (Hu & Hlen & Hin).
    cbn [sym_scan]. unfold mbind, M_bind. rewrite read_sym_ret by lia.
    rewrite contents_from_S. cbn [index_of]. unfold content_of. set (e := sym_at (symtab s) i) in *.
    destruct (Z.eqb_spec (Len e) len) as [E | E].
    + rewrite (proj2 (Z.eqb_neq (Len e) 0)) by lia. unfold is_u16 in Hu.
      rewrite same_string_spec by (rewrite ?Z2Nat.id by lia; lia).
      rewrite !Z.add_0_r, Z2Nat.id, E by lia.
      destruct (bool_decide_reflect (str_slice (strtab s) (Val e) len = str_slice (strtab s) val len)) as [Eq | Ne].
      * rewrite Eq, bool_decide_eq_true_2 by reflexivity. reflexivity.
      * rewrite bool_decide_eq_false_2 by congruence. apply IH; lia.
    + rewrite bool_decide_eq_false_2; [apply IH; lia |]. destruct (Z.eqb_spec (Len e) 0); [discriminate |].
      intros H. inversion H as [H']. apply (f_equal length) in H'. unfold str_slice in H'.
      rewrite !length_fmap, !length_seqZ in H'. lia.
Qed.

(** ** Interning *)

Lemma lookup_found s c k :
  contents s !! k = Some c -> 0 <= symtabNext s -> 0 <= Z.of_nat k < symtabNext s.
Proof. intros H Hs. apply lookup_lt_Some in H. rewrite contents_length in H by exact Hs. lia. Qed.

(** A new entry at the end of the tables: the old symbols keep their indices. *)
Definition appended (s : yst) (val len : Z) : yst :=
  set_symtab (<[symtabNext s := MkSym val len 0]> (symtab s))
    (set_strnext (strtabNext s + len) (set_symnext (symtabNext s + 1) s)).

Lemma sym_at_insert m i e j : sym_at (<[i := e]> m) j = if j =? i then e else sym_at m j.
Proof.
  unfold sym_at. destruct (Z.eqb_spec j i) as [-> | Hne].
  - rewrite lookup_insert_eq. reflexivity.
  - rewrite lookup_insert_ne by congruence. reflexivity.
Qed.

Lemma contents_appended s val len :
  0 <= symtabNext s ->
  contents (appended s val len) = contents s ++ [content_of (strtab s) (MkSym val len 0)].
Proof.
  intros Hs. unfold contents. cbn [appended symtabNext symtab strtab set_symtab set_strnext set_symnext].
  rewrite seqZ_app by lia. rewrite fmap_app. f_equal.
  - apply list_fmap_ext. intros k x Hx. apply lookup_seqZ in Hx.
    rewrite sym_at_insert, (proj2 (Z.eqb_neq _ _)) by lia. reflexivity.
  - rewrite Z.add_0_l, seqZ_cons by lia. rewrite fmap_cons, sym_at_insert, Z.eqb_refl. reflexivity.
Qed.

Lemma appended_ok s val len :
  tab_ok s -> symtabNext s < SYMTAB_MAX -> is_u16 val -> 0 <= len <= SYMLEN_MAX ->
  (len <> 0 -> val = strtabNext s) -> strtabNext s + len <= STRTAB_MAX ->
  content_of (strtab s) (MkSym val len 0) ∉ contents s -> tab_ok (appended s val len).
Proof.
  intros Hok Hsym Hval Hlen Hv Hstr Hnew. pose proof Hok as [H1 H2 H3 H4]. constructor.
  - cbn. lia.
  - cbn. lia.
  - cbn. intros i Hi. rewrite sym_at_insert. destruct (Z.eqb_spec i (symtabNext s)) as [-> | Hne].
    + split; [exact Hval |]. split; [exact Hlen |]. cbn. intros Hl. rewrite (Hv Hl). lia.
    + destruct (H3 i ltac:(lia)) as (Ha & Hb & Hc). split; [exact Ha |]. split; [exact Hb |].
      intros Hl. specialize (Hc Hl). cbn. lia.
  - rewrite contents_appended by lia. apply NoDup_app. split; [exact H4 |].
    split; [| apply NoDup_singleton]. intros x Hx Hx'. apply list_elem_of_singleton in Hx'. subst. contradiction.
Qed.

(** What [SymEnter] does, of the list of symbols. *)
Definition interned (s : yst) (c : content) (val len r : Z) (s' : yst) : Prop :=
  (exists k : nat, contents s !! k = Some c /\ r = Z.of_nat k /\ s' = s) \/
  ((c ∉ contents s) /\ symtabNext s = SYMTAB_MAX /\ r = ERR_INT_NOSYM /\ s' = s) \/
  ((c ∉ contents s) /\ symtabNext s < SYMTAB_MAX /\ r = symtabNext s /\ s' = appended s val len).

(** A request to enter a number, or the string that waits at the end of the
    string table: [val] and [len] are a [Word] and a [Byte]. *)
Definition request (s : yst) (val len : Z) : Prop :=
  is_u16 val /\ is_u8 len /\ (len <> 0 -> val = strtabNext s) /\ strtabNext s + len <= STRTAB_MAX.

(** A request whose length [SymLookup] accepts. *)
Definition request_ok (s : yst) (val len : Z) : Prop :=
  is_u16 val /\ 0 <= len <= SYMLEN_MAX /\ (len <> 0 -> val = strtabNext s) /\
  strtabNext s + len <= STRTAB_MAX.

Lemma request_short s val len : request s val len -> len <= SYMLEN_MAX -> request_ok s val len.
Proof. intros (H1 & H2 & H3 & H4) Hl. unfold is_u8 in H2. split; [exact H1 |]. split; [lia | auto]. Qed.

(** The end of [SymEnter], on a table with room. *)
Lemma enter_room s val len :
  tab_ok s -> symtabNext s < SYMTAB_MAX -> 0 <= len -> strtabNext s + len <= STRTAB_MAX ->
  (modify (set_symnext (u16 (symtabNext s + 1)));;
   modify (fun s => set_strnext (u16 (strtabNext s + len)) s);;
   write_sym (symtabNext s) (MkSym val len 0);;
   mret (symtabNext s)) s = Ret (symtabNext s, appended s val len).
Proof.
  intros Hok Hroom Hl Hstr. pose proof (to_sym s Hok) as Hs. pose proof (to_str s Hok) as Ht.
  unfold mbind, M_bind, modify, write_sym. cbn [symtabNext set_strnext set_symnext].
  rewrite in_array_true by lia. cbn [strtabNext set_symnext].
  rewrite !u16_id by (unfold is_u16, SYMTAB_MAX, STRTAB_MAX in *; lia). reflexivity.
Qed.

(** A length above the maximum is an internal error of [SymLookup], which
    [SymEnter] takes for a symbol that is not there. *)
Lemma SymEnter_long s val len :
  tab_ok s -> request s val len -> SYMLEN_MAX < len ->
  SymLookup val len s = Ret (ERR_INT_TOOBIG, s) /\
  SymEnter val len s = Ret (if SYMTAB_MAX <=? symtabNext s then (ERR_INT_NOSYM, s)
                            else (symtabNext s, appended s val len)).
Proof.
  intros Hok (Hval & Hlen & Hv & Hstr) Hlong. pose proof (to_sym s Hok) as Hs.
  assert (Hlook : SymLookup val len s = Ret (ERR_INT_TOOBIG, s)).
  { unfold SymLookup. rewrite (proj2 (Z.eqb_neq len 0)), (proj2 (Z.ltb_lt _ _)) by (unfold SYMLEN_MAX in *; lia).
    apply ErrorAs_ret. unfold ErrBase, ERR_INT_TOOBIG. lia. }
  split; [exact Hlook |]. unfold SymEnter. rewrite (proj2 (Z.eqb_neq len 0)) by (unfold SYMLEN_MAX in *; lia).
  unfold mbind at 1, M_bind at 1. rewrite Hlook. unfold mbind at 1, M_bind at 1. unfold gets at 1.
  rewrite (proj2 (Z.ltb_ge _ _)) by (unfold ERR_INT_TOOBIG, SYMTAB_MAX in *; lia).
  destruct (Z.leb_spec SYMTAB_MAX (symtabNext s)) as [Hfull | Hroom].
  - apply ErrorAs_ret. unfold ErrBase, ERR_INT_NOSYM. lia.
  - apply enter_room; auto. apply Hlen.
Qed.

Lemma SymEnter_spec s val len :
  tab_ok s -> request_ok s val len ->
  exists r s', SymEnter val len s = Ret (r, s') /\
    interned s (content_of (strtab s) (MkSym val len 0)) val len r s'.
Proof.
  intros Hok (Hval & Hlen & Hv & Hstr). pose proof (to_sym s Hok) as Hs. pose proof (to_str s Hok) as Ht.
  set (c := content_of (strtab s) (MkSym val len 0)).
  assert (Hall : contents_from s 0 (Z.to_nat (symtabNext s)) = contents s).
  { unfold contents_from, contents. rewrite Z2Nat.id by lia. reflexivity. }
  assert (Hlook : (if len =? 0 then NumLookup val else SymLookup val len) s = Ret (index_of c (contents s) 0, s)).
  { unfold c, content_of. cbn [Len Val]. destruct (Z.eqb_spec len 0) as [-> | Hl].
    - unfold NumLookup, mbind, M_bind, gets. rewrite num_scan_spec, Hall by (rewrite ?Z2Nat.id by lia; lia).
      reflexivity.
    - unfold SymLookup, mbind, M_bind, gets. rewrite (proj2 (Z.eqb_neq len 0)), (proj2 (Z.ltb_ge _ _)) by lia.
      specialize (Hv Hl). unfold is_u16 in Hval.
      rewrite sym_scan_spec, Hall by (rewrite ?Z2Nat.id by lia; (assumption || lia)). reflexivity. }
  unfold SymEnter. unfold mbind at 1, M_bind at 1. rewrite Hlook.
  unfold mbind at 1, M_bind at 1. unfold gets at 1.
  destruct (index_of_cases c (contents s) 0) as [(k & -> & Hk) | [-> Hn]].
  - pose proof (lookup_found s c k Hk ltac:(lia)). rewrite Z.add_0_l, (proj2 (Z.ltb_lt _ _)) by lia.
    exists (Z.of_nat k), s. split; [reflexivity |]. left. exists k. auto.
  - rewrite (proj2 (Z.ltb_ge _ _)) by (unfold ERR_SYM_NODEF, SYMTAB_MAX in *; lia).
    destruct (Z.leb_spec SYMTAB_MAX (symtabNext s)) as [Hfull | Hroom].
    + exists ERR_INT_NOSYM, s. split; [apply ErrorAs_ret; unfold ErrBase, ERR_INT_NOSYM; lia |].
      right. left. repeat split; auto. lia.
    + exists (symtabNext s), (appended s val len). split; [apply enter_room; auto; lia |]. right. right. auto.
Qed.
