(* ===== verification/YaplLex.v ===== *)
(** * The lexer of YAPL-1

    The invariant of the tables while YAPL-1 source is lexed, the
    specification of [internalGetToken] against a scanner of bytes, and the
    exact text that the output routines print. *)

From S2P Require Import Prelude Text Yapl YaplSym.

(** ** The invariant *)

(** The symbols of YAPL-1: one digit, or one character. *)
Definition simple (c : content) : Prop :=
  match c with Num v => 0 <= v <= 9 | Str l => exists b, l = [b] /\ is_u8 b end.

Record yapl_ok (s : yst) : Prop := {
  yo_tab : tab_ok s;
  yo_simple : Forall simple (contents s);
  yo_str : strtabNext s <= symtabNext s;
  yo_line : is_u16 (lineCount s);
  yo_input : Forall is_u8 (input s)
}.

(** All the symbols that can be entered. *)
Definition universe : list content :=
  (Num <$> seqZ 0 10) ++ ((fun b => Str [b]) <$> seqZ 0 256).

Lemma simple_universe c : simple c -> c ∈ universe.
Proof.
  unfold universe. rewrite elem_of_app. destruct c as [v | l]; cbn.
  - intros Hv. left. apply list_elem_of_fmap. exists v. split; [reflexivity | apply elem_of_seqZ; lia].
  - intros (b & -> & Hb). right. apply list_elem_of_fmap. exists b. split; [reflexivity |].
    apply elem_of_seqZ. unfold is_u8 in Hb. lia.
Qed.

(** The tables never fill up: there are only 266 symbols. *)
Lemma yapl_small s : yapl_ok s -> symtabNext s <= 266.
Proof.
  intros [Ht Hs _ _ _]. pose proof (to_sym s Ht).
  assert (Hsub : contents s ⊆+ universe).
  { apply NoDup_submseteq; [apply Ht |]. intros x Hx. apply simple_universe.
    rewrite Forall_forall in Hs. apply Hs, Hx. }
  apply submseteq_length in Hsub. rewrite contents_length in Hsub by lia.
  change (length universe) with 266%nat in Hsub. lia.
Qed.

(** ** What a token means *)

Definition tok (s : yst) (t ty : Z) (c : content) : Prop :=
  exists k : nat, contents s !! k = Some c /\ t = ty + Z.of_nat k.

Lemma token_lor ty k : In ty [TT_USR; TT_KEY; TT_NUM] -> 0 <= k < 16384 -> Z.lor ty k = ty + k.
Proof.
  intros Hty Hk. assert (exists a, ty = Z.shiftl a 14) as [a ->].
  { destruct Hty as [<- | [<- | [<- | []]]]; [exists 0 | exists 1 | exists 2]; reflexivity. }
  rewrite lor_shiftl_add, Z.shiftl_mul_pow2 by lia. lia.
Qed.

(** What the lexer leaves alone. *)
Record lex_frame (s s' : yst) : Prop := {
  lf_tail : tail s' = tail s;
  lf_ast : AstNodes s' = AstNodes s;
  lf_astnext : astNodeNext s' = astNodeNext s;
  lf_grows : contents s `prefix_of` contents s';
  lf_out : out s' = out s
}.

Lemma lex_frame_refl s : lex_frame s s.
Proof. constructor; reflexivity. Qed.

Lemma lex_frame_trans s1 s2 s3 : lex_frame s1 s2 -> lex_frame s2 s3 -> lex_frame s1 s3.
Proof. intros [] []. constructor; try congruence; etransitivity; eassumption. Qed.

(** [contents] and the table invariant do not depend on the input, the line
    count, the pushed back token, the output or the nodes. *)
Lemma contents_ext s s' :
  strtab s' = strtab s -> symtab s' = symtab s -> symtabNext s' = symtabNext s -> contents s' = contents s.
Proof. unfold contents. intros -> -> ->. reflexivity. Qed.

Lemma tab_ok_ext s s' :
  strtab s' = strtab s -> symtab s' = symtab s -> symtabNext s' = symtabNext s ->
  strtabNext s' = strtabNext s -> tab_ok s -> tab_ok s'.
Proof.
  intros E1 E2 E3 E4 [H1 H2 H3 H4]. constructor; rewrite ?(contents_ext s s') by assumption;
    rewrite ?E2, ?E3, ?E4; auto. intros i Hi. unfold entry_ok. rewrite E4. apply H3, Hi.
Qed.

(** Writing the byte after the committed strings changes no symbol. *)
Lemma contents_write s b : tab_ok s -> contents (set_strtab (<[strtabNext s := b]> (strtab s)) s) = contents s.
Proof.
  intros Hok. unfold contents. cbn [strtab symtab symtabNext set_strtab]. apply list_fmap_ext.
  intros k i Hi. apply lookup_seqZ in Hi.
  destruct (to_entries s Hok i ltac:(lia)) as (Hu & Hl & Hin). unfold content_of.
  destruct (Z.eqb_spec (Len (sym_at (symtab s) i)) 0) as [| Hne]; [reflexivity |]. f_equal.
  unfold str_slice. apply list_fmap_ext. intros j x Hx. apply lookup_seqZ in Hx. unfold str_at.
  rewrite lookup_insert_ne; [reflexivity |]. specialize (Hin Hne). lia.
Qed.

Lemma tab_ok_write s b : tab_ok s -> tab_ok (set_strtab (<[strtabNext s := b]> (strtab s)) s).
Proof.
  intros Hok. pose proof Hok as [H1 H2 H3 H4]. constructor; auto. rewrite contents_write by exact Hok. exact H4.
Qed.

Lemma yapl_ok_set s s' :
  strtab s' = strtab s -> symtab s' = symtab s -> symtabNext s' = symtabNext s ->
  strtabNext s' = strtabNext s -> is_u16 (lineCount s') -> Forall is_u8 (input s') ->
  yapl_ok s -> yapl_ok s'.
Proof.
  intros E1 E2 E3 E4 Hl Hi [H1 H2 H3 _ _]. constructor; auto.
  - apply (tab_ok_ext s); assumption.
  - rewrite (contents_ext s s') by assumption. exact H2.
  - rewrite E3, E4. exact H3.
Qed.

(** ** Entering the symbol of a token *)

(** Numbers, or a one-character string that waits at the end of the string
    table. *)
Lemma enter_simple s val len :
  yapl_ok s -> (len = 0 /\ 0 <= val <= 9) \/ (len = 1 /\ val = strtabNext s) ->
  simple (content_of (strtab s) (MkSym val len 0)) ->
  exists k s', SymEnter val len s = Ret (Z.of_nat k, s') /\
    contents s' !! k = Some (content_of (strtab s) (MkSym val len 0)) /\
    yapl_ok s' /\ lex_frame s s' /\ 0 <= Z.of_nat k < 16384 /\
    input s' = input s /\ lineCount s' = lineCount s /\ pbt s' = pbt s.
Proof.
  intros Hok Hreq Hc. pose proof (yapl_small s Hok) as Hsm. pose proof Hok as [Ht Hs Hstr Hl Hi].
  pose proof (to_sym s Ht) as H1. pose proof (to_str s Ht) as H2.
  assert (Hr : request_ok s val len).
  { unfold request_ok, is_u16, SYMLEN_MAX, STRTAB_MAX. destruct Hreq as [[-> Hv] | [-> ->]];
      repeat split; try lia; intros; (reflexivity || lia). }
  destruct (SymEnter_spec s val len Ht Hr) as (r & s' & Hrun & [(k & Hk & -> & ->) | [(_ & Hfull & _) | H]]).
  - exists k, s. pose proof (lookup_found s _ k Hk ltac:(lia)). split; [exact Hrun |].
    split; [exact Hk |]. split; [exact Hok |]. split; [apply lex_frame_refl |]. split; [lia | auto].
  - unfold SYMTAB_MAX in Hfull. lia.
  - destruct H as (Hnew & Hroom & -> & ->). destruct Hr as (Hr1 & Hr2 & Hr3 & Hr4).
    exists (Z.to_nat (symtabNext s)), (appended s val len). rewrite Z2Nat.id by lia.
    split; [exact Hrun |]. rewrite contents_appended by lia. split.
    { rewrite lookup_app_r by (rewrite contents_length by lia; lia).
      rewrite contents_length, Nat.sub_diag by lia. reflexivity. }
    split; [| split; [| repeat split; lia]].
    + constructor; auto.
      * apply appended_ok; auto.
      * rewrite contents_appended by lia. apply Forall_app. auto using Forall_cons_2, Forall_nil_2.
      * cbn. lia.
    + constructor; try reflexivity. rewrite contents_appended by lia. apply prefix_app_r. reflexivity.
Qed.

(** The token for a significant byte. *)
Definition lexed (s' : yst) (b t : Z) : Prop :=
  if isDigit b then tok s' t TT_NUM (Num (b - 48))
  else if isLowerLetter b then tok s' t TT_USR (Str [b])
  else if isUpperLetter b || isPunctuation b then tok s' t TT_KEY (Str [b])
  else t = ERR_LEX_INVAL.

Record lex_post (s s' : yst) : Prop := {
  lp_ok : yapl_ok s';
  lp_frame : lex_frame s s';
  lp_input : input s' = input s;
  lp_line : lineCount s' = lineCount s;
  lp_pbt : pbt s' = pbt s
}.

Lemma enter_char s b ty :
  yapl_ok s -> is_u8 b -> In ty [TT_USR; TT_KEY; TT_NUM] ->
  let s1 := set_strtab (<[strtabNext s := b]> (strtab s)) s in
  exists t s', (n ← SymEnter (strtabNext s) 1; mret (Z.lor ty n) : Y Z) s1 = Ret (t, s') /\
    tok s' t ty (Str [b]) /\ lex_post s s'.
Proof.
  intros Hok Hb Hty s1. pose proof Hok as [Ht Hs Hstr Hl Hi].
  assert (Hok1 : yapl_ok s1).
  { constructor; auto; [apply tab_ok_write, Ht |]. unfold s1. rewrite contents_write by exact Ht. exact Hs. }
  assert (Hc : content_of (strtab s1) (MkSym (strtabNext s) 1 0) = Str [b]).
  { unfold content_of, str_slice, s1. cbn [Len Val Z.eqb]. rewrite seqZ_cons by lia.
    rewrite fmap_cons. cbn. rewrite Z.add_0_r. unfold str_at. rewrite lookup_insert_eq. reflexivity. }
  destruct (enter_simple s1 (strtabNext s) 1 Hok1) as (k & s' & Hrun & Hk & Hok' & Hf & Hkr & Hin & Hln & Hpb).
  - right. auto.
  - rewrite Hc. exists b. auto.
  - exists (ty + Z.of_nat k), s'. unfold mbind, M_bind. rewrite Hrun. split.
    { cbn. unfold mret, M_ret. rewrite token_lor by assumption. reflexivity. }
    split; [exists k; rewrite Hk, Hc; auto |]. constructor; auto.
    destruct Hf as [F1 F2 F3 F4 F5]. constructor; auto. unfold s1 in F4. rewrite contents_write in F4 by exact Ht. exact F4.
Qed.

Lemma lex_byte_spec s b :
  yapl_ok s -> is_u8 b ->
  exists t s', lex_byte (strtabNext s) b s = Ret (t, s') /\ lexed s' b t /\ lex_post s s'.
Proof.
  intros Hok Hb. pose proof Hok as [Ht Hs Hstr Hl Hi]. pose proof (yapl_small s Hok).
  pose proof (to_str s Ht) as H2. unfold lex_byte, lexed. destruct (isDigit b) eqn:Hd.
  - assert (Hr : 48 <= b <= 57) by (unfold isDigit in Hd; bool_facts; lia).
    assert (Hcv : convert b = b - 48) by (unfold convert, u8; apply Z.mod_small; lia). rewrite Hcv.
    destruct (enter_simple s (b - 48) 0 Hok) as (k & s' & Hrun & Hk & Hok' & Hf & Hkr & Hin & Hln & Hpb);
      [left; lia | cbn; lia |].
    exists (TT_NUM + Z.of_nat k), s'. unfold mbind, M_bind. rewrite Hrun. split.
    { unfold mret, M_ret. rewrite token_lor; [reflexivity | cbn; auto | exact Hkr]. }
    split; [exists k; auto | constructor; auto].
  - unfold mbind at 1, M_bind at 1. rewrite write_str_ret by (unfold STRTAB_MAX; lia).
    destruct (isLowerLetter b); [apply (enter_char s b TT_USR); cbn; auto |].
    destruct (isUpperLetter b || isPunctuation b); [apply (enter_char s b TT_KEY); cbn; auto |].
    exists ERR_LEX_INVAL, (set_strtab (<[strtabNext s := b]> (strtab s)) s). split; [reflexivity |].
    split; [reflexivity |]. pose proof (contents_write s b Ht) as Hcw. constructor; auto.
    + constructor; auto; [apply tab_ok_write, Ht | rewrite Hcw; exact Hs].
    + constructor; auto. rewrite Hcw. reflexivity.
Qed.

(** ** Scanning *)

(** The input from the next significant byte on, and the number of lines
    passed: white space, and comments from [#] to the end of the line, are
    skipped. *)
Fixpoint skip (comment : bool) (inp : list Z) : list Z * Z :=
  match inp with
  | [] => ([], 0)
  | b :: rest =>
    if b =? 10 then let r := skip false rest in (r.1, r.2 + 1)
    else if comment then skip true rest
    else if isHash b then skip true rest
    else if isWhite b then skip false rest
    else (inp, 0)
  end.

Lemma skip_suffix cm inp : exists pre, inp = pre ++ (skip cm inp).1.
Proof.
  revert cm. induction inp as [| b rest IH]; intros cm; cbn [skip]; [exists []; reflexivity |].
  assert (H : forall c, exists pre, b :: rest = pre ++ (skip c rest).1).
  { intros c. destruct (IH c) as [pre E]. exists (b :: pre). rewrite E at 1. reflexivity. }
  repeat case_if; cbn [fst]; auto. exists []. reflexivity.
Qed.

Lemma skip_lines cm inp : 0 <= (skip cm inp).2.
Proof.
  revert cm. induction inp as [| b rest IH]; intros cm; cbn [skip]; [cbn; lia |].
  repeat case_if; cbn [snd]; auto; [| lia]. specialize (IH false). lia.
Qed.

(** The state after skipping, with the input left. *)
Definition skipped (s : yst) (rest : list Z) (n : Z) : yst :=
  set_input rest (set_line (u16 (lineCount s + n)) s).

Lemma skipped_0 s rest : is_u16 (lineCount s) -> skipped s rest 0 = set_input rest s.
Proof. intros H. unfold skipped. rewrite Z.add_0_r, u16_id by exact H. reflexivity. Qed.

Lemma skipped_step s rest1 n1 rest2 n2 :
  skipped (skipped s rest1 n1) rest2 n2 = skipped s rest2 (n2 + n1).
Proof.
  unfold skipped. cbn [lineCount set_input set_line]. unfold u16. rewrite Zplus_mod_idemp_l.
  replace (lineCount s + n1 + n2) with (lineCount s + (n2 + n1)) by lia. reflexivity.
Qed.

Lemma lex_loop_spec fuel pos len cm s :
  (length (input s) < fuel)%nat -> len <> 0 -> Forall is_u8 (input s) -> 0xFF < tail s ->
  is_u16 (lineCount s) ->
  lex_loop fuel pos len cm s =
    match skip cm (input s) with
    | ([], n) => lex_end (tail s) (skipped s [] n)
    | (b :: rest, n) => lex_byte pos b (skipped s rest n)
    end.
Proof.
  revert cm s. induction fuel as [| fuel IH]; intros cm s Hf Hlen Hin Htl Hline; [lia |].
  cbn [lex_loop]. unfold mbind at 1, M_bind at 1. unfold Getb, mbind at 1, M_bind at 1, gets at 1.
  rewrite (proj2 (Z.eqb_neq len 0) Hlen).
  destruct (input s) as [| b rest] eqn:Ei; cbn [skip].
  - unfold gets. rewrite (proj2 (Z.ltb_lt 0xFF (tail s)) Htl). cbn [orb].
    rewrite skipped_0 by exact Hline. replace (set_input [] s) with s; [reflexivity |].
    rewrite <- Ei. destruct s; reflexivity.
  - inversion_clear Hin as [| ? ? Hb Hrest]. unfold mbind, M_bind, modify at 1. cbn [mret M_ret].
    rewrite (proj2 (Z.ltb_ge 0xFF b)) by (unfold is_u8 in Hb; lia). cbn [orb].
    change (set_input rest s) with (set_input rest s). rewrite <- (skipped_0 s rest Hline).
    assert (Hgo : forall n c, is_u16 (u16 (lineCount s + n)) ->
              lex_loop fuel pos len c (skipped s rest n) =
              match skip c rest with
              | ([], k) => lex_end (tail s) (skipped s [] (k + n))
              | (b :: r, k) => lex_byte pos b (skipped s r (k + n))
              end).
    { intros n c Hn. rewrite IH; [| cbn in *; lia | exact Hlen | exact Hrest | exact Htl | exact Hn].
      cbn [input skipped set_input]. destruct (skip c rest) as [[| x r] k]; rewrite skipped_step; reflexivity. }
    destruct (Z.eqb_spec b 10) as [-> | Hne].
    + unfold modify. change (set_line (u16 (lineCount (skipped s rest 0) + 1)) (skipped s rest 0))
        with (skipped (skipped s rest 0) rest 1).
      rewrite skipped_step, Hgo by apply u16_range. destruct (skip false rest) as [[| x r] k]; reflexivity.
    + destruct cm; [| destruct (isHash b); [| destruct (isWhite b)]];
        try (rewrite Hgo by apply u16_range; destruct (skip _ rest) as [[| x r] k]; rewrite Z.add_0_r; reflexivity).
      reflexivity.
Qed.

(** ** [internalGetToken] *)

(** The token that the next significant byte of the input yields. *)
Definition next_token (s s' : yst) (t : Z) : Prop :=
  match skip false (input s) with
  | ([], n) => t = (if tail s =? E_EOF then TT_EOF else ERR_LEX_IO) /\ s' = skipped s [] n
  | (b :: rest, n) => input s' = rest /\ lineCount s' = u16 (lineCount s + n) /\ lexed s' b t
  end.

Lemma skipped_ok s rest n : yapl_ok s -> Forall is_u8 rest -> yapl_ok (skipped s rest n).
Proof. intros Hok Hr. apply (yapl_ok_set s); auto. apply u16_range. Qed.

Lemma Strtab_ret s : yapl_ok s ->
  StrtabAllocate s = Ret (strtabNext s, s) /\ StrtabRemaining s = Ret (STRTAB_MAX - strtabNext s, s).
Proof.
  intros Hok. pose proof (yapl_small s Hok). pose proof (yo_str s Hok).
  pose proof (to_str s (yo_tab s Hok)). unfold StrtabAllocate, StrtabRemaining, mbind, M_bind, gets.
  rewrite (u16_id (STRTAB_MAX - strtabNext s)) by (unfold is_u16, STRTAB_MAX; lia).
  rewrite (proj2 (Z.ltb_ge _ SYMLEN_MAX)) by (unfold STRTAB_MAX, SYMLEN_MAX; lia). auto.
Qed.

Lemma internalGetToken_spec s :
  yapl_ok s -> pbt s = 0 -> 0xFF < tail s ->
  exists t s', internalGetToken s = Ret (t, s') /\ next_token s s' t /\ yapl_ok s' /\
    lex_frame s s' /\ pbt s' = 0.
Proof.
  intros Hok Hpb Htl. pose proof (yapl_small s Hok) as Hsm. pose proof Hok as [Ht Hs Hstr Hl Hi].
  pose proof (to_str s Ht) as H2. destruct (Strtab_ret s Hok) as [Ha Hr]. unfold internalGetToken.
  unfold mbind, M_bind, gets. rewrite Hpb. cbn [Z.eqb negb]. rewrite Ha, Hr.
  rewrite lex_loop_spec; [| lia | unfold STRTAB_MAX; lia | exact Hi | exact Htl | exact Hl].
  unfold next_token. destruct (skip false (input s)) as [[| b rest] n] eqn:Esk.
  - exists (if tail s =? E_EOF then TT_EOF else ERR_LEX_IO), (skipped s [] n). split.
    { unfold lex_end. destruct (tail s =? E_EOF); [reflexivity |].
      rewrite (proj2 (Z.ltb_lt _ _) Htl). reflexivity. }
    split; [auto |]. split; [apply skipped_ok; auto |]. split; [constructor; reflexivity | exact Hpb].
  - destruct (skip_suffix false (input s)) as [pre Epre]. rewrite Esk in Epre. cbn [fst] in Epre.
    assert (Hbr : is_u8 b /\ Forall is_u8 rest).
    { rewrite Epre in Hi. apply Forall_app in Hi. destruct Hi as [_ Hi]. inversion_clear Hi. auto. }
    destruct Hbr as [Hb Hrest]. pose proof (skipped_ok s rest n Hok Hrest) as Hok1.
    destruct (lex_byte_spec (skipped s rest n) b Hok1 Hb) as (t & s' & Hrun & Hlex & Hpost).
    exists t, s'. cbn [strtabNext skipped set_input set_line] in Hrun. split; [exact Hrun |].
    destruct Hpost as [Hok' Hf Hin' Hln' Hpb']. split; [rewrite Hin', Hln'; auto |].
    split; [exact Hok' |]. split; [| rewrite Hpb'; exact Hpb].
    destruct Hf as [F1 F2 F3 F4 F5]. constructor; assumption.
Qed.

(** ** Output *)

(** A computation that writes the bytes [o] and does nothing else. *)
Definition prints (c : Y unit) (o : list Z) : Prop := forall s, c s = Ret (tt, set_out (out s ++ o) s).

Lemma prints_ret : prints (mret tt) [].
Proof. intros s. rewrite app_nil_r. destruct s; reflexivity. Qed.

Lemma prints_Putb v : prints (Putb v) [v].
Proof. intros s. reflexivity. Qed.

Lemma prints_seq c d o o' : prints c o -> prints d o' -> prints (c;; d) (o ++ o').
Proof.
  intros Hc Hd s. unfold mbind, M_bind. rewrite Hc, Hd. cbn [out set_out]. rewrite app_assoc. reflexivity.
Qed.

(** A continuation after a prefix of the text. *)
Lemma prints_cons v d o : prints d o -> prints (Putb v;; d) (v :: o).
Proof. intros H. apply (prints_seq _ _ [v]); [apply prints_Putb | exact H]. Qed.

Create HintDb yout.
#[export] Hint Resolve prints_ret prints_Putb prints_seq prints_cons : yout.

(** The bytes of a string constant, and the four digits of a word. *)
Fixpoint text (str : string) : list Z :=
  match str with EmptyString => [] | String c str' => byte_of c :: text str' end.

Definition hex4 (w : Z) : list Z :=
  [hexChar (Z.shiftr w 12); hexChar (Z.land (Z.shiftr w 8) 0xF);
   hexChar (Z.land (Z.shiftr w 4) 0xF); hexChar (Z.land w 0xF)].

Definition text_S (a : arg) : list Z := match a with AStr s => text s | _ => [115; 63] end.

Definition text_X (a : arg) : list Z :=
  match a with
  | AWord w => hex4 w
  | AByte w => [hexChar (Z.land (Z.shiftr w 4) 0xF); hexChar (Z.land w 0xF)]
  | _ => [63; 63; 63; 63]
  end.

Lemma prints_string str : prints (put_string str) (text str).
Proof. induction str as [| c str IH]; cbn [put_string text]; auto with yout. Qed.

Lemma prints_printS a : prints (printS a) (text_S a).
Proof. destruct a; cbn [printS text_S]; auto using prints_string with yout. Qed.

Lemma prints_printX a : prints (printX a) (text_X a).
Proof. destruct a; cbn [printX text_X]; unfold hex4; auto 10 with yout. Qed.

Lemma prints_oops : prints printOops [63; 63; 63].
Proof. unfold printOops. auto with yout. Qed.

#[export] Hint Resolve prints_printS prints_printX prints_oops : yout.

(** The text of a format and its arguments, when the arguments of the [%c]
    verbs are bytes. *)
Fixpoint format (str : string) (fmt : bool) (args : list arg) : option (list Z) :=
  match str with
  | EmptyString => Some []
  | String ch str' =>
    let c := byte_of ch in
    if fmt then
      if c =? 110 then cons 10 <$> format str' false args
      else match args with
      | [] => app [63; 63; 63] <$> format str' false args
      | a :: rest =>
        if c =? 115 then app (text_S a) <$> format str' false rest
        else if c =? 120 then app (text_X a) <$> format str' false rest
        else if c =? 99 then
          match a with AByte b => cons b <$> format str' false rest | _ => None end
        else app [63; 63; 63] <$> format str' false args
      end
    else if c =? 37 then format str' true args
    else cons c <$> format str' false args
  end.

Lemma prints_Printf str args o : format str false args = Some o -> prints (Printf str args) o.
Proof.
  unfold Printf. generalize false. revert args o. induction str as [| ch str IH]; intros args o fmt H;
    cbn [printf_loop format] in *; [injection H as <-; apply prints_ret |].
  assert (Hmap : forall c pre b l, prints c pre -> app pre <$> format str b l = Some o ->
            prints (c;; printf_loop str b l) o).
  { intros c pre b l Hc E. apply fmap_Some in E. destruct E as (o' & E & ->). auto with yout. }
  destruct fmt; [| destruct (_ =? 37); [exact (IH _ _ _ H) | exact (Hmap _ _ _ _ (prints_Putb (byte_of ch)) H)]].
  destruct (byte_of ch =? 110); [exact (Hmap _ _ _ _ (prints_Putb 10) H) |].
  destruct args as [| a rest]; [exact (Hmap _ _ _ _ prints_oops H) |].
  destruct (_ =? 115); [exact (Hmap _ _ _ _ (prints_printS a) H) |].
  destruct (_ =? 120); [exact (Hmap _ _ _ _ (prints_printX a) H) |].
  destruct (_ =? 99); [| exact (Hmap _ _ _ _ prints_oops H)].
  destruct a; try discriminate H. exact (Hmap _ _ _ _ (prints_Putb b) H).
Qed.

(** ** [GetToken] *)

Lemma token_index ty k :
  In ty [TT_USR; TT_KEY; TT_NUM] -> 0 <= k < 16384 -> TokenAsSymIndex (ty + k) = k.
Proof.
  intros Hty Hk. unfold TokenAsSymIndex. change (not16 ErrBase) with (Z.shiftl 1 14 - 1).
  rewrite land_mask by lia. change (2 ^ 14) with 16384.
  destruct Hty as [<- | [<- | [<- | []]]]; unfold TT_USR, TT_KEY, TT_NUM; Z.div_mod_to_equations; lia.
Qed.

Lemma token_not_error ty k :
  In ty [TT_USR; TT_KEY; TT_NUM] -> 0 <= k < 16384 -> IsError (ty + k) = false.
Proof.
  intros Hty Hk. apply Z.leb_gt. unfold ErrBase.
  destruct Hty as [<- | [<- | [<- | []]]]; unfold TT_USR, TT_KEY, TT_NUM; lia.
Qed.

Lemma type_bits t : is_u16 t -> Z.land t TT_TYPE = t / 16384 * 16384.
Proof.
  intros Ht. change TT_TYPE with (Z.shiftl (Z.shiftl 1 2 - 1) 14).
  rewrite land_shiftl_r, land_mask, Z.shiftr_div_pow2, Z.shiftl_mul_pow2 by lia.
  change (2 ^ 14) with 16384. change (2 ^ 2) with 4. f_equal. apply Z.mod_small. zdivmod.
Qed.

Lemma IsErrTok_IsError t : is_u16 t -> IsErrTok t = IsError t.
Proof.
  intros Ht. unfold IsErrTok, IsError. change TT_ERR with TT_TYPE. rewrite type_bits by exact Ht. unfold TT_TYPE, ErrBase.
  destruct (Z.eqb_spec (t / 16384 * 16384) 0xC000), (Z.leb_spec 0xC000 t); auto; zdivmod.
Qed.

Lemma tok_index s t ty c :
  yapl_ok s -> In ty [TT_USR; TT_KEY; TT_NUM] -> tok s t ty c ->
  TokenAsSymIndex t = t - ty /\ 0 <= t - ty < symtabNext s /\ IsError t = false.
Proof.
  intros Hok Hty (k & Hk & ->). pose proof (yapl_small s Hok). pose proof (to_sym s (yo_tab s Hok)).
  pose proof (lookup_found s c k Hk ltac:(lia)). rewrite token_index, token_not_error by (assumption || lia).
  split; [lia |]. split; [lia | reflexivity].
Qed.

(** The byte of a symbol that the lexer enters, and the text that shows it. *)
Definition symbol (b : Z) : content := if isDigit b then Num (b - 48) else Str [b].

Definition show_content (num str : string) (c : content) : list Z :=
  match c with Num v => text num ++ hex4 v ++ [10] | Str l => text str ++ take 1 l ++ [10] end.

(** What [PrintTok] and [PrintSym] read of an entry of the table. *)
Lemma entry_shown s k c :
  yapl_ok s -> contents s !! k = Some c ->
  let e := sym_at (symtab s) (Z.of_nat k) in
  0 <= Z.of_nat k < SYMTAB_MAX /\
  match c with
  | Num v => Len e = 0 /\ Val e = v
  | Str l => Len e <> 0 /\ 0 <= Val e < STRTAB_MAX /\ exists b, l = [b] /\ str_at (strtab s) (Val e) = b
  end.
Proof.
  intros Hok Hk e. pose proof (yapl_small s Hok). pose proof (yo_tab s Hok) as Ht. pose proof (to_str s Ht).
  pose proof (to_sym s Ht). pose proof (lookup_found s c k Hk ltac:(lia)) as Hr. split; [unfold SYMTAB_MAX; lia |].
  assert (Hs : simple c) by (eapply Forall_lookup_1; [apply (yo_simple s Hok) | exact Hk]).
  destruct (to_entries s Ht (Z.of_nat k) Hr) as (Hu & Hl & Hin).
  rewrite <- (Nat2Z.id k) in Hk. rewrite contents_lookup in Hk by lia. injection Hk as Hk. fold e in Hk, Hu, Hl, Hin.
  unfold content_of in Hk. destruct (Z.eqb_spec (Len e) 0) as [E | E]; subst c; [auto |].
  specialize (Hin E). unfold is_u16 in Hu. split; [exact E |]. split; [lia |].
  destruct Hs as (b & Hb & _). exists b. split; [exact Hb |].
  rewrite str_slice_cons in Hb by lia. injection Hb as Hb _. exact Hb.
Qed.

Lemma PrintTok_prints s t :
  yapl_ok s ->
  (forall e, In e [TT_EOF; ERR_LEX_IO; ERR_LEX_INVAL] -> t = e ->
     PrintTok t s = Ret (tt, set_out (out s ++ text "; token: error " ++ hex4 e ++ [10]) s)) /\
  (forall ty c, In ty [TT_USR; TT_KEY; TT_NUM] -> tok s t ty c ->
     PrintTok t s = Ret (tt, set_out (out s ++ show_content "; token: number " "; token: string " c) s)).
Proof.
  intros Hok. split.
  - intros e He ->. destruct He as [<- | [<- | [<- | []]]]; apply prints_Printf; reflexivity.
  - intros ty c Hty (k & Hk & ->). destruct (entry_shown s k c Hok Hk) as [Hkr Hc]. unfold SYMTAB_MAX in Hkr.
    unfold PrintTok. replace (IsErrTok (ty + Z.of_nat k)) with false.
    2:{ symmetry. rewrite IsErrTok_IsError; [apply token_not_error; (assumption || lia) |].
        destruct Hty as [<- | [<- | [<- | []]]]; unfold is_u16, TT_USR, TT_KEY, TT_NUM; lia. }
    rewrite token_index by (assumption || lia). unfold mbind, M_bind. rewrite read_sym_ret by (unfold SYMTAB_MAX; lia).
    destruct c as [v | l]; cbn [show_content].
    + destruct Hc as [-> <-]. apply prints_Printf. reflexivity.
    + destruct Hc as (HL & Hv & b & -> & <-). rewrite (proj2 (Z.eqb_neq _ _) HL), read_str_ret by exact Hv.
      apply prints_Printf. reflexivity.
Qed.

Record ready (s : yst) : Prop := {
  rd_ok : yapl_ok s;
  rd_tail : tail s = E_EOF
}.

Lemma ready_out s o : ready s -> ready (set_out o s).
Proof.
  intros [H1 H2]. constructor; [| exact H2]. destruct (H1) as [_ _ _ Hl Hi]. apply (yapl_ok_set s); auto.
Qed.
