(* ===== verification/YaplParse.v ===== *)
(** * The parser of YAPL-1 against a reference parser

    A YAPL-1 source text is the list of its significant characters, each with
    its line; the reference parser is a function from such lists to the nodes of
    the tree and the text printed on the way, with no tables, no tokens and no
    pushed back token.  [Parse] is shown to build those nodes, in that order
    from the end of the node array, and to print that text. *)

From S2P Require Import Prelude Text Yapl YaplSym YaplLex.

(** ** The reference parser *)

(** A significant character and the line it stands on. *)
Record lexeme := Lexeme { char : Z; at_line : Z }.

Fixpoint lexemes (comment : bool) (ln : Z) (inp : list Z) : list lexeme :=
  match inp with
  | [] => []
  | b :: rest =>
    if b =? 10 then lexemes false (u16 (ln + 1)) rest
    else if comment then lexemes true ln rest
    else if isHash b then lexemes true ln rest
    else if isWhite b then lexemes false ln rest
    else Lexeme b ln :: lexemes false ln rest
  end.

Definition legal (b : Z) : bool := isDigit b || isLowerLetter b || isUpperLetter b || isPunctuation b.

(** The nodes of the tree: a declared symbol, a syntax error, the program with
    its number of nodes. *)
Inductive node := NDecl (b : Z) | NError | NProgram (n : Z).

(** What a production yields: the text printed, the nodes made, and the
    characters left, or none when the parse is over. *)
Record yield := Yield { printed : list Z; made : list node; left : option (list lexeme) }.

Definition after (o : list Z) (ns : list node) (y : yield) : yield :=
  Yield (o ++ printed y) (ns ++ made y) (left y).

Definition show_error (code : Z) : list Z := text "; token: error " ++ hex4 code ++ [10].

Definition show_char (b : Z) : list Z :=
  if legal b then show_content "; token: number " "; token: string " (symbol b) else show_error ERR_LEX_INVAL.

Definition show_expected (what : string) (ln : Z) : list Z :=
  text "; syntax error: line " ++ hex4 ln ++ text ": expected " ++ text what ++
  text " but got TODO TokenToString()" ++ [10].

(** Skip through a semicolon or a closing brace. *)
Fixpoint skip_to_end (l : list lexeme) : list Z * list lexeme :=
  match l with
  | [] => (show_error TT_EOF, [])
  | x :: l' =>
    if (char x =? 59) || (char x =? 125) then (show_char (char x), l')
    else (show_char (char x) ++ (skip_to_end l').1, (skip_to_end l').2)
  end.

Definition bad (what : string) (x : lexeme) (l : list lexeme) : yield :=
  Yield (show_expected what (at_line x) ++ (skip_to_end l).1) [NError] (Some (skip_to_end l).2).

(** The next character, if there is one and it is legal. *)
Definition expect (l : list lexeme) (k : lexeme -> list lexeme -> yield) : yield :=
  match l with
  | [] => Yield (show_error TT_EOF) [] None
  | x :: l' => after (show_char (char x)) [] (if legal (char x) then k x l' else Yield [] [] None)
  end.

Definition ref_variable (l : list lexeme) : yield :=
  expect l (fun v l1 => after [] [NDecl (char v)]
    (expect l1 (fun t l2 =>
       if (char t =? 59) || (char t =? 61) then Yield [] [] (Some l2)
       else bad "semicolon or assignment" t l2))).

Definition ref_declaration (l : list lexeme) : yield :=
  expect l (fun t l1 =>
    if char t =? 86 then ref_variable l1
    else if char t =? 70 then Yield [] [] (Some l1)
    else bad "declaration" t l1).

(** Declarations to the end of the text; each consumes a character. *)
Fixpoint ref_program (fuel : nat) (l : list lexeme) : list Z * list node :=
  match fuel with
  | O => ([], [])
  | S fuel' =>
    let y := ref_declaration l in
    match left y with
    | None => (printed y, made y)
    | Some l' => let r := ref_program fuel' l' in (printed y ++ r.1, made y ++ r.2)
    end
  end.

Definition source_lexemes (data : list Z) : list lexeme := lexemes false 1 data.

Definition ref_parse (data : list Z) : list Z * list node :=
  ref_program (S (length (source_lexemes data))) (source_lexemes data).

(** The main program's listing: the nodes from the program on. *)
Definition show_sym (nd : node) : list Z :=
  match nd with
  | NError => text "; SymIndex TT_ERR ????" ++ [10]
  | NDecl b => text "; SymIndex ???? " ++ show_content "num " "sym " (symbol b)
  | NProgram _ => text "; SymIndex ???? sym P" ++ [10]
  end.

Definition show_node (a : Z) (nd : node) : list Z := text "AstNode " ++ hex4 a ++ text " Sym " ++ show_sym nd.

Fixpoint show_nodes (a : Z) (l : list node) : list Z :=
  match l with [] => [] | nd :: l' => show_node a nd ++ show_nodes (a + 1) l' end.

Definition tree (ns : list node) : list node := ns ++ [NProgram (1 + Z.of_nat (length ns))].

Definition ref_listing (data : list Z) : list Z :=
  let r := ref_parse data in
  r.1 ++ show_nodes (AstMaxNode - 1 - Z.of_nat (length r.2)) (rev (tree r.2)).

(** ** Characters and tokens *)

Lemma lexemes_skip comment ln inp :
  is_u16 ln ->
  lexemes comment ln inp =
    match skip comment inp with
    | ([], _) => []
    | (b :: rest, n) => Lexeme b (u16 (ln + n)) :: lexemes false (u16 (ln + n)) rest
    end.
Proof.
  revert comment ln. induction inp as [| b rest IH]; intros comment ln Hln; cbn [lexemes skip]; [reflexivity |].
  destruct (b =? 10).
  - rewrite IH by apply u16_range. destruct (skip false rest) as [[| x r] n]; cbn [fst snd]; [reflexivity |].
    unfold u16. rewrite Zplus_mod_idemp_l. replace (ln + 1 + n) with (ln + (n + 1)) by lia. reflexivity.
  - destruct comment; [apply IH, Hln |]. destruct (isHash b); [apply IH, Hln |].
    destruct (isWhite b); [apply IH, Hln |]. rewrite Z.add_0_r, u16_id by exact Hln. reflexivity.
Qed.

Lemma lexed_cases s b t :
  lexed s b t ->
  if legal b then exists ty, In ty [TT_USR; TT_KEY; TT_NUM] /\ tok s t ty (symbol b) else t = ERR_LEX_INVAL.
Proof.
  unfold lexed, legal, symbol. intros H. destruct (isDigit b); cbn [orb]; [eexists; split; [| exact H]; cbn; auto |].
  destruct (isLowerLetter b); cbn [orb]; [eexists; split; [| exact H]; cbn; auto |].
  destruct (isUpperLetter b || isPunctuation b); [eexists; split; [| exact H]; cbn; auto | exact H].
Qed.

(** The language symbols of the table. *)
Definition lang_contents : list content := Num 0 :: ((fun p => Str [p.1]) <$> langSymbols).

(** The tokens that the parser compares with, by their characters. *)
Definition marks : list (Z * Z) := [(86, tok_V); (70, tok_F); (59, SEMI); (61, EQU); (125, BCLOSE)].

Lemma mark_token s b t c tc :
  yapl_ok s -> lang_contents `prefix_of` contents s -> lexed s b t -> In (c, tc) marks -> (t =? tc) = (b =? c).
Proof.
  intros Hok Hpre Hlex Hin. pose proof (yapl_small s Hok) as Hsm. pose proof (to_sym s (yo_tab s Hok)) as Hsy.
  assert (Hc : exists k0 : nat, lang_contents !! k0 = Some (Str [c]) /\ tc = TT_KEY + Z.of_nat k0 /\
            isDigit c = false /\ isLowerLetter c = false /\ isUpperLetter c || isPunctuation c = true).
  { destruct Hin as [E | [E | [E | [E | [E | []]]]]]; injection E as <- <-;
      [exists 10%nat | exists 6%nat | exists 12%nat | exists 13%nat | exists 15%nat]; repeat split; reflexivity. }
  destruct Hc as (k0 & Hk0 & -> & Hcd & Hcl & Hcu). pose proof (prefix_lookup_Some _ _ _ _ Hk0 Hpre) as Hk1.
  pose proof (lookup_found s _ k0 Hk1 ltac:(lia)) as Hr0. unfold lexed in Hlex.
  assert (Hne : forall ty k, In ty [TT_USR; TT_NUM] -> 0 <= k <= 266 -> (ty + k =? TT_KEY + Z.of_nat k0) = false).
  { intros ty k Hty Hk. apply Z.eqb_neq. destruct Hty as [<- | [<- | []]]; unfold TT_USR, TT_NUM, TT_KEY; lia. }
  assert (Hbc : b = c -> (isDigit b = false) /\ isLowerLetter b = false /\ isUpperLetter b || isPunctuation b = true) by (intros ->; auto).
  destruct (Z.eqb_spec b c) as [E | E]; [destruct (Hbc E) as (H1 & H2 & H3); rewrite H1, H2, H3 in Hlex |].
  - destruct Hlex as (k & Hk & ->). subst c. pose proof (NoDup_lookup _ _ _ _ (to_nodup s (yo_tab s Hok)) Hk Hk1). apply Z.eqb_eq. lia.
  - destruct (isDigit b); [destruct Hlex as (k & Hk & ->); pose proof (lookup_found s _ k Hk ltac:(lia)); apply Hne; cbn; auto; lia |].
    destruct (isLowerLetter b); [destruct Hlex as (k & Hk & ->); pose proof (lookup_found s _ k Hk ltac:(lia)); apply Hne; cbn; auto; lia |].
    destruct (isUpperLetter b || isPunctuation b).
    + destruct Hlex as (k & Hk & ->). apply Z.eqb_neq. intros Ek. replace k with k0 in Hk by lia. congruence.
    + subst t. apply Z.eqb_neq. unfold ERR_LEX_INVAL, TT_KEY. lia.
Qed.

(** ** The state of a parse *)

(** A node of the array represents a node of the tree. *)
Definition node_is (s : yst) (nd : node) (a : AstNode) : Prop :=
  match nd with
  | NDecl b => exists k : nat, contents s !! k = Some (symbol b) /\ a = MkAst (Z.of_nat k) 1 AstKindUsr AstXtraDecl
  | NError => a = MkAst TT_ERR 1 AstKindError 0
  | NProgram n => a = MkAst 8 n 0 0
  end.

Lemma node_is_grows s s' nd a : contents s `prefix_of` contents s' -> node_is s nd a -> node_is s' nd a.
Proof.
  intros Hp. destruct nd; cbn; auto. intros (k & Hk & ->). exists k. split; [eapply prefix_lookup_Some; eauto | reflexivity].
Qed.

(** The nodes made so far lie at the end of the array, the first at the end. *)
Record built (ns : list node) (s : yst) : Prop := {
  bt_next : astNodeNext s = AstMaxNode - 1 - Z.of_nat (length ns);
  bt_room : (length ns <= 2047)%nat;
  bt_nodes : forall k nd, ns !! k = Some nd -> node_is s nd (ast_at (AstNodes s) (AstMaxNode - 1 - Z.of_nat k));
  bt_free : forall i, i <= astNodeNext s -> ast_at (AstNodes s) i = MkAst 0 0 0 0
}.

Lemma built_ext ns s s' :
  AstNodes s' = AstNodes s -> astNodeNext s' = astNodeNext s -> contents s `prefix_of` contents s' -> built ns s -> built ns s'.
Proof.
  intros E1 E2 Hp [H1 H2 H3 H4]. constructor; rewrite ?E1, ?E2; auto.
  intros k nd Hk. eapply node_is_grows; eauto.
Qed.

(** The characters [l] are left to read; [o] has been printed, [ns] made. *)
Record parsing (o : list Z) (ns : list node) (l : list lexeme) (s : yst) : Prop := {
  pg_ready : ready s;
  pg_keys : lang_contents `prefix_of` contents s;
  pg_pbt : pbt s = 0 \/ (pbt s = TT_EOF /\ l = []);
  pg_input : lexemes false (lineCount s) (input s) = l;
  pg_out : out s = o;
  pg_built : built ns s
}.

Lemma ready_set s s' :
  strtab s' = strtab s -> symtab s' = symtab s -> symtabNext s' = symtabNext s -> strtabNext s' = strtabNext s ->
  lineCount s' = lineCount s -> input s' = input s -> tail s' = tail s -> ready s -> ready s'.
Proof.
  intros E1 E2 E3 E4 E5 E6 E7 [Hok Ht]. destruct (Hok) as [_ _ _ Hl Hi].
  constructor; [| congruence]. apply (yapl_ok_set s); auto; congruence.
Qed.

(** Printing. *)
Lemma parsing_out o ns l s o' : parsing o ns l s -> parsing (o ++ o') ns l (set_out (out s ++ o') s).
Proof.
  intros [H1 H2 H3 H4 H5 H6]. constructor; auto using ready_out; [cbn; congruence |].
  apply (built_ext ns s); auto; reflexivity.
Qed.

(** [GetToken] reads the next character and shows it. *)
Lemma internal_reads o ns l s :
  parsing o ns l s ->
  exists t s', internalGetToken s = Ret (t, s') /\ pbt s' = 0 /\
    match l with
    | [] => t = TT_EOF /\ parsing o ns [] s'
    | x :: l' => lexed s' (char x) t /\ lineCount s' = at_line x /\ parsing o ns l' s'
    end.
Proof.
  intros [[Hok Htl] Hk Hpb Hin Hout Hb]. destruct Hpb as [Hpb | [Hpb ->]].
  2:{ exists TT_EOF, (set_pbt 0 s). split; [unfold internalGetToken, mbind, M_bind, gets; rewrite Hpb; reflexivity |].
      split; [reflexivity |]. split; [reflexivity |]. constructor; auto; [| apply (built_ext ns s); auto; reflexivity].
      apply (ready_set s); auto. constructor; auto. }
  destruct (internalGetToken_spec s Hok Hpb) as (t & s' & Hrun & Hn & Hok' & [F1 F2 F3 F4 F5] & Hpb'); [rewrite Htl; unfold E_EOF; lia |].
  exists t, s'. split; [exact Hrun |]. split; [exact Hpb' |].
  assert (Hgo : forall l', lexemes false (lineCount s') (input s') = l' -> parsing o ns l' s').
  { intros l' Hl'. constructor; auto; [constructor; congruence | etransitivity; eassumption | congruence |].
    apply (built_ext ns s); auto. }
  unfold next_token in Hn. rewrite lexemes_skip in Hin by apply Hok.
  destruct (skip false (input s)) as [[| b rest] n]; subst l.
  - destruct Hn as [-> ->]. rewrite Htl. split; [reflexivity |]. apply Hgo; auto.
  - destruct Hn as (Hi & Hl & Hlex). split; [exact Hlex |]. split; [exact Hl |]. apply Hgo; auto. congruence.
Qed.

Lemma GetToken_reads o ns l s :
  parsing o ns l s ->
  exists t s', GetToken s = Ret (t, s') /\ pbt s' = 0 /\
    match l with
    | [] => t = TT_EOF /\ parsing (o ++ show_error TT_EOF) ns [] s'
    | x :: l' => lexed s' (char x) t /\ lineCount s' = at_line x /\ parsing (o ++ show_char (char x)) ns l' s'
    end.
Proof.
  intros Hp. destruct (internal_reads o ns l s Hp) as (t & s1 & Hrun & Hpb & Hm).
  unfold GetToken, mbind, M_bind. rewrite Hrun.
  destruct l as [| x l'].
  - destruct Hm as [-> Hp1]. destruct (PrintTok_prints s1 TT_EOF (rd_ok _ (pg_ready _ _ _ _ Hp1))) as [He _].
    rewrite (He TT_EOF (or_introl eq_refl) eq_refl). do 2 eexists. split; [reflexivity |]. split; [exact Hpb |]. split; [reflexivity | apply parsing_out, Hp1].
  - destruct Hm as (Hlex & Hln & Hp1). destruct (PrintTok_prints s1 t (rd_ok _ (pg_ready _ _ _ _ Hp1))) as [He Ht].
    assert (Hpr : PrintTok t s1 = Ret (tt, set_out (out s1 ++ show_char (char x)) s1)).
    { pose proof (lexed_cases s1 (char x) t Hlex) as Hc. unfold show_char. destruct (legal (char x)).
      - destruct Hc as (ty & Hty & Htok). exact (Ht ty _ Hty Htok).
      - apply (He ERR_LEX_INVAL); [cbn; auto | exact Hc]. }
    rewrite Hpr. do 2 eexists. split; [reflexivity |]. split; [exact Hpb |].
    split; [exact Hlex |]. split; [exact Hln | apply parsing_out, Hp1].
Qed.

(** [IsAstError] recognises the error nodes of a tree. *)
Definition is_NError (nd : node) : bool := match nd with NError => true | _ => false end.

Lemma IsAstError_node ns s k nd :
  built ns s -> ns !! k = Some nd -> IsAstError (AstMaxNode - 1 - Z.of_nat k) s = Ret (is_NError nd, s).
Proof.
  intros [_ B2 B3 _] Hk. specialize (B3 k nd Hk). apply lookup_lt_Some in Hk. unfold IsAstError, IsSyntaxErrorNode, AstMaxNode in *.
  replace (IsError (2048 - 1 - Z.of_nat k)) with false by (symmetry; apply Z.leb_gt; unfold ErrBase; lia).
  unfold read_ast, mbind, M_bind. rewrite in_array_true by (unfold AstMaxNode; lia). unfold gets.
  destruct nd as [b | | n]; cbn [node_is] in B3; [destruct B3 as (j & _ & E) | rename B3 into E | rename B3 into E]; rewrite E; reflexivity.
Qed.

(** ** Running the productions *)

(** [runs n c Q s]: [c] brings the number of nodes made to [n]; it returns, in
    [Q], if the array has room for them, and else ends in the panic of
    [allocAstNode]. *)
Definition runs {A} (n : nat) (c : Y A) (Q : A -> yst -> Prop) (s : yst) : Prop :=
  if (n <=? 2047)%nat then exists a s', c s = Ret (a, s') /\ Q a s' else c s = Panic "out of AST nodes".

Lemma runs_bind {A B} n m (c : Y A) (f : A -> Y B) Q s :
  (n <= m)%nat -> runs n c (fun a s' => runs m (f a) Q s') s -> runs m (c ≫= f) Q s.
Proof.
  intros Hnm. unfold runs, mbind, M_bind. destruct (Nat.leb_spec n 2047).
  - intros (a & s' & -> & H'). exact H'.
  - intros ->. destruct (Nat.leb_spec m 2047); [lia | reflexivity].
Qed.

Lemma runs_step {A B} m (c : Y A) (f : A -> Y B) Q s a s' :
  c s = Ret (a, s') -> runs m (f a) Q s' -> runs m (c ≫= f) Q s.
Proof. intros Hc. unfold runs, mbind, M_bind. rewrite Hc. auto. Qed.

Lemma runs_ret {A} n (a : A) (Q : A -> yst -> Prop) s : (n <= 2047)%nat -> Q a s -> runs n (mret a) Q s.
Proof. intros Hn HQ. unfold runs. rewrite (proj2 (Nat.leb_le _ _) Hn). eexists _, _. split; [reflexivity | exact HQ]. Qed.

Lemma runs_mono {A} n (c : Y A) (Q R : A -> yst -> Prop) s :
  runs n c Q s -> (forall a s', Q a s' -> R a s') -> runs n c R s.
Proof. unfold runs. destruct (_ <=? _)%nat; [| auto]. intros (a & s' & H & HQ) HR. eauto 6. Qed.

(** Allocation, with the node written at once. *)
Lemma alloc_runs o ns l s nd (w : Z -> Y unit) v :
  parsing o ns l s -> node_is s nd v ->
  (forall i s', 0 <= i < AstMaxNode -> ast_at (AstNodes s') i = MkAst 0 0 0 0 -> w i s' = write_ast i v s') ->
  runs (length ns + 1) (i ← allocAstNode; w i;; mret i)
    (fun r s' => 1 <= r < AstMaxNode /\ r = AstMaxNode - 1 - Z.of_nat (length ns) /\
       parsing o (ns ++ [nd]) l s' /\ pbt s' = pbt s /\ lineCount s' = lineCount s) s.
Proof.
  intros [H1 H2 H3 H4 H5 [B1 B2 B3 B4]] Hv Hw. unfold runs, allocAstNode, mbind, M_bind, gets, Assert, modify.
  rewrite B1. unfold AstMaxNode in *. destruct (Nat.leb_spec (length ns + 1) 2047) as [Hl | Hl].
  2:{ rewrite (proj2 (Z.leb_gt _ _)) by lia. reflexivity. }
  rewrite (proj2 (Z.leb_le 1 _)) by lia. cbn [mret M_ret]. set (i := 2048 - 1 - Z.of_nat (length ns)) in *.
  rewrite Hw; [| lia | cbn; apply B4; lia]. unfold write_ast. rewrite in_array_true by (unfold AstMaxNode; lia).
  rewrite u16_id by (unfold is_u16; lia). unfold modify. eexists _, _. split; [reflexivity |].
  split; [lia |]. split; [reflexivity |]. split; [| split; reflexivity].
  constructor; auto; [apply (ready_set s); auto |]. constructor; cbn [astNodeNext set_ast set_astnext AstNodes].
  - rewrite length_app. cbn. unfold AstMaxNode. lia.
  - rewrite length_app. cbn. lia.
  - intros k n Hk. unfold AstMaxNode, ast_at. destruct (Nat.eq_dec k (length ns)) as [-> | Hne].
    + rewrite lookup_app_r, Nat.sub_diag in Hk by lia. injection Hk as <-.
      replace (2048 - 1 - Z.of_nat (length ns)) with i by reflexivity. rewrite lookup_insert_eq. exact Hv.
    + assert (Hkl : (k < length ns)%nat) by (apply lookup_lt_Some in Hk; rewrite length_app in Hk; cbn in Hk; lia).
      rewrite lookup_app_l in Hk by exact Hkl. rewrite lookup_insert_ne by lia. apply B3, Hk.
  - intros j Hj. unfold ast_at. rewrite lookup_insert_ne by lia. apply B4. lia.
Qed.

Lemma MakeAstNode_runs o ns l s nd sym size kind xtra :
  parsing o ns l s -> node_is s nd (MkAst sym size kind xtra) ->
  runs (length ns + 1) (MakeAstNode sym size kind xtra)
    (fun r s' => 1 <= r < AstMaxNode /\ r = AstMaxNode - 1 - Z.of_nat (length ns) /\
       parsing o (ns ++ [nd]) l s' /\ pbt s' = pbt s /\ lineCount s' = lineCount s) s.
Proof. intros Hp Hv. apply (alloc_runs o ns l s nd (fun i => write_ast i _) _ Hp Hv). auto. Qed.

(** [resync] skips to the end of the declaration. *)
Lemma resync_reads fuel o ns l s :
  parsing o ns l s -> (length l < fuel)%nat ->
  exists s', resync fuel s = Ret (tt, s') /\ parsing (o ++ (skip_to_end l).1) ns (skip_to_end l).2 s'.
Proof.
  revert o l s. induction fuel as [| fuel IH]; intros o l s Hp Hf; [lia |]. cbn [resync].
  destruct (GetToken_reads o ns l s Hp) as (t & s1 & Hrun & Hpb & Hm). unfold mbind, M_bind. rewrite Hrun.
  destruct l as [| x l']; cbn [skip_to_end].
  - destruct Hm as [-> [H1 H2 H3 H4 H5 H6]]. exists (set_pbt TT_EOF s1).
    split.
    { change (negb (TT_EOF =? SEMI) && negb (TT_EOF =? BCLOSE) && negb (TT_EOF =? TT_EOF)) with false.
      change (TT_EOF =? TT_EOF) with true. cbv iota. unfold PushbackToken, mbind, M_bind, gets. rewrite Hpb. reflexivity. }
    cbn [fst snd].
    constructor; auto; [apply (ready_set s1); auto | apply (built_ext ns s1); auto; reflexivity].
  - destruct Hm as (Hlex & _ & Hp1). pose proof (rd_ok _ (pg_ready _ _ _ _ Hp1)) as Hok.
    pose proof (fun c tc => mark_token s1 (char x) t c tc Hok (pg_keys _ _ _ _ Hp1) Hlex) as Hmk.
    rewrite (Hmk 59 SEMI), (Hmk 125 BCLOSE) by (cbn; auto 10).
    assert (Hne : (t =? TT_EOF) = false).
    { apply Z.eqb_neq. intros ->. pose proof (lexed_cases s1 _ _ Hlex) as Hc. destruct (legal (char x)); [| discriminate Hc].
      destruct Hc as (ty & Hty & Htok). destruct (tok_index s1 _ ty _ Hok Hty Htok) as (_ & _ & He). discriminate He. }
    rewrite Hne. destruct (char x =? 59); [exists s1; auto |]. destruct (char x =? 125); [exists s1; auto |].
    cbn [negb andb orb fst snd]. destruct (IH _ l' s1 Hp1) as (s2 & Hr2 & Hp2); [cbn in Hf; lia |].
    exists s2. split; [exact Hr2 |]. rewrite app_assoc. exact Hp2.
Qed.

(** What a production does: the text and the nodes of the reference, and an
    error result exactly when the parse is over. *)
Definition yields (c : Y Z) (y : yield) (o : list Z) (ns : list node) (s : yst) : Prop :=
  runs (length ns + length (made y)) c
    (fun r s' =>
       IsError r = (match left y with Some _ => false | None => true end) /\
       exists l', parsing (o ++ printed y) (ns ++ made y) l' s' /\ forall l'', left y = Some l'' -> l' = l'') s.

Lemma yields_ret o ns l s r : parsing o ns l s -> IsError r = false -> yields (mret r) (Yield [] [] (Some l)) o ns s.
Proof.
  intros Hp He. apply runs_ret; [cbn; pose proof (bt_room _ _ (pg_built _ _ _ _ Hp)); lia |]. cbn [printed made left].
  rewrite !app_nil_r. split; [exact He |]. exists l. split; [exact Hp | congruence].
Qed.

Lemma yields_error o ns l s e : parsing o ns l s -> IsError e = true -> yields (ErrorAsAstIndex e) (Yield [] [] None) o ns s.
Proof.
  intros Hp He. unfold yields, runs. pose proof (bt_room _ _ (pg_built _ _ _ _ Hp)) as Hr. cbn [made left printed length].
  rewrite (proj2 (Nat.leb_le _ _)) by lia. unfold ErrorAsAstIndex. rewrite ErrorAs_ret by (apply Z.leb_le; exact He).
  eexists _, _. split; [reflexivity |]. split; [exact He |]. rewrite !app_nil_r. exists l. split; [exact Hp | discriminate].
Qed.

Lemma yields_after c y o ns s o1 : yields c y (o ++ o1) ns s -> yields c (after o1 [] y) o ns s.
Proof.
  intros H. unfold yields, after in *. cbn [made left printed]. eapply runs_mono; [exact H |].
  intros r s' [He (l' & Hp & Hl)]. split; [exact He |]. exists l'. rewrite app_assoc. auto.
Qed.

(** The shape in which every token is read. *)
Lemma expect_yields (f : Z -> Y Z) k o ns l s :
  parsing o ns l s ->
  (forall x l' t s1, l = x :: l' -> IsError t = false -> lexed s1 (char x) t -> legal (char x) = true ->
     lineCount s1 = at_line x -> parsing (o ++ show_char (char x)) ns l' s1 ->
     yields (f t) (k x l') (o ++ show_char (char x)) ns s1) ->
  yields (t ← GetToken; if IsError t then ErrorAsAstIndex t else f t) (expect l k) o ns s.
Proof.
  intros Hp Hf. destruct (GetToken_reads o ns l s Hp) as (t & s1 & Hrun & _ & Hm). unfold yields. eapply runs_step; [exact Hrun |].
  destruct l as [| x l']; cbn [expect].
  - destruct Hm as [-> Hp1]. change (IsError TT_EOF) with true. cbv iota.
    pose proof (yields_after _ (Yield [] [] None) o ns s1 _ (yields_error _ ns [] s1 TT_EOF Hp1 eq_refl)) as H.
    unfold after in H. cbn [printed made left] in H. rewrite !app_nil_r in H. exact H.
  - destruct Hm as (Hlex & Hln & Hp1). pose proof (lexed_cases s1 _ _ Hlex) as Hc.
    apply yields_after. destruct (legal (char x)) eqn:El.
    + destruct Hc as (ty & Hty & Htok). destruct (tok_index s1 t ty _ (rd_ok _ (pg_ready _ _ _ _ Hp1)) Hty Htok) as (_ & _ & He).
      rewrite He. apply Hf; auto.
    + subst t. apply (yields_error _ ns l'); [exact Hp1 | reflexivity].
Qed.

(** The node of a syntax error keeps its [Xtra] field, which is still zero. *)
Definition error_node (i : Z) : Y unit :=
  sym ← ErrorAsSymIndex TT_ERR; old ← read_ast i; write_ast i (MkAst sym 1 AstKindError (Xtra old)).

Lemma syntaxError_eq fuel msg t s :
  syntaxError fuel msg t s =
  (n ← LineNumber;
   Printf "; syntax error: line %x: expected %s but got %s%n" [AWord n; AStr msg; AStr (TokenToString t)];;
   r ← (i ← allocAstNode; error_node i;; mret i);
   resync fuel;; mret r) s.
Proof.
  unfold syntaxError, error_node, mbind, M_bind. destruct (LineNumber s) as [[n s1] | w]; [| reflexivity].
  destruct (Printf _ _ s1) as [[u s2] | w]; [| reflexivity]. destruct (allocAstNode s2) as [[i s3] | w]; [| reflexivity].
  destruct (ErrorAsSymIndex TT_ERR s3) as [[sym s4] | w]; [| reflexivity].
  destruct (read_ast i s4) as [[old s5] | w]; [| reflexivity].
  destruct (write_ast i _ s5) as [[v s6] | w]; reflexivity.
Qed.

Lemma syntaxError_yields fuel msg t x o ns l s :
  parsing o ns l s -> (length l < fuel)%nat -> lineCount s = at_line x ->
  yields (syntaxError fuel msg t) (bad msg x l) o ns s.
Proof.
  intros Hp Hf Hln. unfold yields, runs. rewrite syntaxError_eq. revert s Hp Hln.
  change (forall s, parsing o ns l s -> lineCount s = at_line x ->
    yields (n ← LineNumber;
      Printf "; syntax error: line %x: expected %s but got %s%n" [AWord n; AStr msg; AStr (TokenToString t)];;
      r ← (i ← allocAstNode; error_node i;; mret i); resync fuel;; mret r) (bad msg x l) o ns s).
  intros s Hp Hln. unfold yields. eapply runs_step; [reflexivity |]. rewrite Hln.
  assert (Hpr : prints (Printf "; syntax error: line %x: expected %s but got %s%n" [AWord (at_line x); AStr msg; AStr (TokenToString t)])
            (show_expected msg (at_line x))).
  { apply prints_Printf. reflexivity. }
  eapply runs_step; [apply Hpr |]. apply (parsing_out _ _ _ _ (show_expected msg (at_line x))) in Hp.
  unfold bad. cbn [made printed left length]. eapply runs_bind; [reflexivity |].
  eapply runs_mono; [apply (alloc_runs _ ns l _ NError error_node (MkAst TT_ERR 1 AstKindError 0) Hp); [reflexivity |] |].
  - intros i s' Hi H0. unfold error_node, mbind, M_bind, ErrorAsSymIndex. rewrite ErrorAs_ret by (unfold TT_ERR; lia).
    unfold read_ast. rewrite in_array_true by exact Hi. unfold gets. rewrite H0. reflexivity.
  - intros r s' (Hr & -> & Hp' & _). destruct (resync_reads fuel _ _ l s' Hp' Hf) as (s2 & Hrs & Hp2).
    eapply runs_step; [exact Hrs |]. apply runs_ret.
    { pose proof (bt_room _ _ (pg_built _ _ _ _ Hp2)) as Hb. rewrite length_app in Hb. exact Hb. }
    split; [apply Z.leb_gt; unfold ErrBase, AstMaxNode in *; lia |]. eexists. rewrite app_assoc. split; [exact Hp2 | congruence].
Qed.

Lemma variable_yields fuel o ns l s :
  parsing o ns l s -> (length l < fuel)%nat -> yields (variable fuel) (ref_variable l) o ns s.
Proof.
  intros Hp Hf. apply expect_yields; [exact Hp |]. intros v l1 t s1 -> He Hlex Hleg Hln Hp1. cbn in Hf.
  replace (negb (IsUsrTok t)) with false by (unfold IsUsrTok, TT_USR; rewrite Z.land_0_r; reflexivity).
  pose proof (lexed_cases s1 _ _ Hlex) as Hc. rewrite Hleg in Hc. destruct Hc as (ty & Hty & Htok).
  pose proof (rd_ok _ (pg_ready _ _ _ _ Hp1)) as Hok1.
  destruct (tok_index s1 t ty _ Hok1 Hty Htok) as (Hi & Hr & _). rewrite Hi. destruct Htok as (k & Hk & ->).
  replace (ty + Z.of_nat k - ty) with (Z.of_nat k) by lia.
  set (y := expect l1 _). unfold yields, after. cbn [made printed left app length].
  eapply runs_bind; [| eapply runs_mono; [apply (MakeAstNode_runs _ ns l1 s1 (NDecl (char v)) _ 1 AstKindUsr AstXtraDecl Hp1) |]];
    [lia | exists k; auto |].
  intros r s2 (Hr2 & -> & Hp2 & _). cbn [app].
  assert (H : yields (t ← GetToken; if IsError t then ErrorAsAstIndex t else
                if t =? SEMI then mret (AstMaxNode - 1 - Z.of_nat (length ns)) else if t =? EQU then assign
                else syntaxError fuel "semicolon or assignment" t) y (o ++ show_char (char v)) (ns ++ [NDecl (char v)]) s2).
  { apply expect_yields; [exact Hp2 |]. intros x l2 t s3 -> _ Hlex3 _ Hln3 Hp3. cbn in Hf.
    pose proof (fun c tc => mark_token s3 (char x) t c tc (rd_ok _ (pg_ready _ _ _ _ Hp3)) (pg_keys _ _ _ _ Hp3) Hlex3) as Hmk.
    rewrite (Hmk 59 SEMI), (Hmk 61 EQU) by (cbn; auto 10).
    destruct (char x =? 59); [apply yields_ret; [exact Hp3 | apply Z.leb_gt; unfold ErrBase, AstMaxNode in *; lia] |].
    destruct (char x =? 61); [apply yields_ret; [exact Hp3 | reflexivity] |].
    apply syntaxError_yields; [exact Hp3 | lia | exact Hln3]. }
  unfold yields in H. rewrite length_app in H. cbn [length] in H. rewrite <- Nat.add_assoc in H.
  eapply runs_mono; [exact H |]. intros r' s' [He' (l' & Hp' & Hl')]. split; [exact He' |]. exists l'.
  rewrite <- (app_assoc ns) in Hp'. split; [exact Hp' | exact Hl'].
Qed.

Lemma declaration_yields fuel o ns l s :
  parsing o ns l s -> (length l <= fuel)%nat -> yields (declaration fuel) (ref_declaration l) o ns s.
Proof.
  intros Hp Hf. apply expect_yields; [exact Hp |]. intros x l1 t s1 -> _ Hlex _ Hln Hp1. cbn in Hf.
  pose proof (fun c tc => mark_token s1 (char x) t c tc (rd_ok _ (pg_ready _ _ _ _ Hp1)) (pg_keys _ _ _ _ Hp1) Hlex) as Hmk.
  rewrite (Hmk 86 tok_V), (Hmk 70 tok_F) by (cbn; auto).
  destruct (char x =? 86); [apply variable_yields; [exact Hp1 | lia] |].
  destruct (char x =? 70); [apply yields_ret; [exact Hp1 | reflexivity] |].
  apply syntaxError_yields; [exact Hp1 | lia | exact Hln].
Qed.

(** Every production of the reference consumes a character, unless the parse is
    over. *)
Lemma skip_to_end_length l : (length (skip_to_end l).2 <= length l)%nat.
Proof.
  induction l as [| x l IH]; cbn [skip_to_end]; [cbn; lia |].
  destruct (_ || _); cbn [snd length]; lia.
Qed.

Lemma expect_length l k l' :
  left (expect l k) = Some l' ->
  exists x l1, l = x :: l1 /\ left (k x l1) = Some l'.
Proof.
  destruct l as [| x l1]; cbn; [discriminate |]. destruct (legal (char x)); cbn; [| discriminate]. eauto.
Qed.

Lemma bad_length what x l l' : left (bad what x l) = Some l' -> (length l' <= length l)%nat.
Proof. cbn. intros E. injection E as <-. apply skip_to_end_length. Qed.

Lemma ref_declaration_length l l' : left (ref_declaration l) = Some l' -> (length l' < length l)%nat.
Proof.
  intros H. apply expect_length in H. destruct H as (x & l1 & -> & H). cbn [length].
  destruct (char x =? 86).
  - apply expect_length in H. destruct H as (v & l2 & -> & H). apply (expect_length l2) in H.
    destruct H as (t & l3 & -> & H). cbn [length]. destruct (_ || _); [injection H as <- | apply bad_length in H]; lia.
  - destruct (char x =? 70); [injection H as <- | apply bad_length in H]; lia.
Qed.

Lemma declarations_runs fuel o ns l s :
  parsing o ns l s -> (length l < fuel)%nat ->
  forall fuel', (length l < fuel')%nat ->
  let r := ref_program fuel' l in
  runs (length ns + length r.2) (declarations fuel) (fun _ s' => exists l', parsing (o ++ r.1) (ns ++ r.2) l' s') s.
Proof.
  revert o ns l s. induction fuel as [| fuel IH]; intros o ns l s Hp Hf fuel' Hf' r; [lia |].
  destruct fuel' as [| fuel']; [lia |]. subst r. cbn [ref_program declarations].
  pose proof (declaration_yields fuel o ns l s Hp ltac:(lia)) as Hd. unfold yields in Hd.
  pose proof (ref_declaration_length l) as Hlt. destruct (left (ref_declaration l)) as [l' |] eqn:El; cbn [fst snd].
  - eapply runs_bind; [| eapply runs_mono; [exact Hd |]]; [rewrite length_app; lia |].
    intros r s' [-> (l2 & Hp' & Hl2)]. cbn [negb]. rewrite (Hl2 l' eq_refl) in Hp'. specialize (Hlt l' eq_refl).
    specialize (IH _ _ _ _ Hp' ltac:(lia) fuel' ltac:(lia)). cbn zeta in IH.
    rewrite !length_app in *. rewrite Nat.add_assoc. eapply runs_mono; [exact IH |].
    intros _ s2 (l3 & Hp2). exists l3. rewrite !app_assoc. exact Hp2.
  - eapply runs_bind; [reflexivity |]. eapply runs_mono; [exact Hd |].
    intros r s' [-> (l2 & Hp' & _)]. cbn [negb]. apply runs_ret; [| eauto].
    pose proof (bt_room _ _ (pg_built _ _ _ _ Hp')) as Hb. rewrite length_app in Hb. exact Hb.
Qed.

(** [Parse], on a text not yet read: the node of the program comes last. *)
Lemma Parse_runs fuel o l s :
  parsing o [] l s -> (length l < fuel)%nat ->
  let r := ref_program (S (length l)) l in
  runs (length (tree r.2)) (Parse fuel)
    (fun a s' => a = AstMaxNode - 1 - Z.of_nat (length r.2) /\ 1 <= a /\ exists l', parsing (o ++ r.1) (tree r.2) l' s') s.
Proof.
  intros Hp Hf r. unfold Parse, program. eapply runs_step; [reflexivity |]. unfold tree. rewrite length_app. cbn [length].
  pose proof (declarations_runs fuel o [] l s Hp Hf (S (length l)) ltac:(lia)) as Hd. fold r in Hd. cbn zeta in Hd.
  eapply runs_bind; [| eapply runs_mono; [exact Hd |]]; [cbn; lia |]. intros _ s1 (l1 & Hp1). cbn [app] in Hp1.
  change (IsError 0) with false. cbv iota. pose proof (pg_built _ _ _ _ Hp1) as [B1 B2 _ _].
  pose proof (bt_next _ _ (pg_built _ _ _ _ Hp)) as B0. cbn [length] in B0. rewrite B0.
  set (n := length r.2) in *. unfold AstMaxNode in *.
  eapply (runs_step _ _ _ _ _ (Z.of_nat n) s1).
  { unfold AllocatedSince, mbind, M_bind, gets. rewrite B1. unfold Assert.
    replace (2048 - 1 - Z.of_nat 0 - (2048 - 1 - Z.of_nat n)) with (Z.of_nat n) by lia.
    rewrite u16_id by (unfold is_u16; lia). rewrite (proj2 (Z.ltb_lt _ AstMaxNode)) by (unfold AstMaxNode; lia). reflexivity. }
  rewrite u16_id by (unfold is_u16; lia).
  eapply runs_mono; [apply (MakeAstNode_runs _ r.2 l1 s1 (NProgram (1 + Z.of_nat n)) _ _ _ _ Hp1); reflexivity |].
  intros a s2 (Ha & -> & Hp2 & _). split; [reflexivity |]. split; [lia | eauto].
Qed.

(** ** The listing *)

Lemma PrintSym_symbol s k c :
  yapl_ok s -> contents s !! k = Some c ->
  PrintSym (Z.of_nat k) s = Ret (tt, set_out (out s ++ text "; SymIndex ???? " ++ show_content "num " "sym " c) s).
Proof.
  intros Hok Hk. destruct (entry_shown s k c Hok Hk) as [Hr Hc]. unfold SYMTAB_MAX in Hr. unfold PrintSym.
  replace (IsError (Z.of_nat k)) with false by (symmetry; apply Z.leb_gt; unfold ErrBase; lia).
  replace (Z.land (Z.of_nat k) (not16 ErrBase)) with (Z.of_nat k).
  2:{ change (not16 ErrBase) with (Z.shiftl 1 14 - 1). rewrite land_mask by lia. symmetry. apply Z.mod_small. lia. }
  unfold mbind, M_bind. rewrite (prints_Printf "; SymIndex %x " [AOther] (text "; SymIndex ???? ") eq_refl s).
  rewrite read_sym_ret by (unfold SYMTAB_MAX; lia). set (s1 := set_out _ s). change (symtab s1) with (symtab s).
  assert (Hend : forall d o', prints d o' ->
            d s1 = Ret (tt, set_out (out s ++ text "; SymIndex ???? " ++ o') s)).
  { intros d o' Hd. rewrite Hd. unfold s1. cbn [out set_out]. rewrite <- app_assoc. reflexivity. }
  destruct c as [v | l].
  - destruct Hc as [-> <-]. apply Hend, prints_Printf. reflexivity.
  - destruct Hc as (HL & Hv & b & -> & <-). rewrite (proj2 (Z.eqb_neq _ _) HL), read_str_ret by exact Hv.
    apply Hend, prints_Printf. reflexivity.
Qed.

Lemma PrintSym_node o ns l s nd a :
  parsing o ns l s -> node_is s nd a -> PrintSym (Sym a) s = Ret (tt, set_out (out s ++ show_sym nd) s).
Proof.
  intros Hp Ha. pose proof (rd_ok _ (pg_ready _ _ _ _ Hp)) as Hok. destruct nd as [b | | n]; cbn [node_is show_sym] in *.
  - destruct Ha as (k & Hk & ->). apply PrintSym_symbol; assumption.
  - subst a. apply prints_Printf. reflexivity.
  - subst a. apply (PrintSym_symbol s 8 (Str [80])); [exact Hok |].
    eapply prefix_lookup_Some; [| apply (pg_keys _ _ _ _ Hp)]. reflexivity.
Qed.

Lemma print_nodes_shows k o ns l s :
  parsing o ns l s -> (k <= length ns)%nat ->
  print_nodes k (AstMaxNode - Z.of_nat k) s =
    Ret (tt, set_out (out s ++ show_nodes (AstMaxNode - Z.of_nat k) (rev (take k ns))) s).
Proof.
  revert o s. induction k as [| k IH]; intros o s Hp Hk; [cbn; rewrite app_nil_r; destruct s; reflexivity |].
  destruct (lookup_lt_is_Some_2 ns k ltac:(lia)) as [nd Hnd]. pose proof (pg_built _ _ _ _ Hp) as [_ B2 B3 _].
  cbn [print_nodes]. set (a := AstMaxNode - Z.of_nat (S k)). unfold mbind, M_bind.
  rewrite (prints_Printf "AstNode %x Sym " [AWord a] (text "AstNode " ++ hex4 a ++ text " Sym ") eq_refl s).
  set (h := text "AstNode " ++ hex4 a ++ text " Sym "). apply (parsing_out _ _ _ _ h) in Hp. set (s1 := set_out _ s) in *.
  unfold read_ast. rewrite in_array_true by (unfold a, AstMaxNode; lia). unfold gets. change (AstNodes s1) with (AstNodes s).
  specialize (B3 k nd Hnd). replace (AstMaxNode - 1 - Z.of_nat k) with a in B3 by (unfold a; lia).
  rewrite (PrintSym_node _ ns l s1 nd _ Hp B3). apply (parsing_out _ _ _ _ (show_sym nd)) in Hp.
  replace (a + 1) with (AstMaxNode - Z.of_nat k) by (unfold a; lia). rewrite (IH _ _ Hp) by lia.
  rewrite (take_S_r ns k nd Hnd), rev_app_distr. cbn [rev app show_nodes].
  replace (a + 1) with (AstMaxNode - Z.of_nat k) by (unfold a; lia).
  unfold s1, h, show_node. cbn [out set_out]. rewrite <- !app_assoc. reflexivity.
Qed.
