(* ===== verification/YaplTheorems.v ===== *)
(** * The theorems of the YAPL-1 compiler

    Initialisation, interning, lexing, the tree and the listing of the compiler
    against the reference parser, the token encoding and the output routines. *)

From S2P Require Import Prelude Text Yapl YaplSym YaplLex YaplParse.

(** ** Initialisation *)

(** The state after [Init]. *)
Definition init_state (data : list Z) (tl : Z) : yst :=
  match Init (yst0 data tl) with Ret (_, s) => s | Panic _ => yst0 data tl end.

Definition entry_okb (s : yst) (e : Syment) : bool :=
  (0 <=? Val e) && (Val e <? 65536) && (0 <=? Len e) && (Len e <=? SYMLEN_MAX) &&
  ((Len e =? 0) || (Val e + Len e <=? strtabNext s)).

Lemma entry_okb_ok s e : entry_okb s e = true -> entry_ok s e.
Proof.
  unfold entry_okb, entry_ok, is_u16. intros H. bool_facts. split; [lia |]. split; [lia |]. intros Hne.
  apply orb_true_iff in H0. destruct H0 as [H0 | H0]; bool_facts; [contradiction | lia].
Qed.

Lemma Init_run data tl : Init (yst0 data tl) = Ret (tt, init_state data tl).
Proof. vm_compute. reflexivity. Qed.

Lemma init_fields data tl :
  symtabNext (init_state data tl) = 18 /\ strtabNext (init_state data tl) = 18 /\
  input (init_state data tl) = data /\ tail (init_state data tl) = tl /\ pbt (init_state data tl) = 0 /\
  lineCount (init_state data tl) = 1 /\ astNodeNext (init_state data tl) = 2047 /\
  out (init_state data tl) = [].
Proof. vm_compute. repeat split. Qed.

Lemma init_contents data tl :
  contents (init_state data tl) = Num 0 :: ((fun p => Str [p.1]) <$> langSymbols).
Proof. vm_compute. reflexivity. Qed.

Lemma init_entries data tl :
  forallb (fun i => entry_okb (init_state data tl) (sym_at (symtab (init_state data tl)) i)) (seqZ 0 18) = true.
Proof. vm_compute. reflexivity. Qed.

Lemma init_ok data tl : Forall is_u8 data -> yapl_ok (init_state data tl).
Proof.
  intros Hd. destruct (init_fields data tl) as (H1 & H2 & H3 & H4 & H5 & H6 & H7 & _).
  constructor; rewrite ?init_contents, ?H1, ?H2, ?H3, ?H6; try (unfold is_u16; lia); try exact Hd.
  - constructor; rewrite ?H1, ?H2; try (unfold SYMTAB_MAX, STRTAB_MAX; lia).
    + intros i Hi. apply entry_okb_ok. pose proof (init_entries data tl) as He. rewrite forallb_forall in He.
      apply He. apply list_elem_of_In, elem_of_seqZ. lia.
    + rewrite init_contents. apply (bool_decide_unpack _). vm_compute. exact I.
  - unfold langSymbols. cbn [fmap list_fmap fst].
    repeat (apply Forall_cons_2; [first [eexists; split; [reflexivity | unfold is_u8; lia] | cbn; lia] |]).
    apply Forall_nil_2.
Qed.

(** Initialisation establishes the tables.  [SymInit] ends without an error
    message for every input; the tables then hold the reserved entry and the 17
    language symbols, each under the index that its token constant encodes, and
    satisfy the invariant of the lexer. *)
Theorem init_language_symbols (data : list Z) (tl : Z) (Hd : Forall is_u8 data) :
  exists s, Init (yst0 data tl) = Ret (tt, s) /\ yapl_ok s /\ out s = [] /\
    forall c t, In (c, t) langSymbols -> tok s t TT_KEY (Str [c]).
Proof.
  exists (init_state data tl). split; [apply Init_run |]. split; [apply init_ok, Hd |].
  split; [apply init_fields |]. intros c t Hin. unfold tok. rewrite init_contents.
  repeat (destruct Hin as [E | Hin];
    [injection E as <- <-; match goal with |- context [?t = TT_KEY + _] =>
       exists (Z.to_nat (t - TT_KEY)); split; [vm_compute; reflexivity | reflexivity] end |]).
  destruct Hin.
Qed.

Lemma init_language_symbols_witness :
  exists s, Init (yst0 [86; 32; 97; 59] E_EOF) = Ret (tt, s) /\ tok s SEMI TT_KEY (Str [59]).
Proof.
  destruct (init_language_symbols [86; 32; 97; 59] E_EOF) as (s & H & _ & _ & Ht).
  - repeat apply Forall_cons_2; try apply Forall_nil_2; unfold is_u8; lia.
  - exists s. split; [exact H |]. apply Ht. vm_compute. auto 20.
Defined.

(** ** The symbol table *)

(** C32: the symbol table is a list of distinct symbols of at most 16
    characters, and [SymEnter] interns such symbols.  The request is a number, or
    a string of one byte's length that waits at the end of the string table and
    fits it.  For a number and for a string of at most 16 characters: a symbol
    that is present keeps its index and changes nothing, a new one gets the next
    index and leaves all the others where they were, only a full table is an
    error, which changes nothing, and the table is again a list of distinct
    symbols.  For a longer string [SymLookup] reports [ERR_INT_TOOBIG], which
    [SymEnter] does not: unless the table is full it enters the string at the
    next index, also when the table holds it already. *)
Theorem SymEnter_interns (s : yst) (val len : Z) (Hok : tab_ok s) (Hr : request s val len) :
  let c := content_of (strtab s) (MkSym val len 0) in
  exists r s', SymEnter val len s = Ret (r, s') /\
    (symtabNext s = SYMTAB_MAX /\ (len <= SYMLEN_MAX -> c ∉ contents s) -> r = ERR_INT_NOSYM /\ s' = s) /\
    (len <= SYMLEN_MAX -> tab_ok s' /\
      ((exists k : nat, contents s !! k = Some c /\ r = Z.of_nat k /\ s' = s) \/
       ((c ∉ contents s) /\ symtabNext s = SYMTAB_MAX /\ r = ERR_INT_NOSYM /\ s' = s) \/
       ((c ∉ contents s) /\ r = symtabNext s /\ contents s' = contents s ++ [c] /\
        strtabNext s' = strtabNext s + len))) /\
    (SYMLEN_MAX < len ->
      SymLookup val len s = Ret (ERR_INT_TOOBIG, s) /\
      (symtabNext s < SYMTAB_MAX -> r = symtabNext s /\ contents s' = contents s ++ [c] /\
         strtabNext s' = strtabNext s + len)).
Proof.
  intros c. pose proof (to_sym s Hok) as Hs. destruct (Z.le_gt_cases len SYMLEN_MAX) as [Hl | Hl].
  - pose proof (request_short s val len Hr Hl) as Hr'.
    destruct (SymEnter_spec s val len Hok Hr') as (r & s' & Hrun & H). fold c in H.
    exists r, s'. split; [exact Hrun |]. split; [| split; [intros _ | lia]].
    + intros [Hf Hn]. specialize (Hn Hl). destruct H as [(k & Hk & _) | [(_ & _ & H) | (_ & Hroom & _)]]; [| exact H | lia].
      destruct Hn. eapply list_elem_of_lookup_2, Hk.
    + destruct H as [(k & Hk & -> & ->) | [(Hn & Hf & -> & ->) | (Hn & Hroom & -> & ->)]].
      * split; [exact Hok |]. left. eauto.
      * split; [exact Hok |]. right. left. auto.
      * destruct Hr' as (R1 & R2 & R3 & R4). split; [apply appended_ok; auto |]. right. right.
        split; [exact Hn |]. split; [reflexivity |]. split; [apply contents_appended; lia | reflexivity].
  - destruct (SymEnter_long s val len Hok Hr Hl) as [Hlook Hrun]. rewrite Hrun.
    destruct (Z.leb_spec SYMTAB_MAX (symtabNext s)) as [Hfull | Hroom].
    + exists ERR_INT_NOSYM, s. split; [reflexivity |]. split; [auto |]. split; [lia |]. split; [exact Hlook | lia].
    + exists (symtabNext s), (appended s val len). split; [reflexivity |]. split; [lia |]. split; [lia |].
      intros _. split; [exact Hlook |]. intros _. split; [reflexivity |].
      split; [apply contents_appended; lia | reflexivity].
Qed.

(** A string of 17 zero bytes is entered twice, at two indices. *)
Lemma SymEnter_interns_witness :
  (exists r s', SymEnter 7 0 (init_state [] E_EOF) = Ret (r, s') /\ tab_ok s' /\ r = 18) /\
  (exists s', SymEnter (strtabNext (init_state [] E_EOF)) 17 (init_state [] E_EOF) = Ret (18, s') /\
     contents s' = contents (init_state [] E_EOF) ++ [Str (replicate 17 0)] /\
     exists s'', SymEnter (strtabNext s') 17 s' = Ret (19, s'') /\
       contents s'' = contents s' ++ [Str (replicate 17 0)]).
Proof.
  assert (Hok : tab_ok (init_state [] E_EOF)) by apply (yo_tab _ (init_ok [] E_EOF (Forall_nil_2 _))).
  destruct (init_fields [] E_EOF) as (_ & H2 & _). split.
  - destruct (SymEnter_interns (init_state [] E_EOF) 7 0 Hok) as (r & s' & H & _ & Hs & _).
    { unfold request, is_u16, is_u8, STRTAB_MAX. rewrite H2. repeat split; lia. }
    destruct Hs as [Hs _]; [unfold SYMLEN_MAX; lia |].
    exists r, s'. split; [exact H |]. split; [exact Hs |]. vm_compute in H. injection H as <- _. reflexivity.
  - destruct (SymEnter_interns (init_state [] E_EOF) (strtabNext (init_state [] E_EOF)) 17 Hok) as (r & s' & H & _ & _ & Hs).
    { unfold request, is_u16, is_u8, STRTAB_MAX. rewrite H2. repeat split; lia. }
    destruct Hs as [_ Hs]; [reflexivity |]. destruct Hs as (Hr & Hc & _); [reflexivity |].
    exists s'. rewrite Hr in H. split; [exact H |]. split; [exact Hc |].
    vm_compute in H. injection H as <-. eexists. split; vm_compute; reflexivity.
Defined.

(** ** The lexer *)

(** C33: the lexer is faithful.  With nothing pushed back, [internalGetToken]
    skips white space and comments, counts the lines passed, consumes one more
    byte and returns the token of that byte: its class (number, user symbol,
    language symbol) and, through the symbol table, the digit or character
    itself; another byte is [ERR_LEX_INVAL], and the end of the input [TT_EOF] or
    [ERR_LEX_IO].  The table invariant is kept and no symbol changes its index;
    in particular the string and symbol tables are never full. *)
Theorem lexer_faithful (s : yst) (Hok : yapl_ok s) (Hpb : pbt s = 0) (Htl : 0xFF < tail s) :
  exists t s', internalGetToken s = Ret (t, s') /\ next_token s s' t /\ yapl_ok s' /\
    contents s `prefix_of` contents s' /\ symtabNext s' <= 266.
Proof.
  destruct (internalGetToken_spec s Hok Hpb Htl) as (t & s' & Hrun & Hn & Hok' & Hf & _).
  exists t, s'. pose proof (yapl_small s' Hok'). destruct Hf. auto 6.
Qed.

Lemma lexer_faithful_witness :
  exists t s', internalGetToken (init_state [35; 10; 32; 55] E_EOF) = Ret (t, s') /\
    tok s' t TT_NUM (Num 7) /\ lineCount s' = 2 /\ input s' = [].
Proof.
  destruct (init_fields [35; 10; 32; 55] E_EOF) as (_ & _ & Hin & Htl & Hpb & Hln & _).
  destruct (lexer_faithful (init_state [35; 10; 32; 55] E_EOF)) as (t & s' & H & Hn & _).
  - apply init_ok. repeat apply Forall_cons_2; try apply Forall_nil_2; unfold is_u8; lia.
  - exact Hpb.
  - rewrite Htl. reflexivity.
  - exists t, s'. split; [exact H |]. unfold next_token in Hn. rewrite Hin, Hln in Hn. cbn in Hn.
    destruct Hn as (H1 & H2 & H3). auto.
Defined.

(** ** The parser and the main program *)

Lemma init_nodes data tl : AstNodes (init_state data tl) = ∅.
Proof. vm_compute. reflexivity. Qed.

Lemma init_parsing data :
  Forall is_u8 data -> parsing [] [] (source_lexemes data) (init_state data E_EOF).
Proof.
  intros Hd. destruct (init_fields data E_EOF) as (Hsy & _ & Hin & Htl & Hpb & Hln & Hn & Ho).
  constructor; [constructor; [apply init_ok, Hd | exact Htl] | rewrite init_contents; reflexivity
    | left; exact Hpb | rewrite Hin, Hln; reflexivity | exact Ho |].
  constructor; [rewrite Hn; reflexivity | cbn; lia | intros k nd Hk; discriminate Hk |].
  intros i _. rewrite init_nodes. unfold ast_at. rewrite lookup_empty. reflexivity.
Qed.

Lemma tree_length ns : length (tree ns) = (length ns + 1)%nat.
Proof. unfold tree. rewrite length_app. reflexivity. Qed.

(** [Init] and [Parse] on a source text. *)
Lemma compile_runs data fuel :
  Forall is_u8 data -> (length (source_lexemes data) < fuel)%nat ->
  let r := ref_parse data in
  runs (length (tree r.2)) (Init;; Parse fuel)
    (fun a s => a = AstMaxNode - 1 - Z.of_nat (length r.2) /\ 1 <= a /\ exists l, parsing r.1 (tree r.2) l s)
    (yst0 data E_EOF).
Proof.
  intros Hd Hf r. eapply runs_step; [apply Init_run |]. apply (Parse_runs fuel [] _ _ (init_parsing data Hd) Hf).
Qed.

(** C34: the parser implements the reference parser.  On every source text
    [Parse] terminates (fuel beyond the number of significant characters is
    enough) and builds the nodes of the reference: the first at the end of the
    array and each next one below it, a declaration with the index of its symbol,
    an error node, which [IsAstError] recognises, for every syntax error, the program, whose size spans the tree,
    last and returned; all other nodes stay zero.  A text whose tree does not
    fit the array ends in the panic of [allocAstNode], and only such a text. *)
Theorem parser_builds_tree (data : list Z) (fuel : nat) (Hd : Forall is_u8 data)
    (Hf : (length (source_lexemes data) < fuel)%nat) :
  let ns := (ref_parse data).2 in
  if (length ns <=? 2046)%nat then
    exists s, (Init;; Parse fuel) (yst0 data E_EOF) = Ret (AstMaxNode - 1 - Z.of_nat (length ns), s) /\
      (forall k nd, tree ns !! k = Some nd -> node_is s nd (ast_at (AstNodes s) (AstMaxNode - 1 - Z.of_nat k))) /\
      (forall k nd, tree ns !! k = Some nd -> IsAstError (AstMaxNode - 1 - Z.of_nat k) s = Ret (is_NError nd, s)) /\
      (forall i, i < AstMaxNode - 1 - Z.of_nat (length ns) -> ast_at (AstNodes s) i = MkAst 0 0 0 0)
  else (Init;; Parse fuel) (yst0 data E_EOF) = Panic "out of AST nodes".
Proof.
  intros ns. pose proof (compile_runs data fuel Hd Hf) as H. cbn zeta in H. fold ns in H. unfold runs in H.
  rewrite tree_length in H. destruct (Nat.leb_spec (length ns) 2046) as [Hl | Hl].
  - rewrite (proj2 (Nat.leb_le _ _)) in H by lia. destruct H as (a & s & Hrun & -> & _ & l & Hp).
    exists s. split; [exact Hrun |]. destruct (pg_built _ _ _ _ Hp) as [B1 _ B3 B4].
    split; [exact B3 |]. split; [intros k nd; apply IsAstError_node, (pg_built _ _ _ _ Hp) |]. intros i Hi. apply B4. rewrite B1, tree_length. lia.
  - rewrite (proj2 (Nat.leb_gt _ _)) in H by lia. exact H.
Qed.

(** [V a; V 7 b; ?] *)
Definition sample_source : list Z := [86; 32; 97; 59; 35; 10; 86; 55; 98; 59; 63].

Lemma parser_builds_tree_witness :
  exists s, (Init;; Parse 12) (yst0 sample_source E_EOF) = Ret (2044, s) /\
    ast_at (AstNodes s) 2045 = MkAst TT_ERR 1 AstKindError 0 /\
    ast_at (AstNodes s) 2044 = MkAst 8 4 0 0.
Proof.
  assert (Hd : Forall is_u8 sample_source) by (repeat apply Forall_cons_2; try apply Forall_nil_2; unfold is_u8; lia).
  destruct (parser_builds_tree sample_source 12 Hd) as (s & H & Hn & _); [vm_compute; lia |].
  exists s. split; [exact H |].
  pose proof (Hn 2%nat NError eq_refl) as H2. pose proof (Hn 3%nat (NProgram 4) eq_refl) as H3.
  split; [exact H2 | exact H3].
Defined.

(** C35: the listing.  The main program, on every source text whose tree
    fits the array, terminates and prints exactly the reference's text: a line
    for every token read, a message with its line number for every syntax error,
    and then one line for every node, the program first and the first
    declaration last. *)
Theorem compiler_listing (data : list Z) (fuel : nat) (Hd : Forall is_u8 data)
    (Hf : (length (source_lexemes data) < fuel)%nat) (Hfit : (length (ref_parse data).2 <= 2046)%nat) :
  exists s, main fuel (yst0 data E_EOF) = Ret (tt, s) /\ out s = ref_listing data.
Proof.
  pose proof (compile_runs data fuel Hd Hf) as H. cbn zeta in H. unfold runs in H. rewrite tree_length in H.
  rewrite (proj2 (Nat.leb_le _ _)) in H by lia. destruct H as (a & s & Hrun & Ha & H1 & l & Hp).
  unfold ref_listing. set (ns := (ref_parse data).2) in *.
  pose proof (print_nodes_shows (length (tree ns)) _ _ _ _ Hp ltac:(lia)) as Hpr. rewrite tree_length in Hpr.
  rewrite <- (tree_length ns), firstn_all, tree_length in Hpr.
  replace (AstMaxNode - Z.of_nat (length ns + 1)) with a in Hpr by lia. rewrite Ha in Hpr at 2. rewrite (pg_out _ _ _ _ Hp) in Hpr.
  eexists. split; [| exact (f_equal out (eq_refl (set_out _ s)))].
  unfold main. unfold mbind, M_bind in *. rewrite Init_run in *. rewrite Hrun.
  replace (Z.to_nat (AstMaxNode - a)) with (length ns + 1)%nat by lia. exact Hpr.
Qed.

Lemma compiler_listing_witness :
  exists s, main 12 (yst0 sample_source E_EOF) = Ret (tt, s) /\ out s = ref_listing sample_source.
Proof.
  apply (compiler_listing sample_source 12); [| vm_compute; lia | vm_compute; lia].
  repeat apply Forall_cons_2; try apply Forall_nil_2; unfold is_u8; lia.
Defined.

(** The text of a list of declarations, and its tree. *)
Fixpoint declare (cs : list Z) : list Z :=
  match cs with [] => [] | c :: cs' => 86 :: c :: 59 :: declare cs' end.

Lemma legal_significant c ln rest : legal c = true -> lexemes false ln (c :: rest) = Lexeme c ln :: lexemes false ln rest.
Proof.
  unfold legal, isDigit, isLowerLetter, isUpperLetter, isPunctuation. intros H. cbn [lexemes].
  replace (c =? 10) with false by lia. unfold isHash, isWhite. replace (c =? 35) with false by lia.
  replace ((c =? 32) || (c =? 9) || (c =? 10)) with false by lia. reflexivity.
Qed.

Lemma declare_tree cs ln fuel :
  Forall (fun c => legal c = true) cs -> (length (lexemes false ln (declare cs)) < fuel)%nat ->
  (ref_program fuel (lexemes false ln (declare cs))).2 = NDecl <$> cs.
Proof.
  intros Hcs. revert fuel. induction Hcs as [| c cs Hc Hcs IH]; intros fuel Hf; cbn [declare] in *.
  - destruct fuel; [cbn in Hf; lia | reflexivity].
  - rewrite !legal_significant in * by (exact Hc || reflexivity). destruct fuel as [| fuel]; [lia |]. cbn [length] in Hf.
    cbn [ref_program ref_declaration ref_variable expect after left made printed char legal]. rewrite Hc.
    cbn. rewrite IH by lia. reflexivity.
Qed.

Lemma legal_u8 c : legal c = true -> is_u8 c.
Proof. unfold legal, isDigit, isLowerLetter, isUpperLetter, isPunctuation, is_u8. lia. Qed.

Lemma declare_u8 cs : Forall (fun c => legal c = true) cs -> Forall is_u8 (declare cs).
Proof.
  induction 1 as [| c cs Hc _ IH]; cbn [declare]; [constructor |].
  repeat (apply Forall_cons_2; [first [apply legal_u8, Hc | unfold is_u8; lia] |]). exact IH.
Qed.

(** A text of declarations is read back: the tree of [V c;] for a list of legal
    characters holds these symbols in order, no error, and the program. *)
Theorem declarations_round_trip (cs : list Z) (fuel : nat) (Hc : Forall (fun c => legal c = true) cs)
    (Hl : (length cs <= 2046)%nat) (Hf : (length (source_lexemes (declare cs)) < fuel)%nat) :
  exists s, (Init;; Parse fuel) (yst0 (declare cs) E_EOF) = Ret (AstMaxNode - 1 - Z.of_nat (length cs), s) /\
    ast_at (AstNodes s) (AstMaxNode - 1 - Z.of_nat (length cs)) = MkAst 8 (1 + Z.of_nat (length cs)) 0 0 /\
    forall k c, cs !! k = Some c -> node_is s (NDecl c) (ast_at (AstNodes s) (AstMaxNode - 1 - Z.of_nat k)).
Proof.
  pose proof (compile_runs (declare cs) fuel (declare_u8 cs Hc) Hf) as H. cbn zeta in H. unfold runs in H.
  assert (Ht : (ref_parse (declare cs)).2 = NDecl <$> cs) by (apply declare_tree; [exact Hc | apply Nat.lt_succ_diag_r]).
  rewrite tree_length, Ht, length_fmap in H. rewrite (proj2 (Nat.leb_le _ _)) in H by lia.
  destruct H as (a & s & Hrun & -> & _ & l & Hp). exists s. split; [exact Hrun |].
  destruct (pg_built _ _ _ _ Hp) as [_ _ B3 _]. unfold tree in B3. split.
  - specialize (B3 (length cs) (NProgram (1 + Z.of_nat (length cs)))). apply B3.
    rewrite lookup_app_r by (rewrite length_fmap; lia). rewrite length_fmap, Nat.sub_diag. reflexivity.
  - intros k c Hk. apply B3. apply lookup_app_l_Some. rewrite list_lookup_fmap, Hk. reflexivity.
Qed.

(** C36: a read error is not recovered from.  Once the input is used up and every
    read fails, [resync] reads the same error token for ever: no amount of fuel
    is enough, and a compiler that resynchronises there after a syntax error hangs. *)
Theorem resync_diverges_on_io_error (fuel : nat) (s : yst) (Hok : yapl_ok s) (Hpb : pbt s = 0)
    (Hin : input s = []) (Htl : tail s = E_IOERR) :
  resync fuel s = Panic out_of_fuel.
Proof.
  revert s Hok Hpb Hin Htl. induction fuel as [| fuel IH]; intros s Hok Hpb Hin Htl; [reflexivity |].
  destruct (internalGetToken_spec s Hok Hpb) as (t & s' & Hrun & Hn & Hok' & _ & Hpb');
    [rewrite Htl; unfold E_IOERR; lia |].
  unfold next_token in Hn. rewrite Hin in Hn. cbn [skip] in Hn. rewrite Htl in Hn. destruct Hn as [-> ->].
  change (E_IOERR =? E_EOF) with false in Hrun. cbv iota in Hrun.
  destruct (PrintTok_prints _ ERR_LEX_IO Hok') as [Ho _].
  specialize (Ho ERR_LEX_IO (or_intror (or_introl eq_refl)) eq_refl).
  cbn [resync]. unfold GetToken. unfold mbind, M_bind. rewrite Hrun, Ho. cbn [mret M_ret].
  change (negb (ERR_LEX_IO =? SEMI) && negb (ERR_LEX_IO =? BCLOSE) && negb (ERR_LEX_IO =? TT_EOF)) with true.
  cbv iota. apply IH; auto. destruct Hok' as [? ? ? ? ?]. apply (yapl_ok_set (skipped s [] 0)); auto.
  constructor; auto.
Qed.

Lemma resync_diverges_on_io_error_witness : resync 1000 (init_state [] E_IOERR) = Panic out_of_fuel.
Proof.
  destruct (init_fields [] E_IOERR) as (_ & _ & Hin & Htl & Hpb & _).
  apply (resync_diverges_on_io_error 1000 (init_state [] E_IOERR) (init_ok [] E_IOERR (Forall_nil_2 _)) Hpb Hin Htl).
Defined.

(** ** The token encoding *)

(** The four token types partition the words, by quarters, and [IsMatch]
    implements its contract: it never reaches its assertion, an error matches
    nothing, a language symbol only itself, a user symbol or a number any token
    of its own type. *)
Theorem token_match (m t : Z) (s : yst) (Hm : is_u16 m) (Ht : is_u16 t) :
  IsErrTok t = IsError t /\
  exists b, IsMatch m t s = Ret (b, s) /\
    (b = true <->
       IsError m = false /\
       if (TT_KEY <=? m) && (m <? TT_NUM) then t = m else t / 16384 = m / 16384).
Proof.
  assert (Hq : m / 16384 = 0 \/ m / 16384 = 1 \/ m / 16384 = 2 \/ m / 16384 = 3) by zdivmod.
  split.
  - apply IsErrTok_IsError, Ht.
  - unfold IsMatch, IsError. rewrite !type_bits by assumption. unfold ErrBase, TT_KEY, TT_NUM, TT_ERR, ErrBase, TT_USR.
    destruct Hq as [E | [E | [E | E]]]; rewrite E; cbn [Z.mul Z.eqb Pos.eqb orb Pos.mul];
      eexists; (split; [reflexivity |]);
      destruct (Z.leb_spec 0xC000 m), (Z.leb_spec 0x4000 m), (Z.ltb_spec m 0x8000); cbn [andb];
      try (exfalso; zdivmod); rewrite ?Z.eqb_eq; split; try (intros H; discriminate H); try tauto;
      intros; try split; try reflexivity; try zdivmod.
Qed.

Lemma token_match_witness : exists b, IsMatch SEMI SEMI (yst0 [] E_EOF) = Ret (b, yst0 [] E_EOF) /\ b = true.
Proof.
  destruct (token_match SEMI SEMI (yst0 [] E_EOF)) as (_ & b & H & Hb); try (vm_compute; split; congruence).
  exists b. split; [exact H |]. apply Hb. split; reflexivity.
Defined.

(** [IsUsrTok] accepts every token, so the parser's test that a variable's
    name is a user symbol never fails: [V 7;] declares a variable and no syntax
    error is printed. *)
Theorem IsUsrTok_accepts_everything :
  (forall t, IsUsrTok t = true) /\
  exists s', (Init;; Parse 10) (yst0 [86; 32; 55; 59] E_EOF) = Ret (2046, s') /\
    Kind (ast_at (AstNodes s') 2047) = AstKindUsr /\
    contents s' !! Z.to_nat (Sym (ast_at (AstNodes s') 2047)) = Some (Num 7).
Proof.
  split; [intros t; unfold IsUsrTok, TT_USR; rewrite Z.land_0_r; reflexivity |].
  eexists. split; [vm_compute; reflexivity |]. split; reflexivity.
Qed.

(** ** Output *)

Lemma hexChar_digit d : 0 <= d < 16 -> hexChar d = byte_of (digit_char d).
Proof.
  intros Hd. unfold hexChar, byte_of, digit_char.
  rewrite Ascii.nat_ascii_embedding by (destruct (Z.ltb_spec d 10); lia).
  destruct (Z.ltb_spec d 10); rewrite Z2Nat.id by lia; reflexivity.
Qed.

(** The value of a list of hexadecimal digits. *)
Definition hex_value (l : list Z) : Z :=
  fold_left (fun acc c => acc * 16 + (if c <? 58 then c - 48 else c - 55)) l 0.

Lemma hexChar_value d : 0 <= d < 16 -> (if hexChar d <? 58 then hexChar d - 48 else hexChar d - 55) = d.
Proof.
  intros Hd. unfold hexChar. destruct (Z.ltb_spec d 10);
    [rewrite (proj2 (Z.ltb_lt _ _)) by lia | rewrite (proj2 (Z.ltb_ge _ _)) by lia]; lia.
Qed.

(** [printX] prints a word as exactly four hexadecimal digits that read
    back as the word; a symbol index, whose dynamic type is not [Word], is
    printed as four question marks. *)
Theorem printX_reads_back (w : Z) (s : yst) (Hw : is_u16 w) :
  (exists ds, printX (AWord w) s = Ret (tt, set_out (out s ++ ds) s) /\ length ds = 4%nat /\
     hex_value ds = w) /\
  printX AOther s = Ret (tt, set_out (out s ++ [63; 63; 63; 63]) s).
Proof.
  split.
  - eexists. split.
    { cbn [printX]. unfold Putb, mbind, M_bind, modify. cbn [out set_out]. rewrite <- !app_assoc. reflexivity. }
    split; [reflexivity |]. unfold hex_value. cbn [fold_left app].
    assert (Hl : forall x, Z.land x 0xF = x mod 16) by (intros x; apply (land_mask x 4); lia).
    rewrite !Hl, !Z.shiftr_div_pow2 by lia. change (2 ^ 12) with 4096. change (2 ^ 8) with 256. change (2 ^ 4) with 16.
    rewrite !hexChar_value by zdivmod. zdivmod.
  - cbn [printX]. unfold Putb, mbind, M_bind, modify. cbn [out set_out]. rewrite <- !app_assoc. reflexivity.
Qed.

Lemma printX_reads_back_witness :
  exists ds, printX (AWord 0xBEEF) (yst0 [] E_EOF) = Ret (tt, set_out ([] ++ ds) (yst0 [] E_EOF)) /\
    length ds = 4%nat /\ hex_value ds = 0xBEEF.
Proof. apply (printX_reads_back 0xBEEF (yst0 [] E_EOF)). unfold is_u16. lia. Defined.
