(* ===== verification/Cex.v ===== *)
(** * The component exerciser: exer/cex/

    Bit vectors and test files (utils/), the serial protocol (dev/nano.go,
    dev/arduino.go, dev/serial_protocol.go), the commands (main.go) and the
    vector files (vector.go).  The serial port is a third-party package: it is an
    instance of the class [Port], and the functions that use the device are
    computations over its state.  A Go result of type [(T, error)] is a [T + gerr].
    Log output and sleeps are not modelled. *)

From S2P Require Import Prelude Text.

(** ** Errors *)

(** Errors of the serial port: a system error number, or another with its text. *)
Inductive perr := Errno (n : Z) | EOther (msg : string).

#[export] Instance perr_eq : EqDecision perr.
Proof. solve_decision. Defined.

(** The errors of the program: the port's and [os.Open]'s, which are passed on, and its
    own. *)
Inductive gerr :=
| EPort (e : perr) | EOpen (path : string) | ENoResponse | EShortWrite | EUnexpected (cmd resp : Z)
| EBadLength | EBadExpected | ENotEnough | EContinuous | ESync | EVersion | EUnsupported
| EParse (t : string) | EUnknownToken (t : string) | EBits (want got : Z)
| EBadSocket | ESocketType | EUnknownSocket | ENotOpen.

#[export] Instance gerr_eq : EqDecision gerr.
Proof. solve_decision. Defined.

(** ** utils/fixedbitvec.go *)

(** The bytes of the vector; [BitPosition]s are not negative here. *)
Abbreviation FixedBitVec := (list Z).

Definition NewFixedBitVec (size : Z) : FixedBitVec := replicate (Z.to_nat (1 + size / 8)) 0.

(** [None] is an index out of range. *)
Definition Set_ (fbv : FixedBitVec) (bit : Z) : option FixedBitVec :=
  let theByte := Z.to_nat (bit / 8) in
  let theBit := bit mod 8 in
  b ← fbv !! theByte;
  Some (<[theByte := Z.lor b (u8 (Z.shiftl 1 theBit))]> fbv).

Definition Reset (fbv : FixedBitVec) (bit : Z) : option FixedBitVec :=
  let theByte := Z.to_nat (bit / 8) in
  let theBit := bit mod 8 in
  b ← fbv !! theByte;
  Some (<[theByte := Z.ldiff b (u8 (Z.shiftl 1 theBit))]> fbv).

Definition Get (fbv : FixedBitVec) (bit : Z) : option Z :=
  let theByte := Z.to_nat (bit / 8) in
  let theBit := bit mod 8 in
  b ← fbv !! theByte;
  Some (Z.land (Z.shiftr b theBit) 1).

Definition GetByte (fbv : FixedBitVec) (bit : Z) : option Z := fbv !! Z.to_nat (bit / 8).

(** ** utils/testfile.go *)

Record TestFile := MkTest {
  socket : string;
  size : Z;
  clockPin : Z;
  toUUT : FixedBitVec;
  fromUUT : FixedBitVec;
  ignored : FixedBitVec
}.

Definition NewTestFile (sock : string) : option TestFile :=
  let mk size := Some (MkTest sock size 0 (NewFixedBitVec size) (NewFixedBitVec size) (NewFixedBitVec size)) in
  if String.eqb sock "PLCC" then mk 68
  else if String.eqb sock "ZIF" then mk 24
  else None.

Abbreviation T := (M TestFile).

Definition with_toUUT (v : FixedBitVec) (tf : TestFile) : TestFile :=
  MkTest (socket tf) (size tf) (clockPin tf) v (fromUUT tf) (ignored tf).
Definition with_fromUUT (v : FixedBitVec) (tf : TestFile) : TestFile :=
  MkTest (socket tf) (size tf) (clockPin tf) (toUUT tf) v (ignored tf).
Definition with_ignored (v : FixedBitVec) (tf : TestFile) : TestFile :=
  MkTest (socket tf) (size tf) (clockPin tf) (toUUT tf) (fromUUT tf) v.
Definition with_clockPin (v : Z) (tf : TestFile) : TestFile :=
  MkTest (socket tf) (size tf) v (toUUT tf) (fromUUT tf) (ignored tf).

Definition SetToUUT (bit : Z) : T unit :=
  v ← gets toUUT; v' ← from_opt index_panic (Set_ v bit); modify (with_toUUT v').
Definition SetFromUUT (bit : Z) : T unit :=
  v ← gets fromUUT; v' ← from_opt index_panic (Set_ v bit); modify (with_fromUUT v').
Definition ResetToUUT (bit : Z) : T unit :=
  v ← gets toUUT; v' ← from_opt index_panic (Reset v bit); modify (with_toUUT v').
Definition ResetFromUUT (bit : Z) : T unit :=
  v ← gets fromUUT; v' ← from_opt index_panic (Reset v bit); modify (with_fromUUT v').
Definition SetIgnored (bit : Z) : T unit :=
  v ← gets ignored; v' ← from_opt index_panic (Set_ v bit); modify (with_ignored v').

Definition GetToUUT (bit : Z) : T Z := v ← gets toUUT; from_opt index_panic (Get v bit).
Definition GetFromUUT (bit : Z) : T Z := v ← gets fromUUT; from_opt index_panic (Get v bit).
Definition IsIgnored (bit : Z) : T Z := v ← gets ignored; from_opt index_panic (Get v bit).
Definition GetByteToUUT (bit : Z) : T Z := v ← gets toUUT; from_opt index_panic (GetByte v bit).
Definition GetByteFromUUT (bit : Z) : T Z := v ← gets fromUUT; from_opt index_panic (GetByte v bit).

Definition SetClock (bit : Z) : T unit := modify (with_clockPin (1 + bit));; SetToUUT bit.

Definition GetClock : T Z :=
  c ← gets clockPin; if c =? 0 then panic "no clock pin" else mret (c - 1).

Definition HasClock (tf : TestFile) : bool := negb (clockPin tf =? 0).

(** [String], for the debug output. *)
Fixpoint bits_text (k : nat) (i : Z) : T string :=
  match k with
  | O => mret ""%string
  | S k' =>
    f ← GetFromUUT i;
    b ← (if 0 <? f then mret f else GetToUUT i);
    more ← bits_text k' (i + 1);
    mret ((if (0 <? b)%Z then " 1" else " 0") +:+ more)%string
  end.

Definition TestFile_String : T string :=
  tf ← get_st;
  clk ← (if HasClock tf then c ← GetClock; mret (" clk:" +:+ fmt_d c)%string else mret ""%string);
  bs ← bits_text (Z.to_nat (size tf)) 0;
  mret (socket tf +:+ "-" +:+ fmt_d (size tf) +:+ clk +:+ bs)%string.

(** [Clear] reallocates two of the three vectors. *)
Definition Clear : T unit :=
  modify (with_clockPin 0);;
  modify (fun tf => with_toUUT (NewFixedBitVec (size tf)) tf);;
  modify (fun tf => with_fromUUT (NewFixedBitVec (size tf)) tf);;
  modify (with_clockPin 0).

(** ** vector.go: parsing *)

(** [t[i:j]] of a string: [None] is a slice out of range. *)
Definition slice (i j : nat) (t : string) : option string :=
  if (j <=? String.length t)%nat then Some (String.substring i (j - i) t) else None.

Definition hex_digit (c : Ascii.ascii) : option Z :=
  let n := Z.of_nat (Ascii.nat_of_ascii c) in
  if (48 <=? n) && (n <=? 57) then Some (n - 48)
  else if (65 <=? n) && (n <=? 70) then Some (n - 55)
  else if (97 <=? n) && (n <=? 102) then Some (n - 87)
  else None.

(** The digits of [strconv.ParseUint(s, 16, _)]. *)
Fixpoint parse_hex (acc : Z) (s : string) : option Z :=
  match s with
  | EmptyString => Some acc
  | String c s' => d ← hex_digit c; parse_hex (acc * 16 + d) s'
  end.

(** [math/bits.Reverse16] *)
Definition Reverse16 (v : Z) : Z :=
  fold_right (fun i acc => Z.lor (Z.shiftl (Z.b2z (Z.testbit v i)) (15 - i)) acc) 0 (seqZ 0 16).

(** The loops over 16 bits: set the positions of the one bits. *)
Fixpoint set_bits (k : nat) (set : Z -> T unit) (pos v : Z) : T Z :=
  match k with
  | O => mret pos
  | S k' =>
    (if negb (Z.land v 1 =? 0) then set pos else mret tt);;
    set_bits k' set (pos + 1) (Z.shiftr v 1)
  end.

(** The cases of the switch on the first character of a token. *)
Inductive kind := KTo (b : bool) | KFrom (b : bool) | KClock | KSkip | KHexTo | KHexFrom | KUnknown.

Definition token_kind (c : Ascii.ascii) : kind :=
  let n := Ascii.nat_of_ascii c in
  if (n =? 48)%nat (* 0 *) then KTo false
  else if (n =? 49)%nat (* 1 *) then KTo true
  else if (n =? 76)%nat (* L *) then KFrom false
  else if (n =? 72)%nat (* H *) then KFrom true
  else if (n =? 67)%nat (* C *) then KClock
  else if (n =? 88)%nat || (n =? 71)%nat || (n =? 86)%nat (* X G V *) then KSkip
  else if (n =? 37)%nat (* % *) then KHexTo
  else if (n =? 64)%nat (* @ *) then KHexFrom
  else KUnknown.

(** A [%] or [@] token: four hexadecimal digits, from the second character on. *)
Definition parse_hex_token (t : string) (rev : bool) (set : Z -> T unit) (pos : Z) : T (Z + gerr) :=
  d ← from_opt "slice bounds out of range" (slice 1 5 t);
  match parse_hex 0 d with
  | None => mret (inr (EParse t))
  | Some v => pos' ← set_bits 16 set pos (if rev then Reverse16 v else v); mret (inl pos')
  end.

(** One token at a position: the next position, or an error. *)
Definition parse_token (t : string) (pos : Z) : T (Z + gerr) :=
  match t with
  | EmptyString => mret (inl pos)
  | String c _ =>
    match token_kind c with
    | KTo false => ResetToUUT pos;; mret (inl (pos + 1))
    | KTo true => SetToUUT pos;; mret (inl (pos + 1))
    | KFrom false => ResetFromUUT pos;; mret (inl (pos + 1))
    | KFrom true => SetFromUUT pos;; mret (inl (pos + 1))
    | KClock => SetClock pos;; mret (inl pos)
    | KSkip => SetIgnored pos;; mret (inl (pos + 1))
    | KHexTo => parse_hex_token t false SetToUUT pos
    | KHexFrom => parse_hex_token t true SetFromUUT pos
    | KUnknown => mret (inr (EUnknownToken t))
    end
  end.

Fixpoint parse_tokens (tokens : list string) (pos : Z) : T (Z + gerr) :=
  match tokens with
  | [] => mret (inl pos)
  | t :: rest =>
    r ← parse_token t pos;
    match r with
    | inl pos' => parse_tokens rest pos'
    | inr e => mret (inr e)
    end
  end.

Definition parseVector (tokens : list string) : T (unit + gerr) :=
  r ← parse_tokens tokens 0;
  match r with
  | inr e => mret (inr e)
  | inl pos =>
    sz ← gets size;
    mret (if pos =? sz then inl tt else inr (EBits sz pos))
  end.

(** ** dev/serial_protocol.go *)

Definition ProtocolVersion : Z := 13.
Definition Ack (b : Z) : Z := 255 - b.
Definition CmdSync : Z := 0xE1.
Definition CmdGetVer : Z := 0xE2.
Definition CmdPoll : Z := 0xE3.
Definition CmdPulse : Z := 0xF0.
Definition CmdSet : Z := 0xF4.
Definition CmdSetR : Z := 0xF5.
Definition CmdGet : Z := 0xF8.
Definition CmdGetR : Z := 0xF9.

(** ** dev/arduino.go *)

Definition eIntr : Z := 4.

Abbreviation EINTR := (Errno 4).

Definition isRetryableSyscallError (err : option perr) : bool :=
  match err with Some (Errno errno) => errno =? eIntr | _ => false end.

(** The serial port: a read of one byte (the byte, if [n] is 1, and the error),
    a write (the number of bytes consumed and the error), and closing. *)
Class Port (P : Type) := {
  port_read : P -> option Z * option perr * P;
  port_write : list Z -> P -> Z * option perr * P;
  port_close : P -> option perr * P
}.

Section Device.
Context {P : Type} `{Port P} (fuel : nat).

Abbreviation N := (M P).

Definition fuel_panic : string := "out of fuel".

(** The loops retry while the call is interrupted. *)
Fixpoint read_loop (k : nat) : N (Z + gerr) := fun p =>
  match k with
  | O => Panic fuel_panic
  | S k' =>
    let '(n, err, p') := port_read p in
    if isRetryableSyscallError err then
      match n with Some _ => Panic "bytes returned despite EINTR" | None => read_loop k' p' end
    else
      match err, n with
      | Some e, _ => Ret (inr (EPort e), p')
      | None, None => Ret (inr ENoResponse, p')
      | None, Some b => Ret (inl b, p')
      end
  end.

Definition ReadFor : N (Z + gerr) := read_loop fuel.

Fixpoint write_loop (k : nat) (b : list Z) : N (unit + gerr) := fun p =>
  match k with
  | O => Panic fuel_panic
  | S k' =>
    let '(n, err, p') := port_write b p in
    if isRetryableSyscallError err then
      if n =? 0 then write_loop k' b p' else Panic "bytes written despite EINTR"
    else
      match err with
      | Some e => Ret (inr (EPort e), p')
      | None => Ret (if n =? Z.of_nat (length b) then inl tt else inr EShortWrite, p')
      end
  end.

Definition Write (b : list Z) : N (unit + gerr) := write_loop fuel b.

(** ** dev/nano.go *)

(** [if err := ...; err != nil { return err }] *)
Definition bindE {A B} (c : N (A + gerr)) (f : A -> N (B + gerr)) : N (B + gerr) :=
  r ← c; match r with inl a => f a | inr e => mret (inr e) end.

Definition getAck (cmd : Z) : N (unit + gerr) :=
  bindE ReadFor (fun b => mret (if b =? Ack cmd then inl tt else inr (EUnexpected cmd b))).

(** [k] response bytes. *)
Fixpoint read_bytes (k : nat) : N (list Z + gerr) :=
  match k with
  | O => mret (inl [])
  | S k' => bindE ReadFor (fun b => bindE (read_bytes k') (fun bs => mret (inl (b :: bs))))
  end.

Definition DoFixedCommand (fixed : list Z) (expected : Z) : N (list Z + gerr) :=
  match fixed with
  | [] => mret (inr EBadLength)
  | cmd :: _ =>
    if (8 <? Z.of_nat (length fixed)) then mret (inr EBadLength)
    else if (expected <? 0) || (8 <? expected) then mret (inr EBadExpected)
    else
      bindE (Write fixed) (fun _ =>
      bindE (getAck cmd) (fun _ =>
      read_bytes (Z.to_nat expected)))
  end.

Definition DoCommand (cmd : Z) : N (unit + gerr) :=
  bindE (DoFixedCommand [cmd] 0) (fun _ => mret (inl tt)).

Definition DoCountedSend (fixed counted : list Z) : N (unit + gerr) :=
  count ← from_opt index_panic (last fixed);
  if Z.of_nat (length counted) <? count then mret (inr ENotEnough)
  else bindE (DoFixedCommand fixed 0) (fun _ => Write counted).

Definition DoCountedReceive (fixed : list Z) : N (list Z + gerr) :=
  bindE (DoFixedCommand fixed 1) (fun expected =>
    count ← from_opt index_panic (expected !! 0%nat);
    read_bytes (Z.to_nat count)).

Definition checkProtocolVersion : N (unit + gerr) :=
  bindE (DoFixedCommand [CmdGetVer] 1) (fun b =>
    v ← from_opt index_panic (b !! 0%nat);
    mret (if v =? ProtocolVersion then inl tt else inr EVersion)).

(** [drain]: [k] reads at most. *)
Fixpoint drain_loop (k : nat) : N (unit + gerr) :=
  match k with
  | O => mret (inr EContinuous)
  | S k' => r ← ReadFor; match r with inr _ => mret (inl tt) | inl _ => drain_loop k' end
  end.

Definition drain : N (unit + gerr) := drain_loop 300.

Fixpoint read_ignored (k : nat) : N unit :=
  match k with
  | O => mret tt
  | S k' => _ ← ReadFor; read_ignored k'
  end.

(** [getSyncResponse]: after [sent] failures, [k] tries are left. *)
Fixpoint sync_loop (k sent : nat) : N (unit + gerr) :=
  match k with
  | O => mret (inr ESync)
  | S k' =>
    r ← DoCommand CmdSync;
    match r with
    | inr _ => sync_loop k' (S sent)
    | inl _ => read_ignored sent;; mret (inl tt)
    end
  end.

Definition getSyncResponse : N (unit + gerr) := sync_loop 3 0.

Definition establishConnection (wasReset : bool) : N (unit + gerr) :=
  bindE (if wasReset then mret (inl tt) else drain) (fun _ =>
  bindE getSyncResponse (fun _ => checkProtocolVersion)).

(** [CreateSession]: the tries from the [i]th on. *)
Fixpoint session_loop (k : nat) (first : bool) (err : option gerr) : N (unit + gerr) :=
  match k with
  | O => mret (match err with Some e => inr e | None => inl tt end)
  | S k' =>
    r ← establishConnection first;
    match r with
    | inl _ => mret (inl tt)
    | inr e => session_loop k' false (Some e)
    end
  end.

Definition CreateSession : N (unit + gerr) := session_loop 3 true None.

Definition isLogRequest (req : list Z) : N bool :=
  c ← from_opt index_panic (req !! 0%nat);
  mret (negb ((35 <=? c) && (c <=? 38))).

(** [DoPoll], without the message that it logs. *)
Definition DoPoll : N (unit + gerr) :=
  bindE (DoCountedReceive [CmdPoll]) (fun msg =>
    if negb (Z.of_nat (length msg) =? 0) then
      l ← isLogRequest msg;
      mret (if (l : bool) then inl tt else inr EUnsupported)
    else mret (inl tt)).

(** ** main.go: commands *)

Definition is_space (c : Ascii.ascii) : bool :=
  let n := Ascii.nat_of_ascii c in (n =? 32)%nat || (n =? 9)%nat.

Fixpoint skip_spaces (s : string) : string :=
  match s with
  | String c s' => if is_space c then skip_spaces s' else s
  | EmptyString => s
  end.

Definition is_scan_char (c : Ascii.ascii) : bool :=
  match hex_digit c with Some _ => true | None => (Ascii.nat_of_ascii c =? 95)%nat end.

(** The longest run of hexadecimal digits and underscores. *)
Fixpoint span_scan (s : string) : string * string :=
  match s with
  | String c s' => if is_scan_char c then let r := span_scan s' in (String c r.1, r.2) else (EmptyString, s)
  | EmptyString => (EmptyString, EmptyString)
  end.

(** [fmt.Sscanf] of one [%x] into a [byte]. *)
Definition scan_x (s : string) : option (Z * string) :=
  let r := span_scan (skip_spaces s) in
  if (String.length r.1 =? 0)%nat then None
  else v ← parse_hex 0 r.1; if v <? 256 then Some (v, r.2) else None.

(** [line[i:]] *)
Definition line_from (i : nat) (line : string) : option string :=
  if (i <=? String.length line)%nat then Some (String.substring i (String.length line - i) line) else None.

Definition scan_xx (s : string) : option (Z * Z) :=
  r ← scan_x s; q ← scan_x r.2; Some (r.1, q.1).

(** A syntax error is logged, and is not an error. *)
Definition doToggleCmd (line : string) : N (unit + gerr) :=
  s ← from_opt "slice bounds out of range" (line_from 2 line);
  match scan_xx s with
  | None => mret (inl tt)
  | Some (a, b) => bindE (DoFixedCommand [CmdPulse; a; b] 0) (fun _ => mret (inl tt))
  end.

Definition second_is_r (line : string) : option bool :=
  c ← String.get 1 line; Some (Ascii.nat_of_ascii c =? 114)%nat.

Definition doSetCmd (line : string) : N (unit + gerr) :=
  r ← from_opt index_panic (second_is_r line);
  s ← from_opt "slice bounds out of range" (line_from (if (r : bool) then 3 else 2) line);
  match scan_xx s with
  | None => mret (inl tt)
  | Some (a, b) =>
    bindE (DoFixedCommand [if (r : bool) then CmdSetR else CmdSet; a; b] 0) (fun _ => mret (inl tt))
  end.

Definition doGetCmd (line : string) : N (Z + gerr) :=
  r ← from_opt index_panic (second_is_r line);
  s ← from_opt "slice bounds out of range" (line_from (if (r : bool) then 3 else 2) line);
  match scan_x s with
  | None => mret (inl 0)
  | Some (a, _) =>
    bindE (DoFixedCommand [if (r : bool) then CmdGetR else CmdGet; a] 1) (fun sl =>
      v ← from_opt index_panic (sl !! 0%nat); mret (inl v))
  end.

(** [process]: one line of an interactive session. *)
Definition process (line : string) : N (unit + gerr) :=
  c ← from_opt index_panic (String.get 0 line);
  match Ascii.nat_of_ascii c with
  | 116%nat (* t *) => doToggleCmd line
  | 115%nat (* s *) => doSetCmd line
  | 103%nat (* g *) => bindE (doGetCmd line) (fun _ => mret (inl tt))
  | _ => mret (inl tt)
  end.

(** ** vector.go: applying a vector *)

(** A read-only call on the test file. *)
Definition ask {A} (tf : TestFile) (c : T A) : N A := fun p =>
  match c tf with Ret (a, _) => Ret (a, p) | Panic w => Panic w end.

Definition pinToPos (pin : Z) : Z := pin - 1.

(** The byte assembled from the toUUT bits of the pins, least significant
    first. *)
Fixpoint pins_byte (tf : TestFile) (pins : list Z) (shift : Z) : N Z :=
  match pins with
  | [] => mret 0
  | pin :: rest =>
    b ← ask tf (GetToUUT (pinToPos pin));
    more ← pins_byte tf rest (shift + 1);
    mret (Z.lor (u8 (Z.shiftl b shift)) more)
  end.

Definition set_port (id : string) (b : Z) : N (unit + gerr) :=
  doSetCmd ("s " +:+ id +:+ " " +:+ fmt_X 2 b)%string.

(** The expected result: pins 28 to 43, most significant first. *)
Fixpoint expected_bits (tf : TestFile) (pins : list Z) (shift : Z) : N Z :=
  match pins with
  | [] => mret 0
  | pin :: rest =>
    b ← ask tf (GetFromUUT (pinToPos pin));
    more ← expected_bits tf rest (shift - 1);
    mret (Z.lor (Z.shiftl (Z.land b 1) shift) more)
  end.

(** The flags: pins 20 to 24, except the ignored ones. *)
Fixpoint flag_errors (tf : TestFile) (cpgzv : Z) (pins : list Z) (shift : Z) : N Z :=
  match pins with
  | [] => mret 0
  | pin :: rest =>
    b ← ask tf (GetFromUUT (pinToPos pin));
    here ← (if negb (Z.land (Z.shiftr cpgzv shift) 1 =? u8 b) then
              ig ← ask tf (IsIgnored (pinToPos pin));
              mret (if ig =? 0 then 1 else 0)
            else mret 0);
    more ← flag_errors tf cpgzv rest (shift + 1);
    mret (here + more)
  end.

Definition applyPLCC (tf : TestFile) : N (Z + gerr) :=
  b4 ← ask tf (GetByteToUUT 0);
  bindE (set_port "4" b4) (fun _ =>
  b5 ← ask tf (GetByteToUUT 8);
  bindE (set_port "5" b5) (fun _ =>
  b6 ← pins_byte tf [27; 26; 25; 44; 45; 46; 47; 48] 0;
  bindE (set_port "6" b6) (fun _ =>
  bA ← pins_byte tf [49; 50; 51; 52] 4;
  bindE (set_port "A" bA) (fun _ =>
  b3 ← pins_byte tf [53; 54; 55; 56; 57; 58; 59; 60] 0;
  bindE (set_port "3" b3) (fun _ =>
  b2 ← pins_byte tf [61; 62; 63; 64; 65; 66; 67; 68] 0;
  bindE (set_port "2" b2) (fun _ =>
  _ ← (if HasClock tf then doToggleCmd "t 1 8" else mret (inl tt));
  bindE (doToggleCmd "t 1 B") (fun _ =>
  bindE (doToggleCmd "t 1 0") (fun _ =>
  bindE (doToggleCmd "t 1 7") (fun _ =>
  bindE (doGetCmd "g C") (fun cpgzv =>
  bindE (doGetCmd "g 1") (fun bHigh =>
  bindE (doGetCmd "g 9") (fun bLow =>
  let got := Z.lor (Z.shiftl bHigh 8) bLow in
  expected ← expected_bits tf (seqZ 28 16) 15;
  flags ← flag_errors tf cpgzv (seqZ 20 5) 0;
  mret (inl ((if expected =? got then 0 else 1) + flags)))))))))))))).

(** [applyZIF] is a stub that logs. *)
Definition applyZIF (tf : TestFile) : N (Z + gerr) := mret (inl 0).

Definition applyVector (tf : TestFile) : N (Z + gerr) :=
  if String.eqb (socket tf) "PLCC" then applyPLCC tf
  else if String.eqb (socket tf) "ZIF" then applyZIF tf
  else mret (inr EUnknownSocket).

(** ** vector.go: scanning a file *)

(** [strings.Split(s, " ")] *)
Fixpoint split_spaces (s : string) : list string :=
  match s with
  | EmptyString => [EmptyString]
  | String c s' =>
    if (Ascii.nat_of_ascii c =? 32)%nat then EmptyString :: split_spaces s'
    else match split_spaces s' with
         | w :: ws => String c w :: ws
         | [] => [String c EmptyString]
         end
  end.

(** [bufio.Scanner] over a file, which is its content and the error that ends it (None at
    the end of the file).  The pieces between newlines, *)
Fixpoint raw_lines (s : string) : list string :=
  match s with
  | EmptyString => [EmptyString]
  | String c s' =>
    if (Ascii.nat_of_ascii c =? 10)%nat then EmptyString :: raw_lines s'
    else match raw_lines s' with
         | w :: ws => String c w :: ws
         | [] => [String c EmptyString]
         end
  end.

(** without a carriage return at the end, *)
Fixpoint dropCR (s : string) : string :=
  match s with
  | EmptyString => EmptyString
  | String c EmptyString => if (Ascii.nat_of_ascii c =? 13)%nat then EmptyString else s
  | String c s' => String c (dropCR s')
  end.

Definition MaxScanTokenSize : Z := 64 * 1024.

(** up to the first one that does not fit the buffer; what is left at the end is a line
    unless it is empty, and only then the read has failed already. *)
Fixpoint deliver (e : option gerr) (pieces : list string) : list (string * option gerr) :=
  match pieces with
  | [] => []
  | l :: rest =>
    if MaxScanTokenSize <=? Z.of_nat (String.length l) then []
    else match rest with
         | [] => if String.eqb l "" then [] else [(dropCR l, e)]
         | _ => (dropCR l, None) :: deliver e rest
         end
  end.

Definition scanner_lines (file : string * option gerr) : list (string * option gerr) := deliver file.2 (raw_lines file.1).

(** Lines that hold no statement: empty, comments, log lines. *)
Definition skip_line (line : string) : bool :=
  match line with
  | EmptyString => true
  | String c _ => let n := Ascii.nat_of_ascii c in (n =? 35)%nat || (n =? 32)%nat || (n =? 62)%nat
  end.

(** The lines of the scanner, each with what its [Err] is while the line is current. *)
Fixpoint scan (lines : list (string * option gerr)) (tf : option TestFile) (totalErrors : Z) : N (Z + gerr) :=
  match lines with
  | [] => mret (inl totalErrors)
  | (line, scanner_Err) :: rest =>
    if skip_line line then scan rest tf totalErrors
    else
      let tokens := split_spaces line in
      if String.eqb (default ""%string (head tokens)) "socket" then
        match tf, tokens with
        | None, [_; sock] =>
          match NewTestFile sock with
          | None => mret (inr ESocketType)
          | Some tf' => scan rest (Some tf') totalErrors
          end
        | _, _ => mret (inr EBadSocket)
        end
      else
        match tf with
        | None => panic "nil pointer dereference"
        | Some tf =>
          match (Clear;; parseVector tokens) tf with
          | Panic w => panic w
          | Ret (inr e, _) => mret (inr e)
          | Ret (inl _, tf') =>
            match scanner_Err with
            | Some e => mret (inr e)
            | None => bindE (applyVector tf') (fun n => scan rest (Some tf') (totalErrors + n))
            end
          end
        end
  end.

End Device.
