(* ===== verification/CexVec.v ===== *)
(** * Bit vectors and vector lines of the component exerciser

    [vec_bit] is the abstract view of a [FixedBitVec]; [vector_pins] is the
    abstract view of a line of a vector file. *)

From S2P Require Import Prelude Text Cex.

(** ** Bit vectors *)

Definition vec_bit (v : FixedBitVec) (i : Z) : bool :=
  Z.testbit (default 0 (v !! Z.to_nat (i / 8))) (i mod 8).

(** The positions that the bytes of the vector hold. *)
Definition capacity (v : FixedBitVec) : Z := 8 * Z.of_nat (length v).

Lemma byte_index v i : 0 <= i < capacity v -> exists b, v !! Z.to_nat (i / 8) = Some b.
Proof. intros Hi. apply lookup_is_Some_len. unfold capacity in Hi. Z.div_mod_to_equations; lia. Qed.

Lemma bit_mask k : 0 <= k < 8 -> u8 (Z.shiftl 1 k) = 2 ^ k.
Proof.
  intros Hk. rewrite Z.shiftl_1_l. apply Z.mod_small. split; [apply Z.pow_nonneg; lia |].
  change 256 with (2 ^ 8). apply Z.pow_lt_mono_r; lia.
Qed.

Lemma pos_eq i j : 0 <= i -> 0 <= j -> Z.to_nat (i / 8) = Z.to_nat (j / 8) -> i mod 8 = j mod 8 -> i = j.
Proof. intros Hi Hj H1 H2. Z.div_mod_to_equations; lia. Qed.

Lemma vec_bit_insert v i j b c :
  0 <= i -> 0 <= j -> v !! Z.to_nat (i / 8) = Some b ->
  vec_bit (<[Z.to_nat (i / 8) := c]> v) j =
    if decide (Z.to_nat (j / 8) = Z.to_nat (i / 8)) then Z.testbit c (j mod 8) else vec_bit v j.
Proof.
  intros Hi Hj Hb. unfold vec_bit. destruct (decide (Z.to_nat (j / 8) = Z.to_nat (i / 8))) as [-> | Hne].
  - rewrite list_lookup_insert_eq by (eapply lookup_lt_Some; eauto). reflexivity.
  - rewrite list_lookup_insert_ne by congruence. reflexivity.
Qed.

Lemma Set_spec v i :
  0 <= i < capacity v ->
  exists v', Set_ v i = Some v' /\ length v' = length v /\
    forall j, 0 <= j -> vec_bit v' j = (j =? i) || vec_bit v j.
Proof.
  intros Hi. destruct (byte_index v i Hi) as [b Hb]. unfold Set_. rewrite Hb. cbn. eexists.
  split; [reflexivity |]. split; [apply length_insert |]. intros j Hj.
  pose proof (Z.mod_pos_bound i 8 ltac:(lia)). pose proof (Z.mod_pos_bound j 8 ltac:(lia)).
  rewrite (vec_bit_insert v i j b) by (assumption || lia). rewrite bit_mask by lia.
  destruct (decide _) as [E | Hne].
  - rewrite Z.lor_spec, Z.pow2_bits_eqb by lia. unfold vec_bit. rewrite E, Hb. cbn [default].
    destruct (Z.eqb_spec (i mod 8) (j mod 8)) as [E8 | N8], (Z.eqb_spec j i) as [Eji | Nji].
    + rewrite orb_true_r. reflexivity.
    + destruct Nji. apply pos_eq; auto; lia.
    + subst. contradiction.
    + apply orb_false_r.
  - destruct (Z.eqb_spec j i) as [-> |]; [contradiction | reflexivity].
Qed.

Lemma Reset_spec v i :
  0 <= i < capacity v ->
  exists v', Reset v i = Some v' /\ length v' = length v /\
    forall j, 0 <= j -> vec_bit v' j = negb (j =? i) && vec_bit v j.
Proof.
  intros Hi. destruct (byte_index v i Hi) as [b Hb]. unfold Reset. rewrite Hb. cbn. eexists.
  split; [reflexivity |]. split; [apply length_insert |]. intros j Hj.
  pose proof (Z.mod_pos_bound i 8 ltac:(lia)). pose proof (Z.mod_pos_bound j 8 ltac:(lia)).
  rewrite (vec_bit_insert v i j b) by (assumption || lia). rewrite bit_mask by lia.
  destruct (decide _) as [E | Hne].
  - rewrite Z.ldiff_spec, Z.pow2_bits_eqb by lia. unfold vec_bit. rewrite E, Hb. cbn [default].
    destruct (Z.eqb_spec (i mod 8) (j mod 8)) as [E8 | N8], (Z.eqb_spec j i) as [Eji | Nji]; cbn [negb andb].
    + apply andb_false_r.
    + destruct Nji. apply pos_eq; auto; lia.
    + subst. contradiction.
    + apply andb_true_r.
  - destruct (Z.eqb_spec j i) as [-> |]; [contradiction | reflexivity].
Qed.

Lemma Get_spec v i : 0 <= i < capacity v -> Get v i = Some (Z.b2z (vec_bit v i)).
Proof.
  intros Hi. destruct (byte_index v i Hi) as [b Hb]. unfold Get, vec_bit. rewrite Hb. cbn. f_equal.
  pose proof (Z.mod_pos_bound i 8 ltac:(lia)).
  rewrite land_bit0, Z.shiftr_div_pow2 by lia. rewrite (testbit_div b (i mod 8)) by lia.
  pose proof (Z.mod_pos_bound (b / 2 ^ (i mod 8)) 2 ltac:(lia)).
  destruct (Z.eqb_spec ((b / 2 ^ (i mod 8)) mod 2) 1); cbn; lia.
Qed.

Lemma GetByte_bits v i k b :
  0 <= i < capacity v -> i mod 8 = 0 -> 0 <= k < 8 -> GetByte v i = Some b ->
  Z.testbit b k = vec_bit v (i + k).
Proof.
  intros Hi Hm Hk Hb. unfold GetByte in Hb. unfold vec_bit.
  replace ((i + k) / 8) with (i / 8) by (Z.div_mod_to_equations; lia).
  replace ((i + k) mod 8) with k by (Z.div_mod_to_equations; lia). rewrite Hb. reflexivity.
Qed.

Lemma New_spec size : 0 <= size -> capacity (NewFixedBitVec size) = 8 * (1 + size / 8) /\
  forall j, vec_bit (NewFixedBitVec size) j = false.
Proof.
  intros Hs. unfold capacity, NewFixedBitVec. rewrite length_replicate, Z2Nat.id by (Z.div_mod_to_equations; lia).
  split; [reflexivity |]. intros j. unfold vec_bit.
  destruct (replicate _ 0 !! _) as [b |] eqn:E; cbn; [| apply Z.testbit_0_l].
  apply lookup_replicate in E. destruct E as [-> _]. apply Z.testbit_0_l.
Qed.

(** ** Lines of a vector file *)

Inductive pin := To (b : bool) | From (b : bool) | Skip.

Definition pin_to (p : option pin) : bool := match p with Some (To b) => b | _ => false end.
Definition pin_from (p : option pin) : bool := match p with Some (From b) => b | _ => false end.
Definition pin_skip (p : option pin) : bool := match p with Some Skip => true | _ => false end.

(** The pin at an integer position of a list. *)
Definition pin_at (ps : list pin) (i : Z) : option pin := if i <? 0 then None else ps !! Z.to_nat i.

Definition hex4 (t : string) : option Z := d ← slice 1 5 t; parse_hex 0 d.

(** What a token specifies; [None] for the tokens that are errors, and for the
    clock, which is not a pin of its own. *)
Definition token_pins (t : string) : option (list pin) :=
  match t with
  | EmptyString => Some []
  | String c _ =>
    match token_kind c with
    | KTo b => Some [To b]
    | KFrom b => Some [From b]
    | KSkip => Some [Skip]
    | KHexTo => v ← hex4 t; Some ((fun i => To (Z.testbit v i)) <$> seqZ 0 16)
    | KHexFrom => v ← hex4 t; Some ((fun i => From (Z.testbit v (15 - i))) <$> seqZ 0 16)
    | KClock | KUnknown => None
    end
  end.

Fixpoint vector_pins (tokens : list string) : option (list pin) :=
  match tokens with
  | [] => Some []
  | t :: rest => ps ← token_pins t; qs ← vector_pins rest; Some (ps ++ qs)
  end.

(** The effect of pins at a position on a test file. *)
Record pins_set (ps : list pin) (pos : Z) (tf tf' : TestFile) : Prop := {
  pn_socket : socket tf' = socket tf;
  pn_size : size tf' = size tf;
  pn_clock : clockPin tf' = clockPin tf;
  pn_caps : capacity (toUUT tf') = capacity (toUUT tf) /\ capacity (fromUUT tf') = capacity (fromUUT tf) /\
            capacity (ignored tf') = capacity (ignored tf);
  pn_to : forall j, 0 <= j -> vec_bit (toUUT tf') j = pin_to (pin_at ps (j - pos)) || vec_bit (toUUT tf) j;
  pn_from : forall j, 0 <= j -> vec_bit (fromUUT tf') j = pin_from (pin_at ps (j - pos)) || vec_bit (fromUUT tf) j;
  pn_ign : forall j, 0 <= j -> vec_bit (ignored tf') j = pin_skip (pin_at ps (j - pos)) || vec_bit (ignored tf) j
}.

Lemma pin_at_nil i : pin_at [] i = None.
Proof. unfold pin_at. destruct (i <? 0); reflexivity. Qed.

Lemma pins_set_nil pos tf : pins_set [] pos tf tf.
Proof. constructor; auto; intros j Hj; rewrite pin_at_nil; reflexivity. Qed.

Lemma pin_at_app ps qs i : pin_at (ps ++ qs) i = match pin_at ps i with Some p => Some p | None => pin_at qs (i - Z.of_nat (length ps)) end.
Proof.
  unfold pin_at. destruct (Z.ltb_spec i 0) as [Hn | Hn].
  - rewrite (proj2 (Z.ltb_lt (i - _) 0)) by lia. reflexivity.
  - destruct (ps !! Z.to_nat i) as [p |] eqn:E; [apply lookup_app_l_Some, E |].
    apply lookup_ge_None in E. rewrite lookup_app_r by exact E.
    rewrite (proj2 (Z.ltb_ge (i - _) 0)) by lia. f_equal. lia.
Qed.

Lemma pin_at_none ps i : 0 <= i -> pin_at ps i <> None -> i < Z.of_nat (length ps).
Proof.
  intros Hi. unfold pin_at. rewrite (proj2 (Z.ltb_ge i 0)) by lia. intros H.
  destruct (ps !! Z.to_nat i) eqn:E; [| contradiction]. apply lookup_lt_Some in E. lia.
Qed.

Lemma pin_at_fun ps qs i (f : option pin -> bool) :
  f None = false ->
  f (pin_at (ps ++ qs) i) = f (pin_at qs (i - Z.of_nat (length ps))) || f (pin_at ps i).
Proof.
  intros Hf. rewrite pin_at_app. destruct (pin_at ps i) as [p |] eqn:E; [| rewrite Hf, orb_false_r; reflexivity].
  assert (Hi : 0 <= i) by (unfold pin_at in E; destruct (Z.ltb_spec i 0); [discriminate | lia]).
  assert (Hlt : i < Z.of_nat (length ps)) by (apply pin_at_none; [exact Hi | congruence]).
  unfold pin_at. rewrite (proj2 (Z.ltb_lt (i - _) 0)) by lia. rewrite Hf. reflexivity.
Qed.

Lemma pins_set_app ps qs pos tf tf1 tf2 :
  pins_set ps pos tf tf1 -> pins_set qs (pos + Z.of_nat (length ps)) tf1 tf2 -> pins_set (ps ++ qs) pos tf tf2.
Proof.
  intros [A1 A2 A3 (A4 & A5 & A6) A7 A8 A9] [B1 B2 B3 (B4 & B5 & B6) B7 B8 B9].
  constructor; try congruence; [split; [congruence | split; congruence] |..]; intros j Hj.
  - rewrite B7, A7, orb_assoc by exact Hj. f_equal. rewrite (pin_at_fun ps qs (j - pos) pin_to eq_refl).
    do 3 f_equal. lia.
  - rewrite B8, A8, orb_assoc by exact Hj. f_equal. rewrite (pin_at_fun ps qs (j - pos) pin_from eq_refl).
    do 3 f_equal. lia.
  - rewrite B9, A9, orb_assoc by exact Hj. f_equal. rewrite (pin_at_fun ps qs (j - pos) pin_skip eq_refl).
    do 3 f_equal. lia.
Qed.

(** ** The setters *)

Lemma pin_at_one p i : pin_at [p] i = if i =? 0 then Some p else None.
Proof.
  unfold pin_at. destruct (Z.ltb_spec i 0), (Z.eqb_spec i 0); try lia; try reflexivity; [subst; reflexivity |].
  destruct (Z.to_nat i) as [| k] eqn:E; [lia | reflexivity].
Qed.

Section Setters.
Context (tf : TestFile) (pos : Z).

Ltac one_pin H :=
  constructor; cbn [socket size clockPin toUUT fromUUT ignored with_toUUT with_fromUUT with_ignored]; auto;
  try (unfold capacity; rewrite ?H; auto); intros j Hj; rewrite pin_at_one;
  destruct (Z.eqb_spec (j - pos) 0) as [E | E]; cbn [pin_to pin_from pin_skip orb]; try reflexivity.

Lemma SetToUUT_spec :
  0 <= pos < capacity (toUUT tf) -> exists tf', SetToUUT pos tf = Ret (tt, tf') /\ pins_set [To true] pos tf tf'.
Proof.
  intros Hp. destruct (Set_spec (toUUT tf) pos Hp) as (v & Hv & Hl & Hb). eexists. split.
  { unfold SetToUUT, mbind, M_bind, gets. rewrite Hv. reflexivity. }
  one_pin Hl; rewrite Hb by exact Hj; [rewrite (proj2 (Z.eqb_eq j pos)) by lia; reflexivity |].
  rewrite (proj2 (Z.eqb_neq j pos)) by lia. reflexivity.
Qed.

Lemma SetFromUUT_spec :
  0 <= pos < capacity (fromUUT tf) -> exists tf', SetFromUUT pos tf = Ret (tt, tf') /\ pins_set [From true] pos tf tf'.
Proof.
  intros Hp. destruct (Set_spec (fromUUT tf) pos Hp) as (v & Hv & Hl & Hb). eexists. split.
  { unfold SetFromUUT, mbind, M_bind, gets. rewrite Hv. reflexivity. }
  one_pin Hl; rewrite Hb by exact Hj; [rewrite (proj2 (Z.eqb_eq j pos)) by lia; reflexivity |].
  rewrite (proj2 (Z.eqb_neq j pos)) by lia. reflexivity.
Qed.

Lemma SetIgnored_spec :
  0 <= pos < capacity (ignored tf) -> exists tf', SetIgnored pos tf = Ret (tt, tf') /\ pins_set [Skip] pos tf tf'.
Proof.
  intros Hp. destruct (Set_spec (ignored tf) pos Hp) as (v & Hv & Hl & Hb). eexists. split.
  { unfold SetIgnored, mbind, M_bind, gets. rewrite Hv. reflexivity. }
  one_pin Hl; rewrite Hb by exact Hj; [rewrite (proj2 (Z.eqb_eq j pos)) by lia; reflexivity |].
  rewrite (proj2 (Z.eqb_neq j pos)) by lia. reflexivity.
Qed.

Lemma ResetToUUT_spec :
  0 <= pos < capacity (toUUT tf) -> vec_bit (toUUT tf) pos = false ->
  exists tf', ResetToUUT pos tf = Ret (tt, tf') /\ pins_set [To false] pos tf tf'.
Proof.
  intros Hp H0. destruct (Reset_spec (toUUT tf) pos Hp) as (v & Hv & Hl & Hb). eexists. split.
  { unfold ResetToUUT, mbind, M_bind, gets. rewrite Hv. reflexivity. }
  one_pin Hl; rewrite Hb by exact Hj; destruct (Z.eqb_spec j pos) as [-> |]; auto.
Qed.

Lemma ResetFromUUT_spec :
  0 <= pos < capacity (fromUUT tf) -> vec_bit (fromUUT tf) pos = false ->
  exists tf', ResetFromUUT pos tf = Ret (tt, tf') /\ pins_set [From false] pos tf tf'.
Proof.
  intros Hp H0. destruct (Reset_spec (fromUUT tf) pos Hp) as (v & Hv & Hl & Hb). eexists. split.
  { unfold ResetFromUUT, mbind, M_bind, gets. rewrite Hv. reflexivity. }
  one_pin Hl; rewrite Hb by exact Hj; destruct (Z.eqb_spec j pos) as [-> |]; auto.
Qed.

End Setters.

(** A zero bit of a hexadecimal token sets nothing. *)
Lemma pins_set_zero_to pos tf : pins_set [To false] pos tf tf.
Proof. constructor; auto; intros j Hj; rewrite pin_at_one; destruct (_ =? 0); reflexivity. Qed.

Lemma pins_set_zero_from pos tf : pins_set [From false] pos tf tf.
Proof. constructor; auto; intros j Hj; rewrite pin_at_one; destruct (_ =? 0); reflexivity. Qed.

(** ** Hexadecimal tokens *)

Section Hex.
Context (mk : bool -> pin) (set : Z -> T unit) (cap : TestFile -> Z).
Hypothesis set_one : forall tf pos, 0 <= pos < cap tf ->
  exists tf', set pos tf = Ret (tt, tf') /\ pins_set [mk true] pos tf tf'.
Hypothesis set_zero : forall tf pos, pins_set [mk false] pos tf tf.
Hypothesis cap_same : forall ps pos tf tf', pins_set ps pos tf tf' -> cap tf' = cap tf.

Lemma set_bits_spec k pos v tf :
  0 <= pos -> pos + Z.of_nat k <= cap tf ->
  exists tf', set_bits k set pos v tf = Ret (pos + Z.of_nat k, tf') /\
    pins_set ((fun i => mk (Z.testbit v i)) <$> seqZ 0 (Z.of_nat k)) pos tf tf'.
Proof using set_one set_zero cap_same.
  revert pos v tf. induction k as [| k IH]; intros pos v tf Hp Hk.
  - exists tf. split; [cbn; rewrite Z.add_0_r; reflexivity | apply pins_set_nil].
  - assert (H1 : exists tf1, (if negb (Z.land v 1 =? 0) then set pos else mret tt) tf = Ret (tt, tf1) /\
                   pins_set [mk (Z.testbit v 0)] pos tf tf1).
    { change 1 with (2 ^ 0). rewrite (testbit_land_pow2 v 0) by lia. destruct (Z.testbit v 0).
      - apply set_one. lia.
      - exists tf. split; [reflexivity | apply set_zero]. }
    destruct H1 as (tf1 & Hrun & Hset). cbn [set_bits].
    destruct (IH (pos + 1) (Z.shiftr v 1) tf1) as (tf2 & Hrun2 & Hset2);
      [lia | rewrite (cap_same _ _ _ _ Hset); lia |].
    exists tf2. split.
    { unfold mbind, M_bind. rewrite Hrun, Hrun2. do 2 f_equal. lia. }
    rewrite seqZ_cons by lia. rewrite fmap_cons.
    replace (Z.pred (Z.of_nat (S k))) with (Z.of_nat k) by lia. change (Z.succ 0) with (0 + 1).
    rewrite <- (Z.add_comm 1 0), <- fmap_add_seqZ, <- list_fmap_compose.
    apply (pins_set_app [mk (Z.testbit v 0)] _ pos tf tf1 tf2 Hset). cbn [length].
    change (Z.of_nat 1) with 1. rewrite (list_fmap_ext _ (fun i => mk (Z.testbit (Z.shiftr v 1) i))); [exact Hset2 |].
    intros i x Hx. apply lookup_seqZ in Hx. cbn. rewrite Z.shiftr_spec by lia. do 2 f_equal. lia.
Qed.

End Hex.

Lemma reverse_fold v l i :
  0 <= i -> Forall (fun k => 0 <= k <= 15) l ->
  Z.testbit (fold_right (fun k acc => Z.lor (Z.shiftl (Z.b2z (Z.testbit v k)) (15 - k)) acc) 0 l) i =
    existsb (fun k => Z.testbit v k && (k =? 15 - i)) l.
Proof.
  intros Hi. induction l as [| k l IH]; intros Hl; cbn [fold_right existsb]; [apply Z.testbit_0_l |].
  inversion_clear Hl. rewrite Z.lor_spec, IH by assumption. f_equal. rewrite Z.shiftl_spec by lia.
  destruct (Z.eqb_spec k (15 - i)) as [-> | Hne].
  - replace (i - (15 - (15 - i))) with 0 by lia. rewrite Z.b2z_bit0, andb_true_r. reflexivity.
  - rewrite andb_false_r. destruct (Z.lt_ge_cases (i - (15 - k)) 0); [apply Z.testbit_neg_r; lia |].
    rewrite Z.bits_above_log2; [reflexivity | destruct (Z.testbit v k); cbn; lia |].
    destruct (Z.testbit v k); cbn; lia.
Qed.

Lemma Reverse16_spec v i : 0 <= i < 16 -> Z.testbit (Reverse16 v) i = Z.testbit v (15 - i).
Proof.
  intros Hi. unfold Reverse16. rewrite reverse_fold; [| lia |].
  2: { apply Forall_forall. intros k Hk. apply elem_of_seqZ in Hk. lia. }
  destruct (Z.testbit v (15 - i)) eqn:E.
  - apply existsb_exists. exists (15 - i). split; [apply list_elem_of_In, elem_of_seqZ; lia |].
    rewrite E, Z.eqb_refl. reflexivity.
  - destruct (existsb _ _) eqn:Ex; [| reflexivity]. apply existsb_exists in Ex. destruct Ex as (k & _ & Hk).
    apply andb_prop in Hk. destruct Hk as [Hk Hk2]. apply Z.eqb_eq in Hk2. subst. congruence.
Qed.

(** ** Parsing a line *)

Definition roomy (n : Z) (tf : TestFile) : Prop :=
  n <= capacity (toUUT tf) /\ n <= capacity (fromUUT tf) /\ n <= capacity (ignored tf).

Definition clean_from (pos : Z) (tf : TestFile) : Prop :=
  forall j, pos <= j -> vec_bit (toUUT tf) j = false /\ vec_bit (fromUUT tf) j = false.

Lemma parse_hex_token_spec (mk : bool -> pin) set cap rev t v pos tf :
  (forall tf pos, 0 <= pos < cap tf -> exists tf', set pos tf = Ret (tt, tf') /\ pins_set [mk true] pos tf tf') ->
  (forall tf pos, pins_set [mk false] pos tf tf) ->
  (forall ps pos tf tf', pins_set ps pos tf tf' -> cap tf' = cap tf) ->
  hex4 t = Some v -> 0 <= pos -> pos + 16 <= cap tf ->
  exists tf', parse_hex_token t rev set pos tf = Ret (inl (pos + 16), tf') /\
    pins_set ((fun i => mk (Z.testbit (if rev : bool then Reverse16 v else v) i)) <$> seqZ 0 16) pos tf tf'.
Proof.
  intros H1 H2 H3 Hv Hp Hcap.
  destruct (set_bits_spec mk set cap H1 H2 H3 16 pos (if rev then Reverse16 v else v) tf Hp Hcap) as (tf' & Hrun & Hset).
  exists tf'. split; [| exact Hset]. unfold hex4 in Hv. unfold parse_hex_token.
  destruct (slice 1 5 t) as [d |]; [| discriminate]. cbn [mbind option_bind] in Hv.
  unfold mbind, M_bind, from_opt, mret, M_ret. rewrite Hv, Hrun. reflexivity.
Qed.

Lemma parse_token_spec t ps pos tf :
  token_pins t = Some ps -> 0 <= pos -> roomy (pos + Z.of_nat (length ps)) tf -> clean_from pos tf ->
  exists tf', parse_token t pos tf = Ret (inl (pos + Z.of_nat (length ps)), tf') /\ pins_set ps pos tf tf'.
Proof.
  intros Ht Hp (R1 & R2 & R3) Hc. destruct (Hc pos ltac:(lia)) as [C1 C2].
  destruct t as [| c t']; cbn [token_pins parse_token] in *.
  { inversion Ht; subst. exists tf. cbn. rewrite Z.add_0_r. split; [reflexivity | apply pins_set_nil]. }
  assert (Hone : forall (op : T unit) p, ps = [p] ->
            (exists tf', op tf = Ret (tt, tf') /\ pins_set [p] pos tf tf') ->
            exists tf', (op;; mret (inl (pos + 1)) : T (Z + gerr)) tf = Ret (inl (pos + Z.of_nat (length ps)), tf') /\
              pins_set ps pos tf tf').
  { intros op p -> (tf' & Hrun & Hset). exists tf'. unfold mbind, M_bind. rewrite Hrun. auto. }
  destruct (token_kind c) as [b | b | | | | |]; try discriminate Ht;
    try (injection Ht as <-; cbn [length] in *).
  - destruct b; (eapply Hone; [reflexivity |]); [apply SetToUUT_spec; lia | apply ResetToUUT_spec; [lia | exact C1]].
  - destruct b; (eapply Hone; [reflexivity |]); [apply SetFromUUT_spec; lia | apply ResetFromUUT_spec; [lia | exact C2]].
  - eapply Hone; [reflexivity |]. apply SetIgnored_spec. lia.
  - destruct (hex4 (String c t')) as [v |] eqn:Hv; [| discriminate].
    cbn [mbind option_bind] in Ht. injection Ht as <-.
    change (Z.of_nat (length ((fun i => To (Z.testbit v i)) <$> seqZ 0 16))) with 16 in *.
    apply (parse_hex_token_spec To SetToUUT (fun tf => capacity (toUUT tf)) false _ v); auto.
    + intros. apply SetToUUT_spec. assumption.
    + intros. apply pins_set_zero_to.
    + intros ? ? ? ? []. tauto.
  - destruct (hex4 (String c t')) as [v |] eqn:Hv; [| discriminate].
    cbn [mbind option_bind] in Ht. injection Ht as <-.
    change (Z.of_nat (length ((fun i => From (Z.testbit v (15 - i))) <$> seqZ 0 16))) with 16 in *.
    assert (E : (fun i => From (Z.testbit v (15 - i))) <$> seqZ 0 16 =
                (fun i => From (Z.testbit (Reverse16 v) i)) <$> seqZ 0 16).
    { apply list_fmap_ext. intros k i Hi. apply lookup_seqZ in Hi. rewrite Reverse16_spec by lia. reflexivity. }
    match goal with |- context [pins_set ?l pos tf] => change l with ((fun i => From (Z.testbit v (15 - i))) <$> seqZ 0 16) end.
    rewrite E.
    apply (parse_hex_token_spec From SetFromUUT (fun tf => capacity (fromUUT tf)) true _ v); auto.
    + intros. apply SetFromUUT_spec. assumption.
    + intros. apply pins_set_zero_from.
    + intros ? ? ? ? []. tauto.
Qed.

Lemma pins_set_roomy n ps pos tf tf' : pins_set ps pos tf tf' -> roomy n tf -> roomy n tf'.
Proof. unfold roomy. intros [_ _ _ (-> & -> & ->) _ _ _] H. exact H. Qed.

Lemma pins_set_clean ps pos tf tf' :
  pins_set ps pos tf tf' -> 0 <= pos -> clean_from pos tf -> clean_from (pos + Z.of_nat (length ps)) tf'.
Proof.
  intros [_ _ _ _ Hto Hfrom _] Hp Hc j Hj. destruct (Hc j ltac:(lia)) as [C1 C2].
  assert (Hn : pin_at ps (j - pos) = None).
  { unfold pin_at. rewrite (proj2 (Z.ltb_ge _ 0)) by lia. apply lookup_ge_None. lia. }
  rewrite Hto, Hfrom, C1, C2, Hn by lia. auto.
Qed.

Lemma parse_tokens_spec tokens ps pos tf :
  vector_pins tokens = Some ps -> 0 <= pos -> roomy (pos + Z.of_nat (length ps)) tf -> clean_from pos tf ->
  exists tf', parse_tokens tokens pos tf = Ret (inl (pos + Z.of_nat (length ps)), tf') /\ pins_set ps pos tf tf'.
Proof.
  revert ps pos tf. induction tokens as [| t rest IH]; intros ps pos tf Hv Hp Hr Hc; cbn [vector_pins parse_tokens] in *.
  - inversion Hv; subst. exists tf. cbn. rewrite Z.add_0_r. split; [reflexivity | apply pins_set_nil].
  - destruct (token_pins t) as [ps1 |] eqn:Et; [| discriminate]. cbn [mbind option_bind] in Hv.
    destruct (vector_pins rest) as [qs |]; [| discriminate]. injection Hv as <-.
    rewrite length_app, Nat2Z.inj_add in *.
    destruct (parse_token_spec t ps1 pos tf Et Hp) as (tf1 & Hrun & Hset);
      [unfold roomy in *; lia | exact Hc |].
    destruct (IH qs (pos + Z.of_nat (length ps1)) tf1 eq_refl) as (tf2 & Hrun2 & Hset2);
      [lia | | eapply pins_set_clean; eauto |].
    { eapply pins_set_roomy; [exact Hset |]. unfold roomy in *. lia. }
    exists tf2. unfold mbind, M_bind. rewrite Hrun, Hrun2. split; [do 3 f_equal; lia |].
    eapply pins_set_app; eauto.
Qed.
