(* ===== verification/CexTheorems.v ===== *)
(** * The theorems of the component exerciser

    Bit vectors, vector lines, the serial protocol and the application of a
    vector to the PLCC socket.  The serial port is any instance of [Port]; a
    scripted port instantiates it in the instances. *)

From S2P Require Import Prelude Text Cex CexVec.

(** ** Bit vectors *)

(** A [FixedBitVec] is an array of bits.  At any position inside its bytes,
    [Set] and [Reset] change exactly the bit at the position, [Get] reads it, and
    [GetByte] at a multiple of eight returns the eight bits from there on, the
    first as the least significant. *)
Theorem bitvec_laws (v : FixedBitVec) (i : Z) (Hi : 0 <= i < capacity v) :
  (exists v', Set_ v i = Some v' /\ length v' = length v /\
     forall j, 0 <= j -> vec_bit v' j = (j =? i) || vec_bit v j) /\
  (exists v', Reset v i = Some v' /\ length v' = length v /\
     forall j, 0 <= j -> vec_bit v' j = negb (j =? i) && vec_bit v j) /\
  Get v i = Some (Z.b2z (vec_bit v i)) /\
  (i mod 8 = 0 -> exists b, GetByte v i = Some b /\ forall k, 0 <= k < 8 -> Z.testbit b k = vec_bit v (i + k)).
Proof.
  split; [apply Set_spec, Hi |]. split; [apply Reset_spec, Hi |]. split; [apply Get_spec, Hi |].
  intros Hm. destruct (byte_index v i Hi) as [b Hb]. exists b. split; [exact Hb |].
  intros k Hk. apply (GetByte_bits v i k b); assumption.
Qed.

Lemma bitvec_laws_witness : Get (NewFixedBitVec 68) 67 = Some 0.
Proof. apply (bitvec_laws (NewFixedBitVec 68) 67). vm_compute. split; [discriminate | reflexivity]. Defined.

(** ** Vector lines *)

Lemma Clear_spec tf :
  0 <= size tf ->
  exists tf', Clear tf = Ret (tt, tf') /\ socket tf' = socket tf /\ size tf' = size tf /\ clockPin tf' = 0 /\
    ignored tf' = ignored tf /\ clean_from 0 tf' /\
    capacity (toUUT tf') = 8 * (1 + size tf / 8) /\ capacity (fromUUT tf') = 8 * (1 + size tf / 8).
Proof.
  intros Hs. destruct (New_spec (size tf) Hs) as [Hc Hz]. eexists. split; [reflexivity |].
  cbn [socket size clockPin ignored toUUT fromUUT with_toUUT with_fromUUT with_clockPin].
  repeat split; auto.
Qed.

(** A line without a clock, after [Clear]. *)
Lemma parse_vector_run tf tokens ps :
  0 <= size tf -> 8 * (1 + size tf / 8) <= capacity (ignored tf) -> vector_pins tokens = Some ps ->
  Z.of_nat (length ps) <= 8 * (1 + size tf / 8) ->
  exists tf', (Clear;; parseVector tokens) tf =
      Ret (if Z.of_nat (length ps) =? size tf then inl tt else inr (EBits (size tf) (Z.of_nat (length ps))), tf') /\
    socket tf' = socket tf /\ size tf' = size tf /\ clockPin tf' = 0 /\
    capacity (toUUT tf') = 8 * (1 + size tf / 8) /\ capacity (fromUUT tf') = 8 * (1 + size tf / 8) /\
    capacity (ignored tf') = capacity (ignored tf) /\
    forall j, 0 <= j ->
      vec_bit (toUUT tf') j = pin_to (pin_at ps j) /\
      vec_bit (fromUUT tf') j = pin_from (pin_at ps j) /\
      vec_bit (ignored tf') j = pin_skip (pin_at ps j) || vec_bit (ignored tf) j.
Proof.
  intros Hs Hi Hv Hl.
  destruct (Clear_spec tf Hs) as (tf1 & Hrun & H1 & H2 & H3 & H4 & Hclean & C1 & C2).
  destruct (parse_tokens_spec tokens ps 0 tf1 Hv) as (tf2 & Hrun2 & [A1 A2 A3 (A4 & A4' & A4'') A5 A6 A7]);
    [lia | unfold roomy; rewrite C1, C2, H4; lia | exact Hclean |].
  exists tf2. split; [| repeat split; try congruence].
  - rewrite (bind_ret _ _ _ _ _ Hrun). unfold parseVector. rewrite (bind_ret _ _ _ _ _ Hrun2).
    unfold mbind, M_bind, gets. rewrite A2, H2. destruct (_ =? _); reflexivity.
  - destruct (Hclean j H) as [Z1 _]. rewrite A5, Z1, orb_false_r, Z.sub_0_r by exact H. reflexivity.
  - destruct (Hclean j H) as [_ Z2]. rewrite A6, Z2, orb_false_r, Z.sub_0_r by exact H. reflexivity.
  - rewrite A7, H4, Z.sub_0_r by exact H. reflexivity.
Qed.

(** A line of a vector file without a clock is parsed into the pins that
    its tokens specify: after [Clear], [parseVector] accepts the line exactly
    when it specifies as many pins as the socket has, and then drives the pins
    given as 0, 1 or [%], expects those given as L, H or [@] (bit-reversed), and
    ignores those given as X, G or V.  It does not panic for a line of at most
    as many pins as the vectors hold. *)
Theorem parse_vector_pins (tf : TestFile) (tokens : list string) (ps : list pin)
    (Hs : 0 <= size tf) (Hi : 8 * (1 + size tf / 8) <= capacity (ignored tf))
    (Hv : vector_pins tokens = Some ps) (Hl : Z.of_nat (length ps) <= 8 * (1 + size tf / 8)) :
  exists tf', (Clear;; parseVector tokens) tf =
      Ret (if Z.of_nat (length ps) =? size tf then inl tt else inr (EBits (size tf) (Z.of_nat (length ps))), tf') /\
    clockPin tf' = 0 /\
    forall j, 0 <= j ->
      vec_bit (toUUT tf') j = pin_to (pin_at ps j) /\
      vec_bit (fromUUT tf') j = pin_from (pin_at ps j) /\
      vec_bit (ignored tf') j = pin_skip (pin_at ps j) || vec_bit (ignored tf) j.
Proof.
  destruct (parse_vector_run tf tokens ps Hs Hi Hv Hl) as (tf' & Hrun & _ & _ & Hc & _ & _ & _ & Hbits). eauto.
Qed.

Lemma parse_vector_pins_witness :
  exists tf', (Clear;; parseVector ["%00FF"; "@8000"]%string) (MkTest "X" 32 0 [] [] (NewFixedBitVec 32)) = Ret (inl tt, tf') /\
    clockPin tf' = 0 /\
    forall j, 0 <= j ->
      vec_bit (toUUT tf') j = pin_to (pin_at (default [] (vector_pins ["%00FF"; "@8000"]%string)) j) /\
      vec_bit (fromUUT tf') j = pin_from (pin_at (default [] (vector_pins ["%00FF"; "@8000"]%string)) j) /\
      vec_bit (ignored tf') j =
        pin_skip (pin_at (default [] (vector_pins ["%00FF"; "@8000"]%string)) j) || vec_bit (NewFixedBitVec 32) j.
Proof.
  apply (parse_vector_pins (MkTest "X" 32 0 [] [] (NewFixedBitVec 32)) ["%00FF"; "@8000"]%string
           (default [] (vector_pins ["%00FF"; "@8000"]%string)));
    [cbn; lia | vm_compute; discriminate | vm_compute; reflexivity | vm_compute; discriminate].
Defined.

(** [Clear] keeps the ignored pins: a pin that one vector marks X is still
    ignored when the next vector of the file checks it, contrary to the comment
    that the vectors are cleared. *)
Theorem clear_keeps_ignored (tf : TestFile) (Hs : 0 <= size tf) :
  exists tf', Clear tf = Ret (tt, tf') /\ ignored tf' = ignored tf.
Proof. destruct (Clear_spec tf Hs) as (tf' & H & _ & _ & _ & Hi & _). eauto. Qed.

Lemma clear_keeps_ignored_witness :
  exists tf', Clear (MkTest "ZIF" 24 0 [] [] [1; 0; 0; 0]) = Ret (tt, tf') /\ ignored tf' = [1; 0; 0; 0].
Proof. apply (clear_keeps_ignored (MkTest "ZIF" 24 0 [] [] [1; 0; 0; 0])). cbn. lia. Defined.

(** ** The protocol *)

Section Protocol.
Context {P : Type} `{Port P} (fuel : nat).

(** The port delivers these bytes, in order. *)
Fixpoint delivers (p : P) (bs : list Z) (p' : P) : Prop :=
  match bs with
  | [] => p' = p
  | b :: bs' => exists p1, ReadFor fuel p = Ret (inl b, p1) /\ delivers p1 bs' p'
  end.

(** One command, its acknowledgement and its response. *)
Definition exchange (p : P) (fixed resp : list Z) (p' : P) : Prop :=
  exists p1 p2, Write fuel fixed p = Ret (inl tt, p1) /\
    ReadFor fuel p1 = Ret (inl (Ack (default 0 (head fixed))), p2) /\ delivers p2 resp p'.

Lemma bindE_ret {A B} (c : M P (A + gerr)) (f : A -> M P (B + gerr)) a p p1 :
  c p = Ret (inl a, p1) -> bindE c f p = f a p1.
Proof. intros E. unfold bindE, mbind, M_bind. rewrite E. reflexivity. Qed.

Lemma bindE_err {A B} (c : M P (A + gerr)) (f : A -> M P (B + gerr)) e p p1 :
  c p = Ret (inr e, p1) -> bindE c f p = Ret (inr e, p1).
Proof. intros E. unfold bindE, mbind, M_bind. rewrite E. reflexivity. Qed.

Lemma read_bytes_delivers bs p p' : delivers p bs p' -> read_bytes fuel (length bs) p = Ret (inl bs, p').
Proof.
  revert p. induction bs as [| b bs IH]; intros p; cbn [delivers read_bytes length].
  - intros ->. reflexivity.
  - intros (p1 & H1 & H2). rewrite (bindE_ret _ _ b p p1 H1), (bindE_ret _ _ bs p1 p' (IH p1 H2)). reflexivity.
Qed.

Definition fixed_ok (fixed : list Z) (expected : Z) : bool :=
  (1 <=? Z.of_nat (length fixed)) && (Z.of_nat (length fixed) <=? 8) && (0 <=? expected) && (expected <=? 8).

Lemma DoFixedCommand_ok fixed expected :
  fixed_ok fixed expected = true ->
  DoFixedCommand fuel fixed expected =
    bindE (Write fuel fixed) (fun _ => bindE (getAck fuel (default 0 (head fixed))) (fun _ => read_bytes fuel (Z.to_nat expected))).
Proof.
  unfold fixed_ok. intros Hok. destruct fixed as [| cmd args]; [discriminate |]. bool_facts.
  unfold DoFixedCommand. rewrite (proj2 (Z.ltb_ge 8 _)) by assumption.
  rewrite (proj2 (Z.ltb_ge expected 0)), (proj2 (Z.ltb_ge 8 expected)) by lia. reflexivity.
Qed.

Lemma exchange_run fixed resp p p' :
  fixed_ok fixed (Z.of_nat (length resp)) = true -> exchange p fixed resp p' ->
  DoFixedCommand fuel fixed (Z.of_nat (length resp)) p = Ret (inl resp, p').
Proof.
  intros Hok (p1 & p2 & Hw & Ha & Hd). rewrite DoFixedCommand_ok by exact Hok.
  rewrite (bindE_ret _ _ tt p p1 Hw). unfold getAck.
  rewrite (bindE_ret _ _ tt p1 p2); [rewrite Nat2Z.id; apply read_bytes_delivers, Hd |].
  rewrite (bindE_ret _ _ _ p1 p2 Ha), Z.eqb_refl. reflexivity.
Qed.

(** The command protocol.  A command of a legal length, when the port takes
    it and answers with its acknowledgement (its complement) and the response,
    returns exactly the response; any other first byte is reported with the
    command and nothing more is read; a command or response of an illegal length
    is refused before any I/O. *)
Theorem fixed_command_protocol (fixed resp : list Z) (p : P) :
  (forall p', fixed_ok fixed (Z.of_nat (length resp)) = true -> exchange p fixed resp p' ->
     DoFixedCommand fuel fixed (Z.of_nat (length resp)) p = Ret (inl resp, p')) /\
  (forall expected p1 p2 b, fixed_ok fixed expected = true -> Write fuel fixed p = Ret (inl tt, p1) ->
     ReadFor fuel p1 = Ret (inl b, p2) -> b <> Ack (default 0 (head fixed)) ->
     DoFixedCommand fuel fixed expected p = Ret (inr (EUnexpected (default 0 (head fixed)) b), p2)) /\
  (forall expected, fixed_ok fixed expected = false ->
     exists e, DoFixedCommand fuel fixed expected p = Ret (inr e, p)).
Proof.
  split; [intros p'; apply exchange_run |]. split.
  - intros expected p1 p2 b Hok Hw Hr Hne. rewrite DoFixedCommand_ok by exact Hok.
    rewrite (bindE_ret _ _ tt p p1 Hw). apply bindE_err. unfold getAck.
    rewrite (bindE_ret _ _ b p1 p2 Hr), (proj2 (Z.eqb_neq _ _) Hne). reflexivity.
  - intros expected Hbad. unfold DoFixedCommand. destruct fixed as [| cmd args]; [eexists; reflexivity |].
    destruct (Z.ltb_spec 8 (Z.of_nat (length (cmd :: args)))); [eexists; reflexivity |].
    destruct (Z.ltb_spec expected 0), (Z.ltb_spec 8 expected); cbn [orb]; try (eexists; reflexivity).
    unfold fixed_ok in Hbad. rewrite !(proj2 (Z.leb_le _ _)) in Hbad by (cbn [length] in *; lia). discriminate.
Qed.

(** ** Command lines *)

Lemma hex_digit_char d : 0 <= d < 16 -> hex_digit (digit_char d) = Some d.
Proof.
  intros Hd. unfold hex_digit, digit_char.
  rewrite Ascii.nat_ascii_embedding by (destruct (Z.ltb_spec d 10); lia).
  destruct (Z.ltb_spec d 10); rewrite Z2Nat.id by lia.
  - rewrite (proj2 (Z.leb_le 48 _)), (proj2 (Z.leb_le _ 57)) by lia. cbn. f_equal. lia.
  - rewrite (proj2 (Z.leb_gt _ 57)) by lia. rewrite andb_false_r.
    rewrite (proj2 (Z.leb_le 65 _)), (proj2 (Z.leb_le _ 70)) by lia. cbn. f_equal. lia.
Qed.

Lemma hex_not_space c d : hex_digit c = Some d -> is_space c = false.
Proof.
  unfold hex_digit, is_space. intros Hh.
  destruct (Nat.eqb_spec (Ascii.nat_of_ascii c) 32) as [E | _]; [rewrite E in Hh; discriminate |].
  destruct (Nat.eqb_spec (Ascii.nat_of_ascii c) 9) as [E | _]; [rewrite E in Hh; discriminate | reflexivity].
Qed.

Lemma hex_scan_char c d : hex_digit c = Some d -> is_scan_char c = true.
Proof. unfold is_scan_char. intros ->. reflexivity. Qed.

Lemma fmt_X2 b : 0 <= b < 256 ->
  fmt_X 2 b = String (digit_char (b / 16)) (String (digit_char (b mod 16)) EmptyString).
Proof.
  intros Hb. unfold fmt_X, pad_to, number. cbn [digits_acc]. destruct (Z.ltb_spec b 16) as [Hlt | Hge].
  - cbn [String.length pad Nat.sub]. rewrite Z.div_small by lia. reflexivity.
  - destruct (Z.ltb_spec (b / 16) 16); [| Z.div_mod_to_equations; lia].
    rewrite (Z.mod_small (b / 16)) by (Z.div_mod_to_equations; lia). reflexivity.
Qed.

Definition sp : Ascii.ascii := Ascii.ascii_of_nat 32.

Lemma scan_two ci i b :
  hex_digit ci = Some i -> 0 <= i < 16 -> 0 <= b < 256 ->
  scan_xx (String ci (String sp (fmt_X 2 b))) = Some (i, b).
Proof.
  intros Hi Hr Hb. rewrite fmt_X2 by exact Hb.
  assert (H1 : 0 <= b / 16 < 16) by (Z.div_mod_to_equations; lia).
  assert (H0 : 0 <= b mod 16 < 16) by (apply Z.mod_pos_bound; lia).
  pose proof (hex_digit_char _ H1) as D1. pose proof (hex_digit_char _ H0) as D0.
  set (c1 := digit_char (b / 16)) in *. set (c0 := digit_char (b mod 16)) in *. clearbody c1 c0.
  assert (Hsp : is_scan_char sp = false) by reflexivity. assert (Hsp' : is_space sp = true) by reflexivity.
  assert (Hn : sp <> ci) by (intros <-; discriminate Hi).
  unfold scan_xx, scan_x. cbn [skip_spaces]. rewrite (hex_not_space ci i Hi). cbn [span_scan].
  rewrite (hex_scan_char ci i Hi), Hsp. cbn [fst snd String.length Nat.eqb parse_hex].
  rewrite Hi. cbn [mbind option_bind parse_hex]. rewrite (proj2 (Z.ltb_lt _ 256)) by lia.
  cbn [mbind option_bind fst snd skip_spaces]. rewrite Hsp'. cbn [skip_spaces]. rewrite (hex_not_space c1 _ D1).
  cbn [span_scan]. rewrite (hex_scan_char c1 _ D1), (hex_scan_char c0 _ D0). cbn [fst snd String.length Nat.eqb parse_hex].
  rewrite D1. cbn [mbind option_bind parse_hex]. rewrite D0. cbn [mbind option_bind parse_hex].
  pose proof (Z.div_mod b 16 ltac:(lia)).
  replace ((0 * 16 + b / 16) * 16 + b mod 16) with b by lia. rewrite (proj2 (Z.ltb_lt b 256)) by lia.
  cbn. repeat f_equal; lia.
Qed.

Lemma set_port_run ci i b p p' :
  hex_digit ci = Some i -> 0 <= i < 16 -> 0 <= b < 256 -> exchange p [CmdSet; i; b] [] p' ->
  set_port fuel (String ci EmptyString) b p = Ret (inl tt, p').
Proof.
  intros Hi Hr Hb Hx. unfold set_port, doSetCmd.
  assert (Hline : line_from 2 ("s " +:+ String ci EmptyString +:+ " " +:+ fmt_X 2 b) =
                  Some (String ci (String sp (fmt_X 2 b)))) by (rewrite fmt_X2 by exact Hb; reflexivity).
  change (second_is_r ("s " +:+ String ci EmptyString +:+ " " +:+ fmt_X 2 b)) with (Some false).
  cbn [from_opt]. unfold mbind at 1, M_bind at 1. cbn [mret M_ret]. rewrite Hline.
  unfold mbind, M_bind. cbn [from_opt mret M_ret]. rewrite scan_two with (i := i) by assumption.
  rewrite (bindE_ret _ _ [] p p'); [reflexivity |]. apply (exchange_run [CmdSet; i; b] [] p p' eq_refl Hx).
Qed.

Lemma toggle_run line a b p p' :
  line_from 2 line ≫= scan_xx = Some (a, b) -> exchange p [CmdPulse; a; b] [] p' ->
  doToggleCmd fuel line p = Ret (inl tt, p').
Proof.
  intros Hs Hx. unfold doToggleCmd. destruct (line_from 2 line) as [s |]; [| discriminate].
  cbn [mbind option_bind] in Hs. unfold mbind, M_bind. cbn [from_opt mret M_ret]. rewrite Hs.
  rewrite (bindE_ret _ _ [] p p'); [reflexivity |]. apply (exchange_run [CmdPulse; a; b] [] p p' eq_refl Hx).
Qed.

Lemma get_run line a v p p' :
  second_is_r line = Some false -> (r ← (line_from 2 line ≫= scan_x); Some r.1) = Some a ->
  exchange p [CmdGet; a] [v] p' -> doGetCmd fuel line p = Ret (inl v, p').
Proof.
  intros Hsec Hs Hx. unfold doGetCmd. rewrite Hsec. unfold mbind at 1, M_bind at 1. cbn [from_opt mret M_ret].
  destruct (line_from 2 line) as [s |]; [| discriminate]. cbn [mbind option_bind] in Hs.
  unfold mbind, M_bind. cbn [from_opt mret M_ret]. destruct (scan_x s) as [[a' r] |]; [| discriminate].
  cbn in Hs. injection Hs as ->.
  rewrite (bindE_ret _ _ [v] p p'); [reflexivity |]. apply (exchange_run [CmdGet; a] [v] p p' eq_refl Hx).
Qed.

(** ** Applying a vector to the PLCC socket *)

(** The byte whose bits are the driven values of the pins, least significant
    first from [shift] on. *)
Fixpoint driven (tf : TestFile) (pins : list Z) (shift : Z) : Z :=
  match pins with
  | [] => 0
  | n :: rest => Z.lor (Z.shiftl (Z.b2z (vec_bit (toUUT tf) (n - 1))) shift) (driven tf rest (shift + 1))
  end.

(** The 16 expected result bits, and the number of flags that differ. *)
Fixpoint wanted (tf : TestFile) (pins : list Z) (shift : Z) : Z :=
  match pins with
  | [] => 0
  | n :: rest => Z.lor (Z.shiftl (Z.b2z (vec_bit (fromUUT tf) (n - 1))) shift) (wanted tf rest (shift - 1))
  end.

Fixpoint wrong_flags (tf : TestFile) (cpgzv : Z) (pins : list Z) (shift : Z) : Z :=
  match pins with
  | [] => 0
  | n :: rest =>
    (if Bool.eqb (Z.testbit cpgzv shift) (vec_bit (fromUUT tf) (n - 1)) || vec_bit (ignored tf) (n - 1)
     then 0 else 1) + wrong_flags tf cpgzv rest (shift + 1)
  end.

Definition plcc_ok (tf : TestFile) : Prop :=
  capacity (toUUT tf) = 72 /\ capacity (fromUUT tf) = 72 /\ capacity (ignored tf) = 72 /\
  Forall is_u8 (toUUT tf).

Section Vector.
Context (tf : TestFile) (Htf : plcc_ok tf).

Lemma ask_to n (p : P) : 1 <= n <= 68 -> ask tf (GetToUUT (pinToPos n)) p = Ret (Z.b2z (vec_bit (toUUT tf) (n - 1)), p).
Proof using Htf.
  intros Hn. destruct Htf as (C & _). unfold ask, GetToUUT, mbind, M_bind, gets, pinToPos.
  rewrite Get_spec by lia. reflexivity.
Qed.

Lemma ask_from n (p : P) : 1 <= n <= 68 -> ask tf (GetFromUUT (pinToPos n)) p = Ret (Z.b2z (vec_bit (fromUUT tf) (n - 1)), p).
Proof using Htf.
  intros Hn. destruct Htf as (_ & C & _). unfold ask, GetFromUUT, mbind, M_bind, gets, pinToPos.
  rewrite Get_spec by lia. reflexivity.
Qed.

Lemma ask_ign n (p : P) : 1 <= n <= 68 -> ask tf (IsIgnored (pinToPos n)) p = Ret (Z.b2z (vec_bit (ignored tf) (n - 1)), p).
Proof using Htf.
  intros Hn. destruct Htf as (_ & _ & C & _). unfold ask, IsIgnored, mbind, M_bind, gets, pinToPos.
  rewrite Get_spec by lia. reflexivity.
Qed.

Lemma shift_bit_u8 b shift : 0 <= shift <= 7 -> u8 (Z.shiftl (Z.b2z b) shift) = Z.shiftl (Z.b2z b) shift.
Proof.
  intros Hs. destruct b; cbn [Z.b2z]; [| rewrite Z.shiftl_0_l; reflexivity].
  rewrite bit_mask, Z.shiftl_1_l by lia. reflexivity.
Qed.

Lemma driven_run pins shift (p : P) :
  Forall (fun n => 1 <= n <= 68) pins -> 0 <= shift -> shift + Z.of_nat (length pins) <= 8 ->
  pins_byte tf pins shift p = Ret (driven tf pins shift, p) /\ 0 <= driven tf pins shift < 256.
Proof using Htf.
  revert shift. induction pins as [| n pins IH]; intros shift Hp Hs Hl; [split; [reflexivity | cbn; lia] |].
  inversion_clear Hp. cbn [length pins_byte driven] in *.
  destruct (IH (shift + 1)) as [Hrun Hb]; [assumption | lia | lia |]. split.
  - unfold mbind, M_bind. rewrite ask_to, Hrun by assumption. rewrite shift_bit_u8 by lia. reflexivity.
  - apply (lor_bound 8); [lia | | exact Hb]. rewrite <- shift_bit_u8 by lia. apply u8_range.
Qed.

Lemma wanted_run pins shift (p : P) :
  Forall (fun n => 1 <= n <= 68) pins -> expected_bits tf pins shift p = Ret (wanted tf pins shift, p).
Proof using Htf.
  revert shift. induction pins as [| n pins IH]; intros shift Hp; [reflexivity |].
  inversion_clear Hp. cbn [expected_bits wanted]. unfold mbind, M_bind. rewrite ask_from, IH by assumption.
  unfold mret, M_ret. do 4 f_equal. destruct (vec_bit _ _); reflexivity.
Qed.

Lemma flags_run cpgzv pins shift (p : P) :
  Forall (fun n => 1 <= n <= 68) pins -> 0 <= shift ->
  flag_errors tf cpgzv pins shift p = Ret (wrong_flags tf cpgzv pins shift, p).
Proof using Htf.
  revert shift. induction pins as [| n pins IH]; intros shift Hp Hs; [reflexivity |].
  inversion_clear Hp. cbn [flag_errors wrong_flags]. unfold mbind, M_bind. rewrite ask_from by assumption.
  assert (Hbit : (Z.land (Z.shiftr cpgzv shift) 1 =? u8 (Z.b2z (vec_bit (fromUUT tf) (n - 1)))) =
                 Bool.eqb (Z.testbit cpgzv shift) (vec_bit (fromUUT tf) (n - 1))).
  { rewrite land_bit0, Z.shiftr_div_pow2, (testbit_div cpgzv shift) by lia.
    pose proof (Z.mod_pos_bound (cpgzv / 2 ^ shift) 2 ltac:(lia)) as Hx.
    set (x := (cpgzv / 2 ^ shift) mod 2) in *. clearbody x.
    assert (x = 0 \/ x = 1) as [-> | ->] by lia; destruct (vec_bit (fromUUT tf) (n - 1)); reflexivity. }
  rewrite Hbit. destruct (Bool.eqb _ _); cbn [negb orb].
  - cbn [mret M_ret]. rewrite IH by (assumption || lia). reflexivity.
  - rewrite ask_ign by assumption. cbn [mret M_ret]. rewrite IH by (assumption || lia).
    destruct (vec_bit (ignored tf) (n - 1)); reflexivity.
Qed.

(** The commands of a vector and the responses of the device. *)
Definition plcc_script (cpgzv hi lo : Z) : list (list Z * list Z) :=
  [ ([CmdSet; 4; default 0 (toUUT tf !! 0%nat)], []);
    ([CmdSet; 5; default 0 (toUUT tf !! 1%nat)], []);
    ([CmdSet; 6; driven tf [27; 26; 25; 44; 45; 46; 47; 48] 0], []);
    ([CmdSet; 10; driven tf [49; 50; 51; 52] 4], []);
    ([CmdSet; 3; driven tf [53; 54; 55; 56; 57; 58; 59; 60] 0], []);
    ([CmdSet; 2; driven tf [61; 62; 63; 64; 65; 66; 67; 68] 0], []) ] ++
  (if HasClock tf then [([CmdPulse; 1; 8], [])] else []) ++
  [ ([CmdPulse; 1; 11], []); ([CmdPulse; 1; 0], []); ([CmdPulse; 1; 7], []);
    ([CmdGet; 12], [cpgzv]); ([CmdGet; 1], [hi]); ([CmdGet; 9], [lo]) ].

Definition plcc_errors (cpgzv hi lo : Z) : Z :=
  (if wanted tf (seqZ 28 16) 15 =? Z.lor (Z.shiftl hi 8) lo then 0 else 1) +
  wrong_flags tf cpgzv (seqZ 20 5) 0.

(** A sequence of exchanges. *)
Fixpoint session (p : P) (l : list (list Z * list Z)) (p' : P) : Prop :=
  match l with
  | [] => p' = p
  | (cmd, resp) :: l' => exists p1, exchange p cmd resp p1 /\ session p1 l' p'
  end.

End Vector.

Lemma to_byte_u8 tf k : plcc_ok tf -> (k < 9)%nat -> 0 <= default 0 (toUUT tf !! k) < 256 /\
  toUUT tf !! k = Some (default 0 (toUUT tf !! k)).
Proof.
  intros (C & _ & _ & Hu) Hk. destruct (lookup_is_Some_len (toUUT tf) k) as [b Hb]; [unfold capacity in C; lia |].
  rewrite Hb. split; [exact (Forall_lookup_1 _ _ _ _ Hu Hb) | reflexivity].
Qed.

Lemma ask_byte tf k (p : P) bit :
  plcc_ok tf -> (k < 9)%nat -> Z.to_nat (bit / 8) = k ->
  ask tf (GetByteToUUT bit) p = Ret (default 0 (toUUT tf !! k), p).
Proof.
  intros Htf Hk Hb. destruct (to_byte_u8 tf k Htf Hk) as [_ E].
  unfold ask, GetByteToUUT, mbind, M_bind, gets, GetByte. rewrite Hb. rewrite E at 1. reflexivity.
Qed.

Lemma seqZ_pins a n : 1 <= a -> a + n <= 69 -> Forall (fun k => 1 <= k <= 68) (seqZ a n).
Proof. intros Ha Hn. apply Forall_forall. intros k Hk. apply elem_of_seqZ in Hk. lia. Qed.

Ltac pins_ok := repeat (apply Forall_cons_2; [lia |]); apply Forall_nil_2.

Lemma applyPLCC_run tf cpgzv hi lo p p' :
  plcc_ok tf -> session p (plcc_script tf cpgzv hi lo) p' ->
  applyPLCC fuel tf p = Ret (inl (plcc_errors tf cpgzv hi lo), p').
Proof.
  intros Htf Hdev.
  destruct (to_byte_u8 tf 0 Htf ltac:(lia)) as [U0 E0]. destruct (to_byte_u8 tf 1 Htf ltac:(lia)) as [U1 E1].
  destruct (driven_run tf Htf [27; 26; 25; 44; 45; 46; 47; 48] 0 p) as [_ D6]; [pins_ok | lia | cbn; lia |].
  destruct (driven_run tf Htf [49; 50; 51; 52] 4 p) as [_ DA]; [pins_ok | lia | cbn; lia |].
  destruct (driven_run tf Htf [53; 54; 55; 56; 57; 58; 59; 60] 0 p) as [_ D3]; [pins_ok | lia | cbn; lia |].
  destruct (driven_run tf Htf [61; 62; 63; 64; 65; 66; 67; 68] 0 p) as [_ D2]; [pins_ok | lia | cbn; lia |].
  unfold plcc_script in Hdev. cbn [app session] in Hdev.
  destruct Hdev as (p1 & X4 & p2 & X5 & p3 & X6 & p4 & XA & p5 & X3 & p6 & X2 & Hdev).
  assert (Hclk : exists p7, (if HasClock tf then doToggleCmd fuel "t 1 8" else mret (inl tt)) p6 = Ret (inl tt, p7) /\
            session p7 [([CmdPulse; 1; 11], []); ([CmdPulse; 1; 0], []); ([CmdPulse; 1; 7], []);
              ([CmdGet; 12], [cpgzv]); ([CmdGet; 1], [hi]); ([CmdGet; 9], [lo])] p').
  { destruct (HasClock tf); cbn [app session] in Hdev; [| exists p6; auto].
    destruct Hdev as (p7 & X8 & Hdev). exists p7. split; [| exact Hdev].
    exact (toggle_run "t 1 8" 1 8 p6 p7 eq_refl X8). }
  destruct Hclk as (p7 & Hclk & p8 & XB & p9 & X0 & p10 & X7 & p11 & GC & p12 & G1 & p13 & G9 & ->).
  unfold applyPLCC.
  rewrite (bind_ret _ _ _ _ _ (ask_byte tf 0 p 0 Htf ltac:(lia) eq_refl)).
  rewrite (bindE_ret _ _ tt p p1 (set_port_run (Ascii.Ascii false false true false true true false false) 4 _ p p1 eq_refl ltac:(lia) U0 X4)).
  rewrite (bind_ret _ _ _ _ _ (ask_byte tf 1 p1 8 Htf ltac:(lia) eq_refl)).
  rewrite (bindE_ret _ _ tt p1 p2 (set_port_run (Ascii.Ascii true false true false true true false false) 5 _ p1 p2 eq_refl ltac:(lia) U1 X5)).
  rewrite (bind_ret _ _ _ _ _ (proj1 (driven_run tf Htf [27; 26; 25; 44; 45; 46; 47; 48] 0 p2 ltac:(pins_ok) ltac:(lia) ltac:(cbn; lia)))).
  rewrite (bindE_ret _ _ tt p2 p3 (set_port_run (Ascii.Ascii false true true false true true false false) 6 _ p2 p3 eq_refl ltac:(lia) D6 X6)).
  rewrite (bind_ret _ _ _ _ _ (proj1 (driven_run tf Htf [49; 50; 51; 52] 4 p3 ltac:(pins_ok) ltac:(lia) ltac:(cbn; lia)))).
  rewrite (bindE_ret _ _ tt p3 p4 (set_port_run (Ascii.Ascii true false false false false false true false) 10 _ p3 p4 eq_refl ltac:(lia) DA XA)).
  rewrite (bind_ret _ _ _ _ _ (proj1 (driven_run tf Htf [53; 54; 55; 56; 57; 58; 59; 60] 0 p4 ltac:(pins_ok) ltac:(lia) ltac:(cbn; lia)))).
  rewrite (bindE_ret _ _ tt p4 p5 (set_port_run (Ascii.Ascii true true false false true true false false) 3 _ p4 p5 eq_refl ltac:(lia) D3 X3)).
  rewrite (bind_ret _ _ _ _ _ (proj1 (driven_run tf Htf [61; 62; 63; 64; 65; 66; 67; 68] 0 p5 ltac:(pins_ok) ltac:(lia) ltac:(cbn; lia)))).
  rewrite (bindE_ret _ _ tt p5 p6 (set_port_run (Ascii.Ascii false true false false true true false false) 2 _ p5 p6 eq_refl ltac:(lia) D2 X2)).
  rewrite (bind_ret _ _ _ _ _ Hclk).
  rewrite (bindE_ret _ _ tt p7 p8 (toggle_run "t 1 B" 1 11 p7 p8 eq_refl XB)).
  rewrite (bindE_ret _ _ tt p8 p9 (toggle_run "t 1 0" 1 0 p8 p9 eq_refl X0)).
  rewrite (bindE_ret _ _ tt p9 p10 (toggle_run "t 1 7" 1 7 p9 p10 eq_refl X7)).
  rewrite (bindE_ret _ _ cpgzv p10 p11 (get_run "g C" 12 cpgzv p10 p11 eq_refl eq_refl GC)).
  rewrite (bindE_ret _ _ hi p11 p12 (get_run "g 1" 1 hi p11 p12 eq_refl eq_refl G1)).
  rewrite (bindE_ret _ _ lo p12 p13 (get_run "g 9" 9 lo p12 p13 eq_refl eq_refl G9)).
  rewrite (bind_ret _ _ _ _ _ (wanted_run tf Htf (seqZ 28 16) 15 p13 (seqZ_pins 28 16 ltac:(lia) ltac:(lia)))).
  rewrite (bind_ret _ _ _ _ _ (flags_run tf Htf cpgzv (seqZ 20 5) 0 p13 (seqZ_pins 20 5 ltac:(lia) ltac:(lia)) ltac:(lia))).
  reflexivity.
Qed.

(** A vector for the PLCC socket is applied as the wiring prescribes.  If
    the device answers the commands (the six ports with the driven values of
    their pins, the clock pulse if the vector has a clock, the three capture
    pulses, the three reads), [applyPLCC] sends exactly those, in that order,
    and returns the number of failures: one if the 16-bit result differs from
    the expected bits of pins 28 to 43, plus one for every flag of pins 20 to 24
    that differs and is not ignored. *)
Theorem plcc_vector_applied (tf : TestFile) (cpgzv hi lo : Z) (p p' : P) (Htf : plcc_ok tf)
    (Hdev : session p (plcc_script tf cpgzv hi lo) p') :
  applyPLCC fuel tf p = Ret (inl (plcc_errors tf cpgzv hi lo), p').
Proof. exact (applyPLCC_run tf cpgzv hi lo p p' Htf Hdev). Qed.

End Protocol.

(** ** A scripted port *)

(** The reads still to come, and the writes made so far. *)
Record script := MkScript { to_read : list (option Z * option perr); written : list (list Z) }.

#[export] Instance script_port : Port script := {
  port_read := fun p =>
    match to_read p with
    | [] => (None, None, p)
    | (b, e) :: rest => (b, e, MkScript rest (written p))
    end;
  port_write := fun b p => (Z.of_nat (length b), None, MkScript (to_read p) (written p ++ [b]));
  port_close := fun p => (None, p)
}.

Definition reads (bs : list Z) : list (option Z * option perr) := (fun b => (Some b, None)) <$> bs.

Lemma fixed_command_protocol_witness :
  DoFixedCommand 3 [CmdGetVer] 1 (MkScript (reads [29; 13]) []) = Ret (inl [13], MkScript [] [[CmdGetVer]]).
Proof.
  apply (proj1 (fixed_command_protocol 3 [CmdGetVer] [13] (MkScript (reads [29; 13]) []))); [reflexivity |].
  exists (MkScript (reads [29; 13]) [[CmdGetVer]]), (MkScript (reads [13]) [[CmdGetVer]]).
  split; [reflexivity |]. split; [reflexivity |]. eexists. split; reflexivity.
Defined.

(** An all-zero vector: every command is acknowledged, the flags read 1 (a
    carry) and the result 0. *)
Definition zero_plcc : TestFile := MkTest "PLCC" 68 0 (NewFixedBitVec 68) (NewFixedBitVec 68) (NewFixedBitVec 68).

Definition plcc_answers : list Z := replicate 6 11 ++ replicate 3 15 ++ [7; 1; 7; 0; 7; 0].

Lemma plcc_vector_applied_witness :
  exists p', applyPLCC 3 zero_plcc (MkScript (reads plcc_answers) []) = Ret (inl 1, p') /\
    length (written p') = 12%nat.
Proof.
  eexists ltac:(let x := eval vm_compute in
    match applyPLCC 3 zero_plcc (MkScript (reads plcc_answers) []) with Ret (_, x) => x | Panic _ => MkScript [] [] end
    in exact x).
  split; [| reflexivity].
  apply (plcc_vector_applied 3 zero_plcc 1 0 0 (MkScript (reads plcc_answers) [])).
  - repeat split. apply Forall_replicate. unfold is_u8. lia.
  - vm_compute. repeat (eexists; split; [do 2 eexists; split; [reflexivity |]; split; [reflexivity |];
      first [reflexivity | eexists; split; reflexivity] |]). reflexivity.
Defined.

(** ** Interrupted reads *)

Section Interrupts.
Context {P : Type} `{Port P}.

(** The port is interrupted [n] times, in a read or in a write of [b]. *)
Inductive interrupted : nat -> P -> P -> Prop :=
| intr_O p : interrupted 0 p p
| intr_S n p p1 p2 :
    port_read p = (None, Some EINTR, p1) -> interrupted n p1 p2 -> interrupted (S n) p p2.

Inductive interrupted_write (b : list Z) : nat -> P -> P -> Prop :=
| intrw_O p : interrupted_write b 0 p p
| intrw_S n p p1 p2 :
    port_write b p = (0, Some EINTR, p1) -> interrupted_write b n p1 p2 -> interrupted_write b (S n) p p2.

(** What the callers see of a call that is not interrupted. *)
Definition read_result (res : option Z) (err : option perr) : Z + gerr :=
  match err, res with
  | Some e, _ => inr (EPort e)
  | None, None => inr ENoResponse
  | None, Some b => inl b
  end.

Definition write_result (b : list Z) (n : Z) (err : option perr) : unit + gerr :=
  match err with
  | Some e => inr (EPort e)
  | None => if n =? Z.of_nat (length b) then inl tt else inr EShortWrite
  end.

Lemma not_retryable err : err <> Some EINTR -> isRetryableSyscallError err = false.
Proof. destruct err as [[n |] |]; cbn; auto. intros Hne. apply Z.eqb_neq. intros ->. now apply Hne. Qed.

Lemma read_interrupted n k p p' : interrupted n p p' -> read_loop (n + k) p = read_loop k p'.
Proof.
  induction 1 as [p | n p p1 p2 Hr _ IH]; [reflexivity |].
  cbn [Nat.add read_loop]. rewrite Hr. exact IH.
Qed.

Lemma write_interrupted b n k p p' :
  interrupted_write b n p p' -> write_loop (n + k) b p = write_loop k b p'.
Proof.
  induction 1 as [p | n p p1 p2 Hr _ IH]; [reflexivity |].
  cbn [Nat.add write_loop]. rewrite Hr. exact IH.
Qed.

(** C38: interrupted system calls are transparent.  A read or a write that is
    interrupted any number of times (fewer than the fuel; the source has no
    bound) returns what the first call that is not interrupted gives: the byte,
    the time-out or the device's error, and for a write success only when every
    byte was taken. *)
Theorem interrupts_transparent (n fuel : nat) (p p' p2 : P) (Hf : (n < fuel)%nat) :
  (forall res err, interrupted n p p' -> port_read p' = (res, err, p2) -> err <> Some EINTR ->
    ReadFor fuel p = Ret (read_result res err, p2)) /\
  (forall b c err, interrupted_write b n p p' -> port_write b p' = (c, err, p2) -> err <> Some EINTR ->
    Write fuel b p = Ret (write_result b c err, p2)).
Proof.
  assert (E : fuel = (n + S (fuel - n - 1))%nat) by lia. unfold ReadFor, Write. rewrite E.
  split; [intros res err Hi Hr He | intros b c err Hi Hr He].
  - rewrite (read_interrupted _ _ _ _ Hi). cbn [read_loop]. rewrite Hr, not_retryable by exact He. destruct err, res; done.
  - rewrite (write_interrupted _ _ _ _ _ Hi). cbn [write_loop]. rewrite Hr, not_retryable by exact He. destruct err; done.
Qed.

End Interrupts.

(** A port that only answers writes, from a list. *)
Definition writes := list (Z * option perr).

#[export] Instance writes_port : Port writes := {
  port_read := fun p => (None, None, p);
  port_write := fun _ p => match p with [] => (0, None, p) | (n, e) :: rest => (n, e, rest) end;
  port_close := fun p => (None, p)
}.

Lemma interrupts_transparent_witness :
  ReadFor 3 (MkScript [(None, Some EINTR); (Some 7, None)] []) = Ret (inl 7, MkScript [] []) /\
  ReadFor 1 (MkScript [(None, Some (Errno 5))] []) = Ret (inr (EPort (Errno 5)), MkScript [] []) /\
  Write 3 [1; 2] ([(0, Some EINTR); (0, Some EINTR); (2, None)] : writes) = Ret (inl tt, []).
Proof.
  split; [| split].
  - apply (interrupts_transparent 1 3 (MkScript [(None, Some EINTR); (Some 7, None)] [])
             (MkScript [(Some 7, None)] []) (MkScript [] []) ltac:(lia)) with (res := Some 7) (err := None);
      [| reflexivity | discriminate].
    eapply intr_S; [reflexivity | apply intr_O].
  - apply (interrupts_transparent 0 1 (MkScript [(None, Some (Errno 5))] []) (MkScript [(None, Some (Errno 5))] [])
             (MkScript [] []) ltac:(lia)) with (res := None) (err := Some (Errno 5)); [apply intr_O | reflexivity | discriminate].
  - apply (interrupts_transparent 2 3 ([(0, Some EINTR); (0, Some EINTR); (2, None)] : writes) [(2, None)] [] ltac:(lia))
      with (b := [1; 2]) (c := 2) (err := None); [| reflexivity | discriminate].
    do 2 (eapply intrw_S; [reflexivity |]). apply intrw_O.
Defined.

(** ** Malformed vector files *)

(** A malformed vector file can crash the exerciser instead of being
    reported: a [%] or [@] token with fewer than four digits is sliced out of
    range, and a vector line before the [socket] line dereferences a nil test
    file. *)
Theorem malformed_file_panics {P : Type} `{Port P} (fuel : nat) (t line : string) (e : option gerr) (rest : list (string * option gerr))
    (pos : Z) (tf : TestFile) (p : P) (set : Z -> T unit) (rev : bool)
    (Ht : (String.length t < 5)%nat) (Hskip : skip_line line = false)
    (Hline : String.eqb (default ""%string (head (split_spaces line))) "socket" = false) :
  parse_hex_token t rev set pos tf = Panic "slice bounds out of range" /\
  scan fuel ((line, e) :: rest) None 0 p = Panic "nil pointer dereference".
Proof.
  split.
  - unfold parse_hex_token, slice. rewrite (proj2 (Nat.leb_gt 5 (String.length t)) Ht). reflexivity.
  - cbn [scan]. rewrite Hskip, Hline. reflexivity.
Qed.

Lemma malformed_file_panics_witness :
  parse_token "%12" 0 zero_plcc = Panic "slice bounds out of range"%string /\
  scan 3 [("0 1 L"%string, None)] None 0 (MkScript [] []) = Panic "nil pointer dereference"%string.
Proof.
  apply (malformed_file_panics 3 "%12" "0 1 L" None [] 0 zero_plcc (MkScript [] []) SetToUUT false);
    [cbn; lia | reflexivity | reflexivity].
Defined.
