(* ===== verification/CexSession.v ===== *)
(** * Sessions with the Nano

    What [CreateSession] and [DoPoll] of dev/nano.go promise to their callers:
    success means that the device acknowledged a sync and answered with the
    protocol version of the host, a device that answers so is accepted, and a
    poll delivers exactly the bytes that the device counted. *)

From S2P Require Import Prelude Text Cex CexVec CexTheorems.

Section Sessions.
Context {P : Type} `{Port P} (fuel : nat).

(** ** What a success says about the port *)

Lemma bindE_inv {A B} (c : M P (A + gerr)) (f : A -> M P (B + gerr)) b p p' :
  bindE c f p = Ret (inl b, p') -> exists a p1, c p = Ret (inl a, p1) /\ f a p1 = Ret (inl b, p').
Proof.
  unfold bindE, mbind, M_bind. destruct (c p) as [[[a | e] p1] | w]; [eauto | discriminate | discriminate].
Qed.

Lemma read_bytes_inv k bs p p' :
  read_bytes fuel k p = Ret (inl bs, p') -> length bs = k /\ delivers fuel p bs p'.
Proof.
  revert bs p. induction k as [| k IH]; intros bs p Hr; cbn [read_bytes] in Hr.
  - injection Hr as <- <-. split; reflexivity.
  - apply bindE_inv in Hr. destruct Hr as (b & p1 & Hb & Hr). apply bindE_inv in Hr.
    destruct Hr as (bs' & p2 & Hbs & Hr). injection Hr as <- <-. destruct (IH _ _ Hbs) as [Hl Hd].
    split; [cbn; congruence | exists p1; auto].
Qed.

Lemma getAck_inv cmd p p' : getAck fuel cmd p = Ret (inl tt, p') -> ReadFor fuel p = Ret (inl (Ack cmd), p').
Proof.
  unfold getAck. intros Hg. apply bindE_inv in Hg. destruct Hg as (b & p1 & Hb & Hg). unfold mret, M_ret in Hg.
  destruct (Z.eqb_spec b (Ack cmd)) as [-> |]; [injection Hg as <-; exact Hb | discriminate].
Qed.

Lemma DoFixedCommand_inv fixed expected resp p p' :
  DoFixedCommand fuel fixed expected p = Ret (inl resp, p') ->
  exchange fuel p fixed resp p' /\ Z.of_nat (length resp) = expected.
Proof.
  intros Hr. destruct (fixed_ok fixed expected) eqn:Hok.
  - rewrite DoFixedCommand_ok in Hr by exact Hok. apply bindE_inv in Hr. destruct Hr as ([] & p1 & Hw & Hr).
    apply bindE_inv in Hr. destruct Hr as ([] & p2 & Ha & Hr). apply getAck_inv in Ha.
    apply read_bytes_inv in Hr. destruct Hr as [Hl Hd]. unfold fixed_ok in Hok. bool_facts.
    split; [exists p1, p2; auto | lia].
  - unfold DoFixedCommand in Hr. destruct fixed as [| cmd args]; [discriminate |]. unfold fixed_ok in Hok.
    destruct (Z.ltb_spec 8 (Z.of_nat (length (cmd :: args)))); [discriminate |].
    destruct (Z.ltb_spec expected 0), (Z.ltb_spec 8 expected); cbn [orb] in Hr; try discriminate.
    rewrite !(proj2 (Z.leb_le _ _)) in Hok by (cbn [length] in *; lia). discriminate.
Qed.

(** ** Connections *)

(** The device is in step: after some reads of late acknowledgements it answers
    the version command with the version of the host. *)
Definition connected (p' : P) : Prop :=
  exists p0 p1 p2 n, exchange fuel p0 [CmdSync] [] p1 /\ (n < 3)%nat /\
    read_ignored fuel n p1 = Ret (tt, p2) /\ exchange fuel p2 [CmdGetVer] [ProtocolVersion] p'.

Lemma version_inv p p' :
  checkProtocolVersion fuel p = Ret (inl tt, p') -> exchange fuel p [CmdGetVer] [ProtocolVersion] p'.
Proof.
  intros Hc. apply bindE_inv in Hc. destruct Hc as (bs & p1 & Hd & Hc). apply DoFixedCommand_inv in Hd.
  destruct Hd as [Hd Hl]. destruct bs as [| v [| ? ?]]; cbn in Hl; try lia.
  cbn in Hc. unfold mbind, M_bind in Hc. cbn in Hc. destruct (Z.eqb_spec v ProtocolVersion) as [-> |]; [injection Hc as <-; exact Hd | discriminate].
Qed.

Lemma version_run p p' :
  exchange fuel p [CmdGetVer] [ProtocolVersion] p' -> checkProtocolVersion fuel p = Ret (inl tt, p').
Proof.
  intros Hx. unfold checkProtocolVersion. change 1 with (Z.of_nat (length [ProtocolVersion])).
  rewrite (bindE_ret _ _ [ProtocolVersion] p p'); [reflexivity | apply exchange_run; [reflexivity | exact Hx]].
Qed.

Lemma sync_run p p' : exchange fuel p [CmdSync] [] p' -> DoCommand fuel CmdSync p = Ret (inl tt, p').
Proof.
  intros Hx. unfold DoCommand. rewrite (bindE_ret _ _ [] p p'); [reflexivity |].
  apply (exchange_run fuel [CmdSync] []); [reflexivity | exact Hx].
Qed.

Lemma sync_inv k sent p p' :
  sync_loop fuel k sent p = Ret (inl tt, p') ->
  exists p0 p1 n, exchange fuel p0 [CmdSync] [] p1 /\ (n < sent + k)%nat /\ read_ignored fuel n p1 = Ret (tt, p').
Proof.
  revert sent p. induction k as [| k IH]; intros sent p Hs; cbn [sync_loop] in Hs; [discriminate |].
  unfold mbind, M_bind in Hs. destruct (DoCommand fuel CmdSync p) as [[[[] | e] p1] | w] eqn:Hd; [| | discriminate].
  - apply bindE_inv in Hd. destruct Hd as (bs & q & Hd & Hq). injection Hq as ->.
    apply DoFixedCommand_inv in Hd. destruct Hd as [Hd Hl]. destruct bs; [| cbn in Hl; lia].
    destruct (read_ignored fuel sent p1) as [[[] p2] | w] eqn:Hr; [| discriminate]. injection Hs as <-.
    exists p, p1, sent. repeat split; [exact Hd | lia | exact Hr].
  - destruct (IH _ _ Hs) as (p0 & q & n & ? & ? & ?). exists p0, q, n. repeat split; [assumption | lia | assumption].
Qed.

Lemma establish_inv first p p' : establishConnection fuel first p = Ret (inl tt, p') -> connected p'.
Proof.
  unfold establishConnection. intros He. apply bindE_inv in He. destruct He as ([] & p1 & _ & He).
  apply bindE_inv in He. destruct He as ([] & p2 & Hs & Hv).
  apply sync_inv in Hs. destruct Hs as (q0 & q1 & n & Hx & Hn & Hi).
  exists q0, q1, p2, n. repeat split; [exact Hx | exact Hn | exact Hi | apply version_inv, Hv].
Qed.

Lemma session_inv k first err p p' :
  session_loop fuel k first err p = Ret (inl tt, p') -> err <> None \/ (0 < k)%nat -> connected p'.
Proof.
  revert first err p. induction k as [| k IH]; intros first err p Hs He; cbn [session_loop] in Hs.
  - destruct err; [discriminate | destruct He; [done | lia]].
  - unfold mbind, M_bind in Hs.
    destruct (establishConnection fuel first p) as [[[[] | e] p1] | w] eqn:Hc; [| | discriminate].
    + injection Hs as <-. apply (establish_inv first p), Hc.
    + apply (IH false (Some e) p1 Hs). left. discriminate.
Qed.

Lemma session_run p p1 p' :
  exchange fuel p [CmdSync] [] p1 -> exchange fuel p1 [CmdGetVer] [ProtocolVersion] p' ->
  CreateSession fuel p = Ret (inl tt, p').
Proof.
  intros Hx Hv. unfold CreateSession. cbn [session_loop]. unfold establishConnection, getSyncResponse.
  apply sync_run in Hx. apply version_run in Hv. unfold bindE, mbind, M_bind. cbn [mret M_ret sync_loop].
  unfold mbind, M_bind. rewrite Hx. cbn [read_ignored mret M_ret]. rewrite Hv. reflexivity.
Qed.

(** C39: a session needs a device that speaks the protocol.  When [CreateSession]
    succeeds the device has acknowledged a sync and then, after at most two late
    acknowledgements, answered the version command with the version of the host,
    as the last thing read; a device that does so at once is accepted without a
    retry. *)
Theorem session_established (p p' : P) :
  (CreateSession fuel p = Ret (inl tt, p') -> connected p') /\
  (forall p1, exchange fuel p [CmdSync] [] p1 -> exchange fuel p1 [CmdGetVer] [ProtocolVersion] p' ->
     CreateSession fuel p = Ret (inl tt, p')).
Proof.
  split; [intros Hs; apply (session_inv 3 true None p p' Hs); right; lia |].
  intros p1. apply session_run.
Qed.

(** ** Polling *)

Lemma counted_run fixed msg p p1 p' :
  fixed_ok fixed 1 = true -> exchange fuel p fixed [Z.of_nat (length msg)] p1 -> delivers fuel p1 msg p' ->
  DoCountedReceive fuel fixed p = Ret (inl msg, p').
Proof.
  intros Hok Hx Hd. unfold DoCountedReceive. rewrite (bindE_ret _ _ [Z.of_nat (length msg)] p p1).
  - cbn. unfold mbind, M_bind. cbn. rewrite Nat2Z.id. apply read_bytes_delivers, Hd.
  - apply (exchange_run fuel fixed [Z.of_nat (length msg)]); assumption.
Qed.

(** Messages that start with one of the four punctuation marks. *)
Definition reserved_request (msg : list Z) : bool :=
  match msg with c :: _ => (35 <=? c) && (c <=? 38) | [] => false end.

(** A counted response is received whole and a poll never panics.  When the
    device acknowledges, sends a count and then that many bytes,
    [DoCountedReceive] returns exactly those bytes, and [DoPoll] reads exactly
    them and fails only for a request of the reserved kind; conversely whatever
    [DoCountedReceive] returns was sent by the device, as many bytes as it
    counted. *)
Theorem poll_receives_message (msg : list Z) (p p' : P) :
  (forall p1, exchange fuel p [CmdPoll] [Z.of_nat (length msg)] p1 -> delivers fuel p1 msg p' ->
     DoCountedReceive fuel [CmdPoll] p = Ret (inl msg, p') /\
     DoPoll fuel p = Ret (if reserved_request msg then inr EUnsupported else inl tt, p')) /\
  (DoCountedReceive fuel [CmdPoll] p = Ret (inl msg, p') ->
     exists c p1, exchange fuel p [CmdPoll] [c] p1 /\ length msg = Z.to_nat c /\ delivers fuel p1 msg p').
Proof.
  split.
  - intros p1 Hx Hd. pose proof (counted_run [CmdPoll] msg p p1 p' eq_refl Hx Hd) as Hr.
    split; [exact Hr |]. unfold DoPoll. rewrite (bindE_ret _ _ msg p p' Hr).
    destruct msg as [| c msg]; [reflexivity |]. cbn [length reserved_request].
    rewrite (proj2 (Z.eqb_neq (Z.of_nat (S (length msg))) 0)) by lia. cbn.
    unfold mbind, M_bind. cbn. destruct ((35 <=? c) && (c <=? 38)); reflexivity.
  - intros Hr. apply bindE_inv in Hr. destruct Hr as (bs & p1 & Hd & Hr). apply DoFixedCommand_inv in Hd.
    destruct Hd as [Hd Hl]. destruct bs as [| c [| ? ?]]; cbn in Hl; try lia.
    apply read_bytes_inv in Hr. exists c, p1. destruct Hr. auto.
Qed.

End Sessions.

(** A device that acknowledges the sync and has version 13. *)
Lemma session_established_witness :
  CreateSession 3 (MkScript (reads [30; 29; 13]) []) = Ret (inl tt, MkScript [] [[CmdSync]; [CmdGetVer]]).
Proof.
  apply (proj2 (session_established 3 (MkScript (reads [30; 29; 13]) []) (MkScript [] [[CmdSync]; [CmdGetVer]])))
    with (p1 := MkScript (reads [29; 13]) [[CmdSync]]).
  - do 2 eexists. split; [reflexivity |]. split; reflexivity.
  - do 2 eexists. split; [reflexivity |]. split; [reflexivity |]. eexists. split; reflexivity.
Defined.

(** A poll answered with the message [hi]. *)
Lemma poll_receives_message_witness :
  DoPoll 3 (MkScript (reads [28; 2; 104; 105]) []) = Ret (inl tt, MkScript [] [[CmdPoll]]).
Proof.
  apply (proj1 (poll_receives_message 3 [104; 105] (MkScript (reads [28; 2; 104; 105]) []) (MkScript [] [[CmdPoll]]))
           (MkScript (reads [104; 105]) [[CmdPoll]])).
  - do 2 eexists. split; [reflexivity |]. split; [reflexivity |]. eexists. split; reflexivity.
  - eexists. split; [reflexivity |]. eexists. split; reflexivity.
Defined.
