(* ===== verification/CexMain.v ===== *)
(** * The top level of the exerciser

    exer/cex: the reader goroutine and its channel (input.go), the interactive
    session and the exit codes of main.go, over the serial protocol of Cex.  The
    goroutine takes steps of its own: a schedule says, for each wait of the main
    program, how many it takes before the wait and whether the timer wins. *)

From S2P Require Import Prelude Text Cex CexTheorems.

(** ** input.go *)

Definition newline : Ascii.ascii := Ascii.ascii_of_nat 10.

(** [reader.ReadString('\n')]: the line with its newline; None is an error, which
    includes the end of the input. *)
Fixpoint ReadString (s : string) : option (string * string) :=
  match s with
  | EmptyString => None
  | String c s' =>
    if Ascii.eqb c newline then Some (String c EmptyString, s')
    else match ReadString s' with Some (l, r) => Some (String c l, r) | None => None end
  end.

(** Where the goroutine [reader] is: before a read, blocked in a send of a line or
    of the marker, or returned, the channel being closed. *)
Inductive reader_at := Reading | Sending (s : string) | SendingEOF | Returned.

Record Input := MkInput { stdin : string; rd : reader_at; interactive : bool; promptNeeded : bool; prompts : nat }.

Definition NewInput (tty : bool) (text : string) : Input := MkInput text Reading tty tty 0.

Definition set_rd (r : reader_at) (s : string) (i : Input) : Input := MkInput s r (interactive i) (promptNeeded i) (prompts i).

Definition promptIfTerminal (i : Input) : Input :=
  if promptNeeded i then MkInput (stdin i) (rd i) (interactive i) false (S (prompts i)) else i.

(** A step of the goroutine: a send blocks until it is received. *)
Definition reader (i : Input) : Input :=
  match rd i with
  | Reading =>
    match ReadString (stdin i) with
    | Some (l, rest) => set_rd (Sending l) rest i
    | None => set_rd SendingEOF EmptyString i
    end
  | _ => i
  end.

Definition marker : string := "EOF".

(** What a receive gives, if it does not block.  A closed channel gives the empty
    string. *)
Definition receive (i : Input) : option (string * Input) :=
  match rd i with
  | Reading => None
  | Sending l => Some (l, set_rd Reading (stdin i) i)
  | SendingEOF => Some (marker, set_rd Returned (stdin i) i)
  | Returned => Some (EmptyString, i)
  end.

(** One entry of a schedule. *)
Record wait := MkWait { reader_steps : nat; timeout : bool }.

Definition need_prompt (i : Input) : Input := MkInput (stdin i) (rd i) (interactive i) true (prompts i).

Definition get (w : wait) (i : Input) : string * Input :=
  let i1 := Nat.iter (reader_steps w) reader (promptIfTerminal i) in
  if timeout w then (EmptyString, i1)
  else
    match receive i1 with
    | Some (l, i2) => (l, need_prompt i2)
    | None => (EmptyString, i1)
    end.

Inductive checked := NoInput | Line (s : string) | EndOfInput.

Definition CheckFor (w : wait) (i : Input) : checked * Input :=
  let '(line, i') := get w i in
  if (0 <? String.length line)%nat then
    if String.eqb line marker then (EndOfInput, i') else (Line line, i')
  else (NoInput, i').

(** ** main.go *)

Section Device.
Context {P : Type} `{Port P} (fuel : nat).

(** How far the session got: it goes on, or it ended with [io.EOF] or an error. *)
Inductive outcome := Running (i : Input) | Quit | Aborted (e : gerr).

Fixpoint interactiveSession (sched : list wait) (i : Input) : M P outcome :=
  match sched with
  | [] => mret (Running i)
  | w :: sched' =>
    r ← DoPoll fuel;
    match r with
    | inr e => mret (Aborted e)
    | inl _ =>
      match CheckFor w i with
      | (EndOfInput, _) => mret Quit
      | (NoInput, i') => interactiveSession sched' i'
      | (Line line, i') =>
        if (1 <? String.length line)%nat then
          r ← process fuel line;
          match r with
          | inr e => mret (Aborted e)
          | inl _ => interactiveSession sched' i'
          end
        else interactiveSession sched' i'
      end
    end
  end.

(** The files that open, with their contents and the errors that end them. *)
Context (open : string -> option (string * option gerr)).

Definition DoVectorFile (path : string) : M P (Z + gerr) :=
  match open path with
  | None => mret (inr (EOpen path))
  | Some file => scan fuel (scanner_lines file) None 0
  end.

(** The loop over the files: the exit code. *)
Fixpoint vector_files (files : list string) (totalFailures : Z) : M P Z :=
  match files with
  | [] => mret (if totalFailures =? 0 then 0 else 3)
  | vf :: rest =>
    r ← DoVectorFile vf;
    match r with
    | inr _ => mret 2
    | inl failureCount => vector_files rest (totalFailures + failureCount)
    end
  end.

(** [submain] from the session on: the exit code, None when an interactive session
    still runs at the end of the schedule. *)
Definition run_session (files : list string) (tty : bool) (text : string) (sched : list wait) : M P (option Z) :=
  r ← CreateSession fuel;
  match r with
  | inr _ => mret (Some 2)
  | inl _ =>
    match files with
    | _ :: _ => c ← vector_files files 0; mret (Some c)
    | [] =>
      o ← interactiveSession sched (NewInput tty text);
      mret (match o with Quit => Some 0 | Aborted _ => Some 2 | Running _ => None end)
    end
  end.

(** dev/arduino.go: the device, whose port is nil when it is closed. *)
Record Arduino := MkArduino { port : option P }.

(** [serial.Open] gives a port or an error. *)
Definition NewArduino (opened : P + gerr) : Arduino + gerr :=
  match opened with inr e => inr e | inl p => inl (MkArduino (Some p)) end.

(** A failed close leaves the port open. *)
Definition closeSerialPort (a : Arduino) : (unit + gerr) * Arduino :=
  match port a with
  | None => (inr ENotOpen, a)
  | Some p =>
    match port_close p with
    | (Some e, p') => (inr (EPort e), MkArduino (Some p'))
    | (None, _) => (inl tt, MkArduino None)
    end
  end.

Definition Close (a : Arduino) : (unit + gerr) * Arduino := closeSerialPort a.

(** The whole of [submain]: the log file opens or not, and the deferred [Close] runs at
    its end. *)
Definition submain (log_opens : bool) (opened : P + gerr) (files : list string) (tty : bool) (text : string) (sched : list wait) :
    res (option Z * option Arduino) :=
  if negb log_opens then Ret (Some 2, None)
  else
    match NewArduino opened with
    | inr _ => Ret (Some 2, None)
    | inl nano =>
      match port nano with
      | None => Panic "nil pointer dereference"
      | Some p =>
        match run_session files tty text sched p with
        | Panic w => Panic w
        | Ret (None, p') => Ret (None, Some (MkArduino (Some p')))
        | Ret (Some code, p') => Ret (Some code, Some (Close (MkArduino (Some p'))).2)
        end
      end
    end.

End Device.

(** ** The order of the lines *)

(** The lines of a text that end in a newline, with it. *)
Fixpoint complete_lines_fuel (n : nat) (s : string) : list string :=
  match n with
  | O => []
  | S n' => match ReadString s with Some (l, rest) => l :: complete_lines_fuel n' rest | None => [] end
  end.

Definition complete_lines (s : string) : list string := complete_lines_fuel (String.length s) s.

(** What remains to be delivered. *)
Definition unread (i : Input) : list string :=
  match rd i with
  | Reading => complete_lines (stdin i)
  | Sending l => l :: complete_lines (stdin i)
  | SendingEOF | Returned => []
  end.

Lemma ReadString_spec s : forall l r, ReadString s = Some (l, r) ->
  String.length s = (String.length l + String.length r)%nat /\ (0 < String.length l)%nat /\ ReadString l = Some (l, EmptyString).
Proof.
  induction s as [| c s IH]; intros l r Hr; cbn in Hr; [discriminate |]. destruct (Ascii.eqb c newline) eqn:Ec.
  - injection Hr as <- <-. cbn. rewrite Ec. auto with lia.
  - destruct (ReadString s) as [[l' r'] |]; [| discriminate]. injection Hr as <- <-.
    destruct (IH l' r' eq_refl) as (H1 & H2 & H3). cbn. rewrite Ec, H3, H1. auto with lia.
Qed.

Lemma line_not_marker s l r : ReadString s = Some (l, r) -> String.eqb l marker = false.
Proof. intros Hr. apply String.eqb_neq. intros ->. apply ReadString_spec in Hr as (_ & _ & Hm). discriminate. Qed.

Lemma complete_lines_more n : forall m s, (String.length s <= n)%nat -> (String.length s <= m)%nat ->
  complete_lines_fuel n s = complete_lines_fuel m s.
Proof.
  induction n as [| n IH]; intros m s Hn Hm.
  - destruct s; [| cbn in Hn; lia]. destruct m; reflexivity.
  - destruct m as [| m]; [destruct s; [reflexivity | cbn in Hm; lia] |]. cbn. destruct (ReadString s) as [[l r] |] eqn:Er; [| reflexivity].
    apply ReadString_spec in Er as (H1 & H2 & _). f_equal. apply IH; lia.
Qed.

Lemma complete_lines_cons s l r : ReadString s = Some (l, r) -> complete_lines s = l :: complete_lines r.
Proof.
  intros Hr. pose proof (ReadString_spec s l r Hr) as (H1 & H2 & _). unfold complete_lines.
  destruct (String.length s) as [| n] eqn:En; [lia |]. cbn [complete_lines_fuel]. rewrite Hr. f_equal. apply complete_lines_more; lia.
Qed.

Lemma complete_lines_nil s : ReadString s = None -> complete_lines s = [].
Proof. intros Hr. unfold complete_lines. destruct (String.length s); [reflexivity |]. cbn. rewrite Hr. reflexivity. Qed.

(** A line in flight is a line. *)
Definition in_flight (i : Input) : Prop :=
  match rd i with Sending l => (0 < String.length l)%nat /\ String.eqb l marker = false | _ => True end.

Lemma reader_spec i : in_flight i -> in_flight (reader i) /\ unread (reader i) = unread i.
Proof.
  unfold reader, in_flight, unread. destruct (rd i) eqn:E; try (rewrite E; auto; fail).
  destruct (ReadString (stdin i)) as [[l r] |] eqn:Er; cbn.
  - split; [split; [apply (ReadString_spec _ _ _ Er) | eapply line_not_marker, Er] | symmetry; now apply complete_lines_cons].
  - split; [exact I | symmetry; now apply complete_lines_nil].
Qed.

Lemma readers_spec n i : in_flight i -> in_flight (Nat.iter n reader i) /\ unread (Nat.iter n reader i) = unread i.
Proof.
  intros Hi. induction n as [| n [IH1 IH2]]; [auto |]. change (Nat.iter (S n) reader i) with (reader (Nat.iter n reader i)). destruct (reader_spec _ IH1) as [H1 H2]. split; [exact H1 | congruence].
Qed.

(** Whether the end of the input has been delivered. *)
Definition delivered_end (i : Input) : bool := match rd i with Returned => true | _ => false end.

Lemma reader_end i : delivered_end (reader i) = delivered_end i.
Proof. unfold reader, delivered_end. destruct (rd i) eqn:E; try (rewrite E; reflexivity). destruct (ReadString _) as [[] |]; reflexivity. Qed.

Lemma readers_end n i : delivered_end (Nat.iter n reader i) = delivered_end i.
Proof. induction n as [| n IH]; [reflexivity |]. change (Nat.iter (S n) reader i) with (reader (Nat.iter n reader i)). rewrite reader_end. exact IH. Qed.

Lemma reader_busy i : rd (reader i) <> Reading.
Proof. unfold reader. destruct (rd i) eqn:E; try congruence. destruct (ReadString _) as [[] |]; discriminate. Qed.

(** What a check takes from the input. *)
Definition taken (c : checked) (i i' : Input) : Prop :=
  match c with
  | NoInput => unread i' = unread i
  | Line l => unread i = l :: unread i'
  | EndOfInput => unread i = []
  end.

Definition fair (w : wait) : bool := (0 <? reader_steps w)%nat && negb (timeout w).

Lemma CheckFor_spec w i : in_flight i -> delivered_end i = false ->
  let '(c, i') := CheckFor w i in
  in_flight i' /\ taken c i i' /\ (c <> EndOfInput -> delivered_end i' = false) /\ (fair w = true -> c <> NoInput).
Proof.
  intros Hi He. unfold CheckFor, get. set (i0 := promptIfTerminal i).
  assert (H0 : in_flight i0 /\ unread i0 = unread i /\ delivered_end i0 = false).
  { unfold i0, promptIfTerminal. destruct (promptNeeded i); auto. }
  destruct H0 as (Hi0 & Hu0 & He0). destruct (readers_spec (reader_steps w) i0 Hi0) as [Hi1 Hu1].
  pose proof (readers_end (reader_steps w) i0) as He1. rewrite He0 in He1.
  assert (Hfair : fair w = true -> timeout w = false /\ rd (Nat.iter (reader_steps w) reader i0) <> Reading).
  { unfold fair. destruct (timeout w); cbn; [rewrite andb_false_r; discriminate |]. rewrite andb_true_r. intros Hs. split; [reflexivity |].
    destruct (reader_steps w) as [| n]; [discriminate |]. apply reader_busy. }
  revert Hi1 Hu1 He1 Hfair. generalize (Nat.iter (reader_steps w) reader i0). intros i1 Hi1 Hu1 He1 Hfair. rewrite Hu0 in Hu1.
  destruct (timeout w) eqn:Et; [cbn; repeat split; auto; intros Hf; now destruct (Hfair Hf) |].
  unfold taken, receive, delivered_end, unread, in_flight in *. destruct (rd i1) as [| l | |] eqn:Er.
  - cbn. rewrite Er. split; [exact I | split; [exact Hu1 | split; [reflexivity |]]]. intros Hf. destruct (Hfair Hf) as [_ Hn]. congruence.
  - destruct Hi1 as [Hl Hm]. cbn -[Nat.ltb String.eqb]. rewrite (proj2 (Nat.ltb_lt _ _) Hl), Hm. cbn. split; [exact I | split; [symmetry; exact Hu1 | split; [congruence | discriminate]]].
  - cbn. split; [exact I | split; [symmetry; exact Hu1 | split; [congruence | discriminate]]].
  - discriminate.
Qed.

(** ** Turns *)

(** A turn of the session: a poll, and then nothing, a line or the end. *)
Fixpoint turns_of (sched : list wait) (i : Input) : list checked :=
  match sched with
  | [] => []
  | w :: sched' =>
    match CheckFor w i with
    | (EndOfInput, _) => [EndOfInput]
    | (c, i') => c :: turns_of sched' i'
    end
  end.

Definition line_of_turn (c : checked) : option string := match c with Line l => Some l | _ => None end.

Section Turns.
Context {P : Type} `{Port P} (fuel : nat).

Inductive verdict := Unfinished | UserQuit | Failed (e : gerr).

Fixpoint run_turns (ts : list checked) : M P verdict :=
  match ts with
  | [] => mret Unfinished
  | t :: ts' =>
    r ← DoPoll fuel;
    match r with
    | inr e => mret (Failed e)
    | inl _ =>
      match t with
      | EndOfInput => mret UserQuit
      | NoInput => run_turns ts'
      | Line l =>
        if (1 <? String.length l)%nat then
          r ← process fuel l;
          match r with inr e => mret (Failed e) | inl _ => run_turns ts' end
        else run_turns ts'
      end
    end
  end.

Definition verdict_of (o : outcome) : verdict :=
  match o with Running _ => Unfinished | Quit => UserQuit | Aborted e => Failed e end.

Lemma session_turns sched : forall i p,
  (o ← interactiveSession fuel sched i; mret (verdict_of o)) p = run_turns (turns_of sched i) p.
Proof.
  induction sched as [| w sched IH]; intros i p; [reflexivity |]. cbn [interactiveSession turns_of].
  destruct (CheckFor w i) as [c i'] eqn:Ec. unfold mbind, M_bind in *. destruct c as [| l |]; cbn [run_turns]; unfold mbind, M_bind;
    (destruct (DoPoll fuel p) as [[[[] | e] p1] | wh]; [| reflexivity | reflexivity]).
  - apply IH.
  - destruct (1 <? String.length l)%nat; [| apply IH]. destruct (process fuel l p1) as [[[[] | e] p2] | wh]; [apply IH | reflexivity | reflexivity].
  - reflexivity.
Qed.

End Turns.

Lemma turns_lines sched : forall i, in_flight i -> delivered_end i = false ->
  exists rest, unread i = omap line_of_turn (turns_of sched i) ++ rest /\
    (EndOfInput ∈ turns_of sched i -> rest = []) /\
    ((length (unread i) < length (filter (fun w => fair w = true) sched))%nat -> EndOfInput ∈ turns_of sched i).
Proof.
  induction sched as [| w sched IH]; intros i Hi He; cbn [turns_of].
  - exists (unread i). split; [reflexivity |]. split; [set_solver | cbn; lia].
  - pose proof (CheckFor_spec w i Hi He) as Hc. destruct (CheckFor w i) as [c i']. destruct Hc as (Hi' & Ht & He' & Hf).
    rewrite filter_cons. destruct c as [| l |]; cbn in Ht.
    + destruct (IH i' Hi' (He' ltac:(discriminate))) as (rest & H1 & H2 & H3). exists rest. cbn. rewrite <- Ht. split; [exact H1 |]. split.
      * intros Hin. apply elem_of_cons in Hin as [Hin | Hin]; [discriminate | auto].
      * intros Hlt. right. apply H3. destruct (decide (fair w = true)); [now destruct (Hf e) | exact Hlt].
    + destruct (IH i' Hi' (He' ltac:(discriminate))) as (rest & H1 & H2 & H3). exists rest. cbn. rewrite Ht, H1. split; [reflexivity |]. split.
      * intros Hin. apply elem_of_cons in Hin as [Hin | Hin]; [discriminate | auto].
      * rewrite <- H1. intros Hlt. right. apply H3. destruct (decide (fair w = true)); cbn in Hlt; lia.
    + exists []. rewrite Ht. cbn. split; [reflexivity |]. split; [auto | intros _; left].
Qed.

Lemma turns_length sched : forall i, (length (turns_of sched i) <= length sched)%nat.
Proof.
  induction sched as [| w sched IH]; intros i; [reflexivity |]. cbn. destruct (CheckFor w i) as [[| l |] i']; cbn; auto with lia.
  - specialize (IH i'). lia.
  - specialize (IH i'). lia.
Qed.

(** C40: Lines of the terminal reach the device in order and once.  Under every
    schedule of the reader goroutine and the timer, a session is a sequence of
    turns, each a poll followed by at most one line, and the lines are the
    complete lines of the input from the first on, none twice and none left out;
    a session that the user ends has processed all of them, and with one more
    wait that the goroutine wins than there are lines, it does end.  Text after the
    last newline is dropped. *)
Theorem interactive_lines (P : Type) (HP : Port P) (fuel : nat) (tty : bool) (text : string) (sched : list wait) :
  exists turns, (length turns <= length sched)%nat /\
    (forall p, (o ← interactiveSession fuel sched (NewInput tty text); mret (verdict_of o)) p = run_turns fuel turns p) /\
    omap line_of_turn turns `prefix_of` complete_lines text /\
    (EndOfInput ∈ turns -> omap line_of_turn turns = complete_lines text) /\
    ((length (complete_lines text) < length (filter (fun w => fair w = true) sched))%nat -> EndOfInput ∈ turns).
Proof.
  exists (turns_of sched (NewInput tty text)). split; [apply turns_length |]. split; [intros p; apply session_turns |].
  destruct (turns_lines sched (NewInput tty text) I eq_refl) as (rest & H1 & H2 & H3). change (unread (NewInput tty text)) with (complete_lines text) in *.
  split; [exists rest; exact H1 |]. split; [| exact H3]. intros Hin. rewrite H1, (H2 Hin), app_nil_r. reflexivity.
Qed.

Definition nl : string := String newline EmptyString.

(** A device that answers three polls with nothing and a toggle with its acknowledgement. *)
Definition demo_device : script := MkScript (reads [Ack CmdPoll; 0; Ack CmdPulse; Ack CmdPoll; 0; Ack CmdPoll; 0]) [].

Lemma interactive_lines_witness :
  let text := ("t 1 2" +:+ nl +:+ "lost")%string in
  let sched := [MkWait 1 false; MkWait 0 true; MkWait 2 false] in
  exists turns, EndOfInput ∈ turns /\ omap line_of_turn turns = complete_lines text /\
    run_turns 3 turns demo_device = Ret (UserQuit, MkScript [] [[CmdPoll]; [CmdPulse; 1; 2]; [CmdPoll]; [CmdPoll]]) /\
    complete_lines text = ["t 1 2" +:+ nl]%string.
Proof.
  intros text sched. destruct (interactive_lines script script_port 3 true text sched) as (turns & _ & Hrun & _ & Hall & Hend).
  exists turns. assert (He : EndOfInput ∈ turns) by (apply Hend; vm_compute; lia).
  rewrite <- Hrun. split; [exact He | split; [exact (Hall He) | split; vm_compute; reflexivity]].
Defined.
