(* ===== verification/CexRun.v ===== *)
(** * A run of the exerciser over vector files

    What a run over vector files promises: the exit code says whether the unit
    under test agrees with every vector.  The test bench (the Nano's firmware, the
    boards and the unit) is the class [Bench]: it answers each vector's commands
    with the flags and the result of the unit.  The specification reads a file as
    a socket and a list of vectors ([file_spec]) and asks the bench about each
    ([vectors_pass]); it knows neither lines, bit vectors nor bytes on a wire. *)

From S2P Require Import Prelude Text Cex CexVec CexTheorems CexSession CexMain.

(** ** The pins of a vector on the ports of the bench *)

(** The byte of the pins, least significant first from bit [shift] on. *)
Fixpoint drive (to : Z -> bool) (pins : list Z) (shift : Z) : Z :=
  match pins with
  | [] => 0
  | n :: rest => Z.lor (Z.shiftl (Z.b2z (to (n - 1))) shift) (drive to rest (shift + 1))
  end.

(** The bytes that a vector sets at the ports 4, 5, 6, 10, 3 and 2. *)
Definition stimulus (ps : list pin) : list Z :=
  let to j := pin_to (pin_at ps j) in
  [ drive to (seqZ 1 8) 0; drive to (seqZ 9 8) 0; drive to [27; 26; 25; 44; 45; 46; 47; 48] 0;
    drive to [49; 50; 51; 52] 4; drive to [53; 54; 55; 56; 57; 58; 59; 60] 0; drive to [61; 62; 63; 64; 65; 66; 67; 68] 0 ].

(** What is read back: the flags and the two bytes of the result. *)
Record reply := Reply { r_flags : Z; r_high : Z; r_low : Z }.

Definition reply_ok (r : reply) : Prop := is_u8 (r_flags r) /\ is_u8 (r_high r) /\ is_u8 (r_low r).

Definition vector_script (u : list Z) (r : reply) : list (list Z * list Z) :=
  zip_with (fun id b => ([CmdSet; id; b], [])) [4; 5; 6; 10; 3; 2] u ++
  [ ([CmdPulse; 1; 11], []); ([CmdPulse; 1; 0], []); ([CmdPulse; 1; 7], []);
    ([CmdGet; 12], [r_flags r]); ([CmdGet; 1], [r_high r]); ([CmdGet; 9], [r_low r]) ].

(** Bit [i] of the result is at pin 43 - [i], bit [i] of the flags at pin 20 + [i]. *)
Definition result_agrees (ps : list pin) (r : reply) : bool :=
  forallb (fun i => Bool.eqb (Z.testbit (Z.lor (Z.shiftl (r_high r) 8) (r_low r)) i) (pin_from (pin_at ps (42 - i)))) (seqZ 0 16).

Definition flags_agree (ps : list pin) (ign : Z -> bool) (r : reply) : bool :=
  forallb (fun n => Bool.eqb (Z.testbit (r_flags r) (n - 20)) (pin_from (pin_at ps (n - 1))) || ign (n - 1)) (seqZ 20 5).

(** ** The bench *)

Class Bench (P : Type) `{Port P} (fuel : nat) (B : Type) := {
  (** the answer to a stimulus *)
  respond : list Z -> B -> reply * B;
  (** the bench behind the port, idle *)
  bench_at : B -> P -> Prop;
  bench_connects : forall b p, bench_at b p ->
    exists p1 p2, exchange fuel p [CmdSync] [] p1 /\ exchange fuel p1 [CmdGetVer] [ProtocolVersion] p2 /\ bench_at b p2;
  bench_answers : forall b p u, length u = 6%nat -> Forall is_u8 u -> bench_at b p ->
    reply_ok (respond u b).1 /\
    exists p', session fuel p (vector_script u (respond u b).1) p' /\ bench_at (respond u b).2 p'
}.

(** ** The specification *)

Inductive socket_type := PLCC | ZIF.

Definition socket_name (s : socket_type) : string := match s with PLCC => "PLCC" | ZIF => "ZIF" end.

Definition socket_pins (s : socket_type) : Z := match s with PLCC => 68 | ZIF => 24 end.

Definition socket_of (line : string) : option socket_type :=
  match split_spaces line with
  | [k; s] =>
    if String.eqb k "socket" then
      if String.eqb s "PLCC" then Some PLCC else if String.eqb s "ZIF" then Some ZIF else None
    else None
  | _ => None
  end.

(** The values of a vector line, without a clock, as many as the socket has pins. *)
Definition vector_of (s : socket_type) (line : string) : option (list pin) :=
  ps ← vector_pins (split_spaces line);
  if Z.of_nat (length ps) =? socket_pins s then Some ps else None.

Fixpoint vectors_of (s : socket_type) (lines : list string) : option (list (list pin)) :=
  match lines with
  | [] => Some []
  | l :: rest =>
    if skip_line l then vectors_of s rest
    else ps ← vector_of s l; vs ← vectors_of s rest; Some (ps :: vs)
  end.

(** A vector file: a socket statement and vectors, with comments between. *)
Fixpoint file_spec (lines : list string) : option (socket_type * list (list pin)) :=
  match lines with
  | [] => None
  | l :: rest => if skip_line l then file_spec rest else s ← socket_of l; vs ← vectors_of s rest; Some (s, vs)
  end.

Section Spec.
Context {P : Type} `{Port P} {fuel : nat} {B : Type} `{!Bench P fuel B}.

(** The vectors of a PLCC file; a pin that a vector has marked X, G or V is ignored in
    that and in all later vectors of the file. *)
Fixpoint vectors_pass (ign : Z -> bool) (vs : list (list pin)) (b : B) : bool * B :=
  match vs with
  | [] => (true, b)
  | ps :: vs' =>
    let ign' j := pin_skip (pin_at ps j) || ign j in
    let '(r, b1) := respond (stimulus ps) b in
    let '(ok, b2) := vectors_pass ign' vs' b1 in
    (result_agrees ps r && flags_agree ps ign' r && ok, b2)
  end.

(** Vectors for the ZIF socket are not applied. *)
Definition file_passes (f : socket_type * list (list pin)) (b : B) : bool * B :=
  match f with (PLCC, vs) => vectors_pass (fun _ => false) vs b | (ZIF, _) => (true, b) end.

Fixpoint files_pass (fs : list (socket_type * list (list pin))) (b : B) : bool * B :=
  match fs with
  | [] => (true, b)
  | f :: fs' => let '(ok, b1) := file_passes f b in let '(ok', b2) := files_pass fs' b1 in (ok && ok', b2)
  end.

(** *** The documented verdict *)

(** What the README and the comments of testfile.go say of one vector: every output pin
    shows its H or L, and an output that the vector marks X is read but not checked. *)
Definition vector_ok (ps : list pin) (r : reply) : bool :=
  forallb (fun i => Bool.eqb (Z.testbit (Z.lor (Z.shiftl (r_high r) 8) (r_low r)) i) (pin_from (pin_at ps (42 - i)))
                    || pin_skip (pin_at ps (42 - i))) (seqZ 0 16) &&
  flags_agree ps (fun j => pin_skip (pin_at ps j)) r.

Fixpoint vectors_ok (vs : list (list pin)) (b : B) : bool * B :=
  match vs with
  | [] => (true, b)
  | ps :: vs' =>
    let '(r, b1) := respond (stimulus ps) b in
    let '(ok, b2) := vectors_ok vs' b1 in (vector_ok ps r && ok, b2)
  end.

(** The verdict on vectors for the PLCC socket. *)
Fixpoint files_ok (fs : list (socket_type * list (list pin))) (b : B) : bool * B :=
  match fs with
  | [] => (true, b)
  | (_, vs) :: fs' => let '(ok, b1) := vectors_ok vs b in let '(ok', b2) := files_ok fs' b1 in (ok && ok', b2)
  end.

End Spec.

(** The files on which the code is as documented: they are for the PLCC socket, no vector
    marks a result pin, and a flag that a vector marks is marked by the vectors after it. *)
Fixpoint marks_ok (vs : list (list pin)) : bool :=
  match vs with
  | [] => true
  | ps :: vs' =>
    forallb (fun i => negb (pin_skip (pin_at ps (42 - i)))) (seqZ 0 16) &&
    forallb (fun n => negb (pin_skip (pin_at ps (n - 1))) || forallb (fun qs => pin_skip (pin_at qs (n - 1))) vs') (seqZ 20 5) &&
    marks_ok vs'
  end.

Definition file_ok (f : socket_type * list (list pin)) : bool :=
  match f with (PLCC, vs) => marks_ok vs | (ZIF, _) => false end.

(** *** The code's verdict and the documented one *)

Lemma forallb_ext_in {A} (f g : A -> bool) l : (forall x, In x l -> f x = g x) -> forallb f l = forallb g l.
Proof.
  induction l as [| x l IH]; intros Hx; [reflexivity |]. cbn. rewrite Hx, IH; [reflexivity | | left; reflexivity].
  intros y Hy. apply Hx. right. exact Hy.
Qed.

Section Documented.
Context {P : Type} `{Port P} {fuel : nat} {B : Type} `{!Bench P fuel B}.

Lemma vector_documented ps ign r :
  forallb (fun i => negb (pin_skip (pin_at ps (42 - i)))) (seqZ 0 16) = true ->
  (forall n, In n (seqZ 20 5) -> ign (n - 1) = pin_skip (pin_at ps (n - 1))) ->
  result_agrees ps r && flags_agree ps ign r = vector_ok ps r.
Proof.
  intros Hr Hi. unfold vector_ok, result_agrees, flags_agree. f_equal; apply forallb_ext_in; [intros i Hin | intros n Hin].
  - rewrite forallb_forall in Hr. specialize (Hr i Hin). apply negb_true_iff in Hr. rewrite Hr, orb_false_r. reflexivity.
  - rewrite (Hi n Hin). reflexivity.
Qed.

Lemma vectors_documented vs : forall ign (b : B), marks_ok vs = true ->
  (forall n, In n (seqZ 20 5) -> ign (n - 1) = true -> Forall (fun qs => pin_skip (pin_at qs (n - 1)) = true) vs) ->
  vectors_pass ign vs b = vectors_ok vs b.
Proof.
  induction vs as [| ps vs IH]; intros ign b Hm Hi; [reflexivity |]. cbn [marks_ok vectors_pass vectors_ok] in *.
  apply andb_true_iff in Hm. destruct Hm as [Hm Hm3]. apply andb_true_iff in Hm. destruct Hm as [Hm1 Hm2].
  rewrite forallb_forall in Hm2. destruct (respond (stimulus ps) b) as [r b1]. rewrite IH; [| exact Hm3 |].
  - destruct (vectors_ok vs b1) as [ok b2]. f_equal. f_equal. apply vector_documented; [exact Hm1 |]. intros n Hn.
    destruct (pin_skip (pin_at ps (n - 1))) eqn:E; [reflexivity |]. cbn [orb]. destruct (ign (n - 1)) eqn:Ei; [| reflexivity].
    specialize (Hi n Hn Ei). inversion_clear Hi. congruence.
  - intros n Hn. rewrite orb_true_iff. intros [E | E]; [| specialize (Hi n Hn E); inversion_clear Hi; assumption].
    specialize (Hm2 n Hn). rewrite E in Hm2. cbn [negb orb] in Hm2. rewrite forallb_forall in Hm2.
    apply List.Forall_forall. exact Hm2.
Qed.

Lemma files_documented fs : forall b : B, forallb file_ok fs = true -> files_pass fs b = files_ok fs b.
Proof.
  induction fs as [| [s vs] fs IH]; intros b Hf; [reflexivity |]. cbn [forallb files_pass files_ok] in *.
  apply andb_true_iff in Hf. destruct Hf as [Hf Hf']. destruct s; [| discriminate]. cbn [file_passes].
  rewrite vectors_documented by (exact Hf || discriminate). destruct (vectors_ok vs b) as [ok b1]. rewrite IH by exact Hf'. reflexivity.
Qed.

End Documented.

(** ** Bytes and words of pins *)

Lemma b2z_bit b k : k <> 0 -> Z.testbit (Z.b2z b) k = false.
Proof.
  intros Hk. destruct (Z.ltb_spec k 0); [apply Z.testbit_neg_r; lia |]. destruct b; [| apply Z.bits_0].
  apply Z.bits_above_log2; cbn; lia.
Qed.

Lemma drive_bit to a n s i : 0 <= n -> 0 <= s -> 0 <= i ->
  Z.testbit (drive to (seqZ a n) s) i = (s <=? i) && (i <? s + n) && to (a - 1 + (i - s)).
Proof.
  intros Hn. revert a s. apply (natlike_ind (fun n => forall a s, 0 <= s -> 0 <= i ->
    Z.testbit (drive to (seqZ a n) s) i = (s <=? i) && (i <? s + n) && to (a - 1 + (i - s)))); [| | exact Hn].
  - intros a s Hs Hi. cbn. rewrite Z.bits_0. destruct (Z.leb_spec s i), (Z.ltb_spec i (s + 0)); (lia || reflexivity).
  - intros m Hm IH a s Hs Hi. rewrite (seqZ_cons a (Z.succ m)) by lia. cbn [drive]. rewrite Z.pred_succ, Z.lor_spec, IH, Z.shiftl_spec by lia.
    destruct (Z.eqb_spec i s) as [-> | Hne].
    + rewrite Z.sub_diag. rewrite (proj2 (Z.leb_gt (s + 1) s)), (proj2 (Z.leb_le s s)), (proj2 (Z.ltb_lt s (s + Z.succ m))) by lia.
      cbn [andb]. rewrite orb_false_r, Z.add_0_r. destruct (to (a - 1)); reflexivity.
    + rewrite (b2z_bit _ (i - s)) by lia. cbn [orb]. replace (Z.succ a - 1 + (i - (s + 1))) with (a - 1 + (i - s)) by lia.
      replace (s + 1 + m) with (s + Z.succ m) by lia. f_equal. f_equal. destruct (Z.leb_spec (s + 1) i), (Z.leb_spec s i); (lia || reflexivity).
Qed.

Lemma drive_u8 to pins s : 0 <= s -> s + Z.of_nat (length pins) <= 8 -> is_u8 (drive to pins s).
Proof.
  revert s. induction pins as [| n rest IH]; intros s Hs Hl; cbn [drive length] in *; [unfold is_u8; lia |].
  specialize (IH (s + 1) ltac:(lia) ltac:(lia)). unfold is_u8 in *. change 256 with (2 ^ 8) in *.
  apply lor_bound; [lia | | exact IH]. rewrite Z.shiftl_mul_pow2 by lia.
  assert (0 <= 2 ^ s <= 2 ^ 7) by (split; [lia | apply Z.pow_le_mono_r; lia]). destruct (to (n - 1)); cbn [Z.b2z]; lia.
Qed.

Lemma stimulus_ok ps : length (stimulus ps) = 6%nat /\ Forall is_u8 (stimulus ps).
Proof. split; [reflexivity |]. unfold stimulus. repeat (apply Forall_cons_2; [apply drive_u8; vm_compute; discriminate |]). apply Forall_nil_2. Qed.

(** ** From the test file to the pins *)

(** The test file holds the vector [ps], with the pins [ign] ignored. *)
Record holds (ps : list pin) (ign : Z -> bool) (tf : TestFile) : Prop := {
  h_to : forall j, 0 <= j -> vec_bit (toUUT tf) j = pin_to (pin_at ps j);
  h_from : forall j, 0 <= j -> vec_bit (fromUUT tf) j = pin_from (pin_at ps j);
  h_ign : forall j, 0 <= j -> vec_bit (ignored tf) j = ign j
}.

Section Pins.
Context (ps : list pin) (ign : Z -> bool) (tf : TestFile) (Hh : holds ps ign tf) (Hok : plcc_ok tf).

Abbreviation to := (fun j => pin_to (pin_at ps j)).

Lemma driven_drive pins s : Forall (fun n => 1 <= n) pins -> driven tf pins s = drive to pins s.
Proof using Hh.
  intros Hp. revert s. induction Hp as [| n rest Hn _ IH]; intros s; cbn [driven drive]; [reflexivity |].
  rewrite IH, (h_to _ _ _ Hh) by lia. reflexivity.
Qed.

Lemma byte_drive k : (k < 9)%nat -> default 0 (toUUT tf !! k) = drive to (seqZ (8 * Z.of_nat k + 1) 8) 0.
Proof using Hh Hok.
  intros Hk. destruct (to_byte_u8 tf k Hok Hk) as [Hb _]. apply Z.bits_inj'. intros i Hi. rewrite drive_bit by lia.
  rewrite (proj2 (Z.leb_le 0 i) Hi). cbn [andb]. destruct (Z.ltb_spec i (0 + 8)) as [Hlt | Hge]; cbn [andb].
  - rewrite <- (h_to _ _ _ Hh) by lia. unfold vec_bit.
    replace (8 * Z.of_nat k + 1 - 1 + (i - 0)) with (i + Z.of_nat k * 8) by lia.
    rewrite Z.div_add, Z.mod_add, (Z.div_small i 8), (Z.mod_small i 8) by lia. rewrite Z.add_0_l, Nat2Z.id. reflexivity.
  - refine (proj1 (low_bits_iff 8 ltac:(lia) _ _) _ i _); [apply Hb | apply Hb | lia].
Qed.

Lemma script_pins r : clockPin tf = 0 -> plcc_script tf (r_flags r) (r_high r) (r_low r) = vector_script (stimulus ps) r.
Proof using Hh Hok.
  intros Hc. unfold plcc_script, HasClock. rewrite Hc, (byte_drive 0), (byte_drive 1) by lia.
  rewrite !driven_drive by (repeat (apply Forall_cons_2; [lia |]); apply Forall_nil_2). reflexivity.
Qed.

Lemma wanted_bit a n s i : 0 <= n <= s + 1 -> 1 <= a -> 0 <= i ->
  Z.testbit (wanted tf (seqZ a n) s) i = (s - n <? i) && (i <=? s) && pin_from (pin_at ps (a - 1 + (s - i))).
Proof using Hh.
  intros [Hn Hs] Ha Hi. revert a s Hs Ha. apply (natlike_ind (fun n => forall a s, n <= s + 1 -> 1 <= a ->
    Z.testbit (wanted tf (seqZ a n) s) i = (s - n <? i) && (i <=? s) && pin_from (pin_at ps (a - 1 + (s - i))))); [| | exact Hn].
  - intros a s Hs Ha. cbn. rewrite Z.bits_0. destruct (Z.ltb_spec (s - 0) i), (Z.leb_spec i s); (lia || reflexivity).
  - intros m Hm IH a s Hs Ha. rewrite (seqZ_cons a (Z.succ m)) by lia. cbn [wanted].
    rewrite Z.pred_succ, Z.lor_spec, IH, Z.shiftl_spec, (h_from _ _ _ Hh) by lia. destruct (Z.eqb_spec i s) as [-> | Hne].
    + rewrite Z.sub_diag, (proj2 (Z.leb_gt s (s - 1))), (proj2 (Z.leb_le s s)), (proj2 (Z.ltb_lt (s - Z.succ m) s)) by lia.
      rewrite andb_false_r. cbn [andb]. rewrite orb_false_r, Z.add_0_r. destruct (pin_from (pin_at ps (a - 1))); reflexivity.
    + rewrite (b2z_bit _ (i - s)) by lia. cbn [orb]. replace (Z.succ a - 1 + (s - 1 - i)) with (a - 1 + (s - i)) by lia.
      replace (s - 1 - m) with (s - Z.succ m) by lia. f_equal. f_equal. destruct (Z.leb_spec i (s - 1)), (Z.leb_spec i s); (lia || reflexivity).
Qed.

Lemma wanted_agrees r : reply_ok r ->
  (wanted tf (seqZ 28 16) 15 =? Z.lor (Z.shiftl (r_high r) 8) (r_low r)) = result_agrees ps r.
Proof using Hh.
  intros (_ & Hhi & Hlo). set (got := Z.lor (Z.shiftl (r_high r) 8) (r_low r)).
  assert (Hgot : 0 <= got < 2 ^ 16).
  { unfold is_u8 in *. apply (lor_bound 16 ltac:(lia)); rewrite ?Z.shiftl_mul_pow2 by lia; lia. }
  apply eq_true_iff_eq. rewrite Z.eqb_eq. unfold result_agrees. fold got. rewrite forallb_forall. split.
  - intros E i Hi. rewrite <- list_elem_of_In, elem_of_seqZ in Hi. rewrite <- E, wanted_bit by lia.
    rewrite (proj2 (Z.ltb_lt (15 - 16) i)), (proj2 (Z.leb_le i 15)) by lia. cbn [andb].
    replace (28 - 1 + (15 - i)) with (42 - i) by lia. apply eqb_reflx.
  - intros Hb. apply Z.bits_inj'. intros i Hi. rewrite wanted_bit by lia. rewrite (proj2 (Z.ltb_lt (15 - 16) i)) by lia. cbn [andb].
    destruct (Z.leb_spec i 15) as [Hle | Hgt]; cbn [andb].
    + specialize (Hb i). rewrite <- list_elem_of_In, elem_of_seqZ in Hb. specialize (Hb ltac:(lia)). apply eqb_prop in Hb. rewrite Hb.
      f_equal. f_equal. lia.
    + symmetry. refine (proj1 (low_bits_iff 16 ltac:(lia) _ _) _ i _); lia.
Qed.

Lemma wrong_flags_zero c pins s : Forall (fun n => 1 <= n) pins ->
  0 <= wrong_flags tf c pins s /\
  (wrong_flags tf c pins s =? 0) =
    forallb (fun '(n, k) => Bool.eqb (Z.testbit c k) (pin_from (pin_at ps (n - 1))) || ign (n - 1)) (zip pins (seqZ s (Z.of_nat (length pins)))).
Proof using Hh.
  intros Hp. revert s. induction Hp as [| n rest Hn _ IH]; intros s; [split; [reflexivity | reflexivity] |].
  destruct (IH (s + 1)) as [Hge He]. cbn [wrong_flags length]. rewrite (seqZ_cons s) by lia. cbn [zip_with forallb].
  rewrite (h_from _ _ _ Hh), (h_ign _ _ _ Hh) by lia. replace (Z.pred (Z.of_nat (S (length rest)))) with (Z.of_nat (length rest)) by lia.
  change (Z.succ s) with (s + 1). rewrite <- He. destruct (_ || _); cbn [andb]; split; lia.
Qed.

Lemma errors_agree r : reply_ok r -> 0 <= plcc_errors tf (r_flags r) (r_high r) (r_low r) /\
  (plcc_errors tf (r_flags r) (r_high r) (r_low r) =? 0) = result_agrees ps r && flags_agree ps ign r.
Proof using Hh.
  intros Hr. unfold plcc_errors. rewrite (wanted_agrees r Hr).
  destruct (wrong_flags_zero (r_flags r) (seqZ 20 5) 0) as [Hge He]; [apply Forall_forall; intros n Hn; apply elem_of_seqZ in Hn; lia |].
  change (flags_agree ps ign r) with (forallb (fun '(n, k) => Bool.eqb (Z.testbit (r_flags r) k) (pin_from (pin_at ps (n - 1))) || ign (n - 1))
    (zip (seqZ 20 5) (seqZ 0 (Z.of_nat (length (seqZ 20 5)))))). rewrite <- He.
  destruct (result_agrees ps r); cbn [andb]; split; lia.
Qed.

End Pins.

(** ** The driven bits are bytes *)

Definition bytes_ok (tf : TestFile) : Prop := Forall is_u8 (toUUT tf).

Lemma bytes_SetToUUT pos : preserves bytes_ok (SetToUUT pos).
Proof.
  intros tf Hb. unfold wpe, SetToUUT, mbind, M_bind, gets, Set_. destruct (toUUT tf !! Z.to_nat (pos / 8)) as [x |] eqn:E; [| exact I].
  cbn. apply Forall_insert; [exact Hb |]. unfold is_u8. apply (lor_bound 8 ltac:(lia)); [exact (Forall_lookup_some _ _ _ _ Hb E) |].
  apply (u8_range (Z.shiftl 1 (pos mod 8))).
Qed.

Lemma bytes_ResetToUUT pos : preserves bytes_ok (ResetToUUT pos).
Proof.
  intros tf Hb. unfold wpe, ResetToUUT, mbind, M_bind, gets, Reset. destruct (toUUT tf !! Z.to_nat (pos / 8)) as [x |] eqn:E; [| exact I].
  cbn. apply Forall_insert; [exact Hb |]. pose proof (Forall_lookup_some _ _ _ _ Hb E) as Hx. unfold is_u8 in *.
  assert (Hn : 0 <= Z.ldiff x (u8 (Z.shiftl 1 (pos mod 8)))) by (apply Z.ldiff_nonneg; lia). split; [exact Hn |].
  apply (low_bits_iff 8 ltac:(lia) _ Hn). intros i Hi. rewrite Z.ldiff_spec, (proj1 (low_bits_iff 8 ltac:(lia) x ltac:(lia)) ltac:(lia) i Hi).
  reflexivity.
Qed.

Lemma bytes_other (f : TestFile -> TestFile) : (forall tf, toUUT (f tf) = toUUT tf) -> preserves bytes_ok (modify f).
Proof. intros Hf. apply preserves_modify. intros tf Hb. unfold bytes_ok. rewrite Hf. exact Hb. Qed.

Ltac bytes :=
  repeat first [apply preserves_ret | apply preserves_gets | apply preserves_opt | apply bytes_SetToUUT | apply bytes_ResetToUUT
    | apply bytes_other; reflexivity | apply preserves_bind; [| intros] | apply preserves_if
    | match goal with |- preserves _ (match ?x with _ => _ end) => destruct x end].

Lemma bytes_set_bits k set pos v : (forall q, preserves bytes_ok (set q)) -> preserves bytes_ok (set_bits k set pos v).
Proof.
  intros Hs. revert pos v. induction k as [| k IH]; intros pos v; cbn [set_bits]; [bytes |].
  apply preserves_bind; [apply preserves_if; [apply Hs | bytes] | intros; apply IH].
Qed.

Lemma bytes_hex t rev set pos : (forall q, preserves bytes_ok (set q)) -> preserves bytes_ok (parse_hex_token t rev set pos).
Proof.
  intros Hs. unfold parse_hex_token. apply preserves_bind; [bytes |]. intros d. destruct (parse_hex 0 d); [| bytes].
  apply preserves_bind; [apply bytes_set_bits, Hs | intros; bytes].
Qed.

Lemma bytes_parse tokens : preserves bytes_ok (parseVector tokens).
Proof.
  assert (Ht : forall t pos, preserves bytes_ok (parse_token t pos)).
  { intros t pos. destruct t as [| c t]; cbn [parse_token]; [bytes |].
    assert (Hx : preserves bytes_ok (parse_hex_token (String c t) false SetToUUT pos)) by (apply bytes_hex; bytes).
    assert (Hy : preserves bytes_ok (parse_hex_token (String c t) true SetFromUUT pos)) by (apply bytes_hex; intros; unfold SetFromUUT; bytes).
    destruct (token_kind c) as [[] | [] | | | | |]; try assumption;
      unfold ResetFromUUT, SetFromUUT, SetClock, SetIgnored; bytes. }
  unfold parseVector. apply preserves_bind; [| intros; bytes].
  generalize 0. induction tokens as [| t rest IH]; intros pos; cbn [parse_tokens]; [bytes |].
  apply preserves_bind; [apply Ht |]. intros [pos' | e]; [apply IH | bytes].
Qed.

(** ** One line *)

(** The test file of a socket between two vectors. *)
Record ready (s : socket_type) (ign : Z -> bool) (tf : TestFile) : Prop := {
  rd_socket : socket tf = socket_name s;
  rd_size : size tf = socket_pins s;
  rd_cap : capacity (ignored tf) = 8 * (1 + socket_pins s / 8);
  rd_ign : forall j, 0 <= j -> vec_bit (ignored tf) j = ign j
}.

Lemma new_ready s : exists tf, NewTestFile (socket_name s) = Some tf /\ ready s (fun _ => false) tf.
Proof.
  destruct s; (eexists; split; [reflexivity |]); (constructor; [reflexivity | reflexivity | reflexivity |]);
    intros j _; cbn [ignored]; apply New_spec; lia.
Qed.

Definition now_ignored (ps : list pin) (ign : Z -> bool) (j : Z) : bool := pin_skip (pin_at ps j) || ign j.

Lemma vector_line s ign tf line ps : ready s ign tf -> vector_of s line = Some ps ->
  exists tf', (Clear;; parseVector (split_spaces line)) tf = Ret (inl tt, tf') /\
    ready s (now_ignored ps ign) tf' /\ holds ps (now_ignored ps ign) tf' /\ clockPin tf' = 0 /\ (s = PLCC -> plcc_ok tf').
Proof.
  intros [R1 R2 R3 R4] Hv. unfold vector_of in Hv. destruct (vector_pins (split_spaces line)) as [qs |] eqn:Ep; [| discriminate].
  cbn [mbind option_bind] in Hv. destruct (Z.eqb_spec (Z.of_nat (length qs)) (socket_pins s)) as [Hl |]; [| discriminate].
  injection Hv as <-. assert (Hs : 0 <= socket_pins s) by (destruct s; cbn; lia).
  destruct (parse_vector_run tf (split_spaces line) qs) as (tf' & Hrun & P1 & P2 & P3 & P4 & P5 & P6 & P7);
    [lia | rewrite R2; lia | exact Ep | rewrite R2; Z.div_mod_to_equations; lia |].
  rewrite R2, Hl, Z.eqb_refl in Hrun. exists tf'. rewrite R2 in P2, P4, P5. split; [exact Hrun |].
  assert (Hign : forall j, 0 <= j -> vec_bit (ignored tf') j = now_ignored qs ign j).
  { intros j Hj. destruct (P7 j Hj) as (_ & _ & ->). rewrite R4 by exact Hj. reflexivity. }
  split; [constructor; [congruence .. | exact Hign] |]. split; [constructor; [apply P7 | apply P7 | exact Hign] |].
  split; [exact P3 |]. intros ->. repeat split; [exact P4 | exact P5 | exact (eq_trans P6 R3) |].
  destruct (Clear_spec tf ltac:(lia)) as (tf1 & Hc & _). rewrite (bind_ret _ _ _ _ _ Hc) in Hrun.
  refine (wpe_run True _ (fun _ t => bytes_ok t) tf1 _ tf' (bytes_parse _ tf1 _) Hrun).
  unfold bytes_ok. injection Hc as <-. cbn. apply Forall_replicate. unfold is_u8. lia.
Qed.

(** The debug output of a parsed vector neither fails nor changes anything, which is why
    [scan] is modelled without it. *)
Lemma String_returns tf : 0 <= size tf <= capacity (toUUT tf) -> size tf <= capacity (fromUUT tf) ->
  exists s, TestFile_String tf = Ret (s, tf).
Proof.
  intros [H0 Ht] Hf.
  assert (Hb : forall k i, 0 <= i -> i + Z.of_nat k <= size tf -> exists s, bits_text k i tf = Ret (s, tf)).
  { induction k as [| k IH]; intros i Hi Hk; cbn [bits_text]; [eexists; reflexivity |].
    destruct (IH (i + 1) ltac:(lia) ltac:(lia)) as [more Hm].
    assert (Gf : GetFromUUT i tf = Ret (Z.b2z (vec_bit (fromUUT tf) i), tf)) by (unfold GetFromUUT, mbind, M_bind, gets; rewrite Get_spec by lia; reflexivity).
    assert (Gt : GetToUUT i tf = Ret (Z.b2z (vec_bit (toUUT tf) i), tf)) by (unfold GetToUUT, mbind, M_bind, gets; rewrite Get_spec by lia; reflexivity).
    rewrite (bind_ret _ _ _ _ _ Gf). destruct (0 <? _).
    - rewrite (bind_ret (mret _) _ _ tf tf eq_refl), (bind_ret _ _ _ _ _ Hm). eexists. reflexivity.
    - rewrite (bind_ret _ _ _ _ _ Gt), (bind_ret _ _ _ _ _ Hm). eexists. reflexivity. }
  destruct (Hb (Z.to_nat (size tf)) 0 ltac:(lia) ltac:(lia)) as [bs Hbs]. unfold TestFile_String.
  rewrite (bind_ret get_st _ tf tf tf eq_refl). unfold HasClock, GetClock. destruct (Z.eqb_spec (clockPin tf) 0) as [E | E]; cbn [negb].
  - rewrite (bind_ret (mret _) _ _ tf tf eq_refl), (bind_ret _ _ _ _ _ Hbs). eexists. reflexivity.
  - erewrite (bind_ret (_ ← _; _)); [rewrite (bind_ret _ _ _ _ _ Hbs); eexists; reflexivity |].
    unfold mbind, M_bind, gets. rewrite (proj2 (Z.eqb_neq _ _) E). reflexivity.
Qed.

Lemma vector_not_socket s line ps : vector_of s line = Some ps ->
  String.eqb (default ""%string (head (split_spaces line))) "socket" = false.
Proof.
  unfold vector_of. destruct (split_spaces line) as [| t rest]; [reflexivity |]. change (default ""%string (head (t :: rest))) with t.
  destruct (String.eqb_spec t "socket") as [-> |]; [discriminate | reflexivity].
Qed.

Section Run.
Context {P : Type} `{Port P} {fuel : nat} {B : Type} `{!Bench P fuel B}.

Lemma vector_applied ign ps tf b p : ready PLCC ign tf -> holds ps ign tf -> clockPin tf = 0 -> plcc_ok tf -> bench_at b p ->
  exists n p', applyVector fuel tf p = Ret (inl n, p') /\ 0 <= n /\
    (n =? 0) = result_agrees ps (respond (stimulus ps) b).1 && flags_agree ps ign (respond (stimulus ps) b).1 /\
    bench_at (respond (stimulus ps) b).2 p'.
Proof.
  intros [R1 _ _ _] Hh Hc Hok Hb. destruct (stimulus_ok ps) as [Hl Hu].
  destruct (bench_answers b p (stimulus ps) Hl Hu Hb) as (Hr & p' & Hs & Hb'). set (r := (respond (stimulus ps) b).1) in *.
  rewrite <- (script_pins ps ign tf Hh Hok r Hc) in Hs.
  exists (plcc_errors tf (r_flags r) (r_high r) (r_low r)), p'. unfold applyVector. rewrite R1.
  split; [exact (applyPLCC_run fuel tf _ _ _ p p' Hok Hs) |]. destruct (errors_agree ps ign tf Hh r Hr) as [Hge He]. auto.
Qed.

(** The lines of the scanner, when no read fails. *)
Definition intact (ls : list string) : list (string * option gerr) := (fun l => (l, None)) <$> ls.

Lemma scan_plcc ls : forall ign vs tf total b p, vectors_of PLCC ls = Some vs -> ready PLCC ign tf -> bench_at b p ->
  exists n p', scan fuel (intact ls) (Some tf) total p = Ret (inl (total + n), p') /\ 0 <= n /\
    (n =? 0) = (vectors_pass ign vs b).1 /\ bench_at (vectors_pass ign vs b).2 p'.
Proof.
  induction ls as [| l rest IH]; intros ign vs tf total b p Hv Hr Hb; cbn [vectors_of intact fmap list_fmap scan] in *.
  { injection Hv as <-. exists 0, p. rewrite Z.add_0_r. split; [reflexivity |]. split; [lia | split; [reflexivity | exact Hb]]. }
  destruct (skip_line l); [apply (IH ign); assumption |].
  destruct (vector_of PLCC l) as [ps |] eqn:El; [| discriminate]. cbn [mbind option_bind] in Hv.
  destruct (vectors_of PLCC rest) as [vs' |]; [| discriminate]. injection Hv as <-.
  rewrite (vector_not_socket _ _ _ El). destruct (vector_line _ _ _ _ _ Hr El) as (tf' & Hrun & Hr' & Hh & Hc & Hok). rewrite Hrun.
  destruct (vector_applied _ ps tf' b p Hr' Hh Hc (Hok eq_refl) Hb) as (n & p1 & Ha & Hn & He & Hb1).
  rewrite (bindE_ret _ _ _ _ _ Ha).
  destruct (IH _ vs' tf' (total + n) _ p1 eq_refl Hr' Hb1) as (n2 & p2 & Hs & Hn2 & He2 & Hb2).
  exists (n + n2), p2. cbn [vectors_pass]. change (fun j => pin_skip (pin_at ps j) || ign j) with (now_ignored ps ign).
  destruct (respond (stimulus ps) b) as [r b1]. cbn [fst snd] in *. destruct (vectors_pass (now_ignored ps ign) vs' b1) as [ok b2].
  cbn [fst snd] in *. split; [rewrite Z.add_assoc; exact Hs |]. split; [lia |]. split; [| exact Hb2].
  rewrite <- He, <- He2. lia.
Qed.

Lemma scan_zif ls : forall ign vs tf total p, vectors_of ZIF ls = Some vs -> ready ZIF ign tf ->
  scan fuel (intact ls) (Some tf) total p = Ret (inl total, p).
Proof.
  induction ls as [| l rest IH]; intros ign vs tf total p Hv Hr; cbn [vectors_of intact fmap list_fmap scan] in *; [reflexivity |].
  destruct (skip_line l); [apply (IH ign vs); assumption |].
  destruct (vector_of ZIF l) as [ps |] eqn:El; [| discriminate]. cbn [mbind option_bind] in Hv.
  destruct (vectors_of ZIF rest) as [vs' |] eqn:Ev; [| discriminate].
  rewrite (vector_not_socket _ _ _ El). destruct (vector_line _ _ _ _ _ Hr El) as (tf' & Hrun & Hr' & _). rewrite Hrun.
  unfold applyVector. rewrite (rd_socket _ _ _ Hr'). cbn [socket_name]. change (String.eqb "ZIF" "PLCC") with false. cbv iota.
  change (String.eqb "ZIF" "ZIF") with true. cbv iota. rewrite (bindE_ret (applyZIF tf') _ 0 p p eq_refl), Z.add_0_r. exact (IH _ vs' tf' total p eq_refl Hr').
Qed.

Lemma scan_file ls : forall f b p, file_spec ls = Some f -> bench_at b p ->
  exists n p', scan fuel (intact ls) None 0 p = Ret (inl n, p') /\ 0 <= n /\ (n =? 0) = (file_passes f b).1 /\ bench_at (file_passes f b).2 p'.
Proof.
  induction ls as [| l rest IH]; intros f b p Hf Hb; cbn [file_spec intact fmap list_fmap scan] in *; [discriminate |].
  destruct (skip_line l); [apply IH; assumption |].
  destruct (socket_of l) as [s |] eqn:Es; [| discriminate]. cbn [mbind option_bind] in Hf.
  destruct (vectors_of s rest) as [vs |] eqn:Ev; [| discriminate]. injection Hf as <-.
  assert (Hsp : split_spaces l = ["socket"%string; socket_name s]).
  { unfold socket_of in Es. destruct (split_spaces l) as [| k [| x [| ? ?]]]; try discriminate.
    destruct (String.eqb_spec k "socket"); [| discriminate]. destruct (String.eqb_spec x "PLCC"); [injection Es as <-; subst; reflexivity |].
    destruct (String.eqb_spec x "ZIF"); [injection Es as <-; subst; reflexivity | discriminate]. }
  rewrite Hsp. cbn [head default]. rewrite String.eqb_refl. destruct (new_ready s) as (tf & Hnew & Hr). rewrite Hnew. destruct s; cbn [file_passes].
  - destruct (scan_plcc rest _ vs tf 0 b p Ev Hr Hb) as (n & p' & H1 & H2). exists n, p'. split; [exact H1 | exact H2].
  - exists 0, p. split; [exact (scan_zif rest _ vs tf 0 p Ev Hr) |]. split; [lia | split; [reflexivity | exact Hb]].
Qed.

(** ** The files of a run *)

Definition file_lines (content : string) : list string := fst <$> scanner_lines (content, None).

Lemma scanner_intact content : scanner_lines (content, None) = intact (file_lines content).
Proof.
  unfold file_lines, scanner_lines, intact. cbn [fst snd]. induction (raw_lines content) as [| l rest IH]; [reflexivity |].
  cbn [deliver]. destruct (_ <=? _); [reflexivity |]. destruct rest as [| l' rest']; [destruct (String.eqb l ""); reflexivity |].
  cbn [fmap list_fmap fst]. f_equal. exact IH.
Qed.

(** The files that a run names can be read and are vector files. *)
Definition readable (open : string -> option (string * option gerr)) (name : string) (f : socket_type * list (list pin)) : Prop :=
  exists content, open name = Some (content, None) /\ file_spec (file_lines content) = Some f.

Context (open : string -> option (string * option gerr)).

Lemma vector_files_run names fs : Forall2 (readable open) names fs -> forall total b p, 0 <= total -> bench_at b p ->
  exists p', vector_files fuel open names total p = Ret (if (total =? 0) && (files_pass fs b).1 then 0 else 3, p') /\
    bench_at (files_pass fs b).2 p'.
Proof.
  induction 1 as [| name f names fs (content & Ho & Hf) _ IH]; intros total b p Ht Hb; cbn [vector_files files_pass].
  { exists p. rewrite andb_true_r. split; [reflexivity | exact Hb]. }
  destruct (scan_file (file_lines content) f b p Hf Hb) as (n & p1 & Hs & Hn & He & Hb1).
  assert (Hd : DoVectorFile fuel open name p = Ret (inl n, p1)) by (unfold DoVectorFile; rewrite Ho, scanner_intact; exact Hs).
  rewrite (bind_ret _ _ _ _ _ Hd). destruct (IH (total + n) _ p1 ltac:(lia) Hb1) as (p2 & Hr & Hb2). exists p2.
  destruct (file_passes f b) as [ok b1]. cbn [fst snd] in *. destruct (files_pass fs b1) as [ok' b2]. cbn [fst snd] in *.
  split; [| exact Hb2]. rewrite Hr, <- He, andb_assoc.
  replace (total + n =? 0) with ((total =? 0) && (n =? 0)) by lia. reflexivity.
Qed.

Lemma run_session_files names fs b p tty text sched : names <> [] -> Forall2 (readable open) names fs -> bench_at b p ->
  exists p', run_session fuel open names tty text sched p = Ret (Some (if (files_pass fs b).1 then 0 else 3), p') /\
    bench_at (files_pass fs b).2 p'.
Proof.
  intros Hne Hf Hb. destruct (bench_connects b p Hb) as (p1 & p2 & X1 & X2 & Hb2).
  destruct (vector_files_run names fs Hf 0 b p2 ltac:(lia) Hb2) as (p3 & Hv & Hb3). exists p3. split; [| exact Hb3].
  unfold run_session. rewrite (bind_ret _ _ _ _ _ (session_run fuel p p1 p2 X1 X2)).
  destruct names as [| n names]; [congruence |]. rewrite (bind_ret _ _ _ _ _ Hv). reflexivity.
Qed.

End Run.

(** C37: A run over vector files gives the verdict of the vectors.  With a bench behind the
    port that answers the protocol, and files that hold a socket statement and vectors
    without a clock, the run establishes a session, applies every vector for the PLCC
    socket in order (the vectors for the ZIF socket are parsed and pass unapplied), exits
    with 0 or 3, and leaves the bench in the state in which the vectors have left it, with
    [Close] called.  The exit code is 0 exactly when the unit agrees with every vector that
    is applied: with all the result pins 28 to 43, where a pin marked X counts as L, and
    with the flags on pins 20 to 24 that neither the vector nor an earlier one of the file
    marks X.  When all the files are for the PLCC socket, no vector marks a result pin and
    the marks on the flags are kept by the later vectors, that is the documented verdict:
    an output pin shows its H or L, or is marked X by the vector. *)
Theorem vector_run_verdict {P : Type} `{Port P} (fuel : nat) {B : Type} `{!Bench P fuel B}
    (open : string -> option (string * option gerr)) (names : list string) (fs : list (socket_type * list (list pin)))
    (b : B) (p : P) (tty : bool) (text : string) (sched : list wait)
    (Hne : names <> []) (Hf : Forall2 (readable open) names fs) (Hb : bench_at b p) :
  exists (ok : bool) (p' : P), submain fuel open true (inl p) names tty text sched =
      Ret (Some (if ok then 0 else 3), Some (Close (MkArduino (Some p'))).2) /\
    ok = (files_pass fs b).1 /\ bench_at (files_pass fs b).2 p' /\
    (forallb file_ok fs = true -> ok = (files_ok fs b).1).
Proof.
  destruct (run_session_files open names fs b p tty text sched Hne Hf Hb) as (p' & Hr & Hb'). exists (files_pass fs b).1, p'.
  split; [unfold submain; cbn [negb NewArduino port]; rewrite Hr; reflexivity |].
  split; [reflexivity |]. split; [exact Hb' |]. intros Hd. rewrite files_documented by exact Hd. reflexivity.
Qed.
