(* ===== verification/CexBench.v ===== *)
(** * A bench in software

    An instance of [Bench]: a device that speaks the protocol in front of a
    combinational unit, and as the unit a 16-bit ALU with the function codes that
    the comments of exer/cex/t.tv list.  With it the vector file exer/cex/t.tv
    passes. *)

From S2P Require Import Prelude Text Cex CexVec CexTheorems CexSession CexMain CexRun.

(** ** The device *)

(** A unit without state: the ports 4, 5, 6, 10, 3 and 2 to what is read back. *)
Record combinational := MkUnit { uut : list Z -> reply; uut_ok : forall u, reply_ok (uut u) }.

(** The unit, the port latches, and the bytes not yet read. *)
Record device := MkDevice { dev_unit : combinational; latches : list Z; out : list Z }.

Definition say (bs : list Z) (d : device) : device := MkDevice (dev_unit d) (latches d) (out d ++ bs).

Definition latch (id b : Z) (d : device) : device :=
  let k := if id =? 4 then 0 else if id =? 5 then 1 else if id =? 6 then 2 else if id =? 10 then 3 else if id =? 3 then 4 else 5 in
  MkDevice (dev_unit d) (<[Z.to_nat k := b]> (latches d)) (out d).

Definition obey (cmd : list Z) (d : device) : device :=
  let r := uut (dev_unit d) (latches d) in
  match cmd with
  | [c] => if c =? CmdGetVer then say [Ack c; ProtocolVersion] d else say [Ack c] d
  | [c; id] => say [Ack c; if id =? 12 then r_flags r else if id =? 1 then r_high r else r_low r] d
  | [c; id; b] => say [Ack c] (if c =? CmdSet then latch id b d else d)
  | _ => d
  end.

#[export] Instance device_port : Port device := {
  port_read := fun d =>
    match out d with
    | [] => (None, None, d)
    | b :: rest => (Some b, None, MkDevice (dev_unit d) (latches d) rest)
    end;
  port_write := fun cmd d => (Z.of_nat (length cmd), None, obey cmd d);
  port_close := fun d => (None, d)
}.

Lemma device_reads k b rest d : out d = [] -> ReadFor (S k) (say (b :: rest) d) = Ret (inl b, say rest d).
Proof. intros H0. unfold ReadFor. cbn [read_loop]. unfold say, port_read. cbn. rewrite H0. reflexivity. Qed.

Lemma device_delivers k resp d : out d = [] -> delivers (S k) (say resp d) resp d.
Proof.
  intros H0. induction resp as [| b resp IH]; cbn [delivers].
  - unfold say. rewrite app_nil_r. destruct d. reflexivity.
  - exists (say resp d). split; [apply device_reads, H0 | exact IH].
Qed.

(** A command that the device answers is an exchange. *)
Lemma obeyed k cmd resp d d' : obey cmd d = say (Ack (default 0 (head cmd)) :: resp) d' -> out d' = [] ->
  exchange (S k) d cmd resp d'.
Proof.
  intros Hc H1. exists (say (Ack (default 0 (head cmd)) :: resp) d'), (say resp d').
  split; [unfold Write; cbn [write_loop]; unfold port_write; cbn; rewrite Z.eqb_refl, Hc; reflexivity |].
  split; [apply device_reads, H1 | apply device_delivers, H1].
Qed.

Lemma set_obeyed k id b d : out d = [] -> exchange (S k) d [CmdSet; id; b] [] (latch id b d).
Proof. intros H0. apply obeyed; [reflexivity | exact H0]. Qed.

Lemma pulse_obeyed k a b d : out d = [] -> exchange (S k) d [CmdPulse; a; b] [] d.
Proof. intros H0. apply obeyed; [reflexivity | exact H0]. Qed.

(** The bench is the unit and what was latched last. *)
Definition idle (b : combinational * list Z) (d : device) : Prop :=
  dev_unit d = b.1 /\ latches d = b.2 /\ length (latches d) = 6%nat /\ out d = [].

#[export] Instance device_bench k : Bench device (S k) (combinational * list Z).
Proof.
  refine {| respond u b := (uut b.1 u, (b.1, u)); bench_at := idle |}.
  - intros [c l] [c' l' o] (H1 & H2 & H3 & H4). cbn in H1, H2, H3, H4. subst. do 2 exists (MkDevice c l []).
    split; [apply obeyed; reflexivity |]. split; [apply obeyed; reflexivity |]. repeat split. exact H3.
  - intros [c l] [c' l' o] u Hu _ (H1 & H2 & H3 & H4). cbn in H1, H2, H3, H4. subst. split; [apply uut_ok |].
    exists (MkDevice c u []). split; [| repeat split; exact Hu].
    do 6 (destruct l as [| ? l]; [discriminate H3 |]). destruct l; [| discriminate H3].
    do 6 (destruct u as [| ? u]; [discriminate Hu |]). destruct u; [| discriminate Hu]. cbn [vector_script zip_with app session fst].
    do 6 (eexists; split; [apply set_obeyed; reflexivity |]). do 3 (eexists; split; [apply pulse_obeyed; reflexivity |]).
    do 3 (eexists (MkDevice c _ []); split; [apply obeyed; reflexivity |]). reflexivity.
Defined.

(** ** An ALU *)

Definition alu (sel cin a b : Z) : Z :=
  if sel =? 0 then 0
  else if sel =? 1 then Z.lxor a 0xFFFF + b + cin
  else if sel =? 2 then a + Z.lxor b 0xFFFF + cin
  else if sel =? 3 then a + b + cin
  else if sel =? 4 then Z.lxor a b
  else if sel =? 5 then Z.lor a b
  else if sel =? 6 then Z.land a b
  else 0xFFFF.

(** The operands are at the ports 4, 5 and 3, 2, and at port 6 from bit 3 on the carry and
    the function.  The flags read are carry and zero. *)
Definition alu_reply (u : list Z) : reply :=
  match u with
  | [a0; a1; c; _; b0; b1] =>
    let f := alu (c / 16 mod 8) (c / 8 mod 2) (a1 * 256 + a0) (b1 * 256 + b0) in
    let r := u16 f in
    Reply ((if 65536 <=? f then 1 else 0) + (if r =? 0 then 8 else 0)) (r / 256) (r mod 256)
  | _ => Reply 0 0 0
  end.

Lemma alu_reply_ok u : reply_ok (alu_reply u).
Proof.
  assert (Z0 : reply_ok (Reply 0 0 0)) by (repeat split; cbn; lia).
  do 6 (destruct u as [| ? u]; [exact Z0 |]). destruct u; [| exact Z0]. unfold alu_reply, reply_ok. cbn [r_flags r_high r_low].
  match goal with |- context [u16 ?f] => pose proof (u16_range f) as Hr; set (r := u16 f) in *; set (carry := 65536 <=? f) end.
  unfold is_u16 in Hr. unfold is_u8. split; [| split; Z.div_mod_to_equations; lia].
  destruct carry, (r =? 0); lia.
Qed.

Definition alu_unit : combinational := MkUnit alu_reply alu_reply_ok.

(** A unit whose outputs are low. *)
Definition dead_unit : combinational := MkUnit (fun _ => Reply 0 0 0) (fun _ => alu_reply_ok []).

(** exer/cex/t.tv *)
Definition t_tv : string := "# TestVector (.tv) file for testing the file scanner

socket PLCC

# 0    17  19        24    27    43 44              52 68
# A-in CLK G C P G Z V ENF OE F-out Cin S1  OSA FTA ENA
#        Vcc             FTF          S0  S2  OSB ENB B-in
#
# Combinational - register clocks disabled, select flow through
# First just check the F output, ignoring the status bits.
>CLEAR
%0007  0 V G L X X H L 1 1 0  @0000 0 0 0 0 1 1 1 1 1 %0005
%FFFF  0 V G L X X H L 1 1 0  @0000 0 0 0 0 1 1 1 1 1 %FFFF
%0000  0 V G L X X H L 1 1 0  @0000 0 0 0 0 1 1 1 1 1 %0000

>NOT(A) + B
%0007  0 V G L X X L L 1 1 0  @FFFD 0 1 0 0 1 1 1 1 1 %0005
%FFFF  0 V G L X X L L 1 1 0  @FFFF 0 1 0 0 1 1 1 1 1 %FFFF
%0000  0 V G L X X L L 1 1 0  @FFFF 0 1 0 0 1 1 1 1 1 %0000

>A + NOT(B)
%0007  0 V G H X X L L 1 1 0  @0001 0 0 1 0 1 1 1 1 1 %0005
%FFFF  0 V G L X X L L 1 1 0  @FFFF 0 0 1 0 1 1 1 1 1 %FFFF
%0000  0 V G L X X L L 1 1 0  @FFFF 0 0 1 0 1 1 1 1 1 %0000

>A + B
%0007  0 V G L X X L L 1 1 0  @000C 0 1 1 0 1 1 1 1 1 %0005
%FFFF  0 V G H X X L L 1 1 0  @FFFE 0 1 1 0 1 1 1 1 1 %FFFF
%0000  0 V G L X X H L 1 1 0  @0000 0 1 1 0 1 1 1 1 1 %0000

>A XOR B
%0007  0 V G L X X L L 1 1 0  @0002 0 0 0 1 1 1 1 1 1 %0005
%FFFF  0 V G L X X H L 1 1 0  @0000 0 0 0 1 1 1 1 1 1 %FFFF
%0000  0 V G L X X H L 1 1 0  @0000 0 0 0 1 1 1 1 1 1 %0000

>A OR B
%0007  0 V G L X X L L 1 1 0  @0007 0 1 0 1 1 1 1 1 1 %0005
%FFFF  0 V G L X X L L 1 1 0  @FFFF 0 1 0 1 1 1 1 1 1 %FFFF
%0000  0 V G L X X H L 1 1 0  @0000 0 1 0 1 1 1 1 1 1 %0000

>A AND B
%0007  0 V G L X X L L 1 1 0  @0005 0 0 1 1 1 1 1 1 1 %0005
%FFFF  0 V G L X X L L 1 1 0  @FFFF 0 0 1 1 1 1 1 1 1 %FFFF
%0000  0 V G L X X H L 1 1 0  @0000 0 0 1 1 1 1 1 1 1 %0000

>SET
%0007  0 V G L X X L L 1 1 0  @FFFF 0 1 1 1 1 1 1 1 1 %0005
%FFFF  0 V G L X X L L 1 1 0  @FFFF 0 1 1 1 1 1 1 1 1 %FFFF
%0000  0 V G L X X L L 1 1 0  @FFFF 0 1 1 1 1 1 1 1 1 %0000

".

Definition cwd (name : string) : option (string * option gerr) := if String.eqb name "t.tv" then Some (t_tv, None) else None.

Lemma t_tv_readable : Forall2 (readable cwd) ["t.tv"%string] [default (ZIF, []) (file_spec (file_lines t_tv))].
Proof. constructor; [| constructor]. exists t_tv. split; [reflexivity | vm_compute; reflexivity]. Qed.

(** A result whose pins are marked X is compared as if they were L: the ALU's 3 + 3 fails. *)
Definition x_tv : string := "socket PLCC
%0003  0 V G L X X L L 1 1 0  X X X X X X X X X X X X X X X X 0 1 1 0 1 1 1 1 1 %0003
".

Definition cwd_x (name : string) : option (string * option gerr) := if String.eqb name "x.tv" then Some (x_tv, None) else None.

Lemma x_tv_readable : Forall2 (readable cwd_x) ["x.tv"%string] [default (ZIF, []) (file_spec (file_lines x_tv))].
Proof. constructor; [| constructor]. exists x_tv. split; [reflexivity | vm_compute; reflexivity]. Qed.

(** The vectors of the repository are as documented; they pass with the ALU and fail with a
    dead unit.  The vector with X outputs passes by the documentation and fails here. *)
Lemma vector_run_verdict_witness :
  (exists p', submain 1 cwd true (inl (MkDevice alu_unit [0; 0; 0; 0; 0; 0] [])) ["t.tv"%string] false "" [] =
      Ret (Some 0, Some (Close (MkArduino (Some p'))).2)) /\
  (exists p', submain 1 cwd true (inl (MkDevice dead_unit [0; 0; 0; 0; 0; 0] [])) ["t.tv"%string] false "" [] =
      Ret (Some 3, Some (Close (MkArduino (Some p'))).2)) /\
  (exists p', submain 1 cwd_x true (inl (MkDevice alu_unit [0; 0; 0; 0; 0; 0] [])) ["x.tv"%string] false "" [] =
      Ret (Some 3, Some (Close (MkArduino (Some p'))).2)) /\
  (files_ok (fuel := 1) [default (ZIF, []) (file_spec (file_lines x_tv))] (alu_unit, [0; 0; 0; 0; 0; 0])).1 = true.
Proof.
  split; [| split; [| split]].
  - destruct (vector_run_verdict 1 cwd ["t.tv"%string] _ (alu_unit, [0; 0; 0; 0; 0; 0]) (MkDevice alu_unit [0; 0; 0; 0; 0; 0] [])
      false "" [] ltac:(discriminate) t_tv_readable) as (ok & p' & E & _ & _ & Hd); [repeat split |].
    exists p'. rewrite E, Hd; vm_compute; reflexivity.
  - destruct (vector_run_verdict 1 cwd ["t.tv"%string] _ (dead_unit, [0; 0; 0; 0; 0; 0]) (MkDevice dead_unit [0; 0; 0; 0; 0; 0] [])
      false "" [] ltac:(discriminate) t_tv_readable) as (ok & p' & E & Ho & _); [repeat split |].
    exists p'. rewrite E, Ho. vm_compute. reflexivity.
  - destruct (vector_run_verdict 1 cwd_x ["x.tv"%string] _ (alu_unit, [0; 0; 0; 0; 0; 0]) (MkDevice alu_unit [0; 0; 0; 0; 0; 0] [])
      false "" [] ltac:(discriminate) x_tv_readable) as (ok & p' & E & Ho & _); [repeat split |].
    exists p'. rewrite E, Ho. vm_compute. reflexivity.
  - vm_compute. reflexivity.
Defined.
