(* ===== verification/CexFaults.v ===== *)
(** * Vector files that the exerciser does not read as documented

    The README counts the clock C among the values of a vector, the parser does
    not; and the loop over the lines ends at a scanner error without looking at it. *)

From S2P Require Import Prelude Text Cex CexVec CexTheorems CexSession CexMain CexRun.

(** ** The clock *)

(** Only the values of the bits differ. *)
Definition same_shape (tf tf' : TestFile) : Prop :=
  size tf' = size tf /\ capacity (toUUT tf') = capacity (toUUT tf) /\ capacity (fromUUT tf') = capacity (fromUUT tf) /\
  capacity (ignored tf') = capacity (ignored tf).

#[local] Instance same_shape_pre : PreOrder same_shape.
Proof. split; [intros tf; repeat split | intros t1 t2 t3 (A1 & A2 & A3 & A4) (B1 & B2 & B3 & B4); repeat split; congruence]. Qed.

(** A call on a test file that returns, and keeps its shape. *)
Definition shapes {A} (c : T A) (tf : TestFile) (a : A) : Prop := exists tf', c tf = Ret (a, tf') /\ same_shape tf tf'.

Lemma shapes_bind {A B} (c : T A) (f : A -> T B) tf a b :
  shapes c tf a -> (forall tf', same_shape tf tf' -> shapes (f a) tf' b) -> shapes (c ≫= f) tf b.
Proof.
  intros (t1 & E1 & S1) Hf. destruct (Hf t1 S1) as (t2 & E2 & S2). exists t2. rewrite (bind_ret _ _ _ _ _ E1).
  split; [exact E2 | etransitivity; eassumption].
Qed.

Lemma shapes_ret {A} tf (a : A) : shapes (mret a) tf a.
Proof. exists tf. split; reflexivity. Qed.

Section Setters.
Context (tf : TestFile) (pos : Z) (Hp : 0 <= pos) (Hr : roomy (pos + 1) tf).

Ltac setter v op :=
  destruct Hr as (R1 & R2 & R3); destruct (byte_index v pos ltac:(lia)) as [x E];
  eexists; split; [unfold op, mbind, M_bind, gets, from_opt, Set_, Reset; rewrite E; reflexivity |];
  repeat split; unfold capacity; cbn; rewrite ?length_insert; reflexivity.

Lemma SetToUUT_shapes : shapes (SetToUUT pos) tf tt.
Proof using Hp Hr. setter (toUUT tf) SetToUUT. Qed.
Lemma SetFromUUT_shapes : shapes (SetFromUUT pos) tf tt.
Proof using Hp Hr. setter (fromUUT tf) SetFromUUT. Qed.
Lemma SetIgnored_shapes : shapes (SetIgnored pos) tf tt.
Proof using Hp Hr. setter (ignored tf) SetIgnored. Qed.
Lemma ResetToUUT_shapes : shapes (ResetToUUT pos) tf tt.
Proof using Hp Hr. setter (toUUT tf) ResetToUUT. Qed.
Lemma ResetFromUUT_shapes : shapes (ResetFromUUT pos) tf tt.
Proof using Hp Hr. setter (fromUUT tf) ResetFromUUT. Qed.

End Setters.

Lemma roomy_shape n m tf tf' : same_shape tf tf' -> n <= m -> roomy m tf -> roomy n tf'.
Proof. unfold roomy. intros (_ & -> & -> & ->). lia. Qed.

Lemma set_bits_shapes set : (forall tf pos, 0 <= pos -> roomy (pos + 1) tf -> shapes (set pos) tf tt) ->
  forall k tf pos v, 0 <= pos -> roomy (pos + Z.of_nat k) tf -> shapes (set_bits k set pos v) tf (pos + Z.of_nat k).
Proof.
  intros Hset k. induction k as [| k IH]; intros tf pos v Hp Hr; cbn [set_bits].
  { rewrite Z.add_0_r. apply shapes_ret. }
  apply (shapes_bind _ _ _ tt).
  - destruct (negb _); [apply Hset; [exact Hp | eapply roomy_shape; [reflexivity | | exact Hr]; lia] | apply shapes_ret].
  - intros tf' Hs. replace (pos + Z.of_nat (S k)) with (pos + 1 + Z.of_nat k) by lia. apply IH; [lia |].
    eapply roomy_shape; [exact Hs | | exact Hr]. lia.
Qed.

Lemma parse_hex_shapes t v rev set tf pos : (forall tf pos, 0 <= pos -> roomy (pos + 1) tf -> shapes (set pos) tf tt) ->
  hex4 t = Some v -> 0 <= pos -> roomy (pos + 16) tf -> shapes (parse_hex_token t rev set pos) tf (inl (pos + 16)).
Proof.
  intros Hset Hv Hp Hr. unfold hex4 in Hv. destruct (slice 1 5 t) as [d |] eqn:Es; [| discriminate]. cbn [mbind option_bind] in Hv.
  unfold parse_hex_token. rewrite Es. apply (shapes_bind _ _ _ d); [apply shapes_ret |]. intros tf' Hs. rewrite Hv.
  apply (shapes_bind _ _ _ (pos + 16)); [| intros; apply shapes_ret].
  apply (set_bits_shapes set Hset 16); [exact Hp |]. eapply roomy_shape; [exact Hs | | exact Hr]. lia.
Qed.

Lemma parse_token_shapes t ps tf pos : token_pins t = Some ps -> 0 <= pos -> roomy (pos + Z.of_nat (length ps)) tf ->
  shapes (parse_token t pos) tf (inl (pos + Z.of_nat (length ps))).
Proof.
  intros Ht Hp Hr. destruct t as [| c t]; cbn [token_pins parse_token] in *.
  { injection Ht as <-. rewrite Z.add_0_r. apply shapes_ret. }
  assert (Hone : forall op : T unit, length ps = 1%nat -> (roomy (pos + 1) tf -> shapes op tf tt) ->
            shapes (op;; mret (inl (pos + 1)) : T (Z + gerr)) tf (inl (pos + Z.of_nat (length ps)))).
  { intros op Hl Hop. rewrite Hl in *. apply (shapes_bind _ _ _ tt); [apply Hop, Hr | intros; apply shapes_ret]. }
  assert (Hhex : forall rev set v, hex4 (String c t) = Some v -> length ps = 16%nat ->
            (forall tf pos, 0 <= pos -> roomy (pos + 1) tf -> shapes (set pos) tf tt) ->
            shapes (parse_hex_token (String c t) rev set pos) tf (inl (pos + Z.of_nat (length ps)))).
  { intros rev set v Hv Hl Hset. rewrite Hl in *. exact (parse_hex_shapes _ v rev set tf pos Hset Hv Hp Hr). }
  destruct (token_kind c) as [[] | [] | | | | |]; try discriminate Ht;
    try (injection Ht as <-; apply Hone; [reflexivity | intros]);
    auto using SetToUUT_shapes, ResetToUUT_shapes, SetFromUUT_shapes, ResetFromUUT_shapes, SetIgnored_shapes;
    destruct (hex4 (String c t)) as [v |] eqn:Hv; try discriminate Ht; injection Ht as <-;
    apply (Hhex _ _ v); auto using SetToUUT_shapes, SetFromUUT_shapes.
Qed.

Lemma parse_tokens_shapes tokens : forall ps tf pos, vector_pins tokens = Some ps -> 0 <= pos -> roomy (pos + Z.of_nat (length ps)) tf ->
  shapes (parse_tokens tokens pos) tf (inl (pos + Z.of_nat (length ps))).
Proof.
  induction tokens as [| t rest IH]; intros ps tf pos Hv Hp Hr; cbn [vector_pins parse_tokens] in *.
  { injection Hv as <-. rewrite Z.add_0_r. apply shapes_ret. }
  destruct (token_pins t) as [p1 |] eqn:Et; [| discriminate]. cbn [mbind option_bind] in Hv.
  destruct (vector_pins rest) as [p2 |]; [| discriminate]. injection Hv as <-. rewrite length_app, Nat2Z.inj_add in *.
  apply (shapes_bind _ _ _ (inl (pos + Z.of_nat (length p1)))).
  - apply parse_token_shapes; [exact Et | exact Hp |]. eapply roomy_shape; [reflexivity | | exact Hr]. lia.
  - intros tf' Hs. rewrite Z.add_assoc. apply IH; [reflexivity | lia |]. eapply roomy_shape; [exact Hs | | exact Hr]. lia.
Qed.

Lemma parse_tokens_app xs ys pos tf : parse_tokens (xs ++ ys) pos tf =
  (r ← parse_tokens xs pos; match r with inl pos' => parse_tokens ys pos' | inr e => mret (inr e) end) tf.
Proof.
  revert pos tf. induction xs as [| x xs IH]; intros pos tf; cbn [app parse_tokens]; [reflexivity |].
  unfold mbind, M_bind. destruct (parse_token x pos tf) as [[[pos' | e] tf'] | w]; [| reflexivity | reflexivity].
  rewrite IH. reflexivity.
Qed.

(** A vector with a clock is one value short.  The parser does not advance past the
    clock, so a line with as many values as the socket has pins, one of them C, as the
    README prescribes, is refused with one bit too few. *)
Theorem clock_vector_rejected (tf : TestFile) (before after : list string) (t : string) (ps qs : list pin)
    (Hb : vector_pins before = Some ps) (Ha : vector_pins after = Some qs)
    (Hc : match t with String c _ => token_kind c = KClock | EmptyString => False end)
    (Hn : Z.of_nat (length ps) + 1 + Z.of_nat (length qs) = size tf) (Hi : 8 * (1 + size tf / 8) <= capacity (ignored tf)) :
  exists tf', (Clear;; parseVector (before ++ t :: after)) tf = Ret (inr (EBits (size tf) (size tf - 1)), tf').
Proof.
  destruct (Clear_spec tf ltac:(lia)) as (tf1 & Hrun & _ & Hsz & _ & Hig & _ & C1 & C2). rewrite (bind_ret _ _ _ _ _ Hrun).
  assert (R1 : roomy (size tf) tf1) by (unfold roomy; rewrite C1, C2, Hig; Z.div_mod_to_equations; lia).
  assert (Hp : shapes (parse_tokens (before ++ t :: after) 0) tf1 (inl (size tf - 1))).
  { destruct (shapes_bind (parse_tokens before 0) (fun r => match r with inl pos' => parse_tokens (t :: after) pos' | inr e => mret (inr e) end)
      tf1 (inl (Z.of_nat (length ps))) (inl (size tf - 1))) as (tf2 & E & S2).
    - apply (parse_tokens_shapes before ps); [exact Hb | lia |]. eapply roomy_shape; [reflexivity | | exact R1]. lia.
    - intros tf2 S2. cbn [parse_tokens]. destruct t as [| c t]; [contradiction |]. cbn [parse_token]. rewrite Hc.
      assert (R2 : forall n, n <= size tf -> roomy n tf2) by (intros n Hle; exact (roomy_shape _ _ _ _ S2 Hle R1)).
      apply (shapes_bind _ _ _ (inl (Z.of_nat (length ps)))).
      + apply (shapes_bind _ _ _ tt); [| intros; apply shapes_ret].
        unfold SetClock. apply (shapes_bind _ _ _ tt); [eexists; split; [reflexivity | repeat split] |].
        intros tf3 S3. apply SetToUUT_shapes; [lia |]. eapply roomy_shape; [exact S3 | | exact (R2 (size tf) ltac:(lia))]. lia.
      + intros tf3 S3. replace (size tf - 1) with (Z.of_nat (length ps) + Z.of_nat (length qs)) by lia.
        apply parse_tokens_shapes; [exact Ha | lia |]. eapply roomy_shape; [exact S3 | | exact (R2 (size tf) ltac:(lia))]. lia.
    - exists tf2. rewrite parse_tokens_app. auto. }
  destruct Hp as (tf2 & E & (S1 & _)). exists tf2. unfold parseVector. rewrite (bind_ret _ _ _ _ _ E). unfold mbind, M_bind, gets.
  rewrite S1, Hsz, (proj2 (Z.eqb_neq (size tf - 1) (size tf))) by lia. reflexivity.
Qed.

Definition zero_zif : TestFile := MkTest "ZIF" 24 0 (NewFixedBitVec 24) (NewFixedBitVec 24) (NewFixedBitVec 24).

Lemma clock_vector_rejected_witness :
  exists tf', (Clear;; parseVector (["%0007"; "1"]%string ++ "C"%string :: ["V"; "G"; "L"; "L"; "L"; "L"]%string)) zero_zif =
    Ret (inr (EBits 24 23), tf').
Proof.
  destruct (vector_pins ["%0007"; "1"]%string) as [ps |] eqn:Hb; [| discriminate].
  destruct (vector_pins ["V"; "G"; "L"; "L"; "L"; "L"]%string) as [qs |] eqn:Ha; [| discriminate].
  apply (clock_vector_rejected zero_zif ["%0007"; "1"]%string ["V"; "G"; "L"; "L"; "L"; "L"]%string "C" ps qs Hb Ha eq_refl);
    [vm_compute in Ha, Hb; injection Ha as <-; injection Hb as <-; reflexivity | vm_compute; discriminate].
Defined.

(** ** Errors of the scanner *)

Definition lf : string := String (Ascii.ascii_of_nat 10) EmptyString.

Fixpoint one_line (s : string) : bool :=
  match s with EmptyString => true | String c s' => negb (Ascii.nat_of_ascii c =? 10)%nat && one_line s' end.

Lemma raw_lines_app s t : raw_lines (s +:+ lf +:+ t) = raw_lines s ++ raw_lines t.
Proof.
  induction s as [| c s IH]; [reflexivity |]. change (String c s +:+ lf +:+ t) with (String c (s +:+ lf +:+ t)). cbn [raw_lines].
  destruct (_ =? _)%nat; [rewrite IH; reflexivity |]. rewrite IH.
  destruct (raw_lines s) as [| w ws] eqn:E; [destruct s as [| c' s']; cbn in E; [discriminate |]; destruct (_ =? _)%nat; [discriminate |]; destruct (raw_lines s'); discriminate | reflexivity].
Qed.

Lemma raw_lines_long s t : one_line s = true -> exists w ws, raw_lines (s +:+ t) = (s +:+ w)%string :: ws.
Proof.
  induction s as [| c s IH]; intros Hs.
  - change ("" +:+ t)%string with t. destruct (raw_lines t) as [| w ws] eqn:E; [| exists w, ws; reflexivity].
    destruct t as [| c' t']; cbn in E; [discriminate |]. destruct (_ =? _)%nat; [discriminate |]. destruct (raw_lines t'); discriminate.
  - cbn [one_line] in Hs. apply andb_prop in Hs. destruct Hs as [Hc Hs]. apply negb_true_iff in Hc.
    change (String c s +:+ t)%string with (String c (s +:+ t)). cbn [raw_lines]. rewrite Hc. destruct (IH Hs) as (w & ws & ->).
    exists w, ws. reflexivity.
Qed.

(** Two endings that deliver nothing are the same to what comes before them. *)
Lemma deliver_end e1 e2 xs ys1 ys2 : ys1 <> [] -> ys2 <> [] -> deliver e1 ys1 = [] -> deliver e2 ys2 = [] ->
  deliver e1 (xs ++ ys1) = deliver e2 (xs ++ ys2).
Proof.
  intros N1 N2 D1 D2. induction xs as [| x xs IH]; cbn [app]; [congruence |]. cbn [deliver]. destruct (_ <=? _); [reflexivity |].
  rewrite IH. destruct (xs ++ ys1) as [| a l] eqn:E1; [destruct xs; [destruct (N1 E1) | discriminate] |].
  destruct (xs ++ ys2) as [| a' l'] eqn:E2; [destruct xs; [destruct (N2 E2) | discriminate] |]. reflexivity.
Qed.

(** The error of the scanner is lost.  A file with a line of 64K bytes or more, and a file
    of which reading fails at the start of a line, are processed as if they ended there:
    the result is that of the lines before, without an error. *)
Theorem scanner_error_lost {P : Type} `{Port P} (fuel : nat) (open : string -> option (string * option gerr))
    (long_file cut_file : string) (before long after : string) (e e' : option gerr)
    (Hl : one_line long = true) (Hn : MaxScanTokenSize <= Z.of_nat (String.length long))
    (Ho : open long_file = Some ((before +:+ lf +:+ long +:+ after)%string, e)) (Hc : open cut_file = Some ((before +:+ lf)%string, e')) (p : P) :
  DoVectorFile fuel open long_file p = DoVectorFile fuel open cut_file p.
Proof.
  unfold DoVectorFile. rewrite Ho, Hc.
  replace (scanner_lines (_, e)) with (scanner_lines ((before +:+ lf)%string, e')); [reflexivity |].
  unfold scanner_lines. cbn [fst snd]. replace (before +:+ lf)%string with (before +:+ lf +:+ "")%string by (rewrite (str_app_nil lf); reflexivity).
  rewrite !raw_lines_app. destruct (raw_lines_long long after Hl) as (w & ws & E). rewrite E. apply deliver_end; try discriminate; [reflexivity |].
  cbn [deliver]. rewrite (proj2 (Z.leb_le _ _)); [reflexivity |]. rewrite str_length_app. lia.
Qed.
