(* ===== verification/Lex.v ===== *)
(** * The lexers of the retired assembler and of yapl-0

    SAVE/asm/lexer.go and SAVE/yapl-0/lexer.go are one lexer with four
    differences: the comment character, the operators, the operator that is
    skipped, and the one that ends a label.  The class [LexLang] has them; the
    machine below is written over the class, and the instances are the two
    lexers.  [PBR] of pbr.go is part of the state: the bytes still to read, what
    follows them (end of file, or an I/O error at every further read), and the
    byte that was pushed back. *)

From S2P Require Import Prelude GoStr.

(** ** Characters *)

Definition SP : Z := 32.
Definition TAB : Z := 9.
Definition NL : Z := 10.
Definition COMMA : Z := 44.
Definition COLON : Z := 58.
Definition NEG : Z := 45.
Definition COMMENT : Z := 35.

Definition isWhiteSpaceChar (b : Z) : bool := (b =? SP) || (b =? TAB) || (b =? NL).
Definition isDigitChar (b : Z) : bool := (48 <=? b) && (b <=? 57).
Definition isHexLetter (b : Z) : bool := ((65 <=? b) && (b <=? 70)) || ((97 <=? b) && (b <=? 102)).
Definition isX (b : Z) : bool := (b =? 120) || (b =? 88).
Definition isQuoteChar (b : Z) : bool := b =? 34.

Definition isInitialSymbolChar (b : Z) : bool :=
  ((97 <=? b) && (b <=? 122)) || (b =? 46) || (b =? 95) || ((65 <=? b) && (b <=? 90)).

Definition isSymbolChar (b : Z) : bool :=
  ((97 <=? b) && (b <=? 122)) || ((48 <=? b) && (b <=? 57)) || (b =? 95) || ((65 <=? b) && (b <=? 90)).

Definition validNumber (num : list Z) : bool :=
  match num with
  | c :: x :: (d :: ds) =>
    if (c =? 48) && isX x then forallb (fun b => isDigitChar b || isHexLetter b) (d :: ds)
    else forallb isDigitChar num
  | _ => forallb isDigitChar num
  end.

(** What the two lexers do differently. *)
Class LexLang := {
  isComment : Z -> bool;       (* starts a comment between tokens *)
  isOperatorChar : Z -> bool;
  isSkipped : Z -> bool;       (* an operator that gives no token *)
  endsLabel : Z -> bool        (* an operator that makes a symbol a label *)
}.

#[export] Instance asm_lang : LexLang := {
  isComment := fun b => b =? COMMENT;
  isOperatorChar := fun b => (b =? COMMA) || (b =? COLON) || (b =? NEG);
  isSkipped := fun b => b =? COMMA;
  endsLabel := fun b => b =? COLON
}.

(** ** Tokens and states *)

Inductive lexerStateType :=
| stBetween | stInError | stInSymbol | stInString | stInNumber | stInOperator | stInComment | stEnd.

Inductive TokenKindType :=
| TkError | TkNewline | TkSymbol | TkLabel | TkString | TkNumber | TkOperator | TkEOF.

#[export] Instance lexerState_eq : EqDecision lexerStateType.
Proof. solve_decision. Defined.
#[export] Instance TokenKind_eq : EqDecision TokenKindType.
Proof. solve_decision. Defined.

Record Token := MkToken { tokenText : list Z; tokenKind : TokenKindType }.

#[export] Instance Token_eq : EqDecision Token.
Proof. solve_decision. Defined.

Definition eofToken : Token := MkToken (str "EOF") TkEOF.
Definition nlToken : Token := MkToken [NL] TkNewline.

Definition kindToString (k : TokenKindType) : string :=
  match k with
  | TkError => "TkError" | TkNewline => "TkNewline" | TkSymbol => "TkSymbol" | TkLabel => "TkLabel"
  | TkString => "TkString" | TkNumber => "TkNumber" | TkOperator => "TkOperator" | TkEOF => "TkEOF"
  end.

(** [func (t *Token) String() string] *)
Definition Token_String (t : Token) : list Z :=
  let s := if bool_decide (tokenText t = [NL]) then [92; 110] else tokenText t in
  str "{" ++ str (kindToString (tokenKind t)) ++ str " " ++ s ++ str "}".

Record Lexer := MkLexer {
  rest : list Z;                  (* bytes of the reader *)
  fails : option (list Z);        (* the error after them, if it is not end of file *)
  pb : Z;                         (* pushed back byte, or 0 *)
  lexerState : lexerStateType;
  pbToken : option Token
}.

Abbreviation L := (M Lexer).

Definition set_rest v lx := MkLexer v lx.(fails) lx.(pb) lx.(lexerState) lx.(pbToken).
Definition set_pb v lx := MkLexer lx.(rest) lx.(fails) v lx.(lexerState) lx.(pbToken).
Definition set_state v lx := MkLexer lx.(rest) lx.(fails) lx.(pb) v lx.(pbToken).
Definition set_pbToken v lx := MkLexer lx.(rest) lx.(fails) lx.(pb) lx.(lexerState) v.

(** [MakeStringLexer] and [MakeFileLexer] *)
Definition MakeLexer (body : list Z) (err : option (list Z)) : Lexer := MkLexer body err 0 stBetween None.

(** ** pbr.go *)

Inductive read := Byte (b : Z) | ReadEOF | ReadErr (msg : list Z).

Definition ReadByte : L read :=
  p ← gets pb;
  if negb (p =? 0) then modify (set_pb 0);; mret (Byte p)
  else
    r ← gets rest;
    match r with
    | b :: r' => modify (set_rest r');; mret (Byte b)
    | [] => e ← gets fails; mret (match e with None => ReadEOF | Some msg => ReadErr msg end)
    end.

Definition UnreadByte (b : Z) : L unit :=
  if b =? 0 then panic "PushbackByteReader: cannot pushback nul"
  else
    p ← gets pb;
    if negb (p =? 0) then panic "PushbackByteReader: too many pushbacks"
    else modify (set_pb b).

(** ** The machine *)

(** What one byte does: change the state and the accumulator, or return a token
    in a new state (after pushing the byte back, or not), or panic. *)
Inductive action :=
| Continue (st : lexerStateType) (acc : list Z)
| Return (st : lexerStateType) (t : Token) (unread : bool)
| Fault (why : string).

Definition err_token (msg : list Z) : Token := MkToken msg TkError.

Definition unexpected (b : Z) (where_ : string) : Token :=
  err_token (str "character 0x" ++ fmt_x2 b ++ str " (" ++ fmt_byte b ++ str ") unexpected" ++ str where_).

Section Machine.
Context `{LexLang}.

Definition lex_between (acc : list Z) (b : Z) : action :=
  if negb (Z.of_nat (length acc) =? 0) then Fault "token accumulator not empty between tokens"
  else if b =? NL then Return stBetween nlToken false
  else if isComment b then Continue stInComment acc
  else if isWhiteSpaceChar b then Continue stBetween acc
  else if isDigitChar b then Continue stInNumber (acc ++ [b])
  else if isInitialSymbolChar b then Continue stInSymbol (acc ++ [b])
  else if isQuoteChar b then Continue stInString acc
  else if isOperatorChar b then
    if isSkipped b then Continue stBetween acc
    else Return stBetween (MkToken [b] TkOperator) false
  else Return stInError (unexpected b " [1]") false.

Definition lex_symbol (acc : list Z) (b : Z) : action :=
  if Z.of_nat (length acc) =? 0 then Fault "token accumulator empty in symbol"
  else if isWhiteSpaceChar b || isOperatorChar b then
    if endsLabel b then Return stBetween (MkToken acc TkLabel) false
    else Return stBetween (MkToken acc TkSymbol) true
  else if isSymbolChar b then Continue stInSymbol (acc ++ [b])
  else Return stInError (unexpected b " [2]") false.

Definition lex_string (acc : list Z) (b : Z) : action :=
  if isQuoteChar b then Return stBetween (MkToken ([34] ++ acc ++ [34]) TkString) false
  else if b =? NL then Return stInError (err_token (str "newline in string")) false
  else Continue stInString (acc ++ [b]).

Definition lex_number (acc : list Z) (b : Z) : action :=
  if isDigitChar b || isHexLetter b || isX b then Continue stInNumber (acc ++ [b])
  else if isWhiteSpaceChar b || isOperatorChar b then
    if negb (validNumber acc) then Return stInError (err_token (str "invalid number " ++ acc)) true
    else Return stBetween (MkToken acc TkNumber) true
  else Return stInError (unexpected b " in number") false.

(** The switch on the lexer state. *)
Definition lex_byte (st : lexerStateType) (acc : list Z) (b : Z) : action :=
  if 128 <=? b then Return stInError (err_token (str "non-ASCII character 0x" ++ fmt_x2 b)) false
  else
    match st with
    | stInError | stInComment => if b =? NL then Return stBetween nlToken false else Continue st acc
    | stBetween => lex_between acc b
    | stInSymbol => lex_symbol acc b
    | stInString => lex_string acc b
    | stInNumber => lex_number acc b
    | stInOperator | stEnd => Continue st acc
    end.

Definition lex_fuel : string := "out of fuel".

(** The read loop. *)
Fixpoint lex_loop (fuel : nat) (acc : list Z) : L Token :=
  match fuel with
  | O => panic lex_fuel
  | S fuel' =>
    r ← ReadByte;
    match r with
    | ReadEOF => modify (set_state stEnd);; mret eofToken
    | ReadErr msg => modify (set_state stInError);; mret (err_token msg)
    | Byte b =>
      st ← gets lexerState;
      match lex_byte st acc b with
      | Continue st' acc' => modify (set_state st');; lex_loop fuel' acc'
      | Return st' t unread =>
        modify (set_state st');;
        (if (unread : bool) then UnreadByte b else mret tt);;
        mret t
      | Fault why => panic why
      end
    end
  end.

Definition internalGetToken : L Token :=
  st ← gets lexerState;
  if bool_decide (st = stEnd) then mret eofToken
  else
    p ← gets pbToken;
    match p with
    | Some t =>
      modify (set_pbToken None);;
      if negb (bool_decide (st = stBetween)) then
        modify (set_state stInError);;
        mret (err_token (str "internal error: pbToken but not between tokens"))
      else mret t
    | None =>
      r ← gets rest;
      lex_loop (S (S (length r))) []
    end.

(** [LexerDebug] is false. *)
Definition GetToken : L Token := internalGetToken.

(** The result is whether the error is nil. *)
Definition Unget (tk : Token) : L bool :=
  p ← gets pbToken;
  match p with
  | Some _ => modify (set_state stInError);; mret false
  | None =>
    st ← gets lexerState;
    if negb (bool_decide (st = stBetween)) then modify (set_state stInError);; mret false
    else modify (set_pbToken (Some tk));; mret true
  end.

End Machine.
