(* ===== verification/LexProps.v ===== *)
(** * The lexers: a list semantics

    [scan] is what the read loop does to a list of bytes, without the pushed back
    byte and the mutable reader; [GetToken_run] relates the two.  The class
    [LexLaws] has what the lexers rely on: the character classes that end a token
    are disjoint from those that continue one. *)

From S2P Require Import Prelude GoStr Lex.

Class LexLaws `(LexLang) : Prop := {
  op_ascii b : isOperatorChar b = true -> 0 < b < 128;
  op_no_word b : isOperatorChar b = true ->
    isSymbolChar b = false /\ isInitialSymbolChar b = false /\ isQuoteChar b = false /\ isWhiteSpaceChar b = false;
  comment_no_word b : isComment b = true ->
    isSymbolChar b = false /\ isInitialSymbolChar b = false /\ isQuoteChar b = false /\
    isOperatorChar b = false /\ isWhiteSpaceChar b = false;
  label_is_op b : endsLabel b = true -> isOperatorChar b = true /\ isSkipped b = false
}.

#[export] Instance asm_laws : LexLaws asm_lang.
Proof.
  split; cbn; intros b E;
    repeat (apply orb_prop in E; destruct E as [E | E]); apply Z.eqb_eq in E; subst b;
    unfold COMMA, COLON, NEG; repeat split; lia.
Qed.

(** ** Scanning a list *)

Inductive scanned :=
| STok (st : lexerStateType) (t : Token) (inp : list Z)
| SEnd
| SFault.

Section Scan.
Context `{LexLang}.

Fixpoint scan (st : lexerStateType) (acc inp : list Z) : scanned :=
  match inp with
  | [] => SEnd
  | b :: inp' =>
    match lex_byte st acc b with
    | Continue st' acc' => scan st' acc' inp'
    | Return st' t unread => STok st' t (if unread then inp else inp')
    | Fault _ => SFault
    end
  end.

(** The bytes that a lexer has still to look at. *)
Definition pending (lx : Lexer) : list Z := (if pb lx =? 0 then [] else [pb lx]) ++ rest lx.

Definition end_token (lx : Lexer) : Token :=
  match fails lx with None => eofToken | Some msg => err_token msg end.

Definition end_state (lx : Lexer) : lexerStateType :=
  match fails lx with None => stEnd | Some _ => stInError end.

(** The lexer after a token: only the bytes, the state and the token pushed back
    count. *)
Record at_ (lx : Lexer) (inp : list Z) (st : lexerStateType) (e : option (list Z)) : Prop := {
  at_pending : pending lx = inp;
  at_state : lexerState lx = st;
  at_fails : fails lx = e
}.

Lemma ReadByte_nil lx : pending lx = [] ->
  ReadByte lx = Ret (match fails lx with None => ReadEOF | Some msg => ReadErr msg end, lx).
Proof.
  unfold pending, ReadByte, mbind, M_bind, gets. destruct (Z.eqb_spec (pb lx) 0) as [E | E]; [| discriminate].
  cbn. intros ->. reflexivity.
Qed.

Lemma ReadByte_cons lx b inp : pending lx = b :: inp ->
  exists lx', ReadByte lx = Ret (Byte b, lx') /\ pb lx' = 0 /\ rest lx' = inp /\
    lexerState lx' = lexerState lx /\ fails lx' = fails lx /\ pbToken lx' = pbToken lx.
Proof.
  unfold pending, ReadByte, mbind, M_bind, gets. destruct (Z.eqb_spec (pb lx) 0) as [E | E]; cbn.
  - intros ->. eexists. split; [reflexivity |]. auto.
  - intros [= <- <-]. eexists. split; [reflexivity |]. auto.
Qed.

(** A state in which the loop pushes a byte back never holds a pushed back nul. *)
Lemma lex_byte_unread `{!LexLaws _} st acc b st' t : 0 <= b ->
  lex_byte st acc b = Return st' t true -> 0 < b < 128.
Proof.
  intros Hb. unfold lex_byte. case_if; [discriminate |].
  assert (Hs : isWhiteSpaceChar b || isOperatorChar b = true -> 0 < b < 128).
  { intros Ew. apply orb_prop in Ew. destruct Ew as [Ew | Ew]; [| apply op_ascii, Ew].
    unfold isWhiteSpaceChar, SP, TAB, NL in Ew.
    repeat (apply orb_prop in Ew; destruct Ew as [Ew | Ew]); apply Z.eqb_eq in Ew; lia. }
  destruct st; unfold lex_between, lex_symbol, lex_string, lex_number;
    repeat case_if; try discriminate; auto.
Qed.

Lemma lex_loop_scan `{!LexLaws _} fuel acc lx :
  Forall is_u8 (pending lx) -> (length (pending lx) < fuel)%nat ->
  match scan (lexerState lx) acc (pending lx) with
  | STok st' t inp' => exists lx', lex_loop fuel acc lx = Ret (t, lx') /\ at_ lx' inp' st' (fails lx) /\
                                   pbToken lx' = pbToken lx
  | SEnd => exists lx', lex_loop fuel acc lx = Ret (end_token lx, lx') /\
              at_ lx' [] (end_state lx) (fails lx) /\ pbToken lx' = pbToken lx
  | SFault => True
  end.
Proof.
  revert acc lx. induction fuel as [| fuel IH]; intros acc lx Hu Hf; [lia |].
  destruct (pending lx) as [| b inp] eqn:Hp; cbn [scan lex_loop]; unfold mbind, M_bind.
  - rewrite (ReadByte_nil lx Hp). unfold end_token, end_state, modify.
    destruct (fails lx) eqn:He; eexists; (split; [reflexivity |]); repeat split; auto.
  - destruct (ReadByte_cons lx b inp Hp) as (lx1 & Hr & Hpb & Hrest & Hst & Hfl & Hpt). rewrite Hr.
    apply Forall_cons_1 in Hu as [Hb Hu]. unfold gets. rewrite Hst.
    destruct (lex_byte (lexerState lx) acc b) as [st' acc' | st' t u | why] eqn:Ha; [| | exact I]; unfold modify.
    + assert (Hp1 : pending (set_state st' lx1) = inp) by (unfold pending; cbn; rewrite Hpb; exact Hrest).
      specialize (IH acc' (set_state st' lx1)). rewrite Hp1 in IH. cbn in Hf. specialize (IH Hu ltac:(lia)).
      cbn in IH. unfold end_token, end_state in *. cbn in IH. rewrite Hfl, Hpt in IH. exact IH.
    + destruct u; cbn.
      * pose proof (lex_byte_unread _ _ _ _ _ (proj1 Hb) Ha) as Hn. unfold UnreadByte, mbind, M_bind, gets.
        rewrite (proj2 (Z.eqb_neq b 0)) by lia. cbn. rewrite Hpb. cbn.
        eexists. split; [reflexivity |]. split; [split |]; cbn; auto.
        unfold pending. cbn. rewrite (proj2 (Z.eqb_neq b 0)) by lia. cbn. congruence.
      * eexists. split; [reflexivity |]. split; [split |]; cbn; auto. unfold pending. cbn. rewrite Hpb. exact Hrest.
Qed.

(** ** The states between two calls *)

Definition resting (st : lexerStateType) : Prop := st = stBetween \/ st = stInError \/ st = stEnd.

(** The accumulator is empty exactly where the code expects it to be. *)
Definition acc_ok (st : lexerStateType) (acc : list Z) : Prop :=
  match st with
  | stBetween | stInError | stInComment => acc = []
  | stInSymbol => acc <> []
  | _ => True
  end.

(** The state after a token: an error leaves the rest of its line to be
    skipped. *)
Definition after (k : TokenKindType) : lexerStateType :=
  if bool_decide (k = TkError) then stInError else stBetween.

Lemma after_resting k : resting (after k).
Proof. unfold after, resting. destruct (bool_decide (k = TkError)); auto. Qed.

(** A token before the end; there is one newline token. *)
Definition inner_token (t : Token) : Prop :=
  tokenKind t <> TkEOF /\ (tokenKind t = TkNewline -> t = nlToken).

Lemma acc_ok_snoc (acc : list Z) b : acc ++ [b] <> [].
Proof. destruct acc; discriminate. Qed.

Lemma lex_byte_ok st acc b :
  acc_ok st acc ->
  match lex_byte st acc b with
  | Continue st' acc' => acc_ok st' acc'
  | Return st' t _ => st' = after (tokenKind t) /\ inner_token t
  | Fault _ => False
  end.
Proof.
  intros Hok. unfold lex_byte. case_if; [split; [reflexivity | split; discriminate] |].
  destruct st; cbn in Hok; subst; unfold lex_between, lex_symbol, lex_string, lex_number; cbn;
    repeat case_if; cbn; try split; try split; auto using acc_ok_snoc; try discriminate; try congruence.
  all: try (destruct acc; [congruence | discriminate]).
Qed.

Lemma scan_ok st acc inp :
  acc_ok st acc ->
  match scan st acc inp with
  | STok st' t inp' => st' = after (tokenKind t) /\ inner_token t
  | SEnd => True
  | SFault => False
  end.
Proof.
  revert st acc. induction inp as [| b inp IH]; intros st acc Hok; [exact I |]. cbn [scan].
  pose proof (lex_byte_ok st acc b Hok) as Hb. destruct (lex_byte st acc b); [apply IH, Hb | exact Hb | exact Hb].
Qed.

(** A token uses up at least one byte: a byte is pushed back only after another
    one has been read. *)
Definition needs_one (st : lexerStateType) (acc : list Z) : Prop := (st = stInSymbol \/ st = stInNumber) -> acc <> [].

Lemma lex_byte_progress st acc b st' acc' :
  lex_byte st acc b = Continue st' acc' -> needs_one st acc -> needs_one st' acc'.
Proof.
  unfold lex_byte. case_if; [discriminate |]. unfold needs_one.
  destruct st; unfold lex_between, lex_symbol, lex_string, lex_number; repeat case_if; try discriminate;
    intros [= <- <-] Hn [Hs | Hs]; try discriminate; auto using acc_ok_snoc.
Qed.

Lemma lex_byte_unread_state st acc b st' t : lex_byte st acc b = Return st' t true -> st = stInSymbol \/ st = stInNumber.
Proof.
  unfold lex_byte. case_if; [discriminate |].
  destruct st; unfold lex_between, lex_symbol, lex_string, lex_number; repeat case_if; try discriminate; auto.
Qed.

Lemma scan_suffix st acc inp st' t inp' :
  scan st acc inp = STok st' t inp' -> exists used, inp = used ++ inp'.
Proof.
  revert st acc. induction inp as [| b inp IH]; intros st acc Hs; [discriminate |]. cbn [scan] in Hs.
  destruct (lex_byte st acc b) as [st1 acc1 | st1 t1 u |] eqn:Hb; [| | discriminate].
  - destruct (IH st1 acc1 Hs) as (used & ->). exists (b :: used). reflexivity.
  - injection Hs as <- <- <-. destruct u; [exists [] | exists [b]]; reflexivity.
Qed.

Lemma scan_progress st inp st' t inp' :
  st <> stInSymbol -> st <> stInNumber -> scan st [] inp = STok st' t inp' -> (length inp' < length inp)%nat.
Proof.
  intros H1 H2 Hs. destruct inp as [| b inp]; [discriminate |]. cbn [scan] in Hs.
  destruct (lex_byte st [] b) as [st1 acc1 | st1 t1 u |] eqn:Hb; [| | discriminate].
  - apply scan_suffix in Hs. destruct Hs as (used & ->). rewrite length_cons, length_app. lia.
  - destruct u; [apply lex_byte_unread_state in Hb; tauto |]. injection Hs as <- <- <-. cbn. lia.
Qed.

(** ** Calls *)

(** What holds of a lexer between two calls. *)
Record lexer_ok (lx : Lexer) : Prop := {
  ok_state : resting (lexerState lx);
  ok_bytes : Forall is_u8 (pending lx);
  ok_token : pbToken lx <> None -> lexerState lx = stBetween
}.

Lemma resting_acc st : resting st -> st <> stEnd -> acc_ok st [].
Proof. intros [-> | [-> | ->]]; cbn; auto; congruence. Qed.

Lemma pending_len lx : (length (pending lx) < S (S (length (rest lx))))%nat.
Proof. unfold pending. destruct (pb lx =? 0); cbn; lia. Qed.

Lemma at_ok lx inp st e :
  at_ lx inp st e -> pbToken lx = None -> resting st -> Forall is_u8 inp -> lexer_ok lx.
Proof. intros [<- <- <-] Hp Hs Hu. split; auto. congruence. Qed.

(** A call that reads: the token that [scan] finds, and a byte fewer. *)
Lemma GetToken_run `{!LexLaws _} lx :
  lexer_ok lx -> lexerState lx <> stEnd -> pbToken lx = None ->
  exists t lx', GetToken lx = Ret (t, lx') /\ lexer_ok lx' /\ pbToken lx' = None /\ fails lx' = fails lx /\
    match scan (lexerState lx) [] (pending lx) with
    | STok st' t' inp' => t = t' /\ at_ lx' inp' st' (fails lx) /\ (length inp' < length (pending lx))%nat /\
        st' = after (tokenKind t) /\ inner_token t
    | SEnd => t = end_token lx /\ at_ lx' [] (end_state lx) (fails lx)
    | SFault => False
    end.
Proof.
  intros [Hst Hu Ht] Hne Hpt. unfold GetToken, internalGetToken, mbind, M_bind, gets.
  rewrite bool_decide_false by exact Hne. rewrite Hpt.
  pose proof (lex_loop_scan (S (S (length (rest lx)))) [] lx Hu (pending_len lx)) as Hr.
  pose proof (scan_ok (lexerState lx) [] (pending lx) (resting_acc _ Hst Hne)) as Hok.
  destruct (scan (lexerState lx) [] (pending lx)) as [st' t inp' | |] eqn:Hs; [| | destruct Hok].
  - destruct Hr as (lx' & Hr & Ha & Hp). exists t, lx'. split; [exact Hr |].
    destruct (scan_suffix _ _ _ _ _ _ Hs) as (used & Hi). pose proof Hu as Hu'. rewrite Hi in Hu'.
    apply Forall_app in Hu' as [_ Hu']. destruct Hok as (He & Hk).
    split; [apply (at_ok lx' inp' st' (fails lx) Ha); [congruence | subst; apply after_resting | exact Hu'] |].
    split; [congruence |]. split; [apply Ha |]. split; [reflexivity |]. split; [exact Ha |].
    split; [| split; assumption].
    apply (scan_progress (lexerState lx) _ st' t); [| | exact Hs]; intros E; rewrite E in Hst;
      destruct Hst as [? | [? | ?]]; discriminate.
  - destruct Hr as (lx' & Hr & Ha & Hp). exists (end_token lx), lx'. split; [exact Hr |].
    split; [apply (at_ok lx' [] (end_state lx) (fails lx) Ha); [congruence | | constructor] |].
    { unfold resting, end_state. destruct (fails lx); auto. }
    split; [congruence |]. split; [apply Ha |]. split; [reflexivity | exact Ha].
Qed.

Lemma GetToken_pushed lx t :
  lexer_ok lx -> pbToken lx = Some t -> GetToken lx = Ret (t, set_pbToken None lx).
Proof.
  intros [Hst _ Ht] Hp. assert (Hb : lexerState lx = stBetween) by (apply Ht; congruence).
  unfold GetToken, internalGetToken, mbind, M_bind, gets, modify. rewrite Hb, bool_decide_false by discriminate.
  rewrite Hp. reflexivity.
Qed.

Lemma GetToken_end lx : lexerState lx = stEnd -> GetToken lx = Ret (eofToken, lx).
Proof. intros E. unfold GetToken, internalGetToken, mbind, M_bind, gets. rewrite E. reflexivity. Qed.

End Scan.
