(* ===== verification/LexGrammar.v ===== *)
(** * The lexical grammar

    [source ts inp]: the bytes [inp] spell the tokens [ts].  The grammar of the
    comment on [GetToken] in lexer.go, without the order in which the machine
    tries the character classes; [scan_source] shows that the machine reads
    every text of the grammar as its tokens. *)

From S2P Require Import Prelude GoStr Lex LexProps.

Section Grammar.
Context `{LexLang} `{!LexLaws _}.

(** Bytes between tokens that give no token. *)
Definition isBlank (b : Z) : bool := (b =? SP) || (b =? TAB) || (isOperatorChar b && isSkipped b).

Definition is_word (w : list Z) : Prop :=
  exists c cs, w = c :: cs /\ isInitialSymbolChar c = true /\ Forall (fun b => isSymbolChar b = true) cs.

Definition is_numeral (w : list Z) : Prop :=
  exists c cs, w = c :: cs /\ isDigitChar c = true /\
    Forall (fun b => isDigitChar b || isHexLetter b || isX b = true) cs /\ validNumber w = true.

Definition in_string (b : Z) : Prop := 0 <= b < 128 /\ isQuoteChar b = false /\ b <> NL.

Inductive spells : Token -> list Z -> Prop :=
| sp_symbol w : is_word w -> spells (MkToken w TkSymbol) w
| sp_label w k : is_word w -> endsLabel k = true -> spells (MkToken w TkLabel) (w ++ [k])
| sp_number w : is_numeral w -> spells (MkToken w TkNumber) w
| sp_string body : Forall in_string body ->
    spells (MkToken ([34] ++ body ++ [34]) TkString) ([34] ++ body ++ [34])
| sp_operator b : isOperatorChar b = true -> isSkipped b = false -> spells (MkToken [b] TkOperator) [b]
| sp_newline : spells nlToken [NL].

(** A symbol or a number ends where a blank or an operator starts. *)
Definition delimited (k : TokenKindType) (inp : list Z) : Prop :=
  match k with
  | TkSymbol => exists d inp', inp = d :: inp' /\ isWhiteSpaceChar d || isOperatorChar d = true /\ endsLabel d = false
  | TkNumber => exists d inp', inp = d :: inp' /\ isWhiteSpaceChar d || isOperatorChar d = true
  | _ => True
  end.

Inductive source : list Token -> list Z -> Prop :=
| src_nil : source [] []
| src_blank b ts inp : isBlank b = true -> source ts inp -> source ts (b :: inp)
| src_comment c body ts inp :
    isComment c = true -> 0 <= c < 128 -> Forall (fun b => 0 <= b < 128 /\ b <> NL) body ->
    source ts inp -> source (nlToken :: ts) (c :: body ++ NL :: inp)
| src_token t txt ts inp :
    spells t txt -> delimited (tokenKind t) inp -> source ts inp -> source (t :: ts) (txt ++ inp).

(** ** Character classes *)

Ltac char_facts :=
  unfold isWhiteSpaceChar, isDigitChar, isHexLetter, isX, isQuoteChar, isInitialSymbolChar, isSymbolChar,
    SP, TAB, NL in *.

Ltac split_class H := repeat (apply orb_prop in H; destruct H as [H | H]); bool_facts.

Lemma symbol_char_facts b : isSymbolChar b = true -> 0 <= b < 128 /\ isWhiteSpaceChar b = false.
Proof. intros E. char_facts. split; [split_class E; lia |]. split_class E; repeat (apply orb_false_intro); lia. Qed.

Lemma initial_char_facts b : isInitialSymbolChar b = true ->
  0 <= b < 128 /\ isWhiteSpaceChar b = false /\ isDigitChar b = false /\ b <> NL.
Proof.
  intros E. char_facts. split_class E; (split; [lia |]);
    (split; [repeat (apply orb_false_intro); lia |]); (split; [lia | lia]).
Qed.

Lemma digit_char_facts b : isDigitChar b = true ->
  0 <= b < 128 /\ isWhiteSpaceChar b = false /\ b <> NL /\ isSymbolChar b = true.
Proof.
  intros E. char_facts. bool_facts. split; [lia |].
  split; [repeat (apply orb_false_intro); lia |]. split; [lia |].
  rewrite (proj2 (Z.leb_le 48 b)), (proj2 (Z.leb_le b 57)), orb_true_r by lia. reflexivity.
Qed.

Lemma number_char_symbol b : isDigitChar b || isHexLetter b || isX b = true -> isSymbolChar b = true.
Proof.
  intros E. char_facts. split_class E;
    repeat match goal with
    | |- (_ || _)%bool = true => apply orb_true_iff
    | |- _ \/ _ => first [left; lia | right]
    end; lia.
Qed.

Lemma op_word b : isSymbolChar b = true -> isOperatorChar b = false.
Proof. intros E. destruct (isOperatorChar b) eqn:Eo; [| reflexivity]. destruct (op_no_word b Eo). congruence. Qed.

Lemma op_initial b : isInitialSymbolChar b = true -> isOperatorChar b = false /\ isComment b = false.
Proof.
  intros E. destruct (isOperatorChar b) eqn:Eo; [destruct (op_no_word b Eo) as (_ & ? & _); congruence |].
  destruct (isComment b) eqn:Ec; [destruct (comment_no_word b Ec) as (_ & ? & _); congruence | auto].
Qed.

Lemma comment_digit b : isSymbolChar b = true -> isComment b = false.
Proof. intros E. destruct (isComment b) eqn:Ec; [destruct (comment_no_word b Ec); congruence | reflexivity]. Qed.

(** ** One token *)

(** Tests that the hypotheses decide, one after the other. *)
Ltac decided :=
  repeat match goal with
  | Hb : ?e = true |- context [?e] => rewrite Hb
  | Hb : ?e = false |- context [?e] => rewrite Hb
  end.

Ltac ascii_byte := rewrite (proj2 (Z.leb_gt 128 _)) by lia.

Lemma delimiter_ascii d : isWhiteSpaceChar d || isOperatorChar d = true ->
  0 < d < 128 /\ isSymbolChar d = false.
Proof.
  intros E. apply orb_prop in E. destruct E as [E | E]; [| split; [apply op_ascii, E | apply op_no_word, E]].
  char_facts. split_class E; subst; split; (lia || reflexivity).
Qed.

Lemma scan_symbol w acc inp : acc <> [] -> Forall (fun b => isSymbolChar b = true) w ->
  scan stInSymbol acc (w ++ inp) = scan stInSymbol (acc ++ w) inp.
Proof.
  intros Ha Hw. revert acc Ha. induction Hw as [| b w Hb _ IH]; intros acc Ha; [rewrite app_nil_r; reflexivity |].
  cbn [scan app]. unfold lex_byte, lex_symbol. destruct (symbol_char_facts b Hb) as [Hr Hw']. ascii_byte.
  rewrite (op_word b Hb). rewrite (proj2 (Z.eqb_neq _ _)) by (destruct acc; cbn; [congruence | lia]).
  decided. cbn. rewrite IH by apply acc_ok_snoc. rewrite <- app_assoc. reflexivity.
Qed.

Lemma scan_word w inp : is_word w -> scan stBetween [] (w ++ inp) = scan stInSymbol w inp.
Proof.
  intros (c & cs & -> & Hc & Hcs). cbn [scan app]. unfold lex_byte, lex_between.
  destruct (initial_char_facts c Hc) as (Hr & Hw & Hd & Hn). destruct (op_initial c Hc) as [Ho Hm]. ascii_byte.
  rewrite (proj2 (Z.eqb_neq c NL) Hn). cbn. decided. apply (scan_symbol cs [c]); [discriminate | exact Hcs].
Qed.

Lemma scan_number w acc inp : Forall (fun b => isDigitChar b || isHexLetter b || isX b = true) w ->
  scan stInNumber acc (w ++ inp) = scan stInNumber (acc ++ w) inp.
Proof.
  intros Hw. revert acc. induction Hw as [| b w Hb _ IH]; intros acc; [rewrite app_nil_r; reflexivity |].
  cbn [scan app]. unfold lex_byte, lex_number. destruct (symbol_char_facts b (number_char_symbol b Hb)) as [Hr _].
  ascii_byte. decided. cbn. rewrite IH, <- app_assoc. reflexivity.
Qed.

Lemma scan_numeral w inp : is_numeral w -> scan stBetween [] (w ++ inp) = scan stInNumber w inp.
Proof.
  intros (c & cs & -> & Hc & Hcs & _). cbn [scan app]. unfold lex_byte, lex_between.
  destruct (digit_char_facts c Hc) as (Hr & Hw & Hn & Hs). ascii_byte.
  rewrite (proj2 (Z.eqb_neq c NL) Hn), (comment_digit c Hs). cbn. decided. apply (scan_number cs [c]), Hcs.
Qed.

Lemma scan_body body acc inp : Forall in_string body ->
  scan stInString acc (body ++ 34 :: inp) = STok stBetween (MkToken ([34] ++ (acc ++ body) ++ [34]) TkString) inp.
Proof.
  intros Hw. revert acc. induction Hw as [| b w (Hr & Hq & Hn) _ IH]; intros acc; [rewrite app_nil_r; reflexivity |].
  cbn [scan app]. unfold lex_byte, lex_string. ascii_byte. rewrite Hq, (proj2 (Z.eqb_neq b NL) Hn).
  rewrite IH, <- (app_assoc acc). reflexivity.
Qed.

Lemma scan_comment body inp : Forall (fun b => 0 <= b < 128 /\ b <> NL) body ->
  scan stInComment [] (body ++ NL :: inp) = STok stBetween nlToken inp.
Proof.
  intros Hw. induction Hw as [| b w (Hr & Hn) _ IH]; [reflexivity |].
  cbn [scan app]. unfold lex_byte. ascii_byte. rewrite (proj2 (Z.eqb_neq b NL) Hn). exact IH.
Qed.

Lemma operator_between b inp : isOperatorChar b = true ->
  scan stBetween [] (b :: inp) =
    if isSkipped b then scan stBetween [] inp else STok stBetween (MkToken [b] TkOperator) inp.
Proof.
  intros Ho. pose proof (op_ascii b Ho) as Hr. destruct (op_no_word b Ho) as (Hs & Hi & Hq & Hw).
  cbn [scan]. unfold lex_byte, lex_between. ascii_byte.
  assert (Hn : (b =? NL) = false) by (char_facts; apply orb_false_iff in Hw; apply Hw). rewrite Hn. cbn.
  assert (Hc : isComment b = false).
  { destruct (isComment b) eqn:E; [destruct (comment_no_word b E) as (_ & _ & _ & ? & _); congruence | reflexivity]. }
  assert (Hd : isDigitChar b = false).
  { destruct (isDigitChar b) eqn:E; [destruct (digit_char_facts b E) as (_ & _ & _ & ?); congruence | reflexivity]. }
  rewrite Hc, Hw, Hd, Hi, Hq, Ho. destruct (isSkipped b); reflexivity.
Qed.

Lemma scan_blank b inp : isBlank b = true -> scan stBetween [] (b :: inp) = scan stBetween [] inp.
Proof.
  unfold isBlank. intros E. apply orb_prop in E. destruct E as [E | E].
  - apply orb_prop in E. destruct E as [E | E]; apply Z.eqb_eq in E; subst b; cbn [scan];
      unfold lex_byte, lex_between; cbn.
    all: match goal with |- context [isComment ?c] => destruct (isComment c) eqn:Ec end; [| reflexivity].
    all: destruct (comment_no_word _ Ec) as (_ & _ & _ & _ & ?); discriminate.
  - apply andb_prop in E. destruct E as [Eo Es]. rewrite (operator_between b inp Eo), Es. reflexivity.
Qed.

Lemma scan_token t txt inp : spells t txt -> delimited (tokenKind t) inp ->
  scan stBetween [] (txt ++ inp) = STok stBetween t inp.
Proof.
  intros [w Hw | w k Hw Hk | w Hw | body Hb | b Ho Hs |] Hd; cbn [tokenKind] in Hd.
  - destruct Hd as (d & inp' & -> & Hd & Hl). rewrite (scan_word w _ Hw). cbn [scan].
    unfold lex_byte, lex_symbol. destruct (delimiter_ascii d Hd). ascii_byte. destruct Hw as (c & cs & -> & _).
    cbn [length]. rewrite (proj2 (Z.eqb_neq _ _)) by lia. rewrite Hd, Hl. reflexivity.
  - rewrite <- app_assoc, (scan_word w _ Hw). cbn [scan app]. destruct (label_is_op k Hk) as [Ho _].
    unfold lex_byte, lex_symbol. pose proof (op_ascii k Ho). ascii_byte. destruct Hw as (c & cs & -> & _).
    cbn [length]. rewrite (proj2 (Z.eqb_neq _ _)) by lia. rewrite Ho, orb_true_r, Hk. reflexivity.
  - destruct Hd as (d & inp' & -> & Hd). rewrite (scan_numeral w _ Hw). cbn [scan].
    destruct (delimiter_ascii d Hd) as [Hr Hs]. unfold lex_byte, lex_number. ascii_byte.
    destruct (isDigitChar d || isHexLetter d || isX d) eqn:Hn; [apply number_char_symbol in Hn; congruence |].
    rewrite Hd. destruct Hw as (c & cs & -> & _ & _ & Hv). rewrite Hv. reflexivity.
  - rewrite <- app_assoc. cbn [app scan]. unfold lex_byte, lex_between. cbn [length].
    assert (Hc : isComment 34 = false).
    { destruct (isComment 34) eqn:E; [destruct (comment_no_word _ E) as (_ & _ & ? & _); discriminate | reflexivity]. }
    cbn. rewrite Hc. rewrite <- app_assoc. cbn. apply (scan_body body [] inp Hb).
  - cbn [app]. rewrite (operator_between b inp Ho), Hs. reflexivity.
  - reflexivity.
Qed.

(** ** The whole text *)

(** [reads ts inp]: [scan] finds the tokens [ts] in [inp] and then its end, and
    is between tokens all the time. *)
Fixpoint scans (ts : list Token) (inp : list Z) : Prop :=
  match ts with
  | [] => scan stBetween [] inp = SEnd
  | t :: ts' => exists inp', scan stBetween [] inp = STok stBetween t inp' /\ scans ts' inp'
  end.

Lemma scans_ext ts inp inp' : scan stBetween [] inp = scan stBetween [] inp' -> scans ts inp' -> scans ts inp.
Proof. intros E. destruct ts; cbn; rewrite E; auto. Qed.

Lemma scan_source ts inp : source ts inp -> scans ts inp.
Proof.
  induction 1 as [| b ts inp Hb _ IH | c body ts inp Hc Hr Hbody _ IH | t txt ts inp Hs Hd _ IH].
  - reflexivity.
  - apply (scans_ext ts _ inp); [apply scan_blank, Hb | exact IH].
  - exists inp. split; [| exact IH]. cbn [scan]. unfold lex_byte, lex_between. ascii_byte.
    destruct (comment_no_word c Hc) as (_ & _ & _ & _ & Hw).
    assert (Hn : (c =? NL) = false) by (char_facts; apply orb_false_iff in Hw; apply Hw).
    rewrite Hn, Hc. cbn. apply scan_comment, Hbody.
  - exists inp. split; [apply scan_token; assumption | exact IH].
Qed.

(** ** Reading all the tokens *)

Fixpoint read_tokens (fuel : nat) : L (list Token) :=
  match fuel with
  | O => panic lex_fuel
  | S fuel' =>
    t ← GetToken;
    if bool_decide (tokenKind t = TkEOF) then mret [t]
    else ts ← read_tokens fuel'; mret (t :: ts)
  end.

Lemma read_scans ts : forall fuel lx,
  (length ts < fuel)%nat -> lexer_ok lx -> lexerState lx = stBetween -> pbToken lx = None -> fails lx = None ->
  scans ts (pending lx) -> exists lx', read_tokens fuel lx = Ret (ts ++ [eofToken], lx') /\ lexerState lx' = stEnd.
Proof.
  induction ts as [| t ts IH]; intros [| fuel] lx Hf Hok Hst Hpt Hfl Hs; cbn [length] in Hf; try lia;
    cbn [read_tokens scans] in *; unfold mbind, M_bind;
    destruct (GetToken_run lx Hok ltac:(congruence) Hpt) as (t' & lx' & Hr & Hok' & Hpt' & Hfl' & Hm); rewrite Hr;
    rewrite Hst in Hm.
  - rewrite Hs in Hm. destruct Hm as [-> Ha]. unfold end_token, end_state in *. rewrite Hfl in *. cbn.
    exists lx'. split; [reflexivity | apply Ha].
  - destruct Hs as (inp' & Hs & Hss). rewrite Hs in Hm. destruct Hm as (-> & Ha & _ & _ & Hne).
    rewrite bool_decide_false by apply Hne.
    destruct (IH fuel lx') as (lx2 & Hr2 & He); [lia | exact Hok' | apply Ha | exact Hpt' | congruence | |].
    + rewrite (at_pending _ _ _ _ Ha). exact Hss.
    + rewrite Hr2. cbn. exists lx2. auto.
Qed.

(** Every text has a finite list of tokens. *)
Lemma read_all fuel : forall lx,
  (length (pending lx) < fuel)%nat -> lexer_ok lx -> pbToken lx = None -> fails lx = None ->
  exists ts lx', read_tokens fuel lx = Ret (ts ++ [eofToken], lx') /\ lexerState lx' = stEnd /\
    (length ts <= length (pending lx))%nat /\ Forall inner_token ts.
Proof.
  induction fuel as [| fuel IH]; intros lx Hf Hok Hpt Hfl; [lia |]. cbn [read_tokens]. unfold mbind, M_bind.
  destruct (decide (lexerState lx = stEnd)) as [He | He].
  - rewrite (GetToken_end lx He). exists [], lx. cbn. repeat split; auto; lia.
  - destruct (GetToken_run lx Hok He Hpt) as (t & lx' & Hr & Hok' & Hpt' & Hfl' & Hm). rewrite Hr.
    destruct (scan (lexerState lx) [] (pending lx)) as [st' t' inp' | |]; [| | destruct Hm].
    + destruct Hm as (<- & Ha & Hl & _ & Hne). rewrite bool_decide_false by apply Hne.
      destruct (IH lx') as (ts & lx2 & Hr2 & He2 & Hl2 & Hk);
        [rewrite (at_pending _ _ _ _ Ha); lia | exact Hok' | exact Hpt' | congruence |].
      rewrite (at_pending _ _ _ _ Ha) in Hl2. rewrite Hr2. exists (t :: ts), lx2. cbn. repeat split; auto; lia.
    + destruct Hm as [-> Ha]. unfold end_token, end_state in *. rewrite Hfl in *. cbn.
      exists [], lx'. cbn. repeat split; auto; [apply Ha | lia].
Qed.

Lemma MakeLexer_ok body err : Forall is_u8 body -> lexer_ok (MakeLexer body err).
Proof. intros Hu. split; cbn; [left; reflexivity | exact Hu | congruence]. Qed.

End Grammar.
