(* ===== verification/Asm.v ===== *)
(** * The retired assembler

    SAVE/asm: the table of mnemonics (asm.go), the symbol table (sym.go), the
    parser (parser.go) over the lexer of [Lex], and [Generate], which is a stub
    (generator.go).  The state of a parse is the context of parser.go and the
    lexer; what [report] prints is a list of texts in the context.  The debug
    output is not modelled. *)

From S2P Require Import Prelude Text GoStr Lex.

(** ** asm.go *)

(** A machine instruction is its four parts: key, rA, rB, rC. *)
Abbreviation MachineInstruction := (list Z).

Definition zero_instr : MachineInstruction := [0; 0; 0; 0].

Definition Key : Z := 0.
Definition Ra : Z := 1.
Definition Rb : Z := 2.
Definition Rc : Z := 3.
Definition IsValue : Z := 0x8000.

Record KeyEntry := MkEntry { name : list Z; opcode : Z; signature : Z }.

Definition SeNone : Z := 0.
Definition SeReg : Z := 1.
Definition SeImm6 : Z := 2.
Definition SeImm7 : Z := 3.
Definition SeImm10 : Z := 4.
Definition SeVal16 : Z := 5.
Definition SeSym : Z := 6.
Definition SeString : Z := 7.

Definition sigFor (ra rb rc : Z) : Z :=
  u16 (Z.lor (Z.lor (u16 (Z.shiftl (Z.land rc 0xF) (4 * Rc))) (u16 (Z.shiftl (Z.land rb 0xF) (4 * Rb))))
             (u16 (Z.shiftl (Z.land ra 0xF) (4 * Ra)))).

Definition getSig (value whichElement : Z) : Z :=
  Z.land (Z.shiftr value (Z.land whichElement 0x3 * 4)) 0xF.

Definition numOperands (signature : Z) : Z :=
  if signature =? 0 then 0
  else if signature <? 0x100 then 1
  else if signature <? 0x1000 then 2
  else 3.

Definition entry (n : string) (op s : Z) : KeyEntry := MkEntry (str n) op s.

Definition KeyTable : list KeyEntry := [
  entry "ldw" 0x0000 (sigFor SeReg SeReg SeImm7);
  entry "ldb" 0x2000 (sigFor SeReg SeReg SeImm7);
  entry "stw" 0x4000 (sigFor SeReg SeReg SeImm7);
  entry "stb" 0x6000 (sigFor SeReg SeReg SeImm7);
  entry "beq" 0x8000 (sigFor SeReg SeReg SeImm7);
  entry "adi" 0xA000 (sigFor SeReg SeReg SeImm7);
  entry "lui" 0xC000 (sigFor SeReg SeImm10 SeNone);
  entry "jlr" 0xE000 (sigFor SeReg SeReg SeImm6);

  entry "add" 0xF000 (sigFor SeReg SeReg SeReg);
  entry "adc" 0xF200 (sigFor SeReg SeReg SeReg);
  entry "sub" 0xF400 (sigFor SeReg SeReg SeReg);
  entry "sbb" 0xF600 (sigFor SeReg SeReg SeReg);
  entry "bic" 0xF800 (sigFor SeReg SeReg SeReg);
  entry "or" 0xFA00 (sigFor SeReg SeReg SeReg);
  entry "xor" 0xFC00 (sigFor SeReg SeReg SeReg);

  entry "ior" 0xFE00 (sigFor SeReg SeReg SeNone);
  entry "iow" 0xFE40 (sigFor SeReg SeReg SeNone);
  entry "FE8" 0xFE80 (sigFor SeReg SeReg SeNone);
  entry "FEC" 0xFEC0 (sigFor SeReg SeReg SeNone);
  entry "FF0" 0xFF00 (sigFor SeReg SeReg SeNone);
  entry "FF4" 0xFF40 (sigFor SeReg SeReg SeNone);
  entry "sys" 0xFF80 (sigFor SeReg SeReg SeNone);

  entry "not" 0xFFC0 (sigFor SeReg SeNone SeNone);
  entry "neg" 0xFFC8 (sigFor SeReg SeNone SeNone);
  entry "swb" 0xFFD0 (sigFor SeReg SeNone SeNone);
  entry "sxt" 0xFFD8 (sigFor SeReg SeNone SeNone);
  entry "lsr" 0xFFE0 (sigFor SeReg SeNone SeNone);
  entry "lsl" 0xFFE8 (sigFor SeReg SeNone SeNone);
  entry "asr" 0xFFF0 (sigFor SeReg SeNone SeNone);

  entry "src" 0xFFF8 (sigFor SeNone SeNone SeNone);
  entry "FF9" 0xFFF9 (sigFor SeNone SeNone SeNone);
  entry "FFA" 0xFFFA (sigFor SeNone SeNone SeNone);
  entry "FFB" 0xFFFB (sigFor SeNone SeNone SeNone);
  entry "FFC" 0xFFFC (sigFor SeNone SeNone SeNone);
  entry "brk" 0xFFFD (sigFor SeNone SeNone SeNone);
  entry "hlt" 0xFFFE (sigFor SeNone SeNone SeNone);
  entry "die" 0xFFFF (sigFor SeNone SeNone SeNone);

  entry "lli" 0xA000 (sigFor SeReg SeImm6 SeNone);
  entry "nop" 0xA000 (sigFor SeNone SeNone SeNone);

  entry "ldi" 0xFFFF (sigFor SeReg SeVal16 SeNone);
  entry ".align" 0xFFFF (sigFor SeVal16 SeNone SeNone);
  entry ".byte" 0xFFFF (sigFor SeVal16 SeNone SeNone);
  entry ".word" 0xFFFF (sigFor SeVal16 SeNone SeNone);
  entry ".space" 0xFFFF (sigFor SeVal16 SeNone SeNone);
  entry ".string" 0xFFFF (sigFor SeString SeNone SeNone);
  entry ".set" 0xFFFF (sigFor SeSym SeVal16 SeNone)
].

(** ** sym.go *)

Definition MaxSymbols : Z := 0x7FFE.
Definition NoValue : Z := 0x7FFF.
Definition NoSymbol : Z := 0x7FFF.
Definition symDefined : Z := 0x8000.
Definition symNegated : Z := 0x4000.

Record symbolEntry := MkSymbol { flags : Z; value : Z }.

Record SymbolTable := MkSymtab { indexes : gmap (list Z) Z; entries : list symbolEntry }.

(** [internalCreateSymbol]: an index, or [None] when the table is full. *)
Definition internalCreateSymbol (st : SymbolTable) (n : list Z) (fl v : Z) : option Z * SymbolTable :=
  if Z.of_nat (length (entries st)) =? MaxSymbols then (None, st)
  else
    let index := u16 (Z.of_nat (length (entries st))) in
    (Some index, MkSymtab (<[n := index]> (indexes st)) (entries st ++ [MkSymbol fl v])).

(** [st.entries[index]] *)
Definition sym_entry (st : SymbolTable) (index : Z) : option symbolEntry := entries st !! Z.to_nat index.

(** [Define]: the error is [None].  The entry of a symbol that was used before is
    a copy, so setting its flag changes nothing. *)
Definition Define (st : SymbolTable) (n : list Z) (v : Z) : res (option Z * SymbolTable) :=
  match indexes st !! n with
  | Some index =>
    match sym_entry st index with
    | None => Panic index_panic
    | Some e =>
      if negb (Z.land (flags e) symDefined =? 0) then Ret (None, st) else Ret (Some index, st)
    end
  | None => Ret (internalCreateSymbol st n symDefined v)
  end.

Definition Use (st : SymbolTable) (n : list Z) : option Z * SymbolTable :=
  match indexes st !! n with
  | Some index => (Some index, st)
  | None => internalCreateSymbol st n 0 NoValue
  end.

(** [Get]: the value and the index of a defined symbol. *)
Definition Get (st : SymbolTable) (n : list Z) : res (option (Z * Z)) :=
  match indexes st !! n with
  | None => Ret None
  | Some index =>
    match sym_entry st index with
    | None => Panic index_panic
    | Some e => if Z.land (flags e) symDefined =? 0 then Ret None else Ret (Some (value e, index))
    end
  end.

Definition Index (st : SymbolTable) (index : Z) : res Z :=
  match sym_entry st index with None => Panic index_panic | Some e => Ret (value e) end.

Definition Negate (st : SymbolTable) (index : Z) : res SymbolTable :=
  match sym_entry st index with
  | None => Panic index_panic
  | Some e =>
    Ret (MkSymtab (indexes st)
           (<[Z.to_nat index := MkSymbol (Z.lor (flags e) symNegated) (value e)]> (entries st)))
  end.

Definition add_registers (st : SymbolTable) : SymbolTable :=
  fold_left (fun st i => (internalCreateSymbol st [114; 48 + i] symDefined i).2) (seqZ 0 8) st.

Definition add_keys (st : SymbolTable) : SymbolTable :=
  fold_left (fun st k => (internalCreateSymbol st (name k) symDefined (signature k)).2) KeyTable st.

Definition MakeSymbolTable : SymbolTable := add_keys (add_registers (MkSymtab ∅ [])).

(** ** parser.go *)

Inductive pstate := StError | StBetweenLines | StNeedKey | StNeedExpression | StNeedNewline.

#[export] Instance pstate_eq : EqDecision pstate.
Proof. solve_decision. Defined.

Record parserContext := MkContext {
  instructions : list MachineInstruction;
  symtab : SymbolTable;
  state : pstate;
  srcLine : Z;
  errorCount : Z;
  dot : Z;
  psignature : Z;
  opindex : Z;
  numoperands : Z;
  positive : bool;
  srcPath : list Z;
  stderr : list (list Z)          (* the texts that [report] has written *)
}.

Definition set_instructions v c := MkContext v c.(symtab) c.(state) c.(srcLine) c.(errorCount) c.(dot) c.(psignature) c.(opindex) c.(numoperands) c.(positive) c.(srcPath) c.(stderr).
Definition set_symtab v c := MkContext c.(instructions) v c.(state) c.(srcLine) c.(errorCount) c.(dot) c.(psignature) c.(opindex) c.(numoperands) c.(positive) c.(srcPath) c.(stderr).
Definition set_pstate v c := MkContext c.(instructions) c.(symtab) v c.(srcLine) c.(errorCount) c.(dot) c.(psignature) c.(opindex) c.(numoperands) c.(positive) c.(srcPath) c.(stderr).
Definition set_srcLine v c := MkContext c.(instructions) c.(symtab) c.(state) v c.(errorCount) c.(dot) c.(psignature) c.(opindex) c.(numoperands) c.(positive) c.(srcPath) c.(stderr).
Definition set_errorCount v c := MkContext c.(instructions) c.(symtab) c.(state) c.(srcLine) v c.(dot) c.(psignature) c.(opindex) c.(numoperands) c.(positive) c.(srcPath) c.(stderr).
Definition set_operands d s o n p c := MkContext c.(instructions) c.(symtab) c.(state) c.(srcLine) c.(errorCount) d s o n p c.(srcPath) c.(stderr).

Definition set_stderr v c := MkContext c.(instructions) c.(symtab) c.(state) c.(srcLine) c.(errorCount) c.(dot) c.(psignature) c.(opindex) c.(numoperands) c.(positive) c.(srcPath) v.

Definition init_context (path : list Z) : parserContext :=
  MkContext [] MakeSymbolTable StBetweenLines 1 0 0 0 0 0 false path [].

Abbreviation C := (M parserContext).

(** The line that [report] prints. *)
Definition error_line (path : list Z) (ln : Z) (msg : list Z) : list Z :=
  str "error: " ++ path ++ str ", line " ++ str (fmt_d ln) ++ str ": " ++ msg ++ [10].

(** [report]: print the message, enter the error state and count the error. *)
Definition report (msg : list Z) : C unit :=
  modify (fun c => set_stderr (stderr c ++ [error_line (srcPath c) (srcLine c) msg]) c);;
  modify (set_pstate StError);; modify (fun c => set_errorCount (errorCount c + 1) c).

(** The texts of the errors of [internalCreateSymbol] and [Define]. *)
Definition overflow_error : list Z := str "symbol table overflow".

Definition Define_error (st : SymbolTable) (n : list Z) : list Z :=
  match indexes st !! n with Some _ => n ++ str " redefined" | None => overflow_error end.

Definition lift_res {A} (r : res A) : C A := fun c => match r with Ret a => Ret (a, c) | Panic w => Panic w end.

(** [ctx.instructions[ctx.dot].parts[i] = v] *)
Definition set_part (i v : Z) : C unit :=
  d ← gets dot;
  ins ← gets instructions;
  mi ← from_opt index_panic (ins !! Z.to_nat d);
  if (0 <=? i) && (i <? 4) then modify (set_instructions (<[Z.to_nat d := <[Z.to_nat i := v]> mi]> ins))
  else panic index_panic.

(** The end of an operand: the next one, or the end of the line. *)
Definition next_operand : C unit :=
  modify (fun c => set_operands (dot c) (psignature c) (u16 (opindex c + 1)) (numoperands c) true c);;
  o ← gets opindex;
  n ← gets numoperands;
  if n <? o then modify (set_pstate StNeedNewline) else mret tt.

Definition doError (t : Token) : C bool :=
  (if bool_decide (tokenKind t = TkNewline) then modify (set_pstate StBetweenLines) else mret tt);; mret true.

Definition doBetweenLines (t : Token) : C bool :=
  match tokenKind t with
  | TkLabel =>
    st ← gets symtab;
    d ← gets dot;
    r ← lift_res (Define st (tokenText t) d);
    modify (set_symtab r.2);;
    (match r.1 with None => report (Define_error st (tokenText t)) | Some _ => mret tt end);;
    modify (set_pstate StNeedKey);;
    mret true
  | TkSymbol => modify (set_pstate StNeedKey);; mret false
  | TkNewline => mret true
  | _ => report (str "unexpected: " ++ Token_String t);; mret true
  end.

Definition doNeedKey (t : Token) : C bool :=
  match tokenKind t with
  | TkSymbol =>
    st ← gets symtab;
    r ← lift_res (Get st (tokenText t));
    match r with
    | None => report (str "key unknown: " ++ tokenText t);; mret true
    | Some (sig, index) =>
      modify (fun c => set_instructions (instructions c ++ [zero_instr]) c);;
      set_part Key index;;
      modify (fun c => set_operands (dot c) sig Ra (numOperands sig) true c);;
      n ← gets numoperands;
      modify (set_pstate (if 0 <? n then StNeedExpression else StNeedNewline));;
      mret true
    end
  | _ => report (str "unexpected: " ++ tokenText t);; mret true
  end.

Definition doNeedExpression (t : Token) : C bool :=
  match tokenKind t with
  | TkSymbol =>
    st ← gets symtab;
    let r := Use st (tokenText t) in
    modify (set_symtab r.2);;
    match r.1 with
    | None => report (str "internal error: " ++ overflow_error);; mret true
    | Some index =>
      pos ← gets positive;
      (if (pos : bool) then mret tt
       else st' ← gets symtab; st2 ← lift_res (Negate st' index); modify (set_symtab st2));;
      o ← gets opindex;
      set_part o index;;
      next_operand;;
      mret true
    end
  | TkNumber =>
    match ParseInt (tokenText t) with
    | None => report (str "internal error: ParseInt(): " ++ ParseInt_error (tokenText t));; mret true
    | Some v =>
      pos ← gets positive;
      let v := if (pos : bool) then v else - v in
      o ← gets opindex;
      set_part o (Z.lor IsValue (u16 (Z.land v 0x3FF)));;
      next_operand;;
      mret true
    end
  | TkOperator =>
    if bool_decide (tokenText t = str "-") then
      modify (fun c => set_operands (dot c) (psignature c) (opindex c) (numoperands c) (negb (positive c)) c);;
      mret true
    else report (str "unexpected: " ++ tokenText t);; mret true
  | _ => report (str "unexpected: " ++ tokenText t);; mret true
  end.

Definition doNeedNewline (t : Token) : C bool :=
  (if bool_decide (tokenKind t = TkNewline) then mret tt
   else report (str "unexpected at end of line: " ++ tokenText t));;
  modify (set_pstate StBetweenLines);;
  modify (fun c => set_operands (u16 (dot c + 1)) 0 0 0 true c);;
  mret true.

(** The table of handlers, by state. *)
Definition parserFunctionMap (s : pstate) : Token -> C bool :=
  match s with
  | StError => doError
  | StBetweenLines => doBetweenLines
  | StNeedKey => doNeedKey
  | StNeedExpression => doNeedExpression
  | StNeedNewline => doNeedNewline
  end.

(** The lexer and the context. *)
Record parser := MkParser { lx : Lexer; ctx : parserContext }.

Abbreviation P := (M parser).

Definition on_lexer {A} (c : L A) : P A := fun p =>
  match c (lx p) with Ret (a, l) => Ret (a, MkParser l (ctx p)) | Panic w => Panic w end.

Definition on_ctx {A} (c : C A) : P A := fun p =>
  match c (ctx p) with Ret (a, x) => Ret (a, MkParser (lx p) x) | Panic w => Panic w end.

(** One iteration of the loop of [Parse], for a token that is not the end. *)
Definition parse_token (t : Token) : P unit :=
  if bool_decide (tokenKind t = TkError) then
    on_ctx (report (tokenText t));; on_ctx (modify (set_pstate StError))
  else
    s ← on_ctx (gets state);
    consume ← on_ctx (parserFunctionMap s t);
    (if (consume : bool) then mret tt else _ ← on_lexer (Unget t); mret tt);;
    if bool_decide (tokenKind t = TkNewline) then on_ctx (modify (fun c => set_srcLine (srcLine c + 1) c))
    else mret tt.

Fixpoint parse_loop (fuel : nat) : P unit :=
  match fuel with
  | O => panic lex_fuel
  | S fuel' =>
    t ← on_lexer GetToken;
    if bool_decide (tokenKind t = TkEOF) then mret tt
    else parse_token t;; parse_loop fuel'
  end.

(** The error that [Parse] returns for a number of errors. *)
Definition count_error (n : Z) : option (list Z) :=
  if n =? 0 then None else Some (str (fmt_d n) ++ str " error" ++ (if n =? 1 then [] else str "s")).

(** [Parse] after it has made the lexer: the table, the instructions, the error,
    and what it has printed. *)
Definition parse_source (fuel : nat) (path : list Z) (lexer : Lexer) :
    res (SymbolTable * list MachineInstruction * option (list Z) * list (list Z)) :=
  let run : P unit :=
    parse_loop fuel;;
    s ← on_ctx (gets state);
    if bool_decide (s = StBetweenLines) then mret tt else on_ctx (report (str "unexpected EOF")) in
  match run (MkParser lexer (init_context path)) with
  | Ret (_, p) => Ret (symtab (ctx p), instructions (ctx p), count_error (errorCount (ctx p)), stderr (ctx p))
  | Panic w => Panic w
  end.

(** The file system: the content of a file, with the error that ends it if it is
    not end of file, or the error of [os.Open]. *)
Definition files : Type := list Z -> (list Z * option (list Z)) + list Z.

Definition MakeFileLexer (fs : files) (path : list Z) : Lexer + list Z :=
  match fs path with
  | inl (body, err) => inl (MakeLexer body err)
  | inr e => inr e
  end.

(** [Parse]: two nil pointers and an error when the file cannot be opened. *)
Definition Parse (fuel : nat) (fs : files) (path : list Z) :
    res (option (SymbolTable * list MachineInstruction) * option (list Z) * list (list Z)) :=
  match MakeFileLexer fs path with
  | inr e => Ret (None, Some e, [])
  | inl lexer =>
    match parse_source fuel path lexer with
    | Ret (st, ins, err, out) => Ret (Some (st, ins), err, out)
    | Panic w => Panic w
    end
  end.

(** generator.go: a stub, which returns nil. *)
Definition Generate (symbols : SymbolTable) (ins : list MachineInstruction) : option (list Z) := None.

(** ** asm.go: the program *)

(** What [pr] prints, and the flags of the program. *)
Definition pr (s : list Z) : list Z := s ++ [10].

Definition PrintDefaults : list Z := str "  -d" ++ [9] ++ str "enable debug" ++ [10].

(** The exit status and the output of [usage] and [fatal]. *)
Definition usage : Z * list (list Z) :=
  (1, [pr (str "Usage: asm [options] source-file" ++ [10] ++ str "Options:"); PrintDefaults]).

Definition fatal (s : list Z) : Z * list (list Z) := (2, [pr s]).

(** [main], to its exit status and its output; [args] are the arguments after the
    flags. *)
Definition main (fuel : nat) (fs : files) (args : list (list Z)) : res (Z * list (list Z)) :=
  match args with
  | [path] =>
    match Parse fuel fs path with
    | Panic w => Panic w
    | Ret (_, Some err, out) => let r := fatal (path ++ str ": " ++ err ++ [10]) in Ret (r.1, out ++ r.2)
    | Ret (None, None, out) => Panic "invalid memory address or nil pointer dereference"
    | Ret (Some (symbols, instructions), None, out) =>
      match Generate symbols instructions with
      | Some err => let r := fatal (path ++ str ": " ++ err ++ [10]) in Ret (r.1, out ++ r.2)
      | None => Ret (0, out)
      end
    end
  | _ => Ret usage
  end.
