(* ===== verification/AsmProps.v ===== *)
(** * The assembler: invariants and the parser over a list of tokens

    [symtab_ok] is the invariant of the symbol table, [ctx_ok] that of the parser;
    [feed] runs the handlers over a list of tokens, and [parse_loop_feed] shows
    that the loop of [Parse], with its one-token look-ahead through the lexer,
    does the same. *)

From S2P Require Import Prelude GoStr Lex LexProps LexGrammar Asm.

(** ** The symbol table *)

(** Names and indexes correspond one to one. *)
Record symtab_ok (st : SymbolTable) : Prop := {
  tab_size : Z.of_nat (length (entries st)) <= MaxSymbols;
  tab_index n i : indexes st !! n = Some i -> 0 <= i < Z.of_nat (length (entries st));
  tab_inj n1 n2 i : indexes st !! n1 = Some i -> indexes st !! n2 = Some i -> n1 = n2;
  tab_name i : 0 <= i < Z.of_nat (length (entries st)) -> exists n, indexes st !! n = Some i
}.

Lemma sym_entry_some st i : 0 <= i < Z.of_nat (length (entries st)) -> exists e, sym_entry st i = Some e.
Proof. intros Hi. apply lookup_is_Some_len. lia. Qed.

(** What a table promises that later ones keep. *)
Definition extends (st st' : SymbolTable) : Prop :=
  (length (entries st) <= length (entries st'))%nat /\
  forall n i, indexes st !! n = Some i -> indexes st' !! n = Some i.

Lemma extends_refl st : extends st st.
Proof. split; auto. Qed.

Lemma extends_trans a b c : extends a b -> extends b c -> extends a c.
Proof. intros [H1 H2] [H3 H4]. split; [lia | auto]. Qed.

Lemma create_ok st n fl v : symtab_ok st -> indexes st !! n = None ->
  symtab_ok (internalCreateSymbol st n fl v).2 /\ extends st (internalCreateSymbol st n fl v).2 /\
  forall i, (internalCreateSymbol st n fl v).1 = Some i ->
    i = Z.of_nat (length (entries st)) /\ indexes (internalCreateSymbol st n fl v).2 = <[n := i]> (indexes st) /\
    entries (internalCreateSymbol st n fl v).2 = entries st ++ [MkSymbol fl v].
Proof.
  intros [Hs Hi Hj Hn] Hnew. unfold internalCreateSymbol.
  destruct (Z.eqb_spec (Z.of_nat (length (entries st))) MaxSymbols) as [E | E];
    [split; [split | split; [apply extends_refl | discriminate]]; auto |].
  rewrite u16_id by (unfold is_u16, MaxSymbols in *; lia). cbn [fst snd].
  split; [| split; [split |]]; cbn [entries indexes].
  - split; cbn [entries indexes]; rewrite ?length_app; cbn [length].
    + unfold MaxSymbols in *. lia.
    + intros m i Hm. apply lookup_insert_Some in Hm as [[_ <-] | [_ Hm]]; [lia | apply Hi in Hm; lia].
    + intros n1 n2 i H1 H2. apply lookup_insert_Some in H1 as [[<- <-] | [N1 H1]];
        apply lookup_insert_Some in H2 as [[<- E2] | [N2 H2]]; auto.
      * apply Hi in H2. lia.
      * subst i. apply Hi in H1. lia.
      * apply (Hj n1 n2 i H1 H2).
    + intros i Hr. destruct (Z.eq_dec i (Z.of_nat (length (entries st)))) as [-> | Hne].
      * exists n. apply lookup_insert_eq.
      * destruct (Hn i) as [m Hm]; [lia |]. exists m. rewrite lookup_insert_ne by congruence. exact Hm.
  - rewrite length_app. cbn. lia.
  - intros m i Hm. rewrite lookup_insert_ne by congruence. exact Hm.
  - intros i [= <-]. auto.
Qed.

Lemma Define_ok st n v : symtab_ok st ->
  exists r st', Define st n v = Ret (r, st') /\ symtab_ok st' /\ extends st st'.
Proof.
  intros Hok. unfold Define. destruct (indexes st !! n) as [i |] eqn:Hn.
  - destruct (sym_entry_some st i (tab_index st Hok n i Hn)) as [e ->].
    case_if; eauto using extends_refl.
  - destruct (create_ok st n symDefined v Hok Hn) as (? & ? & _).
    destruct (internalCreateSymbol st n symDefined v). eauto.
Qed.

Lemma Get_ok st n : symtab_ok st ->
  exists r, Get st n = Ret r /\ forall v i, r = Some (v, i) -> 0 <= i < Z.of_nat (length (entries st)).
Proof.
  intros Hok. unfold Get. destruct (indexes st !! n) as [i |] eqn:Hn; [| eexists; split; [reflexivity | discriminate]].
  pose proof (tab_index st Hok n i Hn) as Hi. destruct (sym_entry_some st i Hi) as [e ->].
  case_if; eexists; (split; [reflexivity |]); [discriminate | congruence].
Qed.

Lemma Use_ok st n : symtab_ok st ->
  symtab_ok (Use st n).2 /\ extends st (Use st n).2 /\
  forall i, (Use st n).1 = Some i -> 0 <= i < Z.of_nat (length (entries (Use st n).2)).
Proof.
  intros Hok. unfold Use. destruct (indexes st !! n) as [i |] eqn:Hn; cbn [fst snd].
  - split; [exact Hok |]. split; [apply extends_refl |]. intros j [= <-]. apply (tab_index st Hok n i Hn).
  - destruct (create_ok st n 0 NoValue Hok Hn) as (H1 & H2 & H3). split; [exact H1 |]. split; [exact H2 |].
    intros i E. destruct (H3 i E) as (-> & _ & ->). rewrite length_app. cbn. lia.
Qed.

Lemma Negate_ok st i : symtab_ok st -> 0 <= i < Z.of_nat (length (entries st)) ->
  exists st', Negate st i = Ret st' /\ symtab_ok st' /\ extends st st'.
Proof.
  intros [Hs Hi Hj Hn] Hr. unfold Negate. destruct (sym_entry_some st i Hr) as [e ->].
  eexists. split; [reflexivity |]. split; [split |]; cbn; rewrite ?length_insert; auto.
  split; [cbn; rewrite length_insert; lia | auto].
Qed.

(** ** The parser *)

(** An operand is an index of a symbol or a value of ten bits. *)
Definition part_ok (st : SymbolTable) (p : Z) : Prop :=
  0 <= p < Z.of_nat (length (entries st)) \/ IsValue <= p < IsValue + 1024.

Definition instr_ok (st : SymbolTable) (mi : MachineInstruction) : Prop :=
  length mi = 4%nat /\ Forall (part_ok st) mi.

(** Where an instruction is under construction, it is at [dot]. *)
Definition operand_state (c : parserContext) : Prop :=
  match state c with
  | StNeedExpression => 0 <= dot c < Z.of_nat (length (instructions c)) /\ 1 <= opindex c <= numoperands c /\ numoperands c <= 3
  | StNeedNewline => 0 <= dot c < Z.of_nat (length (instructions c))
  | _ => 0 <= dot c <= Z.of_nat (length (instructions c))
  end.

Record ctx_ok (c : parserContext) : Prop := {
  c_tab : symtab_ok (symtab c);
  c_some : (0 < length (entries (symtab c)))%nat;
  c_instr : Forall (instr_ok (symtab c)) (instructions c);
  c_dot : is_u16 (dot c);
  c_operand : operand_state c;
  c_errors : errorCount c = Z.of_nat (length (stderr c))
}.

Lemma part_extends st st' p : extends st st' -> part_ok st p -> part_ok st' p.
Proof. intros [Hl _] [Hp | Hp]; [left; lia | right; exact Hp]. Qed.

Lemma instr_extends st st' l : extends st st' -> Forall (instr_ok st) l -> Forall (instr_ok st') l.
Proof.
  intros He Hl. eapply Forall_impl; [exact Hl |]. intros mi [Hlen Hp]. split; [exact Hlen |].
  eapply Forall_impl; [exact Hp |]. intros p. apply part_extends, He.
Qed.

Lemma numOperands_range s : 0 <= numOperands s <= 3.
Proof. unfold numOperands. repeat case_if; lia. Qed.

Lemma operand_dot c : operand_state c -> 0 <= dot c <= Z.of_nat (length (instructions c)).
Proof. unfold operand_state. destruct (state c); lia. Qed.

(** A handler preserves the invariant, and a token that it does not consume is a
    symbol that the next state will. *)
Definition handled (t : Token) (k : bool) (c' : parserContext) : Prop :=
  ctx_ok c' /\ (k = false -> tokenKind t = TkSymbol /\ state c' = StNeedKey).

(** The context after [report]. *)
Definition reported (msg : list Z) (c : parserContext) : parserContext :=
  set_errorCount (errorCount c + 1)
    (set_pstate StError (set_stderr (stderr c ++ [error_line (srcPath c) (srcLine c) msg]) c)).

Lemma report_run msg c : report msg c = Ret (tt, reported msg c).
Proof. reflexivity. Qed.

Lemma reported_ok msg c : ctx_ok c -> ctx_ok (reported msg c).
Proof.
  intros [? ? ? ? Ho He]. split; cbn; auto; [apply operand_dot in Ho; exact Ho |]. rewrite length_app, He. cbn. lia.
Qed.

Lemma report_wp msg c (Q : unit -> parserContext -> Prop) :
  ctx_ok c -> (forall c', ctx_ok c' -> state c' = StError -> Q tt c') -> wp (report msg) Q c.
Proof. intros Hc HQ. unfold wpe. rewrite report_run. apply HQ; [apply reported_ok, Hc | reflexivity]. Qed.

Lemma report_true msg c t : ctx_ok c -> wp (report msg;; mret true) (handled t) c.
Proof.
  intros Hc. apply wpe_bind. apply (report_wp msg c _ Hc). intros c' Hc' _. split; [exact Hc' | discriminate].
Qed.

Lemma set_part_wp c i v (Q : unit -> parserContext -> Prop) :
  0 <= dot c < Z.of_nat (length (instructions c)) -> 0 <= i < 4 -> Forall (instr_ok (symtab c)) (instructions c) ->
  part_ok (symtab c) v ->
  (forall ins, Forall (instr_ok (symtab c)) ins -> length ins = length (instructions c) -> Q tt (set_instructions ins c)) ->
  wp (set_part i v) Q c.
Proof.
  intros Hd Hi Hins Hv HQ. unfold set_part. apply wpe_bind, wpe_gets, wpe_bind, wpe_gets, wpe_bind.
  destruct (lookup_is_Some_len (instructions c) (Z.to_nat (dot c))) as [mi Hmi]; [lia |].
  apply (wpe_opt _ _ _ mi); [exact Hmi |].
  rewrite (proj2 (Z.leb_le 0 i)), (proj2 (Z.ltb_lt i 4)) by lia. apply wpe_modify, HQ; [| apply length_insert].
  destruct (Forall_lookup_some _ _ _ _ Hins Hmi) as [Hl Hp].
  apply Forall_insert; [exact Hins |]. split; [rewrite length_insert; exact Hl | apply Forall_insert; assumption].
Qed.

Lemma next_operand_wp c t :
  ctx_ok (set_pstate StNeedExpression c) -> state c = StNeedExpression ->
  wp (next_operand;; mret true) (handled t) c.
Proof.
  intros [? ? ? ? Ho ?] Hst. unfold operand_state in Ho. cbn in *. destruct Ho as (Hd & Ho & Hn).
  unfold next_operand. apply wpe_bind, wpe_bind, wpe_modify, wpe_bind, wpe_gets, wpe_bind, wpe_gets. cbn.
  rewrite u16_id by (unfold is_u16; lia).
  destruct (Z.ltb_spec (numoperands c) (opindex c + 1)); cbn; unfold wpe, modify, mret, M_ret;
    (split; [split; cbn; auto | discriminate]); unfold operand_state; cbn; rewrite ?Hst; lia.
Qed.

Lemma doError_wp t c : ctx_ok c -> wp (doError t) (handled t) c.
Proof.
  intros Hc. unfold doError. apply wpe_bind. case_if; unfold wpe, modify, mret, M_ret; (split; [| discriminate]).
  - destruct Hc as [? ? ? ? Ho ?]. split; auto. apply operand_dot in Ho. exact Ho.
  - exact Hc.
Qed.

Lemma ctx_symtab c st : ctx_ok c -> symtab_ok st -> extends (symtab c) st -> ctx_ok (set_symtab st c).
Proof.
  intros [? ? ? ? Ho ?] Hst He. split; cbn; auto; [destruct He; lia | apply (instr_extends (symtab c)); assumption].
Qed.

Lemma ctx_between c s : ctx_ok c -> s = StBetweenLines \/ s = StNeedKey -> ctx_ok (set_pstate s c).
Proof. intros [? ? ? ? Ho ?] Hs. apply operand_dot in Ho. split; auto. destruct Hs as [-> | ->]; exact Ho. Qed.

Lemma lift_wp {A} (r : res A) a c (Q : A -> parserContext -> Prop) : r = Ret a -> Q a c -> wp (lift_res r) Q c.
Proof. intros -> HQ. exact HQ. Qed.

Lemma doBetweenLines_wp t c : ctx_ok c -> wp (doBetweenLines t) (handled t) c.
Proof.
  intros Hc. unfold doBetweenLines. destruct (tokenKind t) eqn:Hk; try (apply report_true, Hc).
  - split; [exact Hc | discriminate].
  - apply wpe_bind, wpe_modify, wpe_ret. split; [apply ctx_between; auto | auto].
  - apply wpe_bind, wpe_gets, wpe_bind, wpe_gets, wpe_bind.
    destruct (Define_ok (symtab c) (tokenText t) (dot c) (c_tab c Hc)) as (r & st & Hr & Hst & He).
    apply (lift_wp _ _ _ _ Hr), wpe_bind, wpe_modify. cbn.
    pose proof (ctx_symtab c st Hc Hst He) as Hc1. apply wpe_bind.
    assert (Hend : forall c2, ctx_ok c2 -> wp (modify (set_pstate StNeedKey);; mret true) (handled t) c2).
    { intros c2 Hc2. apply wpe_bind, wpe_modify, wpe_ret. split; [apply ctx_between; auto | discriminate]. }
    destruct r; [apply wpe_ret, Hend, Hc1 |]. apply (report_wp _ _ _ Hc1). auto.
Qed.

Lemma doNeedKey_wp t c : ctx_ok c -> wp (doNeedKey t) (fun k c' => ctx_ok c' /\ k = true) c.
Proof.
  intros Hc. unfold doNeedKey.
  assert (Hrep : forall msg, wp (report msg;; mret true) (fun k c' => ctx_ok c' /\ k = true) c).
  { intros msg. apply wpe_bind, (report_wp msg c _ Hc). intros c' Hc' _. apply wpe_ret. auto. }
  destruct (tokenKind t) eqn:Hk; try apply Hrep.
  apply wpe_bind, wpe_gets, wpe_bind. destruct (Get_ok (symtab c) (tokenText t) (c_tab c Hc)) as (r & Hr & Hi).
  apply (lift_wp _ _ _ _ Hr). destruct r as [[sig index] |]; [| apply Hrep].
  specialize (Hi sig index eq_refl). destruct Hc as [Ht Hs Hins Hd Ho He]. apply operand_dot in Ho.
  apply wpe_bind, wpe_modify, wpe_bind. apply set_part_wp; cbn.
  - rewrite length_app. cbn. lia.
  - unfold Key. lia.
  - apply Forall_app. split; [exact Hins |]. constructor; [| constructor]. split; [reflexivity |].
    repeat (apply Forall_cons_2; [left; lia |]); apply Forall_nil_2.
  - left. exact Hi.
  - intros ins Hins' Hl. apply wpe_bind, wpe_modify, wpe_bind, wpe_gets, wpe_bind, wpe_modify, wpe_ret. cbn.
    rewrite length_app in Hl. cbn in Hl. pose proof (numOperands_range sig).
    split; [| reflexivity]. split; cbn; auto. unfold operand_state, Ra. cbn.
    destruct (Z.ltb_spec 0 (numOperands sig)); cbn; rewrite Hl; lia.
Qed.

Lemma imm_part st v : part_ok st (Z.lor IsValue (u16 (Z.land v 0x3FF))).
Proof.
  right. change 0x3FF with (Z.ones 10). rewrite Z.land_ones by lia.
  pose proof (Z.mod_pos_bound v (2 ^ 10) ltac:(lia)) as Hm. rewrite u16_id by (unfold is_u16; lia).
  change IsValue with (Z.shiftl 1 15). rewrite lor_shiftl_add by lia. change (Z.shiftl 1 15) with 32768. lia.
Qed.

(** The common end of an operand: store it, go to the next one. *)
Lemma operand_wp c t v : ctx_ok c -> state c = StNeedExpression -> part_ok (symtab c) v ->
  wp (o ← gets opindex; set_part o v;; next_operand;; mret true) (handled t) c.
Proof.
  intros [Ht Hs Hins Hd Ho He] Hst Hv. unfold operand_state in Ho. rewrite Hst in Ho. destruct Ho as (Hd' & Ho & Hn).
  apply wpe_bind, wpe_gets, wpe_bind. apply set_part_wp; auto; [lia |].
  intros ins Hins' Hl. apply next_operand_wp; [| exact Hst].
  split; cbn; auto. unfold operand_state. cbn. rewrite Hl. lia.
Qed.

Lemma doNeedExpression_wp t c : ctx_ok c -> state c = StNeedExpression -> wp (doNeedExpression t) (handled t) c.
Proof.
  intros Hc Hst. unfold doNeedExpression. destruct (tokenKind t) eqn:Hk; try (apply report_true, Hc).
  - apply wpe_bind, wpe_gets, wpe_bind, wpe_modify.
    destruct (Use_ok (symtab c) (tokenText t) (c_tab c Hc)) as (H1 & H2 & H3).
    pose proof (ctx_symtab c _ Hc H1 H2) as Hc1.
    destruct (Use (symtab c) (tokenText t)) as [[index |] st]; cbn [fst snd] in *; [| apply report_true, Hc1].
    specialize (H3 index eq_refl). apply wpe_bind, wpe_gets, wpe_bind. cbn.
    destruct (positive c).
    + apply wpe_ret, operand_wp; [exact Hc1 | exact Hst | left; exact H3].
    + apply wpe_bind, wpe_gets, wpe_bind. cbn. destruct (Negate_ok st index H1 H3) as (st' & Hn & Hst' & He).
      apply (lift_wp _ _ _ _ Hn).
      apply (operand_wp (set_symtab st' (set_symtab st c)) t index); [| exact Hst | left; cbn; destruct He; lia].
      apply (ctx_symtab (set_symtab st c) st' Hc1 Hst' He).
  - destruct (ParseInt (tokenText t)) as [v |]; [| apply report_true, Hc].
    apply wpe_bind, wpe_gets. apply operand_wp; [exact Hc | exact Hst | apply imm_part].
  - case_if; [| apply report_true, Hc]. apply wpe_bind, wpe_modify, wpe_ret. split; [| discriminate].
    destruct Hc as [? ? ? ? Ho ?]. split; auto.
Qed.

Lemma doNeedNewline_wp t c : ctx_ok c -> state c = StNeedNewline -> wp (doNeedNewline t) (handled t) c.
Proof.
  intros Hc Hst. unfold doNeedNewline. apply wpe_bind.
  assert (Hend : forall c', ctx_ok c' -> 0 <= dot c' < Z.of_nat (length (instructions c')) ->
    wp (modify (set_pstate StBetweenLines);; modify (fun c => set_operands (u16 (dot c + 1)) 0 0 0 true c);; mret true)
       (handled t) c').
  { intros c' [? ? ? Hd ? ?] Hlt. apply wpe_bind, wpe_modify, wpe_bind, wpe_modify, wpe_ret.
    split; [split; cbn; auto with gosem | discriminate]. unfold operand_state, u16. cbn.
    pose proof (Z.mod_pos_bound (dot c' + 1) 65536 ltac:(lia)).
    pose proof (Z.mod_le (dot c' + 1) 65536 ltac:(lia) ltac:(lia)). lia. }
  assert (Hlt : 0 <= dot c < Z.of_nat (length (instructions c))).
  { pose proof (c_operand c Hc) as Ho. unfold operand_state in Ho. rewrite Hst in Ho. exact Ho. }
  case_if; [apply wpe_ret, Hend; assumption |].
  apply (Hend (reported _ c)); [apply reported_ok, Hc | exact Hlt].
Qed.

Lemma handler_wp t c : ctx_ok c -> wp (parserFunctionMap (state c) t) (handled t) c.
Proof.
  intros Hc. unfold parserFunctionMap. destruct (state c) eqn:Hst.
  - apply doError_wp, Hc.
  - apply doBetweenLines_wp, Hc.
  - eapply wpe_mono; [apply doNeedKey_wp, Hc | auto |]. intros k c' [Hc' ->]. split; [exact Hc' | discriminate].
  - apply doNeedExpression_wp; assumption.
  - apply doNeedNewline_wp; assumption.
Qed.

(** ** Feeding tokens *)

Definition count_line (t : Token) (c : parserContext) : parserContext :=
  if bool_decide (tokenKind t = TkNewline) then set_srcLine (srcLine c + 1) c else c.

(** One token: a handler, and a second one if the first does not consume it. *)
Definition feed_token (t : Token) (c : parserContext) : res parserContext :=
  if bool_decide (tokenKind t = TkError) then
    Ret (set_pstate StError (reported (tokenText t) c))
  else
    match parserFunctionMap (state c) t c with
    | Panic w => Panic w
    | Ret (true, c1) => Ret (count_line t c1)
    | Ret (false, c1) =>
      match parserFunctionMap (state c1) t c1 with
      | Panic w => Panic w
      | Ret (_, c2) => Ret (count_line t c2)
      end
    end.

Fixpoint feed (ts : list Token) (c : parserContext) : res parserContext :=
  match ts with
  | [] => Ret c
  | t :: ts' => match feed_token t c with Ret c' => feed ts' c' | Panic w => Panic w end
  end.

Lemma feed_app ts us c :
  feed (ts ++ us) c = match feed ts c with Ret c' => feed us c' | Panic w => Panic w end.
Proof. revert c. induction ts as [| t ts IH]; intros c; [reflexivity |]. cbn. destruct (feed_token t c); [apply IH | reflexivity]. Qed.

Lemma count_line_ok t c : ctx_ok c -> ctx_ok (count_line t c).
Proof. intros [? ? ? ? ? ?]. unfold count_line. case_if; split; auto. Qed.

Lemma feed_token_ok t c : ctx_ok c -> exists c', feed_token t c = Ret c' /\ ctx_ok c'.
Proof.
  intros Hc. unfold feed_token. case_if.
  - eexists. split; [reflexivity |]. exact (reported_ok (tokenText t) c Hc).
  - pose proof (handler_wp t c Hc) as Hw. apply wp_returns in Hw as (k & c1 & -> & Hc1 & Hk).
    destruct k; [eauto using count_line_ok |]. destruct (Hk eq_refl) as [_ ->]. cbn.
    pose proof (doNeedKey_wp t c1 Hc1) as Hw. apply wp_returns in Hw as (k & c2 & -> & Hc2 & _).
    eauto using count_line_ok.
Qed.

Lemma feed_ok ts c : ctx_ok c -> exists c', feed ts c = Ret c' /\ ctx_ok c'.
Proof.
  revert c. induction ts as [| t ts IH]; intros c Hc; [eauto |]. cbn.
  destruct (feed_token_ok t c Hc) as (c' & -> & Hc'). apply IH, Hc'.
Qed.

(** ** The loop of [Parse] *)

Lemma Unget_run l t : pbToken l = None -> lexerState l = stBetween -> Unget t l = Ret (true, set_pbToken (Some t) l).
Proof. intros Hp Hs. unfold Unget, mbind, M_bind, gets. rewrite Hp, Hs, bool_decide_true by reflexivity. reflexivity. Qed.

Lemma parse_consumed t l c c1 :
  tokenKind t <> TkError -> parserFunctionMap (state c) t c = Ret (true, c1) ->
  parse_token t (MkParser l c) = Ret (tt, MkParser l (count_line t c1)).
Proof.
  intros He Hh. unfold parse_token. rewrite bool_decide_false by exact He. unfold mbind, M_bind, on_ctx. cbn.
  rewrite Hh. unfold count_line. case_if; reflexivity.
Qed.

Lemma parse_unconsumed t l c c1 :
  tokenKind t = TkSymbol -> parserFunctionMap (state c) t c = Ret (false, c1) ->
  pbToken l = None -> lexerState l = stBetween ->
  parse_token t (MkParser l c) = Ret (tt, MkParser (set_pbToken (Some t) l) c1).
Proof.
  intros Hk Hh Hp Hs. unfold parse_token. rewrite Hk, !bool_decide_false by discriminate.
  unfold mbind, M_bind, on_ctx, on_lexer. cbn. rewrite Hh. cbn. rewrite (Unget_run l t Hp Hs). reflexivity.
Qed.

Lemma set_pbToken_None l t : pbToken l = None -> set_pbToken None (set_pbToken (Some t) l) = l.
Proof. destruct l. cbn. intros ->. reflexivity. Qed.

(** One token, once the lexer has given it: after one or two turns of the loop
    the lexer is where it was and the context is the one of [feed_token]. *)
Lemma parse_token_feed t l c :
  lexer_ok l -> pbToken l = None -> (tokenKind t = TkSymbol -> lexerState l = stBetween) ->
  ctx_ok c -> tokenKind t <> TkEOF ->
  exists c' k, feed_token t c = Ret c' /\ ctx_ok c' /\ (k <= 1)%nat /\
    forall fuel, (parse_token t;; parse_loop (k + fuel)) (MkParser l c) = parse_loop fuel (MkParser l c').
Proof.
  intros Hl Hp Hs Hc Hne. destruct (feed_token_ok t c Hc) as (c' & Hf & Hc'). exists c'. rewrite Hf.
  unfold feed_token in Hf. destruct (decide (tokenKind t = TkError)) as [Er | Er].
  { rewrite bool_decide_true in Hf by exact Er. injection Hf as <-. exists O. split; [reflexivity |]. split; [exact Hc' |]. split; [lia |].
    intros fuel. unfold parse_token. rewrite bool_decide_true by exact Er. reflexivity. }
  rewrite bool_decide_false in Hf by exact Er.
  pose proof (handler_wp t c Hc) as Hw. apply wp_returns in Hw as (k & c1 & Hh & Hc1 & Hkc). rewrite Hh in Hf.
  destruct k.
  { injection Hf as <-. exists O. split; [reflexivity |]. split; [exact Hc' |]. split; [lia |]. intros fuel. unfold mbind at 1, M_bind at 1.
    rewrite (parse_consumed t l c c1 Er Hh). reflexivity. }
  destruct (Hkc eq_refl) as [Hsym Hst1]. exists 1%nat. split; [reflexivity |]. split; [exact Hc' |]. split; [lia |]. intros fuel.
  unfold mbind at 1, M_bind at 1. rewrite (parse_unconsumed t l c c1 Hsym Hh Hp (Hs Hsym)).
  cbn [parse_loop Nat.add]. unfold mbind at 1, M_bind at 1. unfold on_lexer at 1. cbn [lx ctx].
  assert (Hl' : lexer_ok (set_pbToken (Some t) l)) by (destruct Hl as [? ? ?]; split; cbn; auto).
  rewrite (GetToken_pushed _ t Hl' eq_refl), bool_decide_false by exact Hne.
  rewrite (set_pbToken_None l t Hp). unfold mbind at 1, M_bind at 1.
  pose proof (doNeedKey_wp t c1 Hc1) as Hw2. apply wp_returns in Hw2 as (k2 & c2 & Hh2 & Hc2 & ->).
  rewrite Hst1 in Hf. cbn [parserFunctionMap] in Hf. rewrite Hh2 in Hf. injection Hf as <-.
  rewrite (parse_consumed t l c1 c2 Er); [reflexivity | rewrite Hst1; exact Hh2].
Qed.

(** What the lexer that gave a token is like. *)
Lemma GetToken_token l t l1 :
  lexer_ok l -> pbToken l = None -> GetToken l = Ret (t, l1) -> tokenKind t <> TkEOF ->
  lexer_ok l1 /\ pbToken l1 = None /\ (tokenKind t = TkSymbol -> lexerState l1 = stBetween).
Proof.
  intros Hl Hp Hg Hne. destruct (decide (lexerState l = stEnd)) as [He | He].
  { rewrite (GetToken_end l He) in Hg. injection Hg as <- <-. contradiction. }
  destruct (GetToken_run l Hl He Hp) as (t' & l1' & Hg' & Hl1 & Hp1 & _ & Hm).
  rewrite Hg in Hg'. injection Hg' as <- <-. refine (conj Hl1 (conj Hp1 _)).
  destruct (scan (lexerState l) [] (pending l)) as [st' t' inp' | |]; [| | destruct Hm].
  - destruct Hm as (<- & Ha & _ & -> & _). intros E. rewrite (at_state _ _ _ _ Ha), E. reflexivity.
  - destruct Hm as [-> _]. unfold end_token. destruct (fails l); discriminate.
Qed.

(** The loop does what [feed] does with the tokens that the lexer would give. *)
Lemma parse_loop_feed ts : forall fuel fuel' l l' c,
  (2 * length ts < fuel)%nat -> lexer_ok l -> pbToken l = None -> ctx_ok c ->
  read_tokens fuel' l = Ret (ts ++ [eofToken], l') -> Forall (fun t => tokenKind t <> TkEOF) ts ->
  exists c', feed ts c = Ret c' /\ ctx_ok c' /\ parse_loop fuel (MkParser l c) = Ret (tt, MkParser l' c').
Proof.
  induction ts as [| t ts IH]; intros [| fuel] [| fuel'] l l' c Hf Hl Hp Hc Hr Hne; cbn [length] in Hf; try lia;
    try discriminate; cbn [read_tokens parse_loop app] in *; unfold mbind, M_bind in Hr;
    unfold mbind at 1, M_bind at 1;
    (destruct (GetToken l) as [[t0 l1] | w] eqn:Hg; [| discriminate]); unfold on_lexer; cbn [lx ctx]; rewrite Hg;
    (destruct (decide (tokenKind t0 = TkEOF)) as [Ek | Ek];
     [rewrite bool_decide_true in Hr |- * by exact Ek | rewrite bool_decide_false in Hr |- * by exact Ek]).
  - injection Hr as -> <-. exists c. auto.
  - destruct (read_tokens fuel' l1) as [[us l2] |]; [| discriminate]. injection Hr as -> ->. destruct Ek. reflexivity.
  - injection Hr as -> ? ?. apply Forall_cons_1 in Hne as [Hk _]. contradiction.
  - destruct (read_tokens fuel' l1) as [[us l2] |] eqn:Hus; [| discriminate]. injection Hr as -> -> ->.
    apply Forall_cons_1 in Hne as [_ Hne]. destruct (GetToken_token l t l1 Hl Hp Hg Ek) as (Hl1 & Hp1 & Hs).
    destruct (parse_token_feed t l1 c Hl1 Hp1 Hs Hc Ek) as (c1 & k & Hft & Hc1 & Hk & Hstep).
    cbn [feed]. rewrite Hft. replace fuel with (k + (fuel - k))%nat by lia. rewrite Hstep.
    apply (IH (fuel - k)%nat fuel' l1 l' c1); auto. lia.
Qed.
