(* ===== verification/AsmRef.v ===== *)
(** * A reference assembler

    Programs as data: lines with an optional label, a mnemonic and operands.
    [assemble] translates a program line by line, without states, tokens or
    look-ahead; [feed_program] shows that the state machine of parser.go computes
    it, and [feed_inv] that it accepts nothing else without an error. *)

From S2P Require Import Prelude GoStr Lex LexProps LexGrammar Asm AsmProps.

Record operand := MkOperand { minuses : nat; numeric : bool; word : list Z }.

Record line := MkLine { label : option (list Z); key : list Z; args : list operand }.

(** A program: [None] is an empty line. *)
Abbreviation program := (list (option line)).

(** ** Programs as tokens *)

Definition minus_token : Token := MkToken (str "-") TkOperator.

Definition operand_tokens (o : operand) : list Token :=
  replicate (minuses o) minus_token ++ [MkToken (word o) (if numeric o then TkNumber else TkSymbol)].

Definition key_tokens (l : line) : list Token :=
  MkToken (key l) TkSymbol :: mjoin (operand_tokens <$> args l) ++ [nlToken].

Definition line_tokens (l : option line) : list Token :=
  match l with
  | None => [nlToken]
  | Some l =>
    match label l with
    | None => key_tokens l
    | Some w => MkToken w TkLabel :: key_tokens l
    end
  end.

Definition program_tokens (p : program) : list Token := mjoin (line_tokens <$> p).

(** ** Translation *)

(** A number or a symbol under a sign. *)
Definition signed_value (st : SymbolTable) (pos num : bool) (w : list Z) : option (Z * SymbolTable) :=
  if num then
    v ← ParseInt w;
    Some (Z.lor IsValue (u16 (Z.land (if pos then v else - v) 0x3FF)), st)
  else
    match Use st w with
    | (None, _) => None
    | (Some i, st') =>
      if pos then Some (i, st')
      else match Negate st' i with Ret st2 => Some (i, st2) | Panic _ => None end
    end.

Definition operand_value (st : SymbolTable) (o : operand) : option (Z * SymbolTable) :=
  signed_value st (Nat.even (minuses o)) (numeric o) (word o).

Fixpoint operand_values (st : SymbolTable) (os : list operand) : option (list Z * SymbolTable) :=
  match os with
  | [] => Some ([], st)
  | o :: os' =>
    '(v, st1) ← operand_value st o;
    '(vs, st2) ← operand_values st1 os';
    Some (v :: vs, st2)
  end.

Definition define_label (st : SymbolTable) (d : Z) (w : option (list Z)) : option SymbolTable :=
  match w with
  | None => Some st
  | Some w => match Define st w d with Ret (Some _, st') => Some st' | _ => None end
  end.

(** The key and the operands, padded to four parts. *)
Definition instr_parts (vs : list Z) : MachineInstruction := vs ++ replicate (4 - length vs) 0.

Definition assemble_key (st : SymbolTable) (l : line) : option (MachineInstruction * SymbolTable) :=
  match Get st (key l) with
  | Ret (Some (sig, index)) =>
    if numOperands sig =? Z.of_nat (length (args l)) then
      '(vs, st') ← operand_values st (args l);
      Some (instr_parts (index :: vs), st')
    else None
  | _ => None
  end.

Definition assemble_line (st : SymbolTable) (d : Z) (l : line) : option (MachineInstruction * SymbolTable) :=
  st1 ← define_label st d (label l); assemble_key st1 l.

(** Every line with a mnemonic is an instruction, that of a dot pseudo-operation included. *)
Fixpoint assemble (st : SymbolTable) (d : Z) (p : program) : option (list MachineInstruction * SymbolTable) :=
  match p with
  | [] => Some ([], st)
  | None :: p' => assemble st d p'
  | Some l :: p' =>
    '(mi, st1) ← assemble_line st d l;
    '(ins, st2) ← assemble st1 (d + 1) p';
    Some (mi :: ins, st2)
  end.

(** ** The state machine on one line *)

Section Machine.
(** The path of the source and what has been printed: lines without an error
    change neither. *)
Context (pa : list Z) (er : list (list Z)).

(** Replacing the last instruction. *)
Lemma set_last (ins : list MachineInstruction) mi x : <[length ins := x]> (ins ++ [mi]) = ins ++ [x].
Proof. rewrite <- (Nat.add_0_r (length ins)), insert_app_r. reflexivity. Qed.

Lemma lookup_last (ins : list MachineInstruction) mi : (ins ++ [mi]) !! length ins = Some mi.
Proof. rewrite lookup_app_r, Nat.sub_diag by lia. reflexivity. Qed.

Lemma parts_insert vs v : (length vs < 4)%nat -> <[length vs := v]> (instr_parts vs) = instr_parts (vs ++ [v]).
Proof.
  intros Hl. unfold instr_parts. rewrite <- (Nat.add_0_r (length vs)) at 1. rewrite insert_app_r, length_app. cbn [length].
  replace (4 - length vs)%nat with (S (4 - (length vs + 1))) by lia. cbn. rewrite <- app_assoc. reflexivity.
Qed.

Lemma set_part_run ins vs st s ln ec sg o n pos v :
  (1 <= length vs < 4)%nat ->
  set_part (Z.of_nat (length vs)) v (MkContext (ins ++ [instr_parts vs]) st s ln ec (Z.of_nat (length ins)) sg o n pos pa er) =
  Ret (tt, MkContext (ins ++ [instr_parts (vs ++ [v])]) st s ln ec (Z.of_nat (length ins)) sg o n pos pa er).
Proof.
  intros Hl. unfold set_part, mbind, M_bind, gets. cbn [dot instructions]. rewrite Nat2Z.id, lookup_last. cbn.
  rewrite (proj2 (Z.leb_le 0 _)), (proj2 (Z.ltb_lt _ 4)) by lia. cbn. unfold modify, set_instructions. cbn.
  rewrite Nat2Z.id, set_last, parts_insert by lia. reflexivity.
Qed.

Lemma feed_minus k ins st ln ec d sg o n pos :
  feed (replicate k minus_token) (MkContext ins st StNeedExpression ln ec d sg o n pos pa er) =
  Ret (MkContext ins st StNeedExpression ln ec d sg o n (if Nat.even k then pos else negb pos) pa er).
Proof.
  revert pos. induction k as [| k IH]; intros pos; [reflexivity |]. cbn [replicate feed].
  change (feed_token minus_token (MkContext ins st StNeedExpression ln ec d sg o n pos pa er))
    with (@Ret parserContext (MkContext ins st StNeedExpression ln ec d sg o n (negb pos) pa er)). cbv iota beta.
  rewrite IH, Nat.even_succ, <- Nat.negb_even. destruct (Nat.even k), pos; reflexivity.
Qed.

(** The context in the operands of the instruction [vs], of [n] operands. *)
Definition in_operands ins vs st ln ec sg n : parserContext :=
  MkContext (ins ++ [instr_parts vs]) st
    (if n <? Z.of_nat (length vs) then StNeedNewline else StNeedExpression)
    ln ec (Z.of_nat (length ins)) sg (Z.of_nat (length vs)) n true pa er.

Lemma next_operand_run ins vs v st ln ec sg n pos :
  (1 <= length vs < 4)%nat -> Z.of_nat (length vs) <= n ->
  (set_part (Z.of_nat (length vs)) v;; next_operand;; mret true)
    (MkContext (ins ++ [instr_parts vs]) st StNeedExpression ln ec (Z.of_nat (length ins)) sg (Z.of_nat (length vs)) n pos pa er) =
  Ret (true, in_operands ins (vs ++ [v]) st ln ec sg n).
Proof.
  intros Hl Hn. unfold mbind at 1, M_bind at 1. rewrite set_part_run by exact Hl.
  unfold next_operand, mbind, M_bind, gets, modify, in_operands, set_operands. cbn.
  rewrite length_app, u16_id by (unfold is_u16; lia). cbn. rewrite Nat2Z.inj_add.
  change (Z.of_nat 1) with 1. destruct (Z.ltb_spec n (Z.of_nat (length vs) + 1)); reflexivity.
Qed.

(** The context with the sign that the operand has so far. *)
Definition in_operand ins vs st ln ec sg n pos : parserContext :=
  MkContext (ins ++ [instr_parts vs]) st StNeedExpression ln ec (Z.of_nat (length ins)) sg (Z.of_nat (length vs)) n pos pa er.

Definition value_token (num : bool) (w : list Z) : Token := MkToken w (if num then TkNumber else TkSymbol).

(** A number or a symbol: stored, or an error. *)
Lemma feed_value ins vs st ln ec sg n pos num w :
  (1 <= length vs < 4)%nat -> Z.of_nat (length vs) <= n -> symtab_ok st ->
  match signed_value st pos num w with
  | Some (v, st') => feed_token (value_token num w) (in_operand ins vs st ln ec sg n pos) =
                     Ret (in_operands ins (vs ++ [v]) st' ln ec sg n)
  | None => exists c, feed_token (value_token num w) (in_operand ins vs st ln ec sg n pos) = Ret c /\ errorCount c = ec + 1
  end.
Proof.
  intros Hl Hn Hst. unfold feed_token, value_token, signed_value, in_operand.
  destruct num; cbn [tokenKind]; rewrite bool_decide_false by discriminate; cbn [state parserFunctionMap];
    unfold doNeedExpression; cbn [tokenKind tokenText].
  - destruct (ParseInt w) as [x |]; cbn [mbind option_bind]; [| eexists; split; reflexivity].
    unfold mbind at 1, M_bind at 1, gets at 1. cbn [positive]. unfold mbind at 1, M_bind at 1, gets at 1. cbn [opindex].
    rewrite next_operand_run by lia. reflexivity.
  - pose proof (Use_ok st w Hst) as (H1 & _ & H3).
    destruct (Use st w) as [[i |] st1] eqn:HU; cbn [fst snd] in *; cycle 1.
    { eexists. split; [unfold mbind, M_bind, gets, modify; cbn [symtab]; rewrite HU; reflexivity | reflexivity]. }
    destruct pos; cycle 1.
    { destruct (Negate_ok st1 i H1 (H3 i eq_refl)) as (st2 & Hng & _). rewrite Hng.
      unfold mbind at 1, M_bind at 1, gets at 1. cbn [symtab]. unfold mbind at 1, M_bind at 1, modify at 1. rewrite HU.
      unfold mbind at 1, M_bind at 1, gets at 1. cbn [positive set_symtab fst snd].
      unfold mbind at 1, M_bind at 1. unfold mbind at 1, M_bind at 1, gets at 1. cbn [symtab set_symtab].
      unfold mbind at 1, M_bind at 1, lift_res. cbn [symtab set_symtab]. rewrite Hng. unfold modify at 1.
      unfold mbind at 1, M_bind at 1, gets at 1. cbn [opindex]. unfold set_symtab. cbn.
      rewrite next_operand_run by lia. reflexivity. }
    unfold mbind at 1, M_bind at 1, gets at 1. cbn [symtab]. unfold mbind at 1, M_bind at 1, modify at 1. rewrite HU.
    unfold mbind at 1, M_bind at 1, gets at 1. cbn [positive set_symtab fst snd].
    unfold mbind at 1, M_bind at 1. cbn [mret M_ret].
    unfold mbind at 1, M_bind at 1, gets at 1. cbn [opindex]. unfold set_symtab. cbn.
    rewrite next_operand_run by lia. reflexivity.
Qed.

Lemma signed_ok st pos num w v st' : symtab_ok st -> signed_value st pos num w = Some (v, st') -> symtab_ok st'.
Proof.
  intros Hst. unfold signed_value. destruct num.
  - destruct (ParseInt w); [| discriminate]. intros [= _ <-]. exact Hst.
  - pose proof (Use_ok st w Hst) as (H1 & _ & H3). destruct (Use st w) as [[i |] st1]; [| discriminate].
    destruct pos; [intros [= _ <-]; exact H1 |].
    destruct (Negate_ok st1 i H1 (H3 i eq_refl)) as (st2 & -> & Hok & _). intros [= _ <-]. exact Hok.
Qed.

Lemma feed_operand ins vs st ln ec sg n o v st' :
  (1 <= length vs < 4)%nat -> Z.of_nat (length vs) <= n -> symtab_ok st -> operand_value st o = Some (v, st') ->
  feed (operand_tokens o) (in_operands ins vs st ln ec sg n) = Ret (in_operands ins (vs ++ [v]) st' ln ec sg n).
Proof.
  intros Hl Hn Hst Hv. unfold operand_tokens, in_operands at 1. rewrite (proj2 (Z.ltb_ge _ _)) by lia.
  rewrite feed_app, feed_minus. cbn [feed].
  pose proof (feed_value ins vs st ln ec sg n (Nat.even (minuses o)) (numeric o) (word o) Hl Hn Hst) as Hf.
  unfold operand_value in Hv. rewrite Hv in Hf. unfold value_token, in_operand in Hf.
  replace (if Nat.even (minuses o) then true else negb true) with (Nat.even (minuses o))
    by (destruct (Nat.even (minuses o)); reflexivity).
  rewrite Hf. reflexivity.
Qed.

Lemma feed_operands ins os : forall vs st ln ec sg n ws st',
  (1 <= length vs)%nat -> (length vs + length os <= 4)%nat -> Z.of_nat (length vs + length os) = n + 1 ->
  symtab_ok st -> operand_values st os = Some (ws, st') ->
  feed (mjoin (operand_tokens <$> os)) (in_operands ins vs st ln ec sg n) =
  Ret (in_operands ins (vs ++ ws) st' ln ec sg n).
Proof.
  induction os as [| o os IH]; intros vs st ln ec sg n ws st' Hl H4 Hn Hst Hv; cbn [operand_values] in Hv.
  - injection Hv as <- <-. rewrite app_nil_r. reflexivity.
  - destruct (operand_value st o) as [[v st1] |] eqn:Ho; [| discriminate]. cbn in Hv.
    destruct (operand_values st1 os) as [[ws' st2] |] eqn:Hos; [| discriminate]. injection Hv as <- <-.
    cbn [length] in *.
    change (mjoin (operand_tokens <$> o :: os)) with (operand_tokens o ++ mjoin (operand_tokens <$> os)).
    rewrite feed_app, (feed_operand ins vs st ln ec sg n o v st1) by (assumption || lia).
    rewrite (IH (vs ++ [v]) st1 ln ec sg n ws' st2); [| rewrite ?length_app; cbn; lia .. | eapply signed_ok; eassumption | exact Hos].
    rewrite <- app_assoc. reflexivity.
Qed.

(** Between lines, after the instructions [ins]. *)
Definition between ins st s ln ec : parserContext :=
  MkContext ins st s ln ec (Z.of_nat (length ins)) 0 0 0 true pa er.

Lemma doNeedKey_run ins st ln ec w sig index sg o n pos :
  Get st w = Ret (Some (sig, index)) ->
  doNeedKey (MkToken w TkSymbol) (MkContext ins st StNeedKey ln ec (Z.of_nat (length ins)) sg o n pos pa er) =
  Ret (true, in_operands ins [index] st ln ec sig (numOperands sig)).
Proof.
  intros Hg. unfold doNeedKey. cbn [tokenKind tokenText]. unfold mbind, M_bind, gets, modify, lift_res. cbn.
  rewrite Hg. unfold set_part, mbind, M_bind, gets, modify. cbn. rewrite Nat2Z.id, lookup_last. cbn.
  rewrite set_last. unfold in_operands, set_operands, set_pstate, Ra, instr_parts. cbn.
  pose proof (numOperands_range sig).
  change (Z.of_nat 1) with 1.
  destruct (Z.ltb_spec 0 (numOperands sig)), (Z.ltb_spec (numOperands sig) 1); try reflexivity; lia.
Qed.

Lemma feed_newline ins vs st ln ec sg n :
  n < Z.of_nat (length vs) -> Z.of_nat (length ins) + 1 < 65536 ->
  feed [nlToken] (in_operands ins vs st ln ec sg n) =
  Ret (between (ins ++ [instr_parts vs]) st StBetweenLines (ln + 1) ec).
Proof.
  intros Hn Hd. unfold in_operands. rewrite (proj2 (Z.ltb_lt _ _) Hn). unfold between. rewrite length_app.
  cbn [feed]. unfold feed_token. cbn [tokenKind nlToken]. rewrite bool_decide_false by discriminate.
  cbn [state parserFunctionMap]. unfold doNeedNewline. rewrite bool_decide_true by reflexivity.
  unfold mbind, M_bind, modify, mret, M_ret, set_pstate, set_operands. cbn [dot].
  rewrite u16_id by (unfold is_u16; lia). rewrite Nat2Z.inj_add. reflexivity.
Qed.

Lemma operand_values_length st os vs st' : operand_values st os = Some (vs, st') -> length vs = length os.
Proof.
  revert st vs st'. induction os as [| o os IH]; intros st vs st' Hv; cbn in Hv.
  - injection Hv as <- <-. reflexivity.
  - destruct (operand_value st o) as [[v st1] |]; [| discriminate]. cbn in Hv.
    destruct (operand_values st1 os) as [[ws st3] |] eqn:E; [| discriminate]. injection Hv as <- <-. cbn. f_equal. eauto.
Qed.

Lemma feed_key_token ins st s ln ec w sig index sg o n pos :
  Get st w = Ret (Some (sig, index)) -> s = StBetweenLines \/ s = StNeedKey ->
  feed_token (MkToken w TkSymbol) (MkContext ins st s ln ec (Z.of_nat (length ins)) sg o n pos pa er) =
  Ret (in_operands ins [index] st ln ec sig (numOperands sig)).
Proof.
  intros Hg Hs. unfold feed_token. cbn [tokenKind]. rewrite bool_decide_false by discriminate.
  destruct Hs as [-> | ->]; cbn [state parserFunctionMap].
  - change (doBetweenLines (MkToken w TkSymbol) ?c) with (@Ret (bool * parserContext) (false, set_pstate StNeedKey c)).
    cbv iota beta. unfold set_pstate. cbn [state parserFunctionMap instructions symtab srcLine errorCount dot psignature
      opindex numoperands positive srcPath stderr]. rewrite (doNeedKey_run _ _ _ _ _ _ _ _ _ _ _ Hg). reflexivity.
  - rewrite (doNeedKey_run _ _ _ _ _ _ _ _ _ _ _ Hg). reflexivity.
Qed.

Lemma feed_key ins st s ln ec l mi st' sg o n pos rest :
  symtab_ok st -> assemble_key st l = Some (mi, st') -> Z.of_nat (length ins) + 1 < 65536 ->
  s = StBetweenLines \/ s = StNeedKey ->
  feed (key_tokens l ++ rest) (MkContext ins st s ln ec (Z.of_nat (length ins)) sg o n pos pa er) =
  feed rest (between (ins ++ [mi]) st' StBetweenLines (ln + 1) ec).
Proof.
  unfold assemble_key. intros Hst Ha Hd Hs. destruct (Get st (key l)) as [[[sig index] |] |] eqn:Hg; try discriminate.
  destruct (Z.eqb_spec (numOperands sig) (Z.of_nat (length (args l)))) as [Hn |]; [| discriminate].
  destruct (operand_values st (args l)) as [[vs st2] |] eqn:Hv; [| discriminate]. injection Ha as <- <-.
  unfold key_tokens. cbn [app feed]. rewrite (feed_key_token _ _ _ _ _ _ _ _ _ _ _ _ Hg Hs).
  pose proof (numOperands_range sig).
  rewrite <- app_assoc, feed_app, (feed_operands ins (args l) [index] st ln ec sig (numOperands sig) vs st2);
    [| cbn; lia .. | exact Hst | exact Hv].
  apply operand_values_length in Hv.
  rewrite feed_app, feed_newline by (cbn [app length]; lia). reflexivity.
Qed.

Lemma operands_ok st os vs st' : symtab_ok st -> operand_values st os = Some (vs, st') -> symtab_ok st'.
Proof.
  revert st vs. induction os as [| o os IH]; intros st vs Hst Hv; cbn in Hv; [injection Hv as _ <-; exact Hst |].
  destruct (operand_value st o) as [[v st1] |] eqn:Ho; [| discriminate]. cbn in Hv.
  destruct (operand_values st1 os) as [[ws st3] |] eqn:E; [| discriminate]. injection Hv as _ <-.
  eapply IH; [eapply signed_ok; eassumption | exact E].
Qed.

Lemma label_ok st d w st' : symtab_ok st -> define_label st d w = Some st' -> symtab_ok st'.
Proof.
  intros Hst. destruct w as [w |]; cbn; [| intros [= <-]; exact Hst].
  destruct (Define_ok st w d Hst) as (r & st1 & -> & H1 & _). destruct r; [intros [= <-]; exact H1 | discriminate].
Qed.

Lemma key_ok st l mi st' : symtab_ok st -> assemble_key st l = Some (mi, st') -> symtab_ok st'.
Proof.
  intros Hst. unfold assemble_key. destruct (Get st (key l)) as [[[sig index] |] |]; try discriminate.
  case_if; [| discriminate]. destruct (operand_values st (args l)) as [[vs st2] |] eqn:Hv; [| discriminate].
  intros [= _ <-]. eapply operands_ok; eassumption.
Qed.

(** ** Programs are accepted *)

(** Between lines, whatever is left of the operands of the line before. *)
Definition at_line ins st ln ec (c : parserContext) : Prop :=
  exists sg o n pos, c = MkContext ins st StBetweenLines ln ec (Z.of_nat (length ins)) sg o n pos pa er.

Lemma feed_line ins st ln ec l mi st' c rest :
  symtab_ok st -> assemble_line st (Z.of_nat (length ins)) l = Some (mi, st') -> Z.of_nat (length ins) + 1 < 65536 ->
  at_line ins st ln ec c ->
  feed (line_tokens (Some l) ++ rest) c = feed rest (between (ins ++ [mi]) st' StBetweenLines (ln + 1) ec).
Proof.
  intros Hst Ha Hd (sg & o & n & pos & ->). unfold assemble_line in Ha.
  destruct (define_label st (Z.of_nat (length ins)) (label l)) as [st1 |] eqn:Hl; [| discriminate].
  pose proof (label_ok _ _ _ _ Hst Hl) as Hst1. cbn in Ha.
  unfold line_tokens. destruct (label l) as [w |] eqn:Hlab; cbn in Hl.
  - destruct (Define st w (Z.of_nat (length ins))) as [[[i |] st2] |] eqn:Hdef; try discriminate. injection Hl as ->.
    cbn [feed app]. unfold feed_token at 1. cbn [tokenKind]. rewrite bool_decide_false by discriminate.
    cbn [state parserFunctionMap]. unfold doBetweenLines. cbn [tokenKind tokenText].
    unfold mbind, M_bind, gets, lift_res. cbn [symtab dot]. rewrite Hdef.
    apply (feed_key ins st1 StNeedKey ln ec l mi st' sg o n pos rest); auto.
  - injection Hl as <-. apply feed_key; auto.
Qed.

Lemma feed_program p : forall ins st ln ec new st' c,
  symtab_ok st -> assemble st (Z.of_nat (length ins)) p = Some (new, st') ->
  Z.of_nat (length ins + length new) < 65536 -> at_line ins st ln ec c ->
  exists c' ln', feed (program_tokens p) c = Ret c' /\ at_line (ins ++ new) st' ln' ec c'.
Proof.
  induction p as [| [l |] p IH]; intros ins st ln ec new st' c Hst Ha Hd Hc; cbn [assemble] in Ha.
  - injection Ha as <- <-. rewrite app_nil_r. exists c, ln. split; [reflexivity | exact Hc].
  - destruct (assemble_line st (Z.of_nat (length ins)) l) as [[mi st1] |] eqn:Hl; [| discriminate]. cbn in Ha.
    destruct (assemble st1 (Z.of_nat (length ins) + 1) p) as [[ins2 st2] |] eqn:Hp; [| discriminate].
    injection Ha as <- <-. cbn [length] in Hd.
    change (program_tokens (Some l :: p)) with (line_tokens (Some l) ++ program_tokens p).
    rewrite (feed_line ins st ln ec l mi st1 c _ Hst Hl ltac:(lia) Hc).
    assert (Hst1 : symtab_ok st1).
    { unfold assemble_line in Hl. destruct (define_label _ _ _) eqn:E; [| discriminate].
      eapply key_ok; [eapply label_ok; eassumption | exact Hl]. }
    destruct (IH (ins ++ [mi]) st1 (ln + 1) ec ins2 st2 (between (ins ++ [mi]) st1 StBetweenLines (ln + 1) ec) Hst1)
      as (c' & ln' & Hf & Hat).
    + rewrite length_app, Nat2Z.inj_add. exact Hp.
    + rewrite length_app. cbn. lia.
    + do 4 eexists. reflexivity.
    + rewrite <- app_assoc in Hat. exists c', ln'. auto.
  - change (program_tokens (None :: p)) with (nlToken :: program_tokens p). destruct Hc as (sg & o & n & pos & ->).
    apply (IH ins st (ln + 1) ec new st'); auto. do 4 eexists. reflexivity.
Qed.

(** ** Nothing else is accepted *)

(** Errors and instructions are never taken back. *)
Definition grown (e : Z) (k : nat) (c : parserContext) : Prop :=
  e <= errorCount c /\ (k <= length (instructions c))%nat.

Section Grown.
Context (e : Z) (k : nat).

Lemma grown_modify f : (forall c, errorCount (f c) = errorCount c /\ length (instructions (f c)) = length (instructions c)) ->
  preserves (grown e k) (modify f).
Proof. intros Hf. apply preserves_modify. intros c [H1 H2]. destruct (Hf c) as [H3 H4]. unfold grown. rewrite H3, H4. auto. Qed.

Lemma grown_report msg : preserves (grown e k) (report msg).
Proof. intros c [H1 H2]. split; cbn; [lia | exact H2]. Qed.

Lemma grown_lift {A} (r : res A) : preserves (grown e k) (lift_res r).
Proof. intros c Hc. unfold lift_res, wpe. destruct r; auto. Qed.

Lemma grown_set_part i v : preserves (grown e k) (set_part i v).
Proof.
  intros c [H1 H2]. unfold set_part. apply wpe_bind, wpe_gets, wpe_bind, wpe_gets, wpe_bind.
  unfold wpe. destruct (instructions c !! Z.to_nat (dot c)); cbn; auto.
  case_if; cbn; auto. split; cbn; [exact H1 | rewrite length_insert; exact H2].
Qed.

Hint Resolve grown_report grown_lift grown_set_part : gosem.

Ltac grown_tac :=
  repeat first [ solve [auto with gosem] | apply preserves_bind; [| intros ?] | apply preserves_if
    | apply grown_modify; intros ?; split; reflexivity
    | match goal with |- preserves _ (match ?x with _ => _ end) => destruct x end ].

Lemma grown_handler s t : preserves (grown e k) (parserFunctionMap s t).
Proof.
  destruct s; cbn; unfold doError, doBetweenLines, doNeedKey, doNeedExpression, doNeedNewline, next_operand; grown_tac.
  apply preserves_modify. intros c [H1 H2]. split; cbn; [exact H1 | rewrite length_app; lia].
Qed.

Lemma grown_token t c c' : feed_token t c = Ret c' -> grown e k c -> grown e k c'.
Proof.
  unfold feed_token. intros Hf Hc. destruct (bool_decide (tokenKind t = TkError)); [injection Hf as <-; destruct Hc; split; cbn; [lia | assumption] |].
  assert (Hcount : forall x, grown e k x -> grown e k (count_line t x)).
  { intros x Hx. unfold count_line. case_if; exact Hx. }
  pose proof (grown_handler (state c) t c Hc) as H1. unfold wpe in H1.
  destruct (parserFunctionMap (state c) t c) as [[[] c1] |]; [injection Hf as <-; auto | | discriminate].
  pose proof (grown_handler (state c1) t c1 H1) as H2. unfold wpe in H2.
  destruct (parserFunctionMap (state c1) t c1) as [[kk c2] |]; [injection Hf as <-; auto | discriminate].
Qed.

Lemma grown_feed ts c c' : feed ts c = Ret c' -> grown e k c -> grown e k c'.
Proof.
  revert c. induction ts as [| t ts IH]; intros c Hf Hc; cbn in Hf; [injection Hf as <-; exact Hc |].
  destruct (feed_token t c) as [c1 |] eqn:Ht; [| discriminate]. eapply IH; [exact Hf | eapply grown_token; eassumption].
Qed.

End Grown.

(** ** One token without an error *)

Lemma token_eta t w k : tokenKind t = k -> tokenText t = w -> t = MkToken w k.
Proof. destruct t. cbn. congruence. Qed.

Lemma count_line_errors t c : errorCount (count_line t c) = errorCount c.
Proof. unfold count_line. case_if; reflexivity. Qed.

(** The handler has counted an error. *)
Ltac refused Hf He := exfalso; injection Hf as <-; rewrite ?count_line_errors in He; cbn in He; lia.

Lemma need_key_inv t ins st s ln ec d sg o n pos c1 : s = StBetweenLines \/ s = StNeedKey ->
  d = Z.of_nat (length ins) -> symtab_ok st -> tokenKind t = TkSymbol ->
  feed_token t (MkContext ins st s ln ec d sg o n pos pa er) = Ret c1 -> errorCount c1 = ec ->
  exists sig index, Get st (tokenText t) = Ret (Some (sig, index)) /\
    c1 = in_operands ins [index] st ln ec sig (numOperands sig).
Proof.
  intros Hs -> Hst Hk Hf He. rewrite (token_eta t _ _ Hk eq_refl) in Hf.
  destruct (Get_ok st (tokenText t) Hst) as ([[sig index] |] & Hg & _).
  - rewrite (feed_key_token _ _ _ _ _ _ _ _ _ _ _ _ Hg Hs) in Hf. injection Hf as <-. eauto.
  - exfalso. unfold feed_token in Hf. cbn [tokenKind] in Hf. rewrite bool_decide_false in Hf by discriminate.
    assert (Hkey : forall c, symtab c = st -> doNeedKey (MkToken (tokenText t) TkSymbol) c =
              Ret (true, reported (str "key unknown: " ++ tokenText t) c)).
    { intros c Hc. unfold doNeedKey, mbind, M_bind, gets, lift_res. cbn [tokenKind tokenText]. rewrite Hc, Hg. reflexivity. }
    destruct Hs as [-> | ->]; cbn [state parserFunctionMap] in Hf.
    + change (doBetweenLines (MkToken (tokenText t) TkSymbol) ?c)
        with (@Ret (bool * parserContext) (false, set_pstate StNeedKey c)) in Hf.
      cbv iota beta in Hf. cbn [state parserFunctionMap set_pstate] in Hf. rewrite Hkey in Hf by reflexivity.
      refused Hf He.
    + rewrite Hkey in Hf by reflexivity. refused Hf He.
Qed.

Lemma between_inv t ins st ln ec sg o n pos c1 :
  inner_token t -> symtab_ok st ->
  feed_token t (MkContext ins st StBetweenLines ln ec (Z.of_nat (length ins)) sg o n pos pa er) = Ret c1 -> errorCount c1 = ec ->
  (t = nlToken /\ at_line ins st (ln + 1) ec c1) \/
  (exists w st1, t = MkToken w TkLabel /\ define_label st (Z.of_nat (length ins)) (Some w) = Some st1 /\
     c1 = MkContext ins st1 StNeedKey ln ec (Z.of_nat (length ins)) sg o n pos pa er) \/
  (exists sig index, tokenKind t = TkSymbol /\ Get st (tokenText t) = Ret (Some (sig, index)) /\
     c1 = in_operands ins [index] st ln ec sig (numOperands sig)).
Proof.
  intros [Hne Hnl] Hst Hf He. destruct (decide (tokenKind t = TkSymbol)) as [Hs | Hs].
  { right. right. destruct (need_key_inv t ins st StBetweenLines ln ec _ sg o n pos c1 (or_introl eq_refl) eq_refl Hst Hs Hf He)
      as (sig & index & Hg & Hc). eauto. }
  unfold feed_token in Hf. destruct (decide (tokenKind t = TkError)) as [Er | Er].
  { rewrite bool_decide_true in Hf by exact Er. refused Hf He. }
  rewrite bool_decide_false in Hf by exact Er. cbn [state parserFunctionMap] in Hf. unfold doBetweenLines in Hf.
  destruct (tokenKind t) eqn:Hk; try congruence; try (refused Hf He).
  - left. rewrite (Hnl eq_refl) in Hf |- *. injection Hf as <-. split; [reflexivity |]. do 4 eexists. reflexivity.
  - right. left. exists (tokenText t). cbn [define_label].
    destruct (Define_ok st (tokenText t) (Z.of_nat (length ins)) Hst) as (r & st1 & Hd & _).
    unfold mbind, M_bind, gets, lift_res in Hf. cbn [symtab dot] in Hf. rewrite Hd in Hf |- *.
    destruct r as [i |]; [| refused Hf He]. unfold count_line in Hf. rewrite Hk, bool_decide_false in Hf by discriminate.
    injection Hf as <-. exists st1.
    split; [apply token_eta; auto |]. split; reflexivity.
Qed.

Lemma operand_inv t ins vs st ln ec sg n pos c1 :
  (1 <= length vs < 4)%nat -> Z.of_nat (length vs) <= n -> symtab_ok st ->
  feed_token t (in_operand ins vs st ln ec sg n pos) = Ret c1 -> errorCount c1 = ec ->
  (t = minus_token /\ c1 = in_operand ins vs st ln ec sg n (negb pos)) \/
  (exists num w v st1, t = value_token num w /\ signed_value st pos num w = Some (v, st1) /\
     c1 = in_operands ins (vs ++ [v]) st1 ln ec sg n).
Proof.
  intros Hl Hn Hst Hf He.
  assert (Hval : forall num, tokenKind t = tokenKind (value_token num []) ->
    exists num w v st1, t = value_token num w /\ signed_value st pos num w = Some (v, st1) /\
      c1 = in_operands ins (vs ++ [v]) st1 ln ec sg n).
  { intros num Hk. exists num, (tokenText t). pose proof (feed_value ins vs st ln ec sg n pos num (tokenText t) Hl Hn Hst) as Hv.
    assert (Ht : t = value_token num (tokenText t)) by (apply token_eta; auto).
    rewrite <- Ht in Hv. destruct (signed_value st pos num (tokenText t)) as [[v st1] |].
    - exists v, st1. split; [exact Ht |]. split; [reflexivity | congruence].
    - destruct Hv as (c & Hc & Hce). exfalso. rewrite Hc in Hf. injection Hf as <-. lia. }
  destruct (tokenKind t) eqn:Hk; try (right; apply (Hval true); reflexivity); try (right; apply (Hval false); reflexivity).
  all: left; unfold feed_token in Hf; rewrite Hk in Hf;
    rewrite ?(bool_decide_false (_ = _)) in Hf by discriminate; rewrite ?(bool_decide_true (_ = _)) in Hf by reflexivity.
  all: try (refused Hf He).
  all: cbn [state in_operand parserFunctionMap] in Hf; unfold doNeedExpression in Hf; rewrite Hk in Hf.
  all: try (refused Hf He).
  destruct (decide (tokenText t = str "-")) as [Ht | Ht].
  - rewrite bool_decide_true in Hf by exact Ht. split; [apply token_eta; auto |]. unfold count_line in Hf.
    rewrite Hk, bool_decide_false in Hf by discriminate. injection Hf as <-. reflexivity.
  - rewrite bool_decide_false in Hf by exact Ht. refused Hf He.
Qed.

Lemma newline_inv t ins vs st ln ec sg n c1 :
  inner_token t -> n < Z.of_nat (length vs) -> Z.of_nat (length ins) + 1 < 65536 ->
  feed_token t (in_operands ins vs st ln ec sg n) = Ret c1 -> errorCount c1 = ec ->
  t = nlToken /\ c1 = between (ins ++ [instr_parts vs]) st StBetweenLines (ln + 1) ec.
Proof.
  intros [Hne Hnl] Hn Hd Hf He. destruct (decide (tokenKind t = TkNewline)) as [Hk | Hk].
  - rewrite (Hnl Hk) in Hf |- *. split; [reflexivity |]. pose proof (feed_newline ins vs st ln ec sg n Hn Hd) as Hr.
    cbn [feed] in Hr. rewrite Hf in Hr. congruence.
  - exfalso. unfold in_operands in Hf. rewrite (proj2 (Z.ltb_lt _ _) Hn) in Hf. unfold feed_token in Hf.
    cbn [state parserFunctionMap] in Hf. unfold doNeedNewline in Hf. rewrite (bool_decide_false (tokenKind t = TkNewline)) in Hf by exact Hk.
    destruct (bool_decide (tokenKind t = TkError)); refused Hf He.
Qed.

(** ** A parse without an error *)

(** From [c], the tokens lead to [c'] without an error and end between lines. *)
Definition clean (ts : list Token) (c c' : parserContext) : Prop :=
  feed ts c = Ret c' /\ errorCount c' = errorCount c /\ state c' = StBetweenLines /\
  Z.of_nat (length (instructions c')) < 65536.

Lemma clean_cons t ts c c' : clean (t :: ts) c c' ->
  exists c1, feed_token t c = Ret c1 /\ errorCount c1 = errorCount c /\ clean ts c1 c'.
Proof.
  intros (Hf & He & Hs & Hl). cbn in Hf. destruct (feed_token t c) as [c1 |] eqn:Ht; [| discriminate].
  pose proof (grown_token (errorCount c) 0 t c c1 Ht) as [H1 _]; [split; lia |].
  pose proof (grown_feed (errorCount c1) 0 ts c1 c' Hf) as [H2 _]; [split; lia |].
  exists c1. split; [reflexivity |]. split; [lia |]. split; [exact Hf |]. split; [lia | auto].
Qed.

Lemma clean_room ts c c' : clean ts c c' -> Z.of_nat (length (instructions c)) < 65536.
Proof.
  intros (Hf & _ & _ & Hl). pose proof (grown_feed (errorCount c) (length (instructions c)) ts c c' Hf) as [_ H];
    [split; lia | lia].
Qed.

(** The rest of a program, after the instructions [ins]. *)
Definition rest_is ts ins st (c' : parserContext) : Prop :=
  exists p new, ts = program_tokens p /\ assemble st (Z.of_nat (length ins)) p = Some (new, symtab c') /\
    instructions c' = ins ++ new.

(** The rest of a line that has the parts [vs], of [n] operands. *)
Definition operands_rest ts ins vs st n (c' : parserContext) : Prop :=
  exists os ws st2 ts', ts = mjoin (operand_tokens <$> os) ++ nlToken :: ts' /\
    operand_values st os = Some (ws, st2) /\ Z.of_nat (length vs + length os) = n + 1 /\
    rest_is ts' (ins ++ [instr_parts (vs ++ ws)]) st2 c'.

(** The rest of an operand that has the sign [pos] so far. *)
Definition operand_rest ts ins vs st n pos (c' : parserContext) : Prop :=
  exists m num w v st1 ts', ts = replicate m minus_token ++ value_token num w :: ts' /\
    signed_value st (if Nat.even m then pos else negb pos) num w = Some (v, st1) /\
    operands_rest ts' ins (vs ++ [v]) st1 n c'.

Lemma operand_is_rest ts ins vs st n c' : operand_rest ts ins vs st n true c' -> operands_rest ts ins vs st n c'.
Proof.
  intros (m & num & w & v & st1 & ts' & -> & Hv & os & ws & st2 & ts2 & -> & Hos & Hn & Hr).
  exists (MkOperand m num w :: os), (v :: ws), st2, ts2. rewrite length_app in Hn. cbn [length] in *.
  split; [| split; [| split]].
  - change (mjoin (operand_tokens <$> MkOperand m num w :: os))
      with (operand_tokens (MkOperand m num w) ++ mjoin (operand_tokens <$> os)).
    rewrite <- app_assoc. change (operand_tokens (MkOperand m num w)) with (replicate m minus_token ++ [value_token num w]).
    rewrite <- app_assoc. reflexivity.
  - cbn [operand_values]. unfold operand_value. cbn [minuses numeric word].
    replace (Nat.even m) with (if Nat.even m then true else negb true) by (destruct (Nat.even m); reflexivity).
    rewrite Hv. cbn. rewrite Hos. reflexivity.
  - lia.
  - rewrite <- app_assoc in Hr. exact Hr.
Qed.

Section Inverse.
Context (c' : parserContext).

Definition line_goal ts : Prop := forall ins st ln ec c,
  at_line ins st ln ec c -> symtab_ok st -> clean ts c c' -> rest_is ts ins st c'.

Definition operand_goal ts : Prop := forall ins vs st ln ec sg n pos,
  (1 <= length vs < 4)%nat -> Z.of_nat (length vs) <= n <= 3 -> symtab_ok st ->
  clean ts (in_operand ins vs st ln ec sg n pos) c' -> operand_rest ts ins vs st n pos c'.

Lemma not_clean_nil c : state c <> StBetweenLines -> clean [] c c' -> False.
Proof. intros Hs (Hf & _ & H & _). injection Hf as ->. contradiction. Qed.

(** After an operand: the next one, or the end of the line. *)
Lemma operands_step ts ins vs st ln ec sg n :
  Forall inner_token ts -> operand_goal ts -> (forall t ts', ts = t :: ts' -> line_goal ts') ->
  (1 <= length vs <= 4)%nat -> Z.of_nat (length vs) <= n + 1 -> n <= 3 -> symtab_ok st ->
  clean ts (in_operands ins vs st ln ec sg n) c' -> operands_rest ts ins vs st n c'.
Proof.
  intros Hin Hop Hline Hl Hn H3 Hst Hc. destruct (Z.ltb_spec n (Z.of_nat (length vs))) as [Hlt | Hge].
  - destruct ts as [| t ts'].
    { exfalso. eapply not_clean_nil; [| exact Hc]. unfold in_operands. cbn. case_if; discriminate. }
    pose proof (clean_room _ _ _ Hc) as Hroom. cbn in Hroom. rewrite length_app in Hroom. cbn in Hroom.
    apply clean_cons in Hc as (c1 & Hf & He & Hc). apply Forall_cons_1 in Hin as [Ht _].
    destruct (newline_inv t ins vs st ln ec sg n c1 Ht Hlt ltac:(lia) Hf He) as [-> ->].
    exists [], [], st, ts'. rewrite app_nil_r. split; [reflexivity |]. split; [reflexivity |]. split; [cbn; lia |].
    apply (Hline nlToken ts' eq_refl _ st (ln + 1) ec (between (ins ++ [instr_parts vs]) st StBetweenLines (ln + 1) ec));
      auto. do 4 eexists. reflexivity.
  - apply operand_is_rest. unfold in_operands in Hc. rewrite (proj2 (Z.ltb_ge _ _) Hge) in Hc.
    apply (Hop ins vs st ln ec sg n true); auto; lia.
Qed.

Lemma key_rest ts ins st lab w sig index ln ec :
  Forall inner_token ts -> operand_goal ts -> (forall t ts', ts = t :: ts' -> line_goal ts') -> symtab_ok st ->
  Get st w = Ret (Some (sig, index)) -> clean ts (in_operands ins [index] st ln ec sig (numOperands sig)) c' ->
  exists l mi st1 ts', label l = lab /\ MkToken w TkSymbol :: ts = key_tokens l ++ ts' /\
    assemble_key st l = Some (mi, st1) /\ rest_is ts' (ins ++ [mi]) st1 c'.
Proof.
  intros Hin Hop Hline Hst Hg Hc. pose proof (numOperands_range sig).
  destruct (operands_step ts ins [index] st ln ec sig (numOperands sig) Hin Hop Hline) as (os & ws & st2 & ts' & -> & Hos & Hn & Hr);
    auto; [cbn; lia .. |].
  exists (MkLine lab w os), (instr_parts ([index] ++ ws)), st2, ts'. split; [reflexivity |].
  split; [unfold key_tokens; cbn; rewrite <- app_assoc; reflexivity |]. split; [| exact Hr].
  unfold assemble_key. cbn [key args]. rewrite Hg, (proj2 (Z.eqb_eq _ _)) by (cbn in Hn; lia). rewrite Hos. reflexivity.
Qed.

(** The line that the key closes, with the label before it. *)
Lemma line_rest ts ins st st1 l mi st2 ts' lab :
  label l = lab -> define_label st (Z.of_nat (length ins)) lab = Some st1 ->
  ts = key_tokens l ++ ts' -> assemble_key st1 l = Some (mi, st2) -> rest_is ts' (ins ++ [mi]) st2 c' ->
  rest_is (match lab with None => ts | Some w => MkToken w TkLabel :: ts end) ins st c'.
Proof.
  intros Hlab Hd -> Ha (p & new & -> & Hp & Hi). exists (Some l :: p), (mi :: new). rewrite length_app in Hp. cbn in Hp.
  split; [| split].
  - change (program_tokens (Some l :: p)) with (line_tokens (Some l) ++ program_tokens p). unfold line_tokens. rewrite Hlab.
    destruct lab; reflexivity.
  - cbn [assemble]. unfold assemble_line. rewrite Hlab, Hd. cbn. rewrite Ha. cbn.
    rewrite Nat2Z.inj_add in Hp. change (Z.of_nat 1) with 1 in Hp. rewrite Hp. reflexivity.
  - rewrite Hi, <- app_assoc. reflexivity.
Qed.

Lemma key_is_symbol t ins st ln ec d sg o n pos c2 :
  feed_token t (MkContext ins st StNeedKey ln ec d sg o n pos pa er) = Ret c2 -> errorCount c2 = ec -> tokenKind t = TkSymbol.
Proof.
  intros Hf He. destruct (decide (tokenKind t = TkSymbol)) as [E | E]; [exact E | exfalso].
  unfold feed_token in Hf. destruct (bool_decide (tokenKind t = TkError)); [refused Hf He |].
  cbn [state parserFunctionMap] in Hf. unfold doNeedKey in Hf. destruct (tokenKind t); try congruence; refused Hf He.
Qed.

(** What the induction knows of a shorter list of tokens. *)
Definition goals ts : Prop := Forall inner_token ts -> line_goal ts /\ operand_goal ts.

Lemma symbol_step t ts ins st s lab st0 ln ec sg o n pos c1 :
  Forall inner_token (t :: ts) -> (forall us, (length us <= length ts)%nat -> goals us) -> symtab_ok st ->
  define_label st0 (Z.of_nat (length ins)) lab = Some st -> s = StBetweenLines \/ s = StNeedKey ->
  feed_token t (MkContext ins st s ln ec (Z.of_nat (length ins)) sg o n pos pa er) = Ret c1 -> errorCount c1 = ec ->
  tokenKind t = TkSymbol -> clean ts c1 c' ->
  rest_is (match lab with None => t :: ts | Some w => MkToken w TkLabel :: t :: ts end) ins st0 c'.
Proof.
  intros Hin IH Hst Hd Hs Hf He Hk Hc. apply Forall_cons_1 in Hin as [Ht Hts].
  destruct (need_key_inv t ins st s ln ec _ sg o n pos c1 Hs eq_refl Hst Hk Hf He) as (sig & index & Hg & ->).
  destruct (key_rest ts ins st lab (tokenText t) sig index ln ec Hts) as (l & mi & st2 & ts' & Hlab & Htoks & Ha & Hr); auto.
  - apply (IH ts ltac:(lia) Hts).
  - intros t' ts' ->. apply Forall_cons_1 in Hts. apply (IH ts'); [cbn; lia | apply Hts].
  - apply (line_rest (t :: ts) ins st0 st l mi st2 ts' lab Hlab Hd); auto.
    rewrite (token_eta t _ _ Hk eq_refl). exact Htoks.
Qed.

Lemma line_step t ts : Forall inner_token (t :: ts) -> (forall us, (length us <= length ts)%nat -> goals us) ->
  line_goal (t :: ts).
Proof.
  intros Hin IH ins st ln ec c (sg & o & n & pos & ->) Hst Hc. apply clean_cons in Hc as (c1 & Hf & He & Hc).
  pose proof (Forall_cons_1 _ _ _ Hin) as [Ht Hts].
  destruct (between_inv t ins st ln ec sg o n pos c1 Ht Hst Hf He) as
    [[-> Hat] | [(w & st1 & -> & Hd & ->) | (sig & index & Hk & Hg & Hc1)]].
  - destruct (IH ts ltac:(lia) Hts) as [Hline _].
    destruct (Hline ins st (ln + 1) ec c1 Hat Hst Hc) as (p & new & -> & Ha & Hi).
    exists (None :: p), new. repeat split; assumption.
  - destruct ts as [| t2 ts2]; [exfalso; eapply not_clean_nil; [| exact Hc]; discriminate |].
    apply clean_cons in Hc as (c2 & Hf2 & He2 & Hc2). pose proof (key_is_symbol _ _ _ _ _ _ _ _ _ _ _ Hf2 He2) as Hk2.
    apply (symbol_step t2 ts2 ins st1 StNeedKey (Some w) st ln ec sg o n pos c2); auto; [| eapply label_ok; eassumption].
    intros us Hus. apply IH. cbn. lia.
  - apply (symbol_step t ts ins st StBetweenLines None st ln ec sg o n pos c1); auto.
Qed.

Lemma operand_step t ts : Forall inner_token (t :: ts) -> (forall us, (length us <= length ts)%nat -> goals us) ->
  operand_goal (t :: ts).
Proof.
  intros Hin IH ins vs st ln ec sg n pos Hl Hn Hst Hc. apply clean_cons in Hc as (c1 & Hf & He & Hc).
  pose proof (Forall_cons_1 _ _ _ Hin) as [Ht Hts]. destruct (IH ts ltac:(lia) Hts) as [_ Hop].
  destruct (operand_inv t ins vs st ln ec sg n pos c1 Hl ltac:(lia) Hst Hf He) as
    [[-> ->] | (num & w & v & st1 & -> & Hv & ->)].
  - destruct (Hop ins vs st ln ec sg n (negb pos) Hl Hn Hst Hc) as (m & num & w & v & st1 & ts' & -> & Hv & Hr).
    exists (S m), num, w, v, st1, ts'. split; [reflexivity |]. split; [| exact Hr].
    rewrite Nat.even_succ, <- Nat.negb_even. destruct (Nat.even m), pos; exact Hv.
  - exists O, num, w, v, st1, ts. split; [reflexivity |]. split; [exact Hv |].
    apply (operands_step ts ins (vs ++ [v]) st1 ln ec sg n); auto; rewrite ?length_app; cbn; try lia.
    + intros t' ts' ->. apply Forall_cons_1 in Hts. apply (IH ts'); [cbn; lia | apply Hts].
    + eapply signed_ok; eassumption.
Qed.

Lemma feed_inv ts : goals ts.
Proof.
  induction ts as [ts IH] using (induction_ltof1 _ (@length Token)). unfold ltof in IH. intros Hin.
  destruct ts as [| t ts].
  - split.
    + intros ins st ln ec c (sg & o & n & pos & ->) Hst (Hf & _ & _ & _). injection Hf as <-.
      exists [], []. rewrite app_nil_r. repeat split; reflexivity.
    + intros ins vs st ln ec sg n pos Hl Hn Hst Hc. exfalso. eapply not_clean_nil; [| exact Hc]. discriminate.
  - assert (H : forall us, (length us <= length ts)%nat -> goals us) by (intros us Hus; apply IH; cbn; lia).
    split; [apply line_step; assumption | apply operand_step; assumption].
Qed.

End Inverse.

End Machine.
