(* ===== verification/Yapl0.v ===== *)
(** * The retired compiler yapl-0

    SAVE/yapl-0: the lexer (lexer.go) over its pushback reader (pbr.go), translated
    on its own, and the main program (yapl.go), which exits at once.  The types of
    tokens and states are those of [Lex].  The last part is the instance of the
    shared lexing machine for this language; [yapl0_simulates] proves that the
    lexer is that instance. *)

From S2P Require Import Prelude GoStr Lex LexProps.

(** ** util.go *)

Definition assert0 {S} (b : bool) (msg : string) : M S unit := if b then mret tt else panic ("assertion failure: " +:+ msg).

(** ** pbr.go *)

(** The reader: the bytes still to come, the error after them if it is not the end
    of the file, and the pushed back byte or 0. *)
Record PBR := MkPBR { br : list Z; br_err : option (list Z); pb0 : Z }.

Record Lexer0 := MkLexer0 {
  reader : PBR;
  lexerState0 : lexerStateType;
  path : list Z;
  pbToken0 : option Token
}.

Abbreviation L0 := (M Lexer0).

Definition set_reader v lx := MkLexer0 v lx.(lexerState0) lx.(path) lx.(pbToken0).
Definition set_state0 v lx := MkLexer0 lx.(reader) v lx.(path) lx.(pbToken0).
Definition set_pbToken0 v lx := MkLexer0 lx.(reader) lx.(lexerState0) lx.(path) v.

(** [NewFilePushbackByteReader] and [NewStringPushbackByteReader]; a string has no
    error after it.  [NewPathPushbackByteReader] opens the file first. *)
Definition NewFilePushbackByteReader (content : list Z) (e : option (list Z)) : PBR := MkPBR content e 0.
Definition NewStringPushbackByteReader (body : list Z) : PBR := MkPBR body None 0.
Definition NewPathPushbackByteReader (open : list Z -> option (list Z * option (list Z))) (path : list Z) : option PBR :=
  '(content, e) ← open path; Some (NewFilePushbackByteReader content e).

Definition PBR_ReadByte : L0 read :=
  p ← gets reader;
  if negb (pb0 p =? 0) then modify (set_reader (MkPBR (br p) (br_err p) 0));; mret (Byte (pb0 p))
  else
    match br p with
    | b :: r => modify (set_reader (MkPBR r (br_err p) (pb0 p)));; mret (Byte b)
    | [] => mret (match br_err p with None => ReadEOF | Some msg => ReadErr msg end)
    end.

Definition PBR_UnreadByte (b : Z) : L0 unit :=
  assert0 (negb (b =? 0)) "PushbackByteReader: cannot pushback nul";;
  p ← gets reader;
  assert0 (pb0 p =? 0) "PushbackByteReader: too many pushbacks";;
  modify (set_reader (MkPBR (br p) (br_err p) b)).

(** [Close]: neither [bufio.Reader] nor [strings.Reader] is an [io.Closer], so that
    the result is nil and nothing is closed. *)
Definition PBR_Close : L0 bool := mret true.

(** ** Characters *)

Definition isWhiteSpaceChar0 (b : Z) : bool := (b =? 32) || (b =? 9) || (b =? 10).
Definition isDigitChar0 (b : Z) : bool := (48 <=? b) && (b <=? 57).
Definition isHexLetter0 (b : Z) : bool :=
  if (65 <=? b) && (b <=? 70) then true else if (97 <=? b) && (b <=? 102) then true else false.
Definition isX0 (b : Z) : bool := (b =? 120) || (b =? 88).
Definition isQuoteChar0 (b : Z) : bool := b =? 34.
Definition isOperatorChar0 (b : Z) : bool := false.

Definition isInitialSymbolChar0 (b : Z) : bool :=
  if (97 <=? b) && (b <=? 122) then true
  else if (b =? 46) || (b =? 95) then true
  else if (65 <=? b) && (b <=? 90) then true
  else false.

Definition isSymbolChar0 (b : Z) : bool :=
  if (97 <=? b) && (b <=? 122) then true
  else if (48 <=? b) && (b <=? 57) then true
  else if b =? 95 then true
  else if (65 <=? b) && (b <=? 90) then true
  else false.

(** The loop of [validNumber] from [digitOffset] on. *)
Fixpoint valid_digits (isHex : bool) (num : list Z) : bool :=
  match num with
  | [] => true
  | b :: num' =>
    if isDigitChar0 b then valid_digits isHex num'
    else if isHex && isHexLetter0 b then valid_digits isHex num'
    else false
  end.

Definition validNumber0 (num : list Z) : bool :=
  let isHex := (2 <? Z.of_nat (length num)) && (nth 0 num 0 =? 48) && isX0 (nth 1 num 0) in
  let digitOffset := if isHex then 2%nat else 0%nat in
  valid_digits isHex (drop digitOffset num).

(** ** Tokens *)

Definition kindToString (k : TokenKindType) : string :=
  match k with
  | TkError => "TkError" | TkNewline => "TkNewline" | TkSymbol => "TkSymbol" | TkLabel => "TkLabel"
  | TkString => "TkString" | TkNumber => "TkNumber" | TkOperator => "TkOperator" | TkEOF => "TkEOF"
  end.

(** [func (t *Token) String() string] *)
Definition Token_String (t : Token) : list Z :=
  let s := if bool_decide (tokenText t = [10]) then [92; 110] else tokenText t in
  str "{" ++ str (kindToString (tokenKind t)) ++ str " " ++ s ++ str "}".

(** ** The lexer *)

Definition MakePathLexer (open : list Z -> option (list Z * option (list Z))) (path : list Z) : option Lexer0 :=
  pbr ← NewPathPushbackByteReader open path; Some (MkLexer0 pbr stBetween path None).
Definition MakeFileLexer (content : list Z) (e : option (list Z)) : Lexer0 :=
  MkLexer0 (NewFilePushbackByteReader content e) stBetween (str "stdin") None.
Definition MakeStringLexer (ident body : list Z) : Lexer0 :=
  MkLexer0 (NewStringPushbackByteReader body) stBetween ident None.

Definition Lexer_Close : L0 bool := PBR_Close.

(** A token returned in a new state. *)
Definition give (st : lexerStateType) (t : Token) : L0 Token := modify (set_state0 st);; mret t.

Definition error_token (msg : list Z) : Token := MkToken msg TkError.

Definition char_msg (b : Z) (where_ : string) : list Z :=
  str "character 0x" ++ fmt_x2 b ++ str " (" ++ fmt_byte b ++ str ") unexpected" ++ str where_.

(** The read loop of [internalGetToken]; every round reads a byte. *)
Fixpoint token_loop (fuel : nat) (accumulator : list Z) : L0 Token :=
  match fuel with
  | O => panic lex_fuel
  | S fuel' =>
    r ← PBR_ReadByte;
    match r with
    | ReadEOF => give stEnd eofToken
    | ReadErr msg => give stInError (error_token msg)
    | Byte b =>
      if 128 <=? b then give stInError (error_token (str "non-ASCII character 0x" ++ fmt_x2 b))
      else
        st ← gets lexerState0;
        match st with
        | stInError | stInComment => if b =? 10 then give stBetween nlToken else token_loop fuel' accumulator
        | stBetween =>
          if negb (Z.of_nat (length accumulator) =? 0) then panic "token accumulator not empty between tokens"
          else if b =? 10 then mret nlToken
          else if isWhiteSpaceChar0 b then token_loop fuel' accumulator
          else if isDigitChar0 b then modify (set_state0 stInNumber);; token_loop fuel' (accumulator ++ [b])
          else if isInitialSymbolChar0 b then modify (set_state0 stInSymbol);; token_loop fuel' (accumulator ++ [b])
          else if isQuoteChar0 b then modify (set_state0 stInString);; token_loop fuel' accumulator
          else if isOperatorChar0 b then give stBetween (MkToken [b] TkOperator)
          else give stInError (error_token (char_msg b " [1]"))
        | stInSymbol =>
          if Z.of_nat (length accumulator) =? 0 then panic "token accumulator empty in symbol"
          else if isWhiteSpaceChar0 b || isOperatorChar0 b then
            modify (set_state0 stBetween);; PBR_UnreadByte b;; mret (MkToken accumulator TkSymbol)
          else if isSymbolChar0 b then token_loop fuel' (accumulator ++ [b])
          else give stInError (error_token (char_msg b " [2]"))
        | stInString =>
          if isQuoteChar0 b then give stBetween (MkToken ([34] ++ accumulator ++ [34]) TkString)
          else if b =? 10 then give stInError (error_token (str "newline in string"))
          else token_loop fuel' (accumulator ++ [b])
        | stInNumber =>
          if isDigitChar0 b || isHexLetter0 b || isX0 b then token_loop fuel' (accumulator ++ [b])
          else if isWhiteSpaceChar0 b || isOperatorChar0 b then
            result ← (if negb (validNumber0 accumulator)
                      then give stInError (error_token (str "invalid number " ++ accumulator))
                      else give stBetween (MkToken accumulator TkNumber));
            PBR_UnreadByte b;;
            mret result
          else give stInError (error_token (char_msg b " in number"))
        | stInOperator | stEnd => token_loop fuel' accumulator
        end
    end
  end.

(** The number of rounds is bounded by the bytes to come and the one pushed back. *)
Definition internalGetToken0 : L0 Token :=
  st ← gets lexerState0;
  if bool_decide (st = stEnd) then mret eofToken
  else
    p ← gets pbToken0;
    match p with
    | Some result =>
      modify (set_pbToken0 None);;
      st ← gets lexerState0;
      if negb (bool_decide (st = stBetween)) then
        modify (set_state0 stInError);;
        mret (error_token (str "internal error: pbToken but not between tokens"))
      else mret result
    | None =>
      r ← gets reader;
      token_loop (S (S (length (br r)))) []
    end.

(** [LexerDebug] is false. *)
Definition GetToken0 : L0 Token := internalGetToken0.

(** The result is whether the error is nil. *)
Definition Unget0 (tk : Token) : L0 bool :=
  p ← gets pbToken0;
  match p with
  | Some _ => modify (set_state0 stInError);; mret false
  | None =>
    st ← gets lexerState0;
    if negb (bool_decide (st = stBetween)) then modify (set_state0 stInError);; mret false
    else modify (set_pbToken0 (Some tk));; mret true
  end.

(** [main]: the exit code. *)
Definition main : Z := 0.

(** ** The shared machine, for this language *)

Definition yapl0_lang : LexLang := {|
  isComment := fun _ => false;
  isOperatorChar := fun _ => false;
  isSkipped := fun _ => false;
  endsLabel := fun _ => false
|}.

Lemma yapl0_laws : LexLaws yapl0_lang.
Proof. split; cbn; discriminate. Qed.

(** *** Characters *)

Lemma hex_letter_same b : isHexLetter0 b = isHexLetter b.
Proof. unfold isHexLetter0, isHexLetter. repeat case_if; reflexivity. Qed.

Lemma initial_same b : isInitialSymbolChar0 b = isInitialSymbolChar b.
Proof.
  unfold isInitialSymbolChar0, isInitialSymbolChar.
  destruct ((97 <=? b) && (b <=? 122)), (b =? 46), (b =? 95), ((65 <=? b) && (b <=? 90)); reflexivity.
Qed.

Lemma symbol_same b : isSymbolChar0 b = isSymbolChar b.
Proof.
  unfold isSymbolChar0, isSymbolChar.
  destruct ((97 <=? b) && (b <=? 122)), ((48 <=? b) && (b <=? 57)), (b =? 95), ((65 <=? b) && (b <=? 90)); reflexivity.
Qed.

Lemma valid_digits_same isHex num : valid_digits isHex num = forallb (fun b => isDigitChar b || isHex && isHexLetter b) num.
Proof.
  induction num as [| b num IH]; [reflexivity |]. cbn [valid_digits forallb]. rewrite hex_letter_same, IH.
  change (isDigitChar0 b) with (isDigitChar b). destruct (isDigitChar b); [reflexivity |]. destruct isHex; reflexivity.
Qed.

Lemma forallb_digits num : forallb (fun b => isDigitChar b || false && isHexLetter b) num = forallb isDigitChar num.
Proof. induction num as [| b num IH]; [reflexivity |]. cbn [forallb]. rewrite IH, orb_false_r. reflexivity. Qed.

Lemma validNumber_same num : validNumber0 num = validNumber num.
Proof.
  unfold validNumber0. cbv zeta. rewrite valid_digits_same. destruct num as [| c [| x [| d ds]]]; try apply forallb_digits.
  cbn [nth length]. rewrite (proj2 (Z.ltb_lt 2 _)) by lia. cbn [andb]. change (isX0 x) with (isX x).
  unfold validNumber. destruct ((c =? 48) && isX x); [reflexivity | apply forallb_digits].
Qed.

(** *** The simulation *)

(** The state of the shared machine. *)
Definition view (lx : Lexer0) : Lexer :=
  MkLexer (br (reader lx)) (br_err (reader lx)) (pb0 (reader lx)) (lexerState0 lx) (pbToken0 lx).

(** A computation of yapl-0 does what one of the shared machine does, with the same
    result, a panic when it panics, and the path kept. *)
Definition sim_at {A} (lx : Lexer0) (m : L0 A) (m' : L A) : Prop :=
  match m lx, m' (view lx) with
  | Ret (a, lx1), Ret (a', lx') => a = a' /\ view lx1 = lx' /\ path lx1 = path lx
  | Panic _, Panic _ => True
  | _, _ => False
  end.

Definition simulates {A} (m : L0 A) (m' : L A) : Prop := forall lx, sim_at lx m m'.

Lemma sim_ret {A} (a : A) : simulates (mret a) (mret a).
Proof. intros lx. cbn. auto. Qed.

Lemma sim_panic {A} w w' : simulates (panic (A := A) w) (panic w').
Proof. intros lx. exact I. Qed.

Lemma sim_bind_at {A B} lx (m : L0 A) m' (f : A -> L0 B) f' :
  sim_at lx m m' -> (forall a lx1, m lx = Ret (a, lx1) -> sim_at lx1 (f a) (f' a)) -> sim_at lx (m ≫= f) (m' ≫= f').
Proof.
  intros Hm Hf. unfold sim_at in *. unfold mbind, M_bind. destruct (m lx) as [[a lx1] |], (m' (view lx)) as [[a' lx'] |]; try destruct Hm; auto.
  subst a'. destruct H0 as [<- Hp]. specialize (Hf a lx1 eq_refl). destruct (f a lx1) as [[b lx2] |], (f' a (view lx1)) as [[b' lx2'] |]; auto.
  destruct Hf as (-> & <- & E). rewrite E, Hp. auto.
Qed.

Lemma sim_bind {A B} (m : L0 A) m' (f : A -> L0 B) f' :
  simulates m m' -> (forall a, simulates (f a) (f' a)) -> simulates (m ≫= f) (m' ≫= f').
Proof. intros Hm Hf lx. apply sim_bind_at; [apply Hm | intros a lx1 _; apply Hf]. Qed.

Lemma sim_modify (f : Lexer0 -> Lexer0) f' : (forall lx, view (f lx) = f' (view lx)) -> (forall lx, path (f lx) = path lx) -> simulates (modify f) (modify f').
Proof. intros H Hp lx. cbn. auto. Qed.

Lemma sim_state st : simulates (modify (set_state0 st)) (modify (set_state st)).
Proof. apply sim_modify; reflexivity. Qed.

Lemma sim_give st t : simulates (give st t) (modify (set_state st);; mret t).
Proof. apply sim_bind; [apply sim_state | intros _; apply sim_ret]. Qed.

(** Setting the state that the lexer is in changes nothing. *)
Lemma sim_same {A} lx st (m : L0 A) m' : lexerState0 lx = st -> sim_at lx m m' -> sim_at lx m (modify (set_state st);; m').
Proof. intros <- H. exact H. Qed.

Lemma sim_read : simulates PBR_ReadByte ReadByte.
Proof.
  intros [[r e p] st pa pt]. unfold sim_at, PBR_ReadByte, ReadByte, mbind, M_bind, gets, view. cbn.
  destruct (negb (p =? 0)); [cbn; auto |]. destruct r; cbn; auto.
Qed.

Lemma sim_unread b : simulates (PBR_UnreadByte b) (UnreadByte b).
Proof.
  intros [[r e p] st pa pt]. unfold sim_at, PBR_UnreadByte, UnreadByte, assert0, mbind, M_bind, gets, view. cbn.
  destruct (b =? 0); cbn; [exact I |]. destruct (p =? 0); cbn; auto.
Qed.

(** What the machine does with an action. *)
Definition perform (fuel : nat) (b : Z) (a : action) : L Token :=
  match a with
  | Continue st' acc' => modify (set_state st');; @lex_loop yapl0_lang fuel acc'
  | Return st' t unread => modify (set_state st');; (if (unread : bool) then UnreadByte b else mret tt);; mret t
  | Fault why => panic why
  end.

Section Round.
Context (fuel : nat) (IH : forall acc, simulates (token_loop fuel acc) (@lex_loop yapl0_lang fuel acc)) (b : Z) (acc : list Z).

Lemma sim_continue st acc' : simulates (modify (set_state0 st);; token_loop fuel acc') (perform fuel b (Continue st acc')).
Proof using IH. apply sim_bind; [apply sim_state | intros _; apply IH]. Qed.

Lemma sim_return st t : simulates (give st t) (perform fuel b (Return st t false)).
Proof using Type. apply sim_bind; [apply sim_state |]. intros _ lx. exact (sim_ret t lx). Qed.

Lemma sim_return_unread st t : simulates (modify (set_state0 st);; PBR_UnreadByte b;; mret t) (perform fuel b (Return st t true)).
Proof using Type. apply sim_bind; [apply sim_state | intros _]. apply sim_bind; [apply sim_unread | intros _; apply sim_ret]. Qed.

Lemma sim_stay lx st acc' : lexerState0 lx = st -> sim_at lx (token_loop fuel acc') (perform fuel b (Continue st acc')).
Proof using IH. intros E. apply sim_same; [exact E | apply IH]. Qed.

Lemma sim_stay_return lx st t : lexerState0 lx = st -> sim_at lx (mret t) (perform fuel b (Return st t false)).
Proof using Type. intros E. apply sim_same; [exact E |]. exact (sim_ret t lx). Qed.

End Round.

Lemma sim_gets_l {A B} lx (g : Lexer0 -> A) (f : A -> L0 B) m' : sim_at lx (f (g lx)) m' -> sim_at lx (gets g ≫= f) m'.
Proof. exact id. Qed.

Lemma sim_gets_r {A B} lx m (g : Lexer -> A) (f : A -> L B) : sim_at lx m (f (g (view lx))) -> sim_at lx m (gets g ≫= f).
Proof. exact id. Qed.

Lemma token_loop_simulates fuel acc : simulates (token_loop fuel acc) (@lex_loop yapl0_lang fuel acc).
Proof.
  revert acc. induction fuel as [| fuel IH]; intros acc; [apply sim_panic |]. intros lx0. cbn [token_loop lex_loop].
  apply sim_bind_at; [apply sim_read |]. intros r lx _. destruct r as [b | | msg]; [| apply sim_give | apply sim_give].
  apply sim_gets_r. change (lexerState (view lx)) with (lexerState0 lx).
  match goal with |- sim_at lx ?m _ => change (sim_at lx m (perform fuel b (@lex_byte yapl0_lang (lexerState0 lx) acc b))) end.
  unfold lex_byte. destruct (128 <=? b); [apply sim_return |]. apply sim_gets_l.
  destruct (lexerState0 lx) eqn:Est.
  - unfold lex_between. cbn [isComment isOperatorChar yapl0_lang].
    change (isWhiteSpaceChar0 b) with (isWhiteSpaceChar b). change (isDigitChar0 b) with (isDigitChar b).
    change (isQuoteChar0 b) with (isQuoteChar b). change (b =? NL) with (b =? 10). change (isOperatorChar0 b) with false. rewrite initial_same.
    repeat case_if; try apply sim_panic; try (now apply sim_stay_return); try (now apply sim_stay); try (now apply sim_continue); apply sim_return.
  - change (b =? NL) with (b =? 10). case_if; [apply sim_return | now apply sim_stay].
  - unfold lex_symbol. cbn [isOperatorChar endsLabel yapl0_lang]. change (isWhiteSpaceChar0 b) with (isWhiteSpaceChar b). rewrite symbol_same.
    change (isOperatorChar0 b) with false.
    repeat case_if; try apply sim_panic; try apply sim_return_unread; try (now apply sim_stay); apply sim_return.
  - unfold lex_string. change (isQuoteChar0 b) with (isQuoteChar b). change (b =? NL) with (b =? 10).
    repeat case_if; try (now apply sim_stay); apply sim_return.
  - unfold lex_number. cbn [isOperatorChar yapl0_lang]. change (isWhiteSpaceChar0 b) with (isWhiteSpaceChar b). rewrite hex_letter_same, validNumber_same.
    change (isDigitChar0 b) with (isDigitChar b). change (isX0 b) with (isX b). change (isOperatorChar0 b) with false.
    case_if; [now apply sim_stay |]. case_if; [| apply sim_return]. case_if; exact (sim_return_unread fuel b _ _ lx).
  - now apply sim_stay.
  - change (b =? NL) with (b =? 10). case_if; [apply sim_return | now apply sim_stay].
  - now apply sim_stay.
Qed.

(** The lexer is the instance of the shared machine. *)
Lemma yapl0_simulates : simulates GetToken0 (@GetToken yapl0_lang) /\ forall tk, simulates (Unget0 tk) (Unget tk).
Proof.
  split.
  - intros lx. apply sim_gets_l, sim_gets_r. change (lexerState (view lx)) with (lexerState0 lx). case_if; [exact (sim_ret eofToken lx) |].
    apply sim_gets_l, sim_gets_r. change (pbToken (view lx)) with (pbToken0 lx). destruct (pbToken0 lx) as [t |].
    + apply sim_bind_at; [apply (sim_modify (set_pbToken0 None)); reflexivity |]. intros [] lx1 [= <-]. apply sim_gets_l.
      change (lexerState0 (set_pbToken0 None lx)) with (lexerState0 lx). case_if; [apply sim_give | apply sim_ret].
    + apply sim_gets_l, sim_gets_r. apply token_loop_simulates.
  - intros tk lx. apply sim_gets_l, sim_gets_r. change (pbToken (view lx)) with (pbToken0 lx). destruct (pbToken0 lx) as [t |].
    + apply sim_bind; [apply sim_state | intros _; apply sim_ret].
    + apply sim_gets_l, sim_gets_r. change (lexerState (view lx)) with (lexerState0 lx). case_if.
      * apply sim_bind; [apply sim_state | intros _; apply sim_ret].
      * apply sim_bind; [apply sim_modify; reflexivity | intros _; apply sim_ret].
Qed.
