(* ===== verification/AsmTheorems.v ===== *)
(** * The theorems of the retired assembler and of the lexers

    The lexers read the lexical grammar and are total; the parser is total, and
    without an error it accepts exactly the programs of the reference assembler
    and gives its instructions; the symbol table. *)

From S2P Require Import Prelude GoStr Lex LexProps LexGrammar Asm AsmProps AsmRef.
From S2P Require Yapl0.

(** ** The lexers *)

Lemma lang_laws (lang : LexLang) : lang = asm_lang \/ lang = Yapl0.yapl0_lang -> LexLaws lang.
Proof. intros [-> | ->]; [apply asm_laws | apply Yapl0.yapl0_laws]. Qed.

Section SourceBytes.
Context `{LexLang} `{!LexLaws _}.

Lemma ascii_u8 b : 0 <= b < 128 -> is_u8 b.
Proof. unfold is_u8. lia. Qed.

Lemma word_u8 w : is_word w -> Forall is_u8 w.
Proof.
  intros (c & cs & -> & Hc & Hcs). constructor; [apply ascii_u8, initial_char_facts, Hc |].
  eapply Forall_impl; [exact Hcs |]. intros b Hb. apply ascii_u8, symbol_char_facts, Hb.
Qed.

Lemma numeral_u8 w : is_numeral w -> Forall is_u8 w.
Proof.
  intros (c & cs & -> & Hc & Hcs & _). constructor; [apply ascii_u8, digit_char_facts, Hc |].
  eapply Forall_impl; [exact Hcs |]. intros b Hb. apply ascii_u8, symbol_char_facts, number_char_symbol, Hb.
Qed.

Lemma spells_u8 t txt : spells t txt -> Forall is_u8 txt.
Proof.
  intros [w Hw | w k Hw Hk | w Hw | body Hb | b Ho Hs |]; auto using word_u8, numeral_u8.
  - apply Forall_app. split; [apply word_u8, Hw |]. destruct (label_is_op k Hk) as [Ho _]. pose proof (op_ascii k Ho).
    repeat constructor; lia.
  - apply Forall_app. split; [repeat constructor; lia |]. apply Forall_app. split; [| repeat constructor; lia].
    eapply Forall_impl; [exact Hb |]. intros b (Hr & _). apply ascii_u8, Hr.
  - pose proof (op_ascii b Ho). repeat constructor; lia.
  - repeat constructor; unfold NL; lia.
Qed.

Lemma blank_u8 b : isBlank b = true -> is_u8 b.
Proof.
  unfold isBlank. intros E. apply orb_prop in E as [E | E].
  - unfold SP, TAB in E. apply orb_prop in E as [E | E]; apply Z.eqb_eq in E; subst; unfold is_u8; lia.
  - apply andb_prop in E as [Eo _]. pose proof (op_ascii b Eo). unfold is_u8. lia.
Qed.

Lemma source_u8 ts inp : source ts inp -> Forall is_u8 inp.
Proof.
  induction 1 as [| b ts inp Hb _ IH | c body ts inp Hc Hr Hbody _ IH | t txt ts inp Hs Hd _ IH].
  - constructor.
  - constructor; [apply blank_u8, Hb | exact IH].
  - constructor; [apply ascii_u8, Hr |]. apply Forall_app. split.
    + eapply Forall_impl; [exact Hbody |]. intros b [Hb _]. apply ascii_u8, Hb.
    + constructor; [unfold is_u8, NL; lia | exact IH].
  - apply Forall_app. split; [eapply spells_u8, Hs | exact IH].
Qed.

End SourceBytes.

(** C21: the lexer of the assembler implements its lexical grammar.  On every text that
    spells a list of tokens (symbols, labels that a colon ends, numbers, strings,
    operators and newlines, with blanks, commas and comments between them) the lexer
    returns these tokens with their texts, and then the end. *)
Theorem lexer_reads_grammar (ts : list Token) (inp : list Z) (fuel : nat) (Hs : source ts inp) (Hf : (length ts < fuel)%nat) :
  exists lx', read_tokens fuel (MakeLexer inp None) = Ret (ts ++ [eofToken], lx') /\ lexerState lx' = stEnd.
Proof. apply read_scans; auto; [apply MakeLexer_ok, (source_u8 ts inp Hs) | apply scan_source, Hs]. Qed.

(** The lexers are total.  On every list of bytes, whatever they are, no
    call panics, exceeds the pushback of one byte or loops: at most as many tokens
    as bytes come before the end, and the end is the last one. *)
Theorem lexer_total (lang : LexLang) (inp : list Z) (fuel : nat)
    (Hlang : lang = asm_lang \/ lang = Yapl0.yapl0_lang) (Hu : Forall is_u8 inp) (Hf : (length inp < fuel)%nat) :
  exists ts lx', read_tokens fuel (MakeLexer inp None) = Ret (ts ++ [eofToken], lx') /\ lexerState lx' = stEnd /\
    (length ts <= length inp)%nat /\ Forall inner_token ts.
Proof.
  pose proof (lang_laws lang Hlang) as Hlaws.
  apply (read_all fuel (MakeLexer inp None)); auto using MakeLexer_ok.
Qed.

(** ** The symbol table *)

Lemma fold_create_ok (l : list (list Z * Z)) st :
  symtab_ok st -> NoDup l.*1 -> (forall n, n ∈ l.*1 -> indexes st !! n = None) ->
  symtab_ok (fold_left (fun st e => (internalCreateSymbol st e.1 symDefined e.2).2) l st).
Proof.
  revert st. induction l as [| [n v] l IH]; intros st Hst Hnd Hnew; [exact Hst |]. cbn [fold_left fst snd].
  cbn in Hnd. apply NoDup_cons in Hnd as [Hn Hnd].
  destruct (create_ok st n symDefined v Hst) as (H1 & _ & _); [apply Hnew; left |].
  apply IH; [exact H1 | exact Hnd |]. intros m Hm. unfold internalCreateSymbol. case_if; cbn.
  - apply Hnew. right. exact Hm.
  - rewrite lookup_insert_ne by (intros ->; contradiction). apply Hnew. right. exact Hm.
Qed.

(** The names and values that the table starts with. *)
Definition initial_symbols : list (list Z * Z) :=
  ((fun i => ([114; 48 + i], i)) <$> seqZ 0 8) ++ ((fun k => (name k, signature k)) <$> KeyTable).

Lemma fold_left_fmap {A B C} (f : C -> B -> C) (g : A -> B) l a :
  fold_left f (g <$> l) a = fold_left (fun a x => f a (g x)) l a.
Proof. revert a. induction l as [| x l IH]; intros a; [reflexivity | apply IH]. Qed.

Lemma MakeSymbolTable_fold :
  MakeSymbolTable = fold_left (fun st e => (internalCreateSymbol st e.1 symDefined e.2).2) initial_symbols (MkSymtab ∅ []).
Proof. unfold initial_symbols. rewrite fold_left_app, !fold_left_fmap. reflexivity. Qed.

Lemma empty_ok : symtab_ok (MkSymtab ∅ []).
Proof.
  split; cbn; [unfold MaxSymbols; lia | | | lia].
  - intros n i Hn. rewrite lookup_empty in Hn. discriminate.
  - intros n1 n2 i Hn. rewrite lookup_empty in Hn. discriminate.
Qed.

Lemma MakeSymbolTable_ok : symtab_ok MakeSymbolTable.
Proof.
  rewrite MakeSymbolTable_fold. apply fold_create_ok; [apply empty_ok | | intros n _; apply lookup_empty].
  apply (bool_decide_unpack _). vm_compute. exact I.
Qed.

Lemma init_context_ok path : ctx_ok (init_context path).
Proof.
  split; cbn [symtab init_context instructions dot errorCount stderr length].
  - apply MakeSymbolTable_ok.
  - vm_compute. lia.
  - constructor.
  - unfold is_u16. lia.
  - unfold operand_state. cbn. lia.
  - lia.
Qed.

Lemma initial_get : Forall (fun x => Get MakeSymbolTable x.1.1 = Ret (Some (x.1.2, x.2)))
  (zip initial_symbols (seqZ 0 54)).
Proof. repeat (apply Forall_cons_2; [vm_compute; reflexivity |]). apply Forall_nil_2. Qed.

Lemma initial_lookup k n v : initial_symbols !! k = Some (n, v) -> Get MakeSymbolTable n = Ret (Some (v, Z.of_nat k)).
Proof.
  intros Hk. pose proof (lookup_lt_Some _ _ _ Hk) as Hlt. change (length initial_symbols) with 54%nat in Hlt.
  assert (Hz : zip initial_symbols (seqZ 0 54) !! k = Some ((n, v), Z.of_nat k)).
  { apply lookup_zip_with_Some. exists (n, v), (Z.of_nat k). split; [reflexivity |]. split; [exact Hk |].
    apply lookup_seqZ. lia. }
  apply (Forall_lookup_1 _ _ _ _ initial_get Hz).
Qed.

Lemma created_entry (l : list symbolEntry) e i : i = Z.of_nat (length l) -> (l ++ [e]) !! Z.to_nat i = Some e.
Proof. intros ->. rewrite Nat2Z.id, lookup_app_r, Nat.sub_diag by lia. reflexivity. Qed.

(** C20: the symbol table.  It starts with the registers and the mnemonics at the
    indexes and with the values that the rest of the assembler assumes, and names
    and indexes correspond one to one ever after.  A new definition can be looked
    up, cannot be repeated and changes no other symbol.  A symbol that is used
    before its label stays undefined for good: [Define] changes a copy of its
    entry. *)
Theorem asm_symbol_table (st : SymbolTable) (n : list Z) (v : Z) (Hst : symtab_ok st) (Hn : indexes st !! n = None)
    (Hroom : Z.of_nat (length (entries st)) < MaxSymbols) :
  symtab_ok MakeSymbolTable /\
  (forall i, 0 <= i < 8 -> Get MakeSymbolTable [114; 48 + i] = Ret (Some (i, i))) /\
  (forall k e, KeyTable !! k = Some e -> Get MakeSymbolTable (name e) = Ret (Some (signature e, 8 + Z.of_nat k))) /\
  (exists i st', Define st n v = Ret (Some i, st') /\ symtab_ok st' /\ Get st' n = Ret (Some (v, i)) /\
     (forall v', Define st' n v' = Ret (None, st')) /\ (forall m, m <> n -> Get st' m = Get st m)) /\
  (exists i st', Use st n = (Some i, st') /\ symtab_ok st' /\ Use st' n = (Some i, st') /\
     forall v', Define st' n v' = Ret (Some i, st') /\ Get st' n = Ret None).
Proof.
  split; [apply MakeSymbolTable_ok |]. split; [| split; [| split]].
  - intros i Hi. rewrite <- (Z2Nat.id i) at 2 by lia. rewrite <- (Z2Nat.id i) at 3 by lia.
    apply initial_lookup. unfold initial_symbols. rewrite lookup_app_l by (rewrite length_fmap, length_seqZ; lia).
    rewrite list_lookup_fmap, (proj2 (lookup_seqZ 0 8 (Z.to_nat i) i)) by lia. cbn. rewrite Z2Nat.id by lia. reflexivity.
  - intros k e Hk. replace (8 + Z.of_nat k) with (Z.of_nat (8 + k)) by lia. apply initial_lookup.
    unfold initial_symbols. rewrite lookup_app_r by (rewrite length_fmap, length_seqZ; lia).
    rewrite length_fmap, length_seqZ. replace (8 + k - Z.to_nat 8)%nat with k by lia.
    rewrite list_lookup_fmap, Hk. reflexivity.
  - destruct (create_ok st n symDefined v Hst Hn) as (H1 & _ & H3). unfold Define. rewrite Hn.
    unfold internalCreateSymbol in *. rewrite (proj2 (Z.eqb_neq _ _)) in * by lia. cbn [fst snd] in *.
    destruct (H3 _ eq_refl) as (Hi & _ & _). do 2 eexists. split; [reflexivity |]. split; [exact H1 |].
    unfold Get, Define, sym_entry. cbn [indexes entries]. rewrite lookup_insert_eq.
    rewrite (created_entry (entries st) _ _ Hi). split; [reflexivity |]. split; [reflexivity |].
    intros m Hm. rewrite lookup_insert_ne by congruence. destruct (indexes st !! m) as [i |] eqn:Em; [| reflexivity].
    pose proof (tab_index st Hst m i Em). rewrite lookup_app_l by lia. reflexivity.
  - destruct (create_ok st n 0 NoValue Hst Hn) as (H1 & _ & H3). unfold Use. rewrite Hn.
    unfold internalCreateSymbol in *. rewrite (proj2 (Z.eqb_neq _ _)) in * by lia. cbn [fst snd] in *.
    destruct (H3 _ eq_refl) as (Hi & _ & _). do 2 eexists. split; [reflexivity |]. split; [exact H1 |].
    unfold Get, Define, sym_entry. cbn [indexes entries]. rewrite lookup_insert_eq.
    rewrite (created_entry (entries st) _ _ Hi). split; [reflexivity |]. intros v'. split; reflexivity.
Qed.

Lemma asm_symbol_table_witness :
  exists i st', Define MakeSymbolTable (str "start") 7 = Ret (Some i, st') /\ Get st' (str "start") = Ret (Some (7, i)).
Proof.
  destruct (asm_symbol_table MakeSymbolTable (str "start") 7) as (_ & _ & _ & (i & st' & H1 & _ & H2 & _) & _).
  - apply MakeSymbolTable_ok.
  - vm_compute. reflexivity.
  - vm_compute. reflexivity.
  - exists i, st'. auto.
Defined.

(** ** The parser *)

(** The context at the end of the file. *)
Definition closed (c : parserContext) : parserContext :=
  if bool_decide (state c = StBetweenLines) then c else reported (str "unexpected EOF") c.

Lemma closed_ok c : ctx_ok c -> ctx_ok (closed c).
Proof. intros Hc. unfold closed. case_if; [exact Hc | apply reported_ok, Hc]. Qed.

(** [Parse] on a text, by its tokens. *)
Lemma parse_source_total path body fuel :
  Forall is_u8 body -> (2 * length body < fuel)%nat ->
  exists c ts lx', parse_source fuel path (MakeLexer body None) =
      Ret (symtab c, instructions c, count_error (errorCount (closed c)), stderr (closed c)) /\
    ctx_ok c /\ read_tokens (S (length body)) (MakeLexer body None) = Ret (ts ++ [eofToken], lx') /\
    Forall inner_token ts /\ (length ts <= length body)%nat /\ feed ts (init_context path) = Ret c.
Proof.
  intros Hu Hf. destruct (read_all (S (length body)) (MakeLexer body None)) as (ts & lx' & Hr & _ & Hl & Hin);
    auto using MakeLexer_ok. cbn in Hl.
  destruct (parse_loop_feed ts fuel (S (length body)) (MakeLexer body None) lx' (init_context path)) as (c & Hfd & Hc & Hrun);
    auto using MakeLexer_ok, init_context_ok; [lia | |].
  { eapply Forall_impl; [exact Hin |]. intros t [Ht _]. exact Ht. }
  exists c, ts, lx'. split; [| auto]. unfold parse_source, mbind, M_bind. rewrite Hrun.
  unfold on_ctx, gets, closed. cbn [ctx lx]. destruct (bool_decide (state c = StBetweenLines)); reflexivity.
Qed.

(** A file that is read to its end. *)
Lemma Parse_file fuel fs path body :
  fs path = inl (body, None) ->
  Parse fuel fs path =
    match parse_source fuel path (MakeLexer body None) with
    | Ret (st, ins, err, out) => Ret (Some (st, ins), err, out) | Panic w => Panic w end.
Proof. intros Hfs. unfold Parse, MakeFileLexer. rewrite Hfs. reflexivity. Qed.

(** C18: the parser is total and its output is well formed.  On every source
    file that is read to its end, whatever its bytes are, [Parse] returns (fuel of
    twice the length of the text is enough) without an index out of range: the
    instruction under construction is always in the list, no more than three
    operands are stored, and every part of every instruction is the index of an
    existing symbol or a value of ten bits. *)
Theorem asm_parse_total (fs : files) (path body : list Z) (fuel : nat) (Ho : fs path = inl (body, None))
    (Hu : Forall is_u8 body) (Hf : (2 * length body < fuel)%nat) :
  exists st ins err out, Parse fuel fs path = Ret (Some (st, ins), err, out) /\ symtab_ok st /\ Forall (instr_ok st) ins.
Proof.
  rewrite (Parse_file fuel fs path body Ho). destruct (parse_source_total path body fuel Hu Hf) as (c & ts & lx' & -> & Hc & _).
  do 4 eexists. split; [reflexivity |]. split; apply Hc.
Qed.

(** A text with a label alone on its line: an error, and the next line is lost. *)
Definition label_alone : list Z := str "x:" ++ [10] ++ str " add r1,r1,r1" ++ [10].

Lemma label_alone_u8 : Forall is_u8 label_alone.
Proof. apply u8_forallb. reflexivity. Qed.

(** A file system with one file. *)
Definition one_file (name body : list Z) : files :=
  fun path => if bool_decide (path = name) then inl (body, None) else inr (str "no such file or directory").

Lemma asm_parse_total_witness :
  exists st ins err out, Parse 50 (one_file (str "a.s") label_alone) (str "a.s") = Ret (Some (st, ins), err, out) /\ ins = [] /\
    out = [str "error: a.s, line 1: unexpected: " ++ [10; 10]].
Proof.
  destruct (asm_parse_total (one_file (str "a.s") label_alone) (str "a.s") label_alone 50 eq_refl label_alone_u8)
    as (st & ins & err & out & H & _ & _); [vm_compute; lia |].
  exists st, ins, err, out. split; [exact H |]. vm_compute in H. injection H as _ <- _ <-. split; reflexivity.
Defined.

Lemma at_line_init path : at_line path [] [] MakeSymbolTable 1 0 (init_context path).
Proof. do 4 eexists. reflexivity. Qed.

(** The text of a program, in tokens, and what the reference assembler makes of it. *)
Definition assembles_to (body : list Z) (ins : list MachineInstruction) (st : SymbolTable) : Prop :=
  exists p lx', read_tokens (S (length body)) (MakeLexer body None) = Ret (program_tokens p ++ [eofToken], lx') /\
    assemble MakeSymbolTable 0 p = Some (ins, st).

Lemma count_error_None n : count_error n = None <-> n = 0.
Proof. unfold count_error. destruct (Z.eqb_spec n 0); split; (congruence || discriminate). Qed.

Lemma parse_source_refines path body fuel st ins :
  Forall is_u8 body -> (2 * length body < fuel)%nat -> Z.of_nat (length ins) < 65536 ->
  parse_source fuel path (MakeLexer body None) = Ret (st, ins, None, []) <-> assembles_to body ins st.
Proof.
  intros Hu Hf Hlen. destruct (parse_source_total path body fuel Hu Hf) as (c & ts & lx' & -> & Hc & Hr & Hin & Hl & Hfd). split.
  - intros H. injection H as <- <- He Ho. apply count_error_None in He. unfold closed in He, Ho.
    destruct (bool_decide (state c = StBetweenLines)) eqn:Hs.
    2:{ exfalso. apply (f_equal length) in Ho. cbn in Ho. rewrite length_app in Ho. cbn in Ho. lia. }
    apply bool_decide_eq_true in Hs. destruct (feed_inv path [] c ts Hin) as [Hline _].
    destruct (Hline [] MakeSymbolTable 1 0 (init_context path) (at_line_init path) MakeSymbolTable_ok) as (p & new & -> & Ha & Hi).
    { repeat split; auto. }
    exists p, lx'. split; [exact Hr |]. rewrite Hi. exact Ha.
  - intros (p & lx2 & Hr2 & Ha). rewrite Hr in Hr2. injection Hr2 as Hts _. apply app_inj_tail in Hts as [-> _].
    destruct (feed_program path [] p [] MakeSymbolTable 1 0 ins st (init_context path) MakeSymbolTable_ok Ha Hlen (at_line_init path))
      as (c' & ln & Hf2 & sg & o & n & pos & Hc').
    rewrite Hfd in Hf2. injection Hf2 as ->. rewrite Hc'. reflexivity.
Qed.

(** C17: the state machine of the parser implements the reference assembler.  For
    programs of fewer than 65536 instructions, [Parse] returns a symbol table and
    instructions, no error, and prints nothing, exactly when the tokens of the file
    are those of a program, a list of lines with an optional label, a mnemonic
    and as many operands as it takes, that [assemble] translates to that table
    and those instructions.  As parser.go has it, and against the comments of asm.go,
    every line makes one instruction, that of a dot pseudo-operation too, every number
    is cut to ten bits, and a string is not an operand ([dot_operations]). *)
Theorem asm_parser_refines (fs : files) (path body : list Z) (fuel : nat) (st : SymbolTable) (ins : list MachineInstruction)
    (Ho : fs path = inl (body, None)) (Hu : Forall is_u8 body) (Hf : (2 * length body < fuel)%nat)
    (Hlen : Z.of_nat (length ins) < 65536) :
  Parse fuel fs path = Ret (Some (st, ins), None, []) <->
  exists p lx', read_tokens (S (length body)) (MakeLexer body None) = Ret (program_tokens p ++ [eofToken], lx') /\
    assemble MakeSymbolTable 0 p = Some (ins, st).
Proof.
  rewrite (Parse_file fuel fs path body Ho). change (exists p lx', _) with (assembles_to body ins st).
  rewrite <- (parse_source_refines path body fuel st ins Hu Hf Hlen).
  destruct (parse_source fuel path (MakeLexer body None)) as [[[[st' ins'] err] out] | w]; split; intros H; try discriminate H;
    injection H as -> -> -> ->; reflexivity.
Qed.

(** [.word 0x1234] makes an instruction with the value 0x234, [.set x, 5] one with the new
    symbol x, and [.string] is refused with any string. *)
Example dot_operations :
  (exists st i, Parse 100 (one_file (str "a.s") (str " .word 0x1234" ++ [10])) (str "a.s") = Ret (Some (st, [[i; 0x8234; 0; 0]]), None, [])) /\
  (exists st i x, Parse 100 (one_file (str "a.s") (str " .set x, 5" ++ [10])) (str "a.s") = Ret (Some (st, [[i; x; 0x8005; 0]]), None, [])) /\
  (exists r e out, Parse 100 (one_file (str "a.s") (str " .string " ++ [34; 97; 34; 10])) (str "a.s") = Ret (r, Some e, out)).
Proof. split; [do 2 eexists | split; do 3 eexists]; vm_compute; reflexivity. Qed.

(** [start: add r1, r2, -3] and [beq r0, r0, start]: an operand of each kind. *)
Definition asm_demo : list Z :=
  str "start: add r1, r2, -3 # comment" ++ [10; 10] ++ str " beq r0,r0,start" ++ [10].

Definition asm_demo_program : program :=
  [Some (MkLine (Some (str "start")) (str "add")
      [MkOperand 0 false (str "r1"); MkOperand 0 false (str "r2"); MkOperand 1 true (str "3")]);
   None;
   Some (MkLine None (str "beq")
      [MkOperand 0 false (str "r0"); MkOperand 0 false (str "r0"); MkOperand 0 false (str "start")])].

Lemma asm_demo_u8 : Forall is_u8 asm_demo.
Proof. apply u8_forallb. reflexivity. Qed.

Lemma asm_parser_refines_witness :
  exists st, Parse 200 (one_file (str "a.s") asm_demo) (str "a.s") =
    Ret (Some (st, [[16; 1; 2; 33789]; [12; 0; 0; 54]]), None, []).
Proof.
  exists (match assemble MakeSymbolTable 0 asm_demo_program with Some (_, st) => st | None => MakeSymbolTable end).
  apply (asm_parser_refines (one_file (str "a.s") asm_demo) (str "a.s") asm_demo 200 _ _ eq_refl asm_demo_u8);
    [apply Nat.ltb_lt; vm_compute; reflexivity | cbn; lia |].
  exists asm_demo_program, (MkLexer [] None 0 stEnd None). split; vm_compute; reflexivity.
Defined.

(** ** Witnesses of the lexer *)

Lemma lexer_reads_grammar_witness :
  exists lx', read_tokens 5 (MakeLexer (str "a:b ") None) =
    Ret ([MkToken (str "a") TkLabel; MkToken (str "b") TkSymbol] ++ [eofToken], lx') /\ lexerState lx' = stEnd.
Proof.
  apply (lexer_reads_grammar [MkToken (str "a") TkLabel; MkToken (str "b") TkSymbol] (str "a:b ") 5); [| cbn; lia].
  apply (src_token (MkToken (str "a") TkLabel) (str "a" ++ [58])); [| exact I |].
  - apply sp_label; [exists 97, []; repeat split; constructor | reflexivity].
  - apply (src_token (MkToken (str "b") TkSymbol) (str "b")).
    + apply sp_symbol. exists 98, []. repeat split. constructor.
    + exists 32, []. repeat split.
    + apply src_blank; [reflexivity | apply src_nil].
Defined.

Lemma lexer_total_witness :
  exists ts lx', @read_tokens Yapl0.yapl0_lang 3 (MakeLexer [200; 10] None) = Ret (ts ++ [eofToken], lx') /\
    lexerState lx' = stEnd.
Proof.
  destruct (lexer_total Yapl0.yapl0_lang [200; 10] 3) as (ts & lx' & H1 & H2 & _);
    [right; reflexivity | apply u8_forallb; reflexivity | cbn; lia |].
  exists ts, lx'. auto.
Defined.
