(* ===== verification/AsmMain.v ===== *)
(** * The retired assembler: the program

    What the assembler prints and its exit status: every error is reported once,
    with the line of the token at fault as far as the parser counts lines, and the
    program fails exactly when it has reported one, which is when the reference
    assembler refuses the text. *)

From S2P Require Import Prelude Text GoStr Lex LexProps LexGrammar Asm AsmProps AsmRef AsmTheorems.

(** ** How many instructions there are *)

(** A token makes at most one instruction. *)
Definition few (k : nat) (c : parserContext) : Prop := (length (instructions c) <= k)%nat.

Lemma few_modify k f : (forall c, length (instructions (f c)) = length (instructions c)) -> preserves (few k) (modify f).
Proof. intros Hf. apply preserves_modify. intros c H. unfold few. rewrite Hf. exact H. Qed.

Lemma few_lift {A} k (r : res A) : preserves (few k) (lift_res r).
Proof. intros c Hc. unfold lift_res, wpe. destruct r; auto. Qed.

Lemma few_set_part k i v : preserves (few k) (set_part i v).
Proof.
  intros c H. unfold set_part. apply wpe_bind, wpe_gets, wpe_bind, wpe_gets, wpe_bind.
  unfold wpe. destruct (instructions c !! Z.to_nat (dot c)); cbn; auto.
  case_if; cbn; auto. unfold few in *. cbn. rewrite length_insert. exact H.
Qed.

Lemma few_report k msg : preserves (few k) (report msg).
Proof. intros c H. exact H. Qed.

#[local] Hint Resolve few_report few_lift few_set_part : gosem.

Ltac few_tac :=
  repeat first [ solve [auto with gosem] | apply preserves_bind; [| intros ?] | apply preserves_if
    | apply few_modify; intros ?; reflexivity
    | match goal with |- preserves _ (match ?x with _ => _ end) => destruct x end ].

Lemma few_handler k s t : s <> StNeedKey -> preserves (few k) (parserFunctionMap s t).
Proof.
  intros Hs. destruct s; try congruence; cbn; unfold doError, doBetweenLines, doNeedExpression, doNeedNewline, next_operand; few_tac.
Qed.

Lemma few_key k t c : few k c -> wlp (doNeedKey t) (fun _ c' => few (S k) c') c.
Proof.
  intros Hc. assert (Hc1 : few (S k) c) by (unfold few in *; lia). unfold doNeedKey.
  destruct (tokenKind t); try (apply (preserves_bind _ (report _) (fun _ => mret true)); [apply few_report | intros; apply preserves_ret | exact Hc1]).
  apply wpe_bind, wpe_gets, wpe_bind. unfold lift_res, wpe at 1. destruct (Get (symtab c) (tokenText t)) as [[[sig index] |] |]; [| | exact I].
  - apply wpe_bind, wpe_modify. set (c1 := set_instructions _ c).
    assert (H1 : few (S k) c1) by (unfold few, c1 in *; cbn; rewrite length_app; cbn; lia).
    revert H1. generalize c1. change (preserves (few (S k)) (set_part Key index;;
      modify (fun c => set_operands (dot c) sig Ra (numOperands sig) true c);; n ← gets numoperands;
      modify (set_pstate (if 0 <? n then StNeedExpression else StNeedNewline));; mret true)). few_tac.
  - apply (preserves_bind _ (report _) (fun _ => mret true)); [apply few_report | intros; apply preserves_ret | exact Hc1].
Qed.

Lemma few_any k s t c : few k c -> wlp (parserFunctionMap s t) (fun _ c' => few (S k) c') c.
Proof.
  intros Hc. destruct (decide (s = StNeedKey)) as [-> | Hs]; [apply few_key, Hc |].
  eapply wpe_mono; [apply (few_handler k s t Hs c Hc) | auto |]. intros b c' H. unfold few in *. lia.
Qed.

Lemma feed_token_few k t c c' : ctx_ok c -> feed_token t c = Ret c' -> few k c -> few (S k) c'.
Proof.
  intros Hok Hf Hc. unfold feed_token in Hf. destruct (bool_decide (tokenKind t = TkError)); [injection Hf as <-; unfold few in *; cbn; lia |].
  assert (Hcount : forall x, few (S k) x -> few (S k) (count_line t x)) by (intros x Hx; unfold count_line; case_if; exact Hx).
  destruct (decide (state c = StNeedKey)) as [Es | Es].
  - rewrite Es in Hf. cbn [parserFunctionMap] in Hf. pose proof (few_key k t c Hc) as H1.
    pose proof (doNeedKey_wp t c Hok) as Hw. apply wp_returns in Hw as (kk & c1 & Hrun & _ & ->).
    unfold wpe in H1. rewrite Hrun in H1, Hf. injection Hf as <-. apply Hcount, H1.
  - pose proof (few_handler k (state c) t Es c Hc) as H1. unfold wpe in H1.
    destruct (parserFunctionMap (state c) t c) as [[[] c1] |]; [injection Hf as <-; apply Hcount; unfold few in *; lia | | discriminate].
    pose proof (few_any k (state c1) t c1 H1) as H2. unfold wpe in H2.
    destruct (parserFunctionMap (state c1) t c1) as [[kk c2] |]; [injection Hf as <-; apply Hcount, H2 | discriminate].
Qed.

Lemma feed_few ts : forall k c c', ctx_ok c -> feed ts c = Ret c' -> few k c -> few (k + length ts) c'.
Proof.
  induction ts as [| t ts IH]; intros k c c' Hok Hf Hc; cbn [feed] in Hf.
  - injection Hf as <-. cbn. rewrite Nat.add_0_r. exact Hc.
  - destruct (feed_token_ok t c Hok) as (c1 & H1 & Hok1). rewrite H1 in Hf.
    cbn [length]. rewrite Nat.add_succ_r. apply (IH (S k) c1 c' Hok1 Hf). exact (feed_token_few k t c c1 Hok H1 Hc).
Qed.

(** A program has at least one token for each instruction. *)
Lemma assemble_length p : forall st d ins st', assemble st d p = Some (ins, st') -> (length ins <= length (program_tokens p))%nat.
Proof.
  induction p as [| [l |] p IH]; intros st d ins st' H; cbn [assemble] in H; [injection H as <- <-; cbn; lia | |].
  - change (program_tokens (Some l :: p)) with (line_tokens (Some l) ++ program_tokens p). rewrite length_app.
    destruct (assemble_line st d l) as [[mi st1] |]; [| discriminate]. cbn in H.
    destruct (assemble st1 (d + 1) p) as [[ins2 st2] |] eqn:E; [| discriminate]. injection H as <- <-.
    apply IH in E. cbn [length]. assert (1 <= length (line_tokens (Some l)))%nat by (cbn; destruct (label l); cbn; lia). lia.
  - change (program_tokens (None :: p)) with (nlToken :: program_tokens p). cbn [length]. apply IH in H. lia.
Qed.

(** ** What is printed *)

(** From [c] to [c'] at most one message was printed, for the line of [c]. *)
Definition speaks (c c' : parserContext) (m : option (list Z)) : Prop :=
  srcPath c' = srcPath c /\ srcLine c' = srcLine c /\
  match m with
  | None => stderr c' = stderr c
  | Some msg => stderr c' = stderr c ++ [error_line (srcPath c) (srcLine c) msg]
  end.

Lemma speaks_quiet c0 m f : (forall c, srcPath (f c) = srcPath c /\ srcLine (f c) = srcLine c /\ stderr (f c) = stderr c) ->
  preserves (fun c => speaks c0 c m) (modify f).
Proof.
  intros Hf. apply preserves_modify. intros c (H1 & H2 & H3). destruct (Hf c) as (E1 & E2 & E3). unfold speaks. rewrite E1, E2, E3. auto.
Qed.

Lemma speaks_lift {A} c0 m (r : res A) : preserves (fun c => speaks c0 c m) (lift_res r).
Proof. intros c Hc. unfold lift_res, wpe. destruct r; auto. Qed.

Lemma speaks_set_part c0 m i v : preserves (fun c => speaks c0 c m) (set_part i v).
Proof.
  intros c H. unfold set_part. apply wpe_bind, wpe_gets, wpe_bind, wpe_gets, wpe_bind.
  unfold wpe. destruct (instructions c !! Z.to_nat (dot c)); cbn; auto. case_if; cbn; auto.
Qed.

#[local] Hint Resolve speaks_lift speaks_set_part : gosem.

(** A handler prints at most one message, and none when it leaves the token to
    the next one. *)
Definition says (c0 : parserContext) (k : bool) (c' : parserContext) : Prop :=
  exists m, speaks c0 c' m /\ (k = false -> m = None).

(** [d] prints nothing; [c] may. *)
Definition quiet {A} (d : C A) : Prop := forall c0 m, preserves (fun c => speaks c0 c m) d.
Definition tells (d : C bool) : Prop := forall c0 c, speaks c0 c None -> wlp d (says c0) c.

Ltac quiet_tac :=
  intros ? ?; unfold doError, next_operand;
  solve [repeat first [ solve [auto with gosem] | apply preserves_bind; [| intros ?] | apply preserves_if
    | apply speaks_quiet; intros ?; repeat split; reflexivity
    | match goal with |- preserves _ (match ?x with _ => _ end) => destruct x end ]].

Lemma tells_quiet d : quiet d -> tells d.
Proof.
  intros Hd c0 c Hc. eapply wpe_mono; [apply (Hd c0 None c Hc) | auto |]. intros k c' H. exists None. auto.
Qed.

Lemma tells_bind {A} (a : C A) (f : A -> C bool) : quiet a -> (forall x, tells (f x)) -> tells (a ≫= f).
Proof.
  intros Ha Hf c0 c Hc. apply wpe_bind. eapply wpe_mono; [apply (Ha c0 None c Hc) | auto |]. intros x c'. apply Hf.
Qed.

(** A message, after which the token has been consumed. *)
Lemma tells_report msg (d : C bool) : quiet d -> (forall c, wlp d (fun k _ => k = true) c) -> tells (report msg;; d).
Proof.
  intros Hd Hk c0 c (H1 & H2 & H3). apply wpe_bind. unfold wpe. rewrite report_run.
  pose proof (Hd c0 (Some msg) (reported msg c)) as H. specialize (Hk (reported msg c)). unfold wpe in H, Hk.
  destruct (d (reported msg c)) as [[k c'] |]; [| exact I]. subst k. exists (Some msg). split; [| discriminate].
  apply H. unfold speaks. cbn. rewrite H1, H2, H3. auto.
Qed.

Lemma handler_tells s t : tells (parserFunctionMap s t).
Proof.
  destruct s; cbn [parserFunctionMap].
  - apply tells_quiet. quiet_tac.
  - unfold doBetweenLines. destruct (tokenKind t); try (apply tells_report; [quiet_tac | reflexivity]);
      try (apply tells_quiet; quiet_tac).
    repeat (apply tells_bind; [quiet_tac | intros ?]).
    match goal with |- context [match ?r with Some _ => _ | None => _ end] => destruct r end.
    + apply tells_quiet. quiet_tac.
    + apply tells_report; [quiet_tac | reflexivity].
  - unfold doNeedKey. destruct (tokenKind t); try (apply tells_report; [quiet_tac | reflexivity]).
    repeat (apply tells_bind; [quiet_tac | intros ?]).
    match goal with |- context [match ?r with Some _ => _ | None => _ end] => destruct r as [[sig index] |] end.
    + apply tells_quiet. quiet_tac.
    + apply tells_report; [quiet_tac | reflexivity].
  - unfold doNeedExpression. destruct (tokenKind t); try (apply tells_report; [quiet_tac | reflexivity]).
    + do 2 (apply tells_bind; [quiet_tac | intros ?]).
      match goal with |- context [match ?r with Some _ => _ | None => _ end] => destruct r as [index |] end.
      * apply tells_quiet. quiet_tac.
      * apply tells_report; [quiet_tac | reflexivity].
    + destruct (ParseInt (tokenText t)); [| apply tells_report; [quiet_tac | reflexivity]].
      apply tells_quiet. quiet_tac.
    + case_if; [apply tells_quiet; quiet_tac | apply tells_report; [quiet_tac | reflexivity]].
  - unfold doNeedNewline. case_if.
    + apply tells_quiet. quiet_tac.
    + apply tells_report; [quiet_tac | reflexivity].
Qed.

(** The messages for a list of tokens, at most one for each, with the count of the
    parser: one more than the newline tokens before. *)
Definition newline (t : Token) : Z := if bool_decide (tokenKind t = TkNewline) then 1 else 0.

Fixpoint newlines (ts : list Token) : Z := match ts with [] => 0 | t :: ts' => newline t + newlines ts' end.

Definition said (path : list Z) (ln : Z) (m : option (list Z)) : list (list Z) :=
  match m with Some msg => [error_line path ln msg] | None => [] end.

Fixpoint counted (path : list Z) (ln : Z) (ts : list Token) (ms : list (option (list Z))) : list (list Z) :=
  match ts, ms with
  | t :: ts', m :: ms' => said path ln m ++ counted path (ln + newline t) ts' ms'
  | _, _ => []
  end.

(** The effect of one token, or of several, on what is printed. *)
Definition moves (c c' : parserContext) (lines : Z) (errs : list (list Z)) : Prop :=
  srcPath c' = srcPath c /\ srcLine c' = srcLine c + lines /\ stderr c' = stderr c ++ errs.

Lemma speaks_moves t c c1 m : speaks c c1 m -> moves c (count_line t c1) (newline t) (said (srcPath c) (srcLine c) m).
Proof.
  intros (H1 & H2 & H3). unfold moves, count_line, newline. case_if; cbn; rewrite ?H1, ?H2;
    (destruct m; cbn [said]; rewrite ?app_nil_r; repeat split; (assumption || lia)).
Qed.

Lemma speaks_refl c : speaks c c None.
Proof. repeat split. Qed.

Lemma feed_token_moves t c c' :
  feed_token t c = Ret c' -> exists m, moves c c' (newline t) (said (srcPath c) (srcLine c) m).
Proof.
  unfold feed_token. intros Hf. destruct (decide (tokenKind t = TkError)) as [Ek | Ek].
  { rewrite bool_decide_true in Hf by exact Ek. injection Hf as <-. exists (Some (tokenText t)).
    unfold newline. rewrite bool_decide_false by (rewrite Ek; discriminate). repeat split; cbn. lia. }
  rewrite bool_decide_false in Hf by exact Ek.
  pose proof (handler_tells (state c) t c c (speaks_refl c)) as H1. unfold wpe in H1.
  destruct (parserFunctionMap (state c) t c) as [[[] c1] |]; [| | discriminate]; destruct H1 as (m & Hm & Hk).
  - injection Hf as <-. exists m. apply speaks_moves, Hm.
  - rewrite (Hk eq_refl) in Hm. pose proof (handler_tells (state c1) t c c1 Hm) as H2. unfold wpe in H2.
    destruct (parserFunctionMap (state c1) t c1) as [[k c2] |]; [| discriminate]. injection Hf as <-.
    destruct H2 as (m2 & Hm2 & _). exists m2. apply speaks_moves, Hm2.
Qed.

Lemma feed_moves ts : forall c c', feed ts c = Ret c' ->
  exists ms, length ms = length ts /\ moves c c' (newlines ts) (counted (srcPath c) (srcLine c) ts ms).
Proof.
  induction ts as [| t ts IH]; intros c c' Hf; cbn [feed] in Hf.
  - injection Hf as <-. exists []. split; [reflexivity |]. repeat split; cbn; [lia |]. rewrite app_nil_r. reflexivity.
  - destruct (feed_token t c) as [c1 |] eqn:Ht; [| discriminate].
    destruct (feed_token_moves t c c1 Ht) as (m & P1 & L1 & E1). destruct (IH c1 c' Hf) as (ms & Hl & P2 & L2 & E2).
    exists (m :: ms). split; [cbn; lia |]. unfold moves. rewrite P2, L2, E2, E1, P1, L1. cbn [newlines counted].
    rewrite <- app_assoc. repeat split; auto. lia.
Qed.

(** ** Lines *)

Fixpoint nl_count (l : list Z) : Z := match l with [] => 0 | b :: l' => (if b =? NL then 1 else 0) + nl_count l' end.

(** The error of a string without its end: it has used up the newline of its line, and
    the lexer goes on to skip the next line as well. *)
Definition unterminated (t : Token) : Z := if bool_decide (t = err_token (str "newline in string")) then 1 else 0.

Fixpoint unterminateds (ts : list Token) : Z := match ts with [] => 0 | t :: ts' => unterminated t + unterminateds ts' end.

(** The tokens before the end, each with the line of the text on which it is read: [ln] and
    one for every newline of the text that was read before it. *)
Fixpoint read_lines (fuel : nat) (ln : Z) : L (list (Token * Z)) :=
  match fuel with
  | O => panic lex_fuel
  | S fuel' =>
    before ← gets pending;
    t ← GetToken;
    behind ← gets pending;
    if bool_decide (tokenKind t = TkEOF) then mret []
    else ts ← read_lines fuel' (ln + nl_count before - nl_count behind); mret ((t, ln) :: ts)
  end.

(** The messages for these tokens: [lag] is the number of unterminated strings so far. *)
Fixpoint located (path : list Z) (lag : Z) (ts : list (Token * Z)) (ms : list (option (list Z))) : list (list Z) :=
  match ts, ms with
  | (t, ln) :: ts', m :: ms' => said path (ln - lag) m ++ located path (lag + unterminated t) ts' ms'
  | _, _ => []
  end.

Lemma nl_char b : (b =? NL) = true -> isWhiteSpaceChar b = true /\ isDigitChar b = false /\ isHexLetter b = false /\ isX b = false /\ isQuoteChar b = false.
Proof. intros E. apply Z.eqb_eq in E. subst b. repeat split; reflexivity. Qed.

(** Other tokens do not count. *)
Ltac no_newline := first [reflexivity | unfold newline, unterminated; rewrite !bool_decide_false by discriminate; reflexivity].

(** What a byte does to the count: a newline that is used up gives its token, or it ends an
    unterminated string. *)
Lemma lex_byte_newline st acc b : st <> stInOperator -> st <> stEnd ->
  match lex_byte st acc b with
  | Continue st' _ => (b =? NL) = false /\ st' <> stInOperator /\ st' <> stEnd
  | Return _ t unread => newline t + unterminated t = if (unread : bool) then 0 else if b =? NL then 1 else 0
  | Fault _ => True
  end.
Proof.
  intros H1 H2. unfold lex_byte. destruct (Z.leb_spec 128 b) as [Hb | Hb].
  { rewrite (proj2 (Z.eqb_neq b NL)) by (unfold NL; lia). no_newline. }
  destruct (b =? NL) eqn:En.
  - apply Z.eqb_eq in En. subst b.
    destruct st; try congruence; cbn; try reflexivity; unfold lex_between, lex_symbol, lex_number; cbn; repeat case_if; (exact I || no_newline).
  - destruct st; try congruence; unfold lex_between, lex_symbol, lex_string, lex_number; rewrite ?En;
      repeat case_if; try (repeat split; congruence); try exact I; no_newline.
Qed.

Lemma scan_newline inp : forall st acc, st <> stInOperator -> st <> stEnd ->
  match scan st acc inp with
  | STok _ t inp' => nl_count inp = newline t + unterminated t + nl_count inp'
  | SEnd => nl_count inp = 0
  | SFault => True
  end.
Proof.
  induction inp as [| b inp IH]; intros st acc H1 H2; [reflexivity |]. cbn [scan nl_count].
  pose proof (lex_byte_newline st acc b H1 H2) as Hb. destruct (lex_byte st acc b) as [st' acc' | st' t u | why]; [| | exact I].
  - destruct Hb as (-> & H1' & H2'). specialize (IH st' acc' H1' H2'). destruct (scan st' acc' inp); auto.
  - rewrite Hb. destruct u; cbn [nl_count]; lia.
Qed.

Lemma resting_states st : resting st -> st <> stInOperator.
Proof. intros [-> | [-> | ->]]; discriminate. Qed.

(** The lines of the text, against the count of the parser. *)
Lemma read_lines_counted ts : forall fuel ln lx lx', lexer_ok lx -> pbToken lx = None -> fails lx = None -> (lexerState lx = stEnd -> nl_count (pending lx) = 0) ->
  read_tokens fuel lx = Ret (ts ++ [eofToken], lx') -> Forall (fun t => tokenKind t <> TkEOF) ts ->
  exists tls, read_lines fuel ln lx = Ret (tls, lx') /\ length tls = length ts /\ tls.*1 = ts /\
    (forall path lag ms, located path lag tls ms = counted path (ln - lag) ts ms) /\ nl_count (pending lx) = newlines ts + unterminateds ts.
Proof.
  induction ts as [| t ts IH]; intros [| fuel] ln lx lx' Hl Hp Hfl He Hr Hne; try discriminate; cbn [read_tokens read_lines app] in *;
    unfold mbind, M_bind in Hr; unfold mbind, M_bind, gets.
  all: destruct (decide (lexerState lx = stEnd)) as [Ee | Ee].
  - rewrite (GetToken_end lx Ee) in *. rewrite bool_decide_true in * by reflexivity. injection Hr as <-. exists []. repeat (split; [reflexivity |]). exact (He Ee).
  - destruct (GetToken_run lx Hl Ee Hp) as (t & lx1 & Hg & Hl1 & Hp1 & Hf1 & Hm). rewrite Hg in *.
    pose proof (scan_newline (pending lx) (lexerState lx) [] (resting_states _ (ok_state _ Hl)) Ee) as Hn.
    destruct (scan (lexerState lx) [] (pending lx)) as [st' t' inp' | |]; [| | destruct Hm].
    + destruct Hm as (<- & _ & _ & _ & Hi). rewrite bool_decide_false in Hr by apply Hi.
      destruct (read_tokens fuel lx1) as [[us l2] |]; [| discriminate]. injection Hr as -> _ _. destruct (proj1 Hi eq_refl).
    + destruct Hm as [-> _]. unfold end_token in *. rewrite Hfl in *. rewrite bool_decide_true in * by reflexivity. injection Hr as <-.
      exists []. repeat (split; [reflexivity |]). exact Hn.
  - rewrite (GetToken_end lx Ee) in Hr. rewrite bool_decide_true in Hr by reflexivity. destruct ts; discriminate.
  - destruct (GetToken_run lx Hl Ee Hp) as (t' & lx1 & Hg & Hl1 & Hp1 & Hf1 & Hm). rewrite Hg in *. apply Forall_cons_1 in Hne as [Hk Hne].
    pose proof (scan_newline (pending lx) (lexerState lx) [] (resting_states _ (ok_state _ Hl)) Ee) as Hn.
    destruct (scan (lexerState lx) [] (pending lx)) as [st' t1 inp' | |] eqn:Es; [| | destruct Hm].
    + destruct Hm as (<- & Ha & _ & Hst & Hi). rewrite bool_decide_false in * by apply Hi.
      destruct (read_tokens fuel lx1) as [[us l2] |] eqn:Hu; [| discriminate]. injection Hr as -> -> ->.
      assert (He1 : lexerState lx1 = stEnd -> nl_count (pending lx1) = 0).
      { rewrite (at_state _ _ _ _ Ha), Hst. unfold after. case_if; discriminate. }
      rewrite (at_pending _ _ _ _ Ha). set (ln' := ln + nl_count (pending lx) - nl_count inp').
      destruct (IH fuel ln' lx1 lx' Hl1 Hp1 ltac:(congruence) He1 Hu Hne) as (tls & Hrl & Hlen & Hts & Hloc & Hnl). rewrite Hrl. exists ((t, ln) :: tls).
      split; [reflexivity |]. split; [cbn; lia |]. split; [cbn; rewrite Hts; reflexivity |]. rewrite (at_pending _ _ _ _ Ha) in Hnl. split.
      * intros path lag [| m ms]; [reflexivity |]. cbn [located counted]. f_equal. rewrite Hloc. f_equal. unfold ln'. lia.
      * cbn [newlines unterminateds]. lia.
    + destruct Hm as [-> _]. unfold end_token in *. rewrite Hfl in *. rewrite bool_decide_true in Hr by reflexivity. destruct ts; discriminate.
Qed.

(** ** The program *)

(** What the assembler prints for a text, and its exit status. *)
Definition reports (path body : list Z) (errs : list (list Z)) : Prop :=
  exists tls lx' ms eof, read_lines (S (length body)) 1 (MakeLexer body None) = Ret (tls, lx') /\
    length ms = length tls /\ (eof = None \/ eof = Some (str "unexpected EOF")) /\
    errs = located path 0 tls ms ++ said path (1 + nl_count body - unterminateds tls.*1) eof.

Definition outcome (path : list Z) (errs : list (list Z)) : Z * list (list Z) :=
  match count_error (Z.of_nat (length errs)) with
  | None => (0, [])
  | Some e => (2, errs ++ [path ++ str ": " ++ e ++ [10; 10]])
  end.

Lemma closed_reports path body ts lx' c : Forall is_u8 body -> Forall (fun t => tokenKind t <> TkEOF) ts ->
  read_tokens (S (length body)) (MakeLexer body None) = Ret (ts ++ [eofToken], lx') ->
  feed ts (init_context path) = Ret c -> reports path body (stderr (closed c)).
Proof.
  intros Hu Hne Hr Hf. destruct (feed_moves ts _ _ Hf) as (ms & Hl & P & L & E). cbn in P, L, E.
  destruct (read_lines_counted ts _ 1 (MakeLexer body None) lx' (MakeLexer_ok body None Hu) eq_refl eq_refl ltac:(discriminate) Hr Hne)
    as (tls & Hrl & Hlen & Hts & Hloc & Hnl). change (pending (MakeLexer body None)) with body in Hnl.
  exists tls, lx', ms, (if bool_decide (state c = StBetweenLines) then None else Some (str "unexpected EOF")).
  split; [exact Hrl |]. split; [congruence |]. rewrite Hloc, Hts, Hnl. change (1 - 0) with 1.
  replace (1 + (newlines ts + unterminateds ts) - unterminateds ts) with (1 + newlines ts) by lia. unfold closed. case_if.
  - split; [auto |]. cbn. rewrite app_nil_r. exact E.
  - split; [auto |]. cbn. rewrite E, P, L. reflexivity.
Qed.

(** C19: the assembler as a program.  With a wrong number of arguments it prints
    its usage and exits with 1; a file that cannot be opened is an error with
    status 2.  On a file that is read to its end, of fewer than 65536 bytes, it
    prints the messages of the parser: at most one for each token, in order, each
    with the path and the line of the text on which its token is read, less one for
    every unterminated string before it (the parser does not count the newline that
    such a string has used up), and at most one for the end of the file, likewise.
    If there is none it exits with 0, silently, which it does exactly when the
    reference assembler accepts the text; else it prints their number and exits
    with 2. *)
Theorem asm_program (fs : files) (fuel : nat) (args : list (list Z))
    (Hfs : forall path body err, fs path = inl (body, err) ->
       err = None /\ Forall is_u8 body /\ Z.of_nat (length body) < 65536 /\ (2 * length body < fuel)%nat) :
  match args with
  | [path] =>
    match fs path with
    | inr e => main fuel fs args = Ret (2, [path ++ str ": " ++ e ++ [10; 10]])
    | inl (body, _) =>
      exists errs, main fuel fs args = Ret (outcome path errs) /\ reports path body errs /\
        (errs = [] <-> exists ins st, assembles_to body ins st)
    end
  | _ => main fuel fs args = Ret usage
  end.
Proof.
  destruct args as [| path [| a args]]; [reflexivity | | reflexivity]. unfold main.
  destruct (fs path) as [[body err] | e] eqn:Ho.
  2:{ unfold Parse, MakeFileLexer. rewrite Ho. unfold fatal, pr. cbn [fst snd app]. rewrite <- !app_assoc. reflexivity. }
  destruct (Hfs path body err Ho) as (-> & Hu & Hb & Hf). rewrite (Parse_file fuel fs path body Ho).
  destruct (parse_source_total path body fuel Hu Hf) as (c & ts & lx' & Hrun & Hc & Hr & Hin & Hl & Hfd).
  pose proof (c_errors _ (closed_ok c Hc)) as He. exists (stderr (closed c)).
  split; [| split; [exact (closed_reports path body ts lx' c Hu (Forall_impl _ _ _ Hin (fun t Ht => proj1 Ht)) Hr Hfd) |]].
  - rewrite Hrun, He. unfold outcome, fatal, pr. cbv beta iota zeta. cbn [fst snd].
    destruct (count_error (Z.of_nat (length (stderr (closed c))))) as [e |] eqn:Ec.
    + rewrite <- !app_assoc. reflexivity.
    + apply count_error_None in Ec. destruct (stderr (closed c)); [reflexivity | cbn in Ec; lia].
  - pose proof (feed_few ts 0 (init_context path) c (init_context_ok path) Hfd (le_n 0)) as Hfew. unfold few in Hfew. cbn in Hfew. split.
    + intros E. exists (instructions c), (symtab c). apply (parse_source_refines path body fuel); auto; [lia |].
      rewrite Hrun, He, E. reflexivity.
    + intros (ins & st & Ha). assert (Hlen : Z.of_nat (length ins) < 65536).
      { destruct Ha as (p & lx2 & Hr2 & Ha2). rewrite Hr in Hr2. injection Hr2 as Hts _. apply app_inj_tail in Hts as [-> _].
        apply assemble_length in Ha2. lia. }
      apply (parse_source_refines path body fuel st ins Hu Hf Hlen) in Ha. rewrite Hrun in Ha. congruence.
Qed.

(** A text with errors on its lines 1, 2 and 6, and a last line without its end.  The
    string of line 2 is not terminated, so line 3 is skipped and the messages behind it
    are for a line too few. *)
Definition asm_faulty : list Z :=
  str "foo r1" ++ [10] ++ str " not " ++ [34] ++ str "r1" ++ [10] ++ str "bar" ++ [10] ++ [10] ++ str " add r1,r2,r3" ++ [10] ++
  str " add r1,+,r2" ++ [10] ++ str " not r4".

Definition asm_faulty_output : list (list Z) :=
  [str "error: a.s, line 1: key unknown: foo" ++ [10]; str "error: a.s, line 2: newline in string" ++ [10];
   str "error: a.s, line 5: character 0x2b (43) unexpected [1]" ++ [10];
   str "error: a.s, line 6: unexpected EOF" ++ [10]; str "a.s: 4 errors" ++ [10; 10]].

Lemma asm_program_witness :
  exists errs, main 200 (one_file (str "a.s") asm_faulty) [str "a.s"] = Ret (outcome (str "a.s") errs) /\
    reports (str "a.s") asm_faulty errs /\ outcome (str "a.s") errs = (2, asm_faulty_output).
Proof.
  destruct (asm_program (one_file (str "a.s") asm_faulty) 200 [str "a.s"]) as (errs & Hm & Hr & _).
  - intros path body err. unfold one_file. case_if; [| discriminate]. intros H. injection H as <- <-.
    split; [reflexivity |]. split; [apply u8_forallb; reflexivity |]. vm_compute. split; [reflexivity | lia].
  - exists errs. split; [exact Hm |]. split; [exact Hr |].
    assert (E : forall r, main 200 (one_file (str "a.s") asm_faulty) [str "a.s"] = Ret r -> r = (2, asm_faulty_output)) by
      (intros r H; vm_compute in H; injection H as <-; reflexivity).
    exact (E _ Hm).
Defined.
