(* ===== verification/Yapl0Theorems.v ===== *)
(** * The theorems of yapl-0

    The lexer of yapl-0 is the shared machine for its language, so what is proved
    of the machine holds of it. *)

From S2P Require Import Prelude GoStr Lex LexProps LexGrammar Yapl0 AsmTheorems.

(** The tokens up to the end of the file. *)
Fixpoint read_tokens0 (fuel : nat) : L0 (list Token) :=
  match fuel with
  | O => panic lex_fuel
  | S fuel' =>
    t ← GetToken0;
    if bool_decide (tokenKind t = TkEOF) then mret [t]
    else ts ← read_tokens0 fuel'; mret (t :: ts)
  end.

Lemma read_tokens_simulates fuel : simulates (read_tokens0 fuel) (@read_tokens yapl0_lang fuel).
Proof.
  induction fuel as [| fuel IH]; [apply sim_panic |]. cbn [read_tokens0 read_tokens]. apply sim_bind; [apply yapl0_simulates |].
  intros t. case_if; [apply sim_ret |]. apply sim_bind; [exact IH | intros ts; apply sim_ret].
Qed.

(** A run of the shared machine is one of the lexer of yapl-0. *)
Lemma sim_run {A} (m : L0 A) m' lx a lx' : simulates m m' -> m' (view lx) = Ret (a, lx') ->
  exists lx1, m lx = Ret (a, lx1) /\ view lx1 = lx' /\ path lx1 = path lx.
Proof.
  intros H E. specialize (H lx). unfold sim_at in H. rewrite E in H. destruct (m lx) as [[a1 lx1] |]; [| destruct H].
  destruct H as (-> & H1 & H2). eauto.
Qed.

(** C22: The lexer of yapl-0, as lexer.go has it: the language has symbols, numbers, strings
    and newlines, and neither comments nor operators nor labels, which its comments and the
    tests that it was copied with still expect ([comments_rejected]).  [GetToken] and [Unget] do
    in every state what the machine shared with the assembler does for that language.  On
    every string of bytes the tokens end, at most one per byte, with no panic and without
    a second pushback; a text that spells a list of tokens of that language gives exactly
    these. *)
Theorem yapl0_lexer (ident inp : list Z) (fuel : nat) (Hu : Forall is_u8 inp) (Hf : (length inp < fuel)%nat) :
  (simulates GetToken0 (@GetToken yapl0_lang) /\ forall tk, simulates (Unget0 tk) (Unget tk)) /\
  (exists ts lx', read_tokens0 fuel (MakeStringLexer ident inp) = Ret (ts ++ [eofToken], lx') /\
     lexerState0 lx' = stEnd /\ path lx' = ident /\ (length ts <= length inp)%nat) /\
  forall ts, @source yapl0_lang ts inp -> (length ts < fuel)%nat ->
    exists lx', read_tokens0 fuel (MakeStringLexer ident inp) = Ret (ts ++ [eofToken], lx').
Proof.
  pose proof yapl0_laws as Hlaws. split; [apply yapl0_simulates |]. split.
  - destruct (@read_all yapl0_lang _ fuel (MakeLexer inp None)) as (ts & lx' & H & Hst & Hlen & _); auto using MakeLexer_ok.
    destruct (sim_run _ _ (MakeStringLexer ident inp) _ _ (read_tokens_simulates fuel) H) as (lx1 & H1 & H2 & H3).
    exists ts, lx1. rewrite <- H2 in Hst. auto.
  - intros ts Hs Hts. destruct (@read_scans yapl0_lang _ ts fuel (MakeLexer inp None)) as (lx' & H & _); auto using MakeLexer_ok.
    + now apply scan_source.
    + destruct (sim_run _ _ (MakeStringLexer ident inp) _ _ (read_tokens_simulates fuel) H) as (lx1 & H1 & _). eauto.
Qed.

Lemma yapl0_lexer_witness :
  exists lx', read_tokens0 5 (MakeStringLexer (str "test") (str "b ")) = Ret ([MkToken (str "b") TkSymbol; eofToken], lx').
Proof.
  destruct (yapl0_lexer (str "test") (str "b ") 5) as (_ & _ & H); [apply u8_forallb; reflexivity | cbn; lia |].
  apply (H [MkToken (str "b") TkSymbol]); [| cbn; lia].
  apply (@src_token yapl0_lang (MkToken (str "b") TkSymbol) (str "b")).
  - apply sp_symbol. exists 98, []. repeat split. constructor.
  - exists 32, []. repeat split.
  - apply src_blank; [reflexivity | apply src_nil].
Defined.

(** What the lexer gives for the text of TestLexer4, where the test expects a newline, and
    for a label and an operator as in TestLexer7. *)
Example comments_rejected :
  let first s t := exists lx', GetToken0 (MakeStringLexer (str "test") (str s ++ [10])) = Ret (t, lx') in
  first "# .symbol"%string (unexpected 35 " [1]") /\ first "start: add"%string (unexpected 58 " [2]") /\ first "-1"%string (unexpected 45 " [1]").
Proof. cbv zeta. split; [| split]; eexists; vm_compute; reflexivity. Qed.
