(* ===== verification/BinLog.v ===== *)
(** * The binary log of the logic simulator

    SAVE/sim: four-valued bit groups (types.go) and the log of io.go, a file of
    64-byte records that is written through a pair of buffers and read back by
    [Dumplog].  A write to the file fails when the disk is full; the time of a
    record is an argument. *)

From S2P Require Import Prelude GoStr Text.

(** ** types.go *)

Record Bits := MkBits { value : Z; highz : Z; undef : Z; width : Z }.

#[export] Instance Bits_eq : EqDecision Bits.
Proof. solve_decision. Defined.

Definition AllBits : Z := 0xFFFF.

Definition MakeBits (w u z v : Z) : Bits := MkBits v z u w.
Definition MakeZero (w : Z) : Bits := MkBits 0 0 0 w.
Definition MakeOnes (w : Z) : Bits := MkBits AllBits 0 0 w.
Definition MakeHighz (w : Z) : Bits := MkBits 0 AllBits 0 w.
Definition MakeUndefined (w : Z) : Bits := MkBits 0 0 AllBits w.

Definition ZeroBits : Bits := MakeZero 16.
Definition OneBits : Bits := MakeOnes 16.
Definition HighzBits : Bits := MakeHighz 16.
Definition UndefBits : Bits := MakeUndefined 16.

Definition boolToBits (b : bool) : Bits := if b then OneBits else ZeroBits.

Definition toUint64 (b : Bits) : Z :=
  Z.lor (Z.lor (Z.lor (u64 (Z.shiftl (width b) 48)) (u64 (Z.shiftl (highz b) 32))) (u64 (Z.shiftl (undef b) 16))) (value b).

Definition fromUint64 (bits : Z) : Bits :=
  MkBits (Z.land (u16 bits) AllBits) (Z.land (u16 (Z.shiftr bits 32)) AllBits)
         (Z.land (u16 (Z.shiftr bits 16)) AllBits) (Z.land (u16 (Z.shiftr bits 48)) 0x1F).

Definition SevInfo : Z := 73.
Definition KindEval : Z := 69.
Definition KindReset : Z := 82.
Definition KindEdge : Z := 94.

(** ** io.go *)

Definition recordSize : Z := 64.
Definition recordsPerBuffer : Z := 128.
Definition bufLen : Z := recordSize * recordsPerBuffer.
Definition srcLen : Z := 16.
Definition evtLen : Z := 16.

Definition zeros (n : Z) : list Z := replicate (Z.to_nat n) 0.

(** [binary.LittleEndian] *)
Fixpoint le_bytes (k : nat) (n : Z) : list Z :=
  match k with O => [] | S k' => n mod 256 :: le_bytes k' (n / 256) end.

Fixpoint le_num (l : list Z) : Z :=
  match l with [] => 0 | b :: l' => b + 256 * le_num l' end.

Record logger := MkLogger {
  buffer0 : list Z;
  buffer1 : list Z;
  bufferPairIndex : Z;
  bufOffset : Z;
  binLog : list Z;        (* the contents of the file *)
  CycleCounter : Z
}.

Definition OpenLog : logger := MkLogger (zeros bufLen) (zeros bufLen) 0 0 [] 0.

Abbreviation G := (M logger).

Definition logBuffer (g : logger) : list Z := if bufferPairIndex g =? 0 then buffer0 g else buffer1 g.

Definition set_logBuffer (v : list Z) (g : logger) : logger :=
  if bufferPairIndex g =? 0
  then MkLogger v (buffer1 g) (bufferPairIndex g) (bufOffset g) (binLog g) (CycleCounter g)
  else MkLogger (buffer0 g) v (bufferPairIndex g) (bufOffset g) (binLog g) (CycleCounter g).

Definition set_offset (v : Z) (g : logger) : logger :=
  MkLogger (buffer0 g) (buffer1 g) (bufferPairIndex g) v (binLog g) (CycleCounter g).

Definition set_index (v : Z) (g : logger) : logger :=
  MkLogger (buffer0 g) (buffer1 g) v (bufOffset g) (binLog g) (CycleCounter g).

Definition set_binLog (v : list Z) (g : logger) : logger :=
  MkLogger (buffer0 g) (buffer1 g) (bufferPairIndex g) (bufOffset g) v (CycleCounter g).

(** [copy(logBuffer[bufOffset:], src)]: as much of [src] as fits. *)
Definition copy_in (src : list Z) : G unit :=
  b ← gets logBuffer;
  o ← gets bufOffset;
  if (0 <=? o) && (o <=? Z.of_nat (length b)) then
    let fit := take (length b - Z.to_nat o) src in
    modify (set_logBuffer (take (Z.to_nat o) b ++ fit ++ drop (Z.to_nat o + length fit) b))
  else panic "slice bounds out of range".

(** [binary.LittleEndian.PutUintN(logBuffer[bufOffset:], n)] panics when there is
    no room for all of it. *)
Definition put_le (k : nat) (n : Z) : G unit :=
  b ← gets logBuffer;
  o ← gets bufOffset;
  if (0 <=? o) && (o + Z.of_nat k <=? Z.of_nat (length b)) then copy_in (le_bytes k n) else panic index_panic.

Definition advance (n : Z) : G unit := modify (fun g => set_offset (bufOffset g + n) g).

Definition put_byte (v : Z) : G unit :=
  b ← gets logBuffer;
  o ← gets bufOffset;
  if (0 <=? o) && (o <? Z.of_nat (length b)) then modify (set_logBuffer (<[Z.to_nat o := v]> b)) else panic index_panic.

Section Disk.
Context (capacity : Z).

(** [binLog.Write]: a write for which there is no room writes what fits. *)
Definition file_write (data : list Z) : G bool :=
  f ← gets binLog;
  if Z.of_nat (length f + length data) <=? capacity then modify (set_binLog (f ++ data));; mret true
  else modify (set_binLog (f ++ take (Z.to_nat capacity - length f) data));; mret false.

Definition Report (now : Z) (src evt : list Z) (b0 b1 : Bits) (sev kind : Z) : G unit :=
  o ← gets bufOffset;
  (if o =? bufLen then
     b ← gets logBuffer;
     ok ← file_write b;
     if (ok : bool) then
       modify (set_offset 0);;
       modify (fun g => set_index (1 - bufferPairIndex g) g)
     else panic "exit status 2"
   else mret tt);;
  copy_in (zeros recordSize);;
  put_le 8 now;;
  advance 8;;
  copy_in src;;
  advance srcLen;;
  copy_in evt;;
  advance evtLen;;
  put_le 8 (toUint64 b0);;
  advance 8;;
  put_le 8 (toUint64 b1);;
  advance 8;;
  c ← gets CycleCounter;
  put_le 4 c;;
  advance 4;;
  put_byte sev;;
  advance 1;;
  put_byte kind;;
  advance 1;;
  advance 2;;
  o ← gets bufOffset;
  if Z.land o (recordSize - 1) =? 0 then mret tt else panic "bufOffset".

Definition FlushAndCloseLog : G unit :=
  o ← gets bufOffset;
  if negb (o =? 0) then
    b ← gets logBuffer;
    d ← from_opt "slice bounds out of range"
          (if (0 <=? o) && (o <=? Z.of_nat (length b)) then Some (take (Z.to_nat o) b) else None);
    _ ← file_write d;
    mret tt
  else mret tt.

End Disk.

(** ** Reading a log *)

Fixpoint nonNul (b : list Z) : list Z :=
  match b with
  | [] => []
  | c :: b' => if c =? 0 then [] else c :: nonNul b'
  end.

(** The values of a line that [Dumplog] prints. *)
Record logLine := MkLine {
  sec : Z;
  milli : Z;
  cycle : Z;
  source : list Z;
  event : list Z;
  bits0 : Bits;
  bits1 : Bits;
  severity : Z;
  evkind : Z
}.

Definition million : Z := 1000000.
Definition billion : Z := 1000 * million.

(** [buf[i:j]] *)
Definition part (i j : nat) (buf : list Z) : list Z := take (j - i) (drop i buf).

Definition dump_record (buf : list Z) : logLine :=
  let ts := le_num (part 0 8 buf) in
  let s := ts / billion in
  MkLine s (u64 (ts - s) / million) (le_num (part 56 60 buf)) (nonNul (part 8 24 buf)) (nonNul (part 24 40 buf))
    (fromUint64 (le_num (part 40 48 buf))) (fromUint64 (le_num (part 48 56 buf)))
    (default 0 (buf !! 60%nat)) (default 0 (buf !! 61%nat)).

(** [unicode/utf8]: the length of the first rune of a string, one for a byte that
    starts none, and the number of runes. *)
Definition rune_size (s : list Z) : nat :=
  let cont lo hi b := (lo <=? b) && (b <=? hi) in
  let any := cont 0x80 0xBF in
  match s with
  | b0 :: b1 :: s' =>
    if cont 0xC2 0xDF b0 && any b1 then 2%nat
    else match s' with
    | b2 :: s'' =>
      let first3 := cont (if b0 =? 0xE0 then 0xA0 else 0x80) (if b0 =? 0xED then 0x9F else 0xBF) b1 in
      if cont 0xE0 0xEF b0 && first3 && any b2 then 3%nat
      else match s'' with
      | b3 :: _ =>
        let first4 := cont (if b0 =? 0xF0 then 0x90 else 0x80) (if b0 =? 0xF4 then 0x8F else 0xBF) b1 in
        if cont 0xF0 0xF4 b0 && first4 && any b2 && any b3 then 4%nat else 1%nat
      | [] => 1%nat
      end
    | [] => 1%nat
    end
  | _ => 1%nat
  end.

(** [skip] bytes belong to the rune before. *)
Fixpoint rune_count (skip : nat) (s : list Z) : nat :=
  match s with
  | [] => O
  | _ :: s' => match skip with S k => rune_count k s' | O => S (rune_count (rune_size s - 1) s') end
  end.

(** The verbs of the format: [%-16s], [%2X], [%04X], [%03d] and [%c]. *)
Definition fmt_left (w : nat) (s : list Z) : list Z := s ++ replicate (w - rune_count 0 s) 32.

Definition fmt_rune (c : Z) : list Z := if c <? 128 then [c] else [192 + c / 64; 128 + c mod 64].

Definition bits_text (b : Bits) : list Z :=
  str "{" ++ str (pad_to 2 (Ascii.ascii_of_nat 32) (number 16 (width b))) ++ str " " ++ str (fmt_X 4 (undef b)) ++ str " " ++
  str (fmt_X 4 (highz b)) ++ str " " ++ str (fmt_X 4 (value b)) ++ str "}".

Definition line_text (l : logLine) : list Z :=
  str (fmt_wd 4 (sec l)) ++ str "." ++ str (pad_to 3 (Ascii.ascii_of_nat 48) (number 10 (milli l))) ++ str ": " ++
  str (fmt_wd 4 (cycle l)) ++ str ": " ++ fmt_left 16 (source l) ++ str " " ++ fmt_left 16 (event l) ++ str " " ++
  bits_text (bits0 l) ++ str " " ++ bits_text (bits1 l) ++ str " " ++ fmt_rune (severity l) ++ str " " ++
  fmt_rune (evkind l) ++ [10].

(** [Dumplog]: the lines, and whether the error is nil.  A read that does not
    find a whole record ends the loop; the error is nil when it finds nothing. *)
Fixpoint Dumplog (fuel : nat) (file : list Z) : list (list Z) * bool :=
  match fuel with
  | O => ([], false)
  | S fuel' =>
    if Z.of_nat (length file) <? recordSize then ([], Z.of_nat (length file) =? 0)
    else
      let r := Dumplog fuel' (drop (Z.to_nat recordSize) file) in
      (line_text (dump_record (take (Z.to_nat recordSize) file)) :: r.1, r.2)
  end.
