(* ===== verification/BinLogProps.v ===== *)
(** * The binary log: records

    What [Report] writes is a record of 64 bytes ([encode]), whatever the buffers
    held before; [content] is the log as it will be in the file. *)

From S2P Require Import Prelude GoStr BinLog.

(** ** Little-endian numbers *)

Lemma le_bytes_length k n : length (le_bytes k n) = k.
Proof. revert n. induction k as [| k IH]; intros n; cbn; auto. Qed.

Lemma le_num_bytes k n : 0 <= n < 256 ^ Z.of_nat k -> le_num (le_bytes k n) = n.
Proof.
  revert n. induction k as [| k IH]; intros n Hn; [cbn in *; lia |].
  rewrite Nat2Z.inj_succ, Z.pow_succ_r in Hn by lia. cbn.
  rewrite IH by (split; [apply Z.div_pos; lia | apply Z.div_lt_upper_bound; lia]).
  pose proof (Z.div_mod n 256). lia.
Qed.

(** ** Bits as numbers *)

Definition bits_ok (b : Bits) : Prop := is_u16 (value b) /\ is_u16 (highz b) /\ is_u16 (undef b) /\ is_u16 (width b).

(** What comes back: [fromUint64] keeps five bits of the width. *)
Definition logged (b : Bits) : Bits := MkBits (value b) (highz b) (undef b) (width b mod 32).

Lemma toUint64_sum b : bits_ok b ->
  toUint64 b = width b * 2 ^ 48 + highz b * 2 ^ 32 + undef b * 2 ^ 16 + value b.
Proof.
  intros (Hv & Hh & Hu & Hw). unfold toUint64, is_u16 in *.
  assert (E : forall x k, 0 <= k -> 0 <= x < 2 ^ (64 - k) -> k <= 64 -> u64 (Z.shiftl x k) = Z.shiftl x k).
  { intros x k Hk Hx Hk2. unfold u64. change 18446744073709551616 with (2 ^ 64). rewrite Z.shiftl_mul_pow2 by lia.
    apply Z.mod_small. split; [apply Z.mul_nonneg_nonneg; lia |].
    replace 64 with ((64 - k) + k) by lia. rewrite Z.pow_add_r by lia. apply Z.mul_lt_mono_pos_r; lia. }
  rewrite !E by (cbn; lia).
  rewrite <- !Z.lor_assoc.
  rewrite (lor_shiftl_add (undef b) (value b) 16) by (cbn; lia).
  rewrite (lor_shiftl_add (highz b) _ 32) by (cbn in *; lia).
  rewrite (lor_shiftl_add (width b) _ 48) by (cbn in *; lia). lia.
Qed.

Lemma toUint64_range b : bits_ok b -> 0 <= toUint64 b < 256 ^ 8.
Proof. intros Hb. rewrite toUint64_sum by exact Hb. destruct Hb as (Hv & Hh & Hu & Hw). unfold is_u16 in *. cbn. lia. Qed.

Lemma fromUint64_toUint64 b : bits_ok b -> fromUint64 (toUint64 b) = logged b.
Proof.
  intros Hb. rewrite toUint64_sum by exact Hb. destruct b as [v h u w]. destruct Hb as (Hv & Hh & Hu & Hw).
  unfold logged. cbn in *. unfold is_u16 in *. unfold fromUint64, AllBits. rewrite !land_ffff, !Z.shiftr_div_pow2 by lia.
  change 0x1F with (Z.ones 5). rewrite Z.land_ones by lia. unfold u16.
  f_equal; rewrite ?Z.mod_mod by lia; change (2 ^ 48) with 281474976710656; change (2 ^ 32) with 4294967296;
    change (2 ^ 16) with 65536; change (2 ^ 5) with 32; Z.div_mod_to_equations; lia.
Qed.

(** ** Records *)

Record report := MkReport {
  r_now : Z; r_src : list Z; r_evt : list Z; r_b0 : Bits; r_b1 : Bits; r_cycle : Z; r_sev : Z; r_kind : Z
}.

Definition pad16 (s : list Z) : list Z := s ++ replicate (16 - length s) 0.

Definition encode (r : report) : list Z :=
  le_bytes 8 (r_now r) ++ pad16 (r_src r) ++ pad16 (r_evt r) ++ le_bytes 8 (toUint64 (r_b0 r)) ++
  le_bytes 8 (toUint64 (r_b1 r)) ++ le_bytes 4 (r_cycle r) ++ [r_sev r; r_kind r; 0; 0].

(** A record whose strings fit their fields; the numbers have the ranges of their Go types. *)
Record report_ok (r : report) : Prop := {
  ok_now : 0 <= r_now r < 256 ^ 8;
  ok_cycle : 0 <= r_cycle r < 256 ^ 4;
  ok_src : (length (r_src r) <= 16)%nat;
  ok_evt : (length (r_evt r) <= 16)%nat;
  ok_src_nul : Forall (fun c => c <> 0) (r_src r);
  ok_evt_nul : Forall (fun c => c <> 0) (r_evt r);
  ok_b0 : bits_ok (r_b0 r);
  ok_b1 : bits_ok (r_b1 r)
}.

Lemma pad16_length s : (length s <= 16)%nat -> length (pad16 s) = 16%nat.
Proof. intros Hs. unfold pad16. rewrite length_app, length_replicate. lia. Qed.

Lemma encode_length r : report_ok r -> length (encode r) = 64%nat.
Proof.
  intros Hr. unfold encode. rewrite !length_app, !le_bytes_length, !pad16_length; [reflexivity | apply Hr ..].
Qed.

(** The line that [Dumplog] prints for a record. *)
Definition line_of (r : report) : logLine :=
  MkLine (r_now r / billion) (u64 (r_now r - r_now r / billion) / million) (r_cycle r) (r_src r) (r_evt r)
    (logged (r_b0 r)) (logged (r_b1 r)) (r_sev r) (r_kind r).

Lemma nonNul_pad s k : Forall (fun c => c <> 0) s -> nonNul (s ++ replicate k 0) = s.
Proof.
  induction 1 as [| c s Hc _ IH]; cbn; [destruct k; reflexivity |]. rewrite (proj2 (Z.eqb_neq c 0) Hc), IH. reflexivity.
Qed.

(** The part of a list of fields that one field covers. *)
Lemma part_here f tl j : length f = j -> part 0 j (f ++ tl) = f.
Proof. intros <-. unfold part. rewrite drop_0, Nat.sub_0_r. apply take_app_length. Qed.

Lemma part_skip f tl i j : (length f <= i)%nat -> part i j (f ++ tl) = part (i - length f) (j - length f) tl.
Proof. intros Hi. unfold part. rewrite drop_app_ge by lia. f_equal; lia. Qed.

Lemma dump_encode r : report_ok r -> dump_record (encode r) = line_of r.
Proof.
  intros [Hn Hc Hs He Hsn Hen H0 H1]. unfold dump_record, encode, line_of.
  pose proof (le_bytes_length 8 (r_now r)) as L1. pose proof (pad16_length _ Hs) as L2. pose proof (pad16_length _ He) as L3.
  pose proof (le_bytes_length 8 (toUint64 (r_b0 r))) as L4. pose proof (le_bytes_length 8 (toUint64 (r_b1 r))) as L5.
  pose proof (le_bytes_length 4 (r_cycle r)) as L6.
  assert (P1 : forall tl, part 8 24 (le_bytes 8 (r_now r) ++ pad16 (r_src r) ++ tl) = pad16 (r_src r)).
  { intros tl. rewrite part_skip, L1 by lia. now apply part_here. }
  rewrite (part_here (le_bytes 8 (r_now r))), P1 by exact L1.
  rewrite !(part_skip (le_bytes 8 (r_now r))), L1 by lia. rewrite !(part_skip (pad16 (r_src r))), L2 by lia.
  rewrite (part_here (pad16 (r_evt r))) by exact L3. rewrite !(part_skip (pad16 (r_evt r))), L3 by lia.
  rewrite (part_here (le_bytes 8 (toUint64 (r_b0 r)))) by exact L4.
  rewrite !(part_skip (le_bytes 8 (toUint64 (r_b0 r)))), L4 by lia.
  rewrite (part_here (le_bytes 8 (toUint64 (r_b1 r)))) by exact L5.
  rewrite !(part_skip (le_bytes 8 (toUint64 (r_b1 r)))), L5 by lia. rewrite part_here by exact L6.
  rewrite !lookup_app_r by (rewrite ?L1, ?L2, ?L3, ?L4, ?L5, ?L6; lia). rewrite L1, L2, L3, L4, L5, L6. cbn [lookup list_lookup Nat.sub default].
  unfold pad16. rewrite !nonNul_pad by assumption.
  rewrite !le_num_bytes by (try apply toUint64_range; assumption). rewrite !fromUint64_toUint64 by assumption. reflexivity.
Qed.

(** ** The record under construction

    [at_rec f c pre done pend k g]: behind the first [length pre] bytes of the
    buffer stand [done], which the offset has passed, [pend], which it has not,
    and [k] zeros. *)

Record logger_ok (g : logger) : Prop := {
  lo_b0 : length (buffer0 g) = Z.to_nat bufLen;
  lo_b1 : length (buffer1 g) = Z.to_nat bufLen;
  lo_index : bufferPairIndex g = 0 \/ bufferPairIndex g = 1;
  lo_offset : exists m : nat, bufOffset g = recordSize * Z.of_nat m /\ (m <= 128)%nat
}.

Record at_rec (f : list Z) (c : Z) (pre done pend : list Z) (k : nat) (g : logger) : Prop := {
  ar_b0 : length (buffer0 g) = Z.to_nat bufLen;
  ar_b1 : length (buffer1 g) = Z.to_nat bufLen;
  ar_index : bufferPairIndex g = 0 \/ bufferPairIndex g = 1;
  ar_offset : bufOffset g = Z.of_nat (length pre + length done);
  ar_buf : exists post, logBuffer g = pre ++ done ++ pend ++ replicate k 0 ++ post;
  ar_file : binLog g = f;
  ar_cycle : CycleCounter g = c
}.

Lemma logBuffer_set v g : logBuffer (set_logBuffer v g) = v.
Proof. unfold logBuffer, set_logBuffer. destruct (bufferPairIndex g =? 0) eqn:E; cbn; rewrite E; reflexivity. Qed.

Lemma logBuffer_length g : length (buffer0 g) = Z.to_nat bufLen -> length (buffer1 g) = Z.to_nat bufLen ->
  length (logBuffer g) = Z.to_nat bufLen.
Proof. unfold logBuffer. destruct (_ =? _); auto. Qed.

Section Fields.
Context (f : list Z) (c : Z) (pre : list Z).

Lemma at_rec_set d dn pend k pend' k' g :
  at_rec f c pre dn pend k g -> length d = Z.to_nat bufLen -> (exists post, d = pre ++ dn ++ pend' ++ replicate k' 0 ++ post) ->
  at_rec f c pre dn pend' k' (set_logBuffer d g).
Proof.
  intros [H0 H1 Hi Ho Hb Hf Hc] Hl Hd.
  constructor; rewrite ?logBuffer_set; unfold set_logBuffer; destruct (bufferPairIndex g =? 0); auto.
Qed.

Lemma at_rec_room dn pend k g : at_rec f c pre dn pend k g ->
  (length pre + length dn + length pend + k <= length (logBuffer g))%nat.
Proof. intros [_ _ _ _ [post E] _ _]. rewrite E, !length_app, length_replicate. lia. Qed.

Lemma copy_in_field dn d k g : at_rec f c pre dn [] k g -> (length d <= k)%nat ->
  wp (copy_in d) (fun _ => at_rec f c pre dn d (k - length d)) g.
Proof.
  intros Hg Hd. pose proof (at_rec_room _ _ _ _ Hg) as Hr. cbn in Hr. destruct (ar_buf _ _ _ _ _ _ _ Hg) as [post E].
  unfold copy_in. apply wpe_bind, wpe_gets, wpe_bind, wpe_gets. rewrite (ar_offset _ _ _ _ _ _ _ Hg).
  rewrite (proj2 (Z.leb_le _ _)), (proj2 (Z.leb_le _ _)) by lia. cbn [andb]. apply wpe_modify. rewrite Nat2Z.id.
  rewrite (take_ge d) by lia. eapply at_rec_set; [exact Hg | |].
  - rewrite !length_app, length_take, length_drop. pose proof (logBuffer_length g (ar_b0 _ _ _ _ _ _ _ Hg) (ar_b1 _ _ _ _ _ _ _ Hg)). lia.
  - exists post. rewrite E. cbn [app]. rewrite !app_assoc, <- (app_assoc pre dn).
    rewrite (app_assoc pre dn). rewrite <- !(app_assoc (pre ++ dn)).
    rewrite take_app_length' by (rewrite length_app; lia). rewrite drop_app_ge by (rewrite length_app; lia).
    rewrite drop_app_le by (rewrite length_replicate, length_app; lia). rewrite drop_replicate.
    rewrite <- !app_assoc. do 4 f_equal. rewrite length_app. f_equal; lia.
Qed.

Lemma put_le_field dn j n k g : at_rec f c pre dn [] k g -> (j <= k)%nat ->
  wp (put_le j n) (fun _ => at_rec f c pre dn (le_bytes j n) (k - j)) g.
Proof.
  intros Hg Hd. pose proof (at_rec_room _ _ _ _ Hg) as Hr. cbn in Hr.
  unfold put_le. apply wpe_bind, wpe_gets, wpe_bind, wpe_gets. rewrite (ar_offset _ _ _ _ _ _ _ Hg).
  rewrite (proj2 (Z.leb_le _ _)), (proj2 (Z.leb_le _ _)) by lia. cbn [andb].
  pose proof (copy_in_field dn (le_bytes j n) k g Hg) as Hf'. rewrite le_bytes_length in Hf'. exact (Hf' Hd).
Qed.

Lemma put_byte_field dn v k g : at_rec f c pre dn [] k g -> (1 <= k)%nat ->
  wp (put_byte v) (fun _ => at_rec f c pre dn [v] (k - 1)) g.
Proof.
  intros Hg Hd. pose proof (at_rec_room _ _ _ _ Hg) as Hr. cbn in Hr. destruct (ar_buf _ _ _ _ _ _ _ Hg) as [post E].
  unfold put_byte. apply wpe_bind, wpe_gets, wpe_bind, wpe_gets. rewrite (ar_offset _ _ _ _ _ _ _ Hg).
  rewrite (proj2 (Z.leb_le _ _)), (proj2 (Z.ltb_lt _ _)) by lia. cbn [andb]. apply wpe_modify. rewrite Nat2Z.id.
  eapply at_rec_set; [exact Hg | |].
  - rewrite length_insert. apply logBuffer_length; apply Hg.
  - exists post. rewrite E. destruct k as [| k]; [lia |]. cbn [app replicate Nat.sub].
    rewrite insert_app_r_alt by lia. replace (length pre + length dn - length pre)%nat with (length dn) by lia.
    rewrite insert_app_r_alt by lia. rewrite Nat.sub_diag, Nat.sub_0_r. reflexivity.
Qed.

Lemma advance_field dn d n k g : at_rec f c pre dn d k g -> (length d <= n <= length d + k)%nat ->
  wp (advance (Z.of_nat n)) (fun _ => at_rec f c pre (dn ++ d ++ replicate (n - length d) 0) [] (k - (n - length d))) g.
Proof.
  intros [H0 H1 Hi Ho [post Hb] Hf Hc] Hn. apply wpe_modify. constructor; auto; cbn.
  - rewrite Ho, !length_app, length_replicate. lia.
  - exists post. rewrite <- !app_assoc. change (logBuffer (set_offset _ g)) with (logBuffer g). rewrite Hb. do 3 f_equal.
    rewrite app_assoc, <- replicate_add. do 2 f_equal. lia.
Qed.

End Fields.

(** ** The operations of the log *)

Definition content (g : logger) : list Z := binLog g ++ take (Z.to_nat (bufOffset g)) (logBuffer g).

(** The last part of [Report]: the record is built at the offset. *)
Definition put_record (now : Z) (src evt : list Z) (b0 b1 : Bits) (sev kind : Z) : G unit :=
  copy_in (zeros recordSize);;
  put_le 8 now;;
  advance 8;;
  copy_in src;;
  advance srcLen;;
  copy_in evt;;
  advance evtLen;;
  put_le 8 (toUint64 b0);;
  advance 8;;
  put_le 8 (toUint64 b1);;
  advance 8;;
  c ← gets CycleCounter;
  put_le 4 c;;
  advance 4;;
  put_byte sev;;
  advance 1;;
  put_byte kind;;
  advance 1;;
  advance 2;;
  o ← gets bufOffset;
  if Z.land o (recordSize - 1) =? 0 then mret tt else panic "bufOffset".

(** One step of [put_record]: a lemma on a field, then what follows it. *)
Ltac field_step L :=
  apply wpe_bind; eapply wpe_mono; [eapply L; [eassumption | cbn; lia] | tauto | cbn beta; intros _ ? ?].

Lemma at_rec_eq f c pre dn k dn' k' g : at_rec f c pre dn [] k g -> dn = dn' -> k = k' -> at_rec f c pre dn' [] k' g.
Proof. intros H -> ->. exact H. Qed.

Lemma record_aligned m : Z.land (recordSize * m) (recordSize - 1) = 0.
Proof. change (recordSize - 1) with (Z.ones 6). rewrite Z.land_ones by lia. unfold recordSize. rewrite Z.mul_comm. apply Z.mod_mul. lia. Qed.

Ltac skip_to k :=
  apply wpe_bind; eapply wpe_mono; [eapply (advance_field _ _ _ _ _ k); [eassumption | cbn; lia] | tauto | cbn beta; intros _ ? ?].

Lemma at_rec_done f c pre r g : at_rec f c pre (encode r) [] 0 g -> content g = f ++ pre ++ encode r.
Proof.
  intros Hg. unfold content. rewrite (ar_file _ _ _ _ _ _ _ Hg), (ar_offset _ _ _ _ _ _ _ Hg), Nat2Z.id.
  destruct (ar_buf _ _ _ _ _ _ _ Hg) as [post ->]. cbn [app replicate]. rewrite app_assoc, <- length_app, take_app_length. reflexivity.
Qed.

(** Clearing the record. *)
Lemma clear_record g : logger_ok g -> bufOffset g < bufLen ->
  wp (copy_in (zeros recordSize))
    (fun _ => at_rec (binLog g) (CycleCounter g) (take (Z.to_nat (bufOffset g)) (logBuffer g)) [] [] 64) g.
Proof.
  intros [H0 H1 Hi (m & Ho & Hm)] Hlt. pose proof (logBuffer_length g H0 H1) as Hl. unfold bufLen, recordSize, recordsPerBuffer in *.
  unfold copy_in. apply wpe_bind, wpe_gets, wpe_bind, wpe_gets.
  rewrite (proj2 (Z.leb_le _ _)), (proj2 (Z.leb_le _ _)) by lia. cbn [andb]. apply wpe_modify.
  unfold zeros, recordSize. rewrite (take_ge (replicate _ _)) by (rewrite length_replicate; lia). rewrite length_replicate.
  set (o := Z.to_nat (bufOffset g)) in *. assert (Ho2 : Z.of_nat o + 64 <= 8192) by lia.
  constructor; rewrite ?logBuffer_set.
  1-2: unfold set_logBuffer, logBuffer, bufLen, recordSize, recordsPerBuffer in *; destruct (bufferPairIndex g =? 0); cbn [buffer0 buffer1];
       rewrite ?length_app, ?length_take, ?length_drop, ?length_replicate; lia.
  1: unfold set_logBuffer; destruct (bufferPairIndex g =? 0); exact Hi.
  1: unfold set_logBuffer; destruct (bufferPairIndex g =? 0); cbn; rewrite length_take; lia.
  1: eexists; cbn [app]; reflexivity.
  1-2: unfold set_logBuffer; destruct (bufferPairIndex g =? 0); reflexivity.
Qed.

Lemma put_record_spec g now src evt b0 b1 sev kind :
  logger_ok g -> bufOffset g < bufLen ->
  let r := MkReport now src evt b0 b1 (CycleCounter g) sev kind in
  report_ok r ->
  wp (put_record now src evt b0 b1 sev kind)
    (fun _ g' => at_rec (binLog g) (CycleCounter g) (take (Z.to_nat (bufOffset g)) (logBuffer g)) (encode r) [] 0 g') g.
Proof.
  intros Hg Hlt r Hr. unfold put_record. pose proof (ok_src r Hr) as Hs. pose proof (ok_evt r Hr) as He. cbn in Hs, He.
  apply wpe_bind. eapply wpe_mono; [exact (clear_record g Hg Hlt) | tauto | cbn beta; intros _ g1 H1].
  field_step put_le_field. skip_to 8%nat.
  field_step copy_in_field. skip_to 16%nat.
  field_step copy_in_field. skip_to 16%nat.
  field_step put_le_field. skip_to 8%nat.
  field_step put_le_field. skip_to 8%nat.
  apply wpe_bind, wpe_gets.
  match goal with H : at_rec _ _ _ _ _ _ ?g |- context [CycleCounter ?g] => rewrite (ar_cycle _ _ _ _ _ _ _ H) end.
  field_step put_le_field. skip_to 4%nat.
  field_step put_byte_field. skip_to 1%nat.
  field_step put_byte_field. skip_to 1%nat.
  skip_to 2%nat. apply wpe_bind, wpe_gets.
  match goal with H : at_rec _ _ _ _ _ _ ?g' |- wpe _ _ _ ?g' => eapply at_rec_eq with (dn' := encode r) (k' := 0%nat) in H;
    [pose proof (ar_offset _ _ _ _ _ _ _ H) as Ho | unfold encode, pad16; cbn [r r_now r_src r_evt r_b0 r_b1 r_cycle r_sev r_kind];
      rewrite !le_bytes_length, <- !app_assoc; reflexivity | rewrite !le_bytes_length; cbn; lia] end.
  destruct Hg as [H0' H1' _ (m & Hm & Hm2)].
  assert (Ea : Z.of_nat (length (take (Z.to_nat (bufOffset g)) (logBuffer g)) + length (encode r)) = recordSize * Z.of_nat (S m)).
  { rewrite encode_length by exact Hr. rewrite length_take, logBuffer_length by assumption. unfold bufLen, recordSize, recordsPerBuffer in *. lia. }
  rewrite Ho, Ea, record_aligned. apply wpe_ret. assumption.
Qed.

Lemma Report_spec capacity g now src evt b0 b1 sev kind :
  let r := MkReport now src evt b0 b1 (CycleCounter g) sev kind in
  logger_ok g -> report_ok r -> Z.of_nat (length (content g)) <= capacity ->
  wp (Report capacity now src evt b0 b1 sev kind)
    (fun _ g' => logger_ok g' /\ content g' = content g ++ encode r /\ CycleCounter g' = CycleCounter g) g.
Proof.
  intros r Hg Hr Hcap.
  assert (Hput : forall g0, logger_ok g0 -> bufOffset g0 < bufLen -> content g0 = content g -> CycleCounter g0 = CycleCounter g ->
    wp (put_record now src evt b0 b1 sev kind)
      (fun _ g' => logger_ok g' /\ content g' = content g ++ encode r /\ CycleCounter g' = CycleCounter g) g0).
  { intros g0 Hg0 Hlt Ec Eq. pose proof (put_record_spec g0 now src evt b0 b1 sev kind Hg0 Hlt) as Hp. cbv zeta in Hp.
    rewrite Eq in Hp. eapply wpe_mono; [apply Hp, Hr | tauto |]. cbn beta. intros _ g' Hg'.
    pose proof (at_rec_done _ _ _ _ _ Hg') as Hd. split; [| split; [| apply Hg']].
    - destruct Hg0 as [H0 H1 _ (m & Hm & Hm2)]. constructor; [apply Hg' .. |]. exists (S m).
      rewrite (ar_offset _ _ _ _ _ _ _ Hg'), encode_length by exact Hr. rewrite length_take, logBuffer_length by assumption.
      unfold bufLen, recordSize, recordsPerBuffer in *. lia.
    - rewrite Hd, <- Ec. unfold content. apply app_assoc. }
  unfold Report. apply wpe_bind, wpe_gets, wpe_bind. destruct (bufOffset g =? bufLen) eqn:Eo.
  - apply Z.eqb_eq in Eo. apply wpe_bind, wpe_gets. unfold file_write. apply wpe_bind, wpe_bind, wpe_gets.
    destruct Hg as [H0 H1 Hi Hm]. pose proof (logBuffer_length g H0 H1) as Hl.
    assert (Ec : content g = binLog g ++ logBuffer g) by (unfold content; rewrite take_ge; [reflexivity | lia]).
    rewrite (proj2 (Z.leb_le _ _)) by (rewrite <- length_app, <- Ec; exact Hcap).
    apply wpe_bind, wpe_modify, wpe_ret, wpe_bind, wpe_modify, wpe_modify. apply Hput.
    + constructor; cbn; [exact H0 | exact H1 | lia | exists 0%nat; cbn; lia].
    + reflexivity.
    + rewrite Ec. unfold content. cbn. rewrite app_nil_r. reflexivity.
    + reflexivity.
  - apply wpe_ret. apply Z.eqb_neq in Eo. apply Hput; [exact Hg | | reflexivity | reflexivity].
    destruct Hg as [_ _ _ (m & Hm & Hm2)]. unfold bufLen, recordSize, recordsPerBuffer in *. lia.
Qed.

Lemma Flush_spec capacity g : logger_ok g -> Z.of_nat (length (content g)) <= capacity ->
  wp (FlushAndCloseLog capacity) (fun _ g' => binLog g' = content g) g.
Proof.
  intros [H0 H1 Hi (m & Hm & Hm2)] Hcap. unfold FlushAndCloseLog. apply wpe_bind, wpe_gets. unfold content in *.
  destruct (bufOffset g =? 0) eqn:E0; cbn [negb].
  - apply Z.eqb_eq in E0. apply wpe_ret. rewrite E0. cbn. rewrite app_nil_r. reflexivity.
  - apply wpe_bind, wpe_gets, wpe_bind. pose proof (logBuffer_length g H0 H1) as Hl.
    rewrite (proj2 (Z.leb_le _ _)), (proj2 (Z.leb_le _ _)) by (rewrite ?Hl; unfold bufLen, recordSize, recordsPerBuffer in *; lia).
    cbn [andb from_opt]. apply wpe_ret, wpe_bind, wpe_bind, wpe_gets.
    rewrite (proj2 (Z.leb_le _ _)) by (rewrite <- length_app; exact Hcap).
    apply wpe_bind, wpe_modify, wpe_ret, wpe_ret. reflexivity.
Qed.

(** ** A whole log *)

Definition set_cycle (c : Z) (g : logger) : logger :=
  MkLogger (buffer0 g) (buffer1 g) (bufferPairIndex g) (bufOffset g) (binLog g) c.

(** The reports of a run in order, each at its time and in its cycle. *)
Fixpoint report_all (capacity : Z) (rs : list report) : G unit :=
  match rs with
  | [] => mret tt
  | r :: rs' =>
    modify (set_cycle (r_cycle r));;
    Report capacity (r_now r) (r_src r) (r_evt r) (r_b0 r) (r_b1 r) (r_sev r) (r_kind r);;
    report_all capacity rs'
  end.

Lemma report_all_spec capacity rs g :
  logger_ok g -> Forall report_ok rs -> Z.of_nat (length (content g) + 64 * length rs) <= capacity ->
  wp (report_all capacity rs) (fun _ g' => logger_ok g' /\ content g' = content g ++ concat (map encode rs)) g.
Proof.
  intros Hg Hrs. revert g Hg. induction Hrs as [| r rs Hr Hrs IH]; intros g Hg Hcap; cbn [report_all].
  - apply wpe_ret. split; [exact Hg |]. cbn. rewrite app_nil_r. reflexivity.
  - apply wpe_bind, wpe_modify, wpe_bind. cbn [length] in Hcap.
    eapply wpe_mono; [eapply (Report_spec capacity (set_cycle (r_cycle r) g)) | tauto |].
    + destruct Hg as [H0 H1 H2 H3]. constructor; assumption.
    + destruct r. exact Hr.
    + change (content (set_cycle _ g)) with (content g). lia.
    + cbn beta. intros _ g1 (Hg1 & Ec & _). change (content (set_cycle _ g)) with (content g) in Ec.
      replace (MkReport _ _ _ _ _ _ _ _) with r in Ec by (destruct r; reflexivity).
      eapply wpe_mono; [apply IH; [exact Hg1 |] | tauto |].
      * rewrite Ec, length_app, encode_length by exact Hr. lia.
      * cbn beta. intros _ g2 [Hg2 E2]. split; [exact Hg2 |]. rewrite E2, Ec, <- app_assoc. reflexivity.
Qed.

Lemma encode_all_length rs : Forall report_ok rs -> length (concat (map encode rs)) = (64 * length rs)%nat.
Proof.
  induction 1 as [| r rs Hr _ IH]; [reflexivity |]. cbn [map concat length]. rewrite length_app, encode_length, IH by exact Hr. lia.
Qed.

Lemma Dumplog_records rs fuel : Forall report_ok rs -> (length rs < fuel)%nat ->
  Dumplog fuel (concat (map encode rs)) = (map (fun r => line_text (line_of r)) rs, true).
Proof.
  intros Hrs. revert fuel. induction Hrs as [| r rs Hr Hrs IH]; intros fuel Hf; (destruct fuel as [| fuel]; [cbn in Hf; lia |]);
    cbn [length] in Hf; [reflexivity |].
  cbn [map concat Dumplog]. rewrite length_app, encode_length by exact Hr. unfold recordSize in *.
  rewrite (proj2 (Z.ltb_ge _ _)) by lia. change (Z.to_nat 64) with 64%nat.
  rewrite take_app_length', drop_app_length' by (rewrite encode_length; [lia | exact Hr]).
  rewrite IH by lia. rewrite dump_encode by exact Hr. reflexivity.
Qed.

Lemma OpenLog_ok : logger_ok OpenLog.
Proof. constructor; [reflexivity | reflexivity | left; reflexivity | exists 0%nat; split; [reflexivity | lia]]. Qed.

Lemma log_file capacity rs : Forall report_ok rs -> 64 * Z.of_nat (length rs) <= capacity ->
  wp (report_all capacity rs;; FlushAndCloseLog capacity) (fun _ g => binLog g = concat (map encode rs)) OpenLog.
Proof.
  intros Hrs Hcap. apply wpe_bind.
  eapply wpe_mono; [apply (report_all_spec capacity rs OpenLog OpenLog_ok Hrs); change (content OpenLog) with (@nil Z); cbn [length]; lia | tauto |].
  cbn beta. intros _ g [Hg Ec]. change (content OpenLog) with (@nil Z) in Ec. cbn [app] in Ec.
  eapply wpe_mono; [apply Flush_spec; [exact Hg |] | tauto | cbn beta; intros _ g' ->; exact Ec].
  rewrite Ec, encode_all_length by exact Hrs. lia.
Qed.

Definition sample_report (k : Z) : report :=
  MkReport (k * 1234567890) [112; 99] [114; 101; 103] (MakeUndefined 16) (MakeBits 16 0 0 (u16 (k * 77))) k SevInfo KindEdge.

(** A line of the log; the part after the point is not below a thousand. *)
Example line_text_demo :
  line_text (line_of (sample_report 1)) =
    str "   1.1234:    1: pc               reg              {10 FFFF 0000 0000} {10 0000 0000 004D} I ^" ++ [10].
Proof. reflexivity. Qed.

(** C28: What is logged is what [Dumplog] shows.  For any sequence of reports (with
    numbers in the ranges of their Go types) whose strings fit their fields and hold
    no NUL, on a disk with room for 64 bytes a report: no report and no flush panics
    or exits, whichever of the two buffers is in use and however often they are
    exchanged, and [Dumplog] on the file prints exactly one line per report, in
    order, with the report's cycle, strings, bits, severity and kind, and returns a
    nil error.  Of the width of the bits the line has the low five bits only. *)
Theorem log_roundtrip capacity rs fuel :
  Forall report_ok rs -> 64 * Z.of_nat (length rs) <= capacity -> (length rs < fuel)%nat ->
  exists g, (report_all capacity rs;; FlushAndCloseLog capacity) OpenLog = Ret (tt, g) /\
    Dumplog fuel (binLog g) = (map (fun r => line_text (line_of r)) rs, true).
Proof.
  intros Hrs Hcap Hf. pose proof (log_file capacity rs Hrs Hcap) as W. apply wp_returns in W. destruct W as ([] & g & Hrun & Hfile).
  exists g. split; [exact Hrun |]. rewrite Hfile. now apply Dumplog_records.
Qed.

Lemma sample_report_ok k : 0 <= k < 256 -> report_ok (sample_report k).
Proof.
  intros Hk. unfold sample_report. constructor; cbn -[u16]; try lia.
  - apply (bool_decide_unpack _). reflexivity.
  - apply (bool_decide_unpack _). reflexivity.
  - unfold bits_ok, is_u16, MakeUndefined, AllBits. cbn. lia.
  - unfold bits_ok. cbn -[u16]. unfold is_u16 at 2 3 4. repeat split; try apply u16_range; lia.
Qed.

(** 300 reports: the buffers are exchanged twice. *)
Lemma log_roundtrip_witness :
  let rs := map sample_report (seqZ 0 200 ++ seqZ 0 100) in
  exists g, (report_all 20000 rs;; FlushAndCloseLog 20000) OpenLog = Ret (tt, g) /\ Dumplog 301 (binLog g) = (map (fun r => line_text (line_of r)) rs, true).
Proof.
  intros rs. apply (log_roundtrip 20000 rs 301); [| vm_compute; congruence | vm_compute; lia].
  apply Forall_map, Forall_forall. intros k Hk. apply sample_report_ok. apply elem_of_app in Hk.
  rewrite !elem_of_seqZ in Hk. lia.
Defined.
