(* ===== verification/Circuit.v ===== *)
(** * The logic simulator: components, systems and the simulation loop

    SAVE/sim: parts.go, the [System] and [ErrorList] of types.go, sim.go and
    seq.go.  Components are objects that refer to each other, so the store holds a
    heap of them and a reference is its index; a nil [Component] is [None].  The
    clock enable of a register is a function of its client: a parameter. *)

From S2P Require Import Prelude GoStr BinLog.

(** ** Components *)

Record ZeroGenerator := MkZeroGenerator { z_name : list Z; zeroes : Bits }.

Record Register := MkRegister {
  r_name : list Z;
  input : option nat;
  enableFunc : nat;
  visibleState : Bits;
  cachedState : Bits;
  r_width : Z;
  cacheValid : bool;
  clockEnabled : bool
}.

Record Mux := MkMux {
  m_name : list Z;
  control : option nat;
  data : list (option nat);
  m_cachedState : Bits;
  dataWidth : Z;
  m_cacheValid : bool
}.

Inductive Component := CZero (z : ZeroGenerator) | CReg (r : Register) | CMux (m : Mux).

Definition Name (x : Component) : list Z :=
  match x with CZero z => z_name z | CReg r => r_name r | CMux m => m_name m end.

Definition Width (x : Component) : Z :=
  match x with CZero z => width (zeroes z) | CReg r => r_width r | CMux m => dataWidth m end.

(** ** Systems and the store *)

Definition k64 : Z := 64 * 1024.

Record System := MkSystem { logic : list nat; state : list nat; imem : list Z; dmem : list Z }.

Definition MakeSystem : System := MkSystem [] [] (zeros k64) (zeros k64).

(** A call of [Report], in the cycle in which it is made. *)
Record Event := MkEvent { e_src : list Z; e_evt : list Z; e_b0 : Bits; e_b1 : Bits; e_kind : Z; e_cycle : Z }.

Record Store := MkStore { heap : list Component; sys : System; events : list Event; cycleCounter : Z }.

Definition set_heap (h : list Component) (s : Store) : Store := MkStore h (sys s) (events s) (cycleCounter s).
Definition set_sys (y : System) (s : Store) : Store := MkStore (heap s) y (events s) (cycleCounter s).
Definition set_counter (c : Z) (s : Store) : Store := MkStore (heap s) (sys s) (events s) c.

Abbreviation C := (M Store).

Definition nil_deref : string := "invalid memory address or nil pointer dereference".

Definition RegisterClockable (c : nat) : C unit :=
  modify (fun s => set_sys (MkSystem (logic (sys s)) (state (sys s) ++ [c]) (imem (sys s)) (dmem (sys s))) s).

Definition RegisterComponent (c : nat) : C unit :=
  modify (fun s => set_sys (MkSystem (logic (sys s) ++ [c]) (state (sys s)) (imem (sys s)) (dmem (sys s))) s).

Definition new (x : Component) : C nat :=
  n ← gets (fun s => length (heap s));
  modify (fun s => set_heap (heap s ++ [x]) s);;
  mret n.

Definition deref (c : nat) : C Component := h ← gets heap; from_opt nil_deref (h !! c).

Definition the_reg (c : nat) : C Register :=
  x ← deref c;
  match x with CReg r => mret r | _ => panic nil_deref end.

Definition the_mux (c : nat) : C Mux :=
  x ← deref c;
  match x with CMux m => mret m | _ => panic nil_deref end.

Definition put (c : nat) (x : Component) : C unit := modify (fun s => set_heap (<[c := x]> (heap s)) s).

Definition report (src evt : list Z) (b0 b1 : Bits) (kind : Z) : C unit :=
  modify (fun s => MkStore (heap s) (sys s) (events s ++ [MkEvent src evt b0 b1 kind (cycleCounter s)]) (cycleCounter s)).

(** ** Errors *)

Inductive error :=
| WidthMismatch (r c : list Z)
| InvalidInput (r : list Z)
| InvalidControl
| ControlTwice
| InvalidData (in_ : Z)
| NoControl (m : list Z)
| NoDataSource (m : list Z) (i : nat).

(** [appendIfNotNil] *)
Definition appendIfNotNil (l : list error) (e : option error) : list error :=
  match e with None => l | Some x => l ++ [x] end.

(** ** parts.go: construction *)

Definition MakeZeroGenerator (name : list Z) (w : Z) : C nat :=
  c ← new (CZero (MkZeroGenerator name (MakeBits w 0 0 0)));
  RegisterComponent c;;
  mret c.

Definition MakeRegister (name : list Z) (w : Z) (en : nat) : C nat :=
  c ← new (CReg (MkRegister name None en (MakeUndefined w) (MakeUndefined w) w false false));
  RegisterClockable c;;
  mret c.

Definition MakeMux (name : list Z) (w : Z) : C nat :=
  c ← new (CMux (MkMux name None [] (MkBits 0 0 0 0) w false));
  RegisterComponent c;;
  mret c.

Definition set_input (i : option nat) (r : Register) : Register :=
  MkRegister (r_name r) i (enableFunc r) (visibleState r) (cachedState r) (r_width r) (cacheValid r) (clockEnabled r).

Definition AddInput (r : nat) (c : option nat) : C (option error) :=
  match c with
  | None => panic "AddInput(): nil arg"
  | Some k =>
    rr ← the_reg r;
    x ← deref k;
    if negb (r_width rr =? Width x) then mret (Some (WidthMismatch (r_name rr) (Name x)))
    else put r (CReg (set_input c rr));; mret None
  end.

Definition set_control (k : option nat) (d : list (option nat)) (m : Mux) : Mux :=
  MkMux (m_name m) k d (m_cachedState m) (dataWidth m) (m_cacheValid m).

Definition AddControl (m : nat) (c : option nat) : C (option error) :=
  mm ← the_mux m;
  match c with
  | None => mret (Some InvalidControl)
  | Some k =>
    x ← deref k;
    if 3 <? Width x then mret (Some InvalidControl)
    else if (0 <? length (data mm))%nat then mret (Some ControlTwice)
    else put m (CMux (set_control c (replicate (Z.to_nat (Z.shiftl 1 (Width x))) None) mm));; mret None
  end.

Definition AddData (m : nat) (c : option nat) (in_ : Z) : C (option error) :=
  mm ← the_mux m;
  match control mm, c with
  | Some k, Some d =>
    x ← deref d;
    kx ← deref k;
    if negb (Width x =? dataWidth mm) || (Z.shiftl 1 (Width kx) <=? in_) then mret (Some (InvalidData in_))
    else if (Z.to_nat in_ <? length (data mm))%nat then
      put m (CMux (set_control (control mm) (<[Z.to_nat in_ := c]> (data mm)) mm));; mret None
    else panic index_panic
  | _, _ => mret (Some (InvalidData in_))
  end.

(** ** parts.go: the methods of components *)

Definition first_nil (name : list Z) (d : list (option nat)) : option error :=
  match list_find (fun o => o = None) d with
  | Some (i, _) => Some (NoDataSource name i)
  | None => None
  end.

Definition Register_Check (r : Register) : C (option error) :=
  match input r with
  | None => mret (Some (InvalidInput (r_name r)))
  | Some i => y ← deref i; mret (if negb (Width y =? r_width r) then Some (InvalidInput (r_name r)) else None)
  end.

Definition Mux_Check (m : Mux) : option error :=
  match control m with
  | None => Some (NoControl (m_name m))
  | Some _ => first_nil (m_name m) (data m)
  end.

Definition Component_Check (c : nat) : C (option error) :=
  x ← deref c;
  match x with
  | CZero _ => mret None
  | CReg r => Register_Check r
  | CMux m => mret (Mux_Check m)
  end.

Definition set_valid (v : bool) (x : Component) : Component :=
  match x with
  | CZero z => CZero z
  | CReg r => CReg (MkRegister (r_name r) (input r) (enableFunc r) (visibleState r) (cachedState r) (r_width r) v (clockEnabled r))
  | CMux m => CMux (MkMux (m_name m) (control m) (data m) (m_cachedState m) (dataWidth m) v)
  end.

Definition Prepare (c : nat) : C unit := x ← deref c; put c (set_valid false x).

Definition set_enabled (e : bool) (r : Register) : Register :=
  MkRegister (r_name r) (input r) (enableFunc r) (visibleState r) (cachedState r) (r_width r) (cacheValid r) e.

Definition set_cached (v : Bits) (r : Register) : Register :=
  MkRegister (r_name r) (input r) (enableFunc r) (visibleState r) v (r_width r) (cacheValid r) (clockEnabled r).

Definition set_visible (v : Bits) (r : Register) : Register :=
  MkRegister (r_name r) (input r) (enableFunc r) v (cachedState r) (r_width r) (cacheValid r) (clockEnabled r).

Definition set_m_cached (v : Bits) (m : Mux) : Mux :=
  MkMux (m_name m) (control m) (data m) v (dataWidth m) (m_cacheValid m).

Definition upd_reg (c : nat) (f : Register -> Register) : C unit := r ← the_reg c; put c (CReg (f r)).

Definition Reset (c : nat) : C unit :=
  upd_reg c (fun r => MkRegister (r_name r) (input r) (enableFunc r) UndefBits (cachedState r) (r_width r) false false);;
  r ← the_reg c;
  report (r_name r) [] ZeroBits (visibleState r) KindReset.

Definition PositiveEdge (c : nat) : C unit :=
  r ← the_reg c;
  (if clockEnabled r then put c (CReg (set_visible (cachedState r) r)) else mret tt);;
  r' ← the_reg c;
  report (r_name r) (str "reg") (visibleState r) (visibleState r') KindEdge.

Definition overflow : string := "stack overflow".

Section Enables.
Context (enable : nat -> C bool).

(** The methods [Evaluate]; [ev] evaluates the inputs. *)
Definition ZeroGenerator_Evaluate (z : ZeroGenerator) : C Bits :=
  report (z_name z) (str "zero source") (zeroes z) (zeroes z) KindEval;; mret (zeroes z).

Definition Register_Evaluate (ev : nat -> C Bits) (c : nat) (r : Register) : C Bits :=
  (if cacheValid r then mret tt
   else
     e ← enable (enableFunc r);
     upd_reg c (set_enabled e);;
     (if (e : bool) then
        r1 ← the_reg c;
        i ← from_opt nil_deref (input r1);
        v ← ev i;
        upd_reg c (set_cached v)
      else mret tt);;
     r2 ← the_reg c;
     put c (set_valid true (CReg r2)));;
  r' ← the_reg c;
  report (r_name r') [] (boolToBits (clockEnabled r')) (cachedState r') KindEval;;
  mret (visibleState r').

Definition Mux_Evaluate (ev : nat -> C Bits) (c : nat) (m : Mux) : C Bits :=
  (if m_cacheValid m then mret tt
   else
     k ← from_opt nil_deref (control m);
     sel ← ev k;
     m1 ← the_mux c;
     o ← from_opt index_panic (data m1 !! Z.to_nat (value sel));
     d ← from_opt nil_deref o;
     v ← ev d;
     m2 ← the_mux c;
     put c (set_valid true (CMux (set_m_cached v m2))));;
  m' ← the_mux c;
  report (m_name m') (str "mux") (m_cachedState m) (m_cachedState m') KindEval;;
  mret (m_cachedState m').

(** The call of the method of a component.  Recursion through the inputs without
    end exhausts the stack of the program, which ends it. *)
Fixpoint Evaluate (fuel : nat) (c : nat) : C Bits :=
  match fuel with
  | O => panic overflow
  | S fuel' =>
    x ← deref c;
    match x with
    | CZero z => ZeroGenerator_Evaluate z
    | CReg r => Register_Evaluate (Evaluate fuel') c r
    | CMux m => Mux_Evaluate (Evaluate fuel') c m
    end
  end.

(** ** sim.go *)

Definition for_each {A} (f : nat -> C A) : list nat -> C unit :=
  fix go l := match l with [] => mret tt | c :: l' => f c;; go l' end.

Fixpoint count_errors (l : list nat) (nError : Z) : C Z :=
  match l with
  | [] => mret nError
  | c :: l' => e ← Component_Check c; count_errors l' (match e with Some _ => nError + 1 | None => nError end)
  end.

(** [Check]: the number of errors, none when it returns nil. *)
Definition Check_ : C (option Z) :=
  s ← gets sys;
  n ← count_errors (state s) 0;
  n' ← count_errors (logic s) n;
  mret (if 0 <? n' then Some n' else None).

(** The body of the loop of [Simulate]. *)
Definition clock_cycle (fuel : nat) : C unit :=
  s ← gets sys;
  for_each Prepare (logic s);;
  for_each Prepare (state s);;
  for_each (Evaluate fuel) (state s);;
  for_each PositiveEdge (state s).

(** The loop of [Simulate]; [n] bounds the number of its iterations. *)
Fixpoint cycles (n : nat) (fuel : nat) (end_ : Z) : C unit :=
  c ← gets cycleCounter;
  if c <? end_ then
    match n with
    | O => panic "out of fuel"
    | S n' => clock_cycle fuel;; modify (fun s => set_counter (u32 (cycleCounter s + 1)) s);; cycles n' fuel end_
    end
  else mret tt.

Definition Simulate (fuel : nat) (reset : bool) (nCycles : Z) : C unit :=
  (if reset then
     s ← gets sys;
     for_each Reset (state s);;
     modify (set_counter 0)
   else mret tt);;
  c ← gets cycleCounter;
  let end_ := u32 (c + nCycles) in
  cycles (Z.to_nat end_) fuel end_.

End Enables.

(** ** seq.go *)

Definition Sequential (always : nat) : C (list error) :=
  m ← MakeMux (str "pc-input") 16;
  z ← MakeZeroGenerator (str "temp-ctl") 1;
  e1 ← AddControl m (Some z);
  z ← MakeZeroGenerator (str "reset-vec") 16;
  e2 ← AddData m (Some z) 0;
  e3 ← AddData m (Some z) 1;
  r ← MakeRegister (str "pc") 16 always;
  e4 ← AddInput r (Some m);
  mret (appendIfNotNil (appendIfNotNil (appendIfNotNil (appendIfNotNil [] e1) e2) e3) e4).

Definition Build (always : nat) : C (list error) := modify (set_sys MakeSystem);; Sequential always.

(** [main] without its flag: the events of the run when it succeeds. *)
Definition sim_main (enable : nat -> C bool) (always : nat) (fuel : nat) : C (option Z) :=
  l ← Build always;
  match l with
  | _ :: _ => mret (Some 2)
  | [] =>
    e ← Check_;
    match e with
    | Some _ => mret (Some 2)
    | None => Simulate enable fuel true 5;; mret None
    end
  end.

Definition empty_store : Store := MkStore [] MakeSystem [] 0.
