(* ===== verification/CircuitProps.v ===== *)
(** * The logic simulator: what circuits compute

    Two heaps that differ in caches only are equal for every purpose here
    ([≈]).  [drives h c b]: in the circuit [h] the output of [c] is [b]; it depends
    on the wiring and on the visible states of the registers.  [wired] says that
    the inputs are connected, well-typed and without loops. *)

From S2P Require Import Prelude GoStr BinLog Circuit.

(** ** Heaps up to caches *)

Definition reg_shape (r r' : Register) : Prop :=
  r_name r = r_name r' /\ input r = input r' /\ enableFunc r = enableFunc r' /\ r_width r = r_width r'.

Definition mux_shape (m m' : Mux) : Prop :=
  m_name m = m_name m' /\ control m = control m' /\ data m = data m' /\ dataWidth m = dataWidth m'.

Definition same_shape (x y : Component) : Prop :=
  match x, y with
  | CZero z, CZero z' => z = z'
  | CReg r, CReg r' => reg_shape r r'
  | CMux m, CMux m' => mux_shape m m'
  | _, _ => False
  end.

Definition same_state (x y : Component) : Prop :=
  same_shape x y /\ match x, y with CReg r, CReg r' => visibleState r = visibleState r' | _, _ => True end.

Definition heap_shape : relation (list Component) := Forall2 same_shape.
Definition heap_eq : relation (list Component) := Forall2 same_state.
Infix "≈" := heap_eq (at level 70).

#[export] Instance same_shape_equiv : Equivalence same_shape.
Proof.
  split.
  - intros [z | r | m]; cbn; unfold reg_shape, mux_shape; auto.
  - intros [z | r | m] [z' | r' | m']; cbn; unfold reg_shape, mux_shape; try tauto; intuition congruence.
  - intros [z | r | m] [z' | r' | m'] [z2 | r2 | m2]; cbn; unfold reg_shape, mux_shape; try tauto; intuition congruence.
Qed.

#[export] Instance same_state_equiv : Equivalence same_state.
Proof.
  split.
  - intros x. split; [reflexivity | destruct x; auto].
  - intros x y [H1 H2]. split; [symmetry; exact H1 | destruct x, y; auto].
  - intros x y z [H1 H2] [H3 H4]. split; [etransitivity; eassumption |].
    destruct x, y, z; cbn in *; try tauto; congruence.
Qed.

#[export] Instance heap_shape_equiv : Equivalence heap_shape.
Proof. unfold heap_shape. split; apply _. Qed.

#[export] Instance heap_eq_equiv : Equivalence heap_eq.
Proof. unfold heap_eq. split; apply _. Qed.

Lemma heap_eq_shape h h' : h ≈ h' -> heap_shape h h'.
Proof. intros H. eapply Forall2_impl; [exact H |]. intros x y []; assumption. Qed.

Lemma same_shape_width x y : same_shape x y -> Width x = Width y.
Proof. destruct x, y; cbn; unfold reg_shape, mux_shape; intuition congruence. Qed.

Lemma heap_lookup (R : relation Component) h h' c x : Forall2 R h h' -> h !! c = Some x -> exists y, h' !! c = Some y /\ R x y.
Proof. intros H Hx. exact (Forall2_lookup_l _ _ _ _ _ H Hx). Qed.

(** Replacing a component by one that differs in its caches. *)
Lemma heap_eq_insert h0 h c x y : h ≈ h0 -> h !! c = Some x -> same_state y x -> <[c := y]> h ≈ h0.
Proof.
  intros He Hx Hy. destruct (heap_lookup _ _ _ _ _ He Hx) as (x0 & Hx0 & Hs).
  rewrite <- (list_insert_id h0 c x0 Hx0). apply Forall2_insert; [exact He |]. etransitivity; eassumption.
Qed.

(** ** What a component drives *)

Inductive drives (h : list Component) : nat -> Bits -> Prop :=
| drives_zero c z : h !! c = Some (CZero z) -> drives h c (zeroes z)
| drives_reg c r : h !! c = Some (CReg r) -> drives h c (visibleState r)
| drives_mux c m k sel d b :
    h !! c = Some (CMux m) -> control m = Some k -> drives h k sel ->
    data m !! Z.to_nat (value sel) = Some (Some d) -> drives h d b -> drives h c b.

Lemma drives_det h c b b' : drives h c b -> drives h c b' -> b = b'.
Proof.
  intros H. revert b'. induction H as [c z Hc | c r Hc | c m k sel d b Hc Hk Hs IHs Hd Hb IHb]; intros b' H';
    inversion H'; subst; simplify_eq; auto.
  match goal with H : drives h k _ |- _ => apply IHs in H; subst end. simplify_eq. auto.
Qed.

Lemma drives_eq h h' c b : h ≈ h' -> drives h c b -> drives h' c b.
Proof.
  intros He H. induction H as [c z Hc | c r Hc | c m k sel d b Hc Hk Hs IHs Hd Hb IHb];
    destruct (heap_lookup _ _ _ _ _ He Hc) as ([z' | r' | m'] & Hc' & [Hsh Hv]); cbn in Hsh, Hv; try tauto.
  - subst. now constructor.
  - rewrite Hv. now constructor.
  - destruct Hsh as (_ & Ek & Ed & _). rewrite Ek in Hk. rewrite Ed in Hd. eapply drives_mux; eassumption.
Qed.

#[export] Instance drives_proper : Proper (heap_eq ==> eq ==> eq ==> iff) drives.
Proof. intros h h' He c ? <- b ? <-. split; apply drives_eq; [exact He | symmetry; exact He]. Qed.

(** ** Well-typed circuits *)

(** The value field; the field [width] of the bits is not looked at ([Reset] sets it to 16
    in every register). *)
Definition fits (w : Z) (b : Bits) : Prop := 0 <= value b < 2 ^ w.

(** The value that a component holds fits its width. *)
Definition holds (x : Component) : Prop :=
  match x with
  | CZero z => fits (Width x) (zeroes z)
  | CReg r => fits (Width x) (visibleState r)
  | CMux _ => True
  end.

(** [c] is a component of [h] of width [w] and rank below [n]. *)
Definition source_of (h : list Component) (rank : nat -> nat) (n : nat) (w : Z) (c : nat) : Prop :=
  exists x, h !! c = Some x /\ Width x = w /\ (rank c < n)%nat.

Definition wired_comp (h : list Component) (rank : nat -> nat) (n : nat) (x : Component) : Prop :=
  match x with
  | CZero _ => True
  | CReg r => exists i, input r = Some i /\ source_of h rank n (r_width r) i
  | CMux m => exists k w, control m = Some k /\ source_of h rank n w k /\ length (data m) = Z.to_nat (2 ^ w) /\
      Forall (fun o => exists d, o = Some d /\ source_of h rank n (dataWidth m) d) (data m)
  end.

Definition wired (rank : nat -> nat) (h : list Component) : Prop :=
  forall c x, h !! c = Some x -> wired_comp h rank (rank c) x /\ holds x.

Lemma source_of_eq h h' rank n w c : heap_shape h h' -> source_of h rank n w c -> source_of h' rank n w c.
Proof.
  intros He (x & Hx & Hw & Hr). destruct (heap_lookup _ _ _ _ _ He Hx) as (y & Hy & Hs).
  exists y. split; [exact Hy | split; [| exact Hr]]. rewrite <- Hw. symmetry. now apply same_shape_width.
Qed.

Lemma wired_comp_eq h h' rank n x y : heap_shape h h' -> same_shape x y -> wired_comp h rank n x -> wired_comp h' rank n y.
Proof.
  intros He Hs. destruct x as [z | r | m], y as [z' | r' | m']; cbn in *; try tauto.
  - destruct Hs as (_ & <- & _ & <-). intros (i & Hi & Hso). exists i. split; [exact Hi | now apply (source_of_eq h)].
  - destruct Hs as (_ & <- & <- & <-). intros (k & w & Hk & Hso & Hl & Hd). exists k, w.
    split; [exact Hk | split; [now apply (source_of_eq h) | split; [exact Hl |]]].
    eapply Forall_impl; [exact Hd |]. intros o (d & Ho & Hd'). exists d. split; [exact Ho | now apply (source_of_eq h)].
Qed.

(** Well-typed wiring always has an output, and one that fits. *)
Lemma wired_drives rank h : wired rank h ->
  forall n c x, (rank c < n)%nat -> h !! c = Some x -> exists b, drives h c b /\ fits (Width x) b.
Proof.
  intros Hw. induction n as [| n IH]; intros c x Hr Hx; [lia |]. destruct (Hw c x Hx) as [Hwc Hh].
  destruct x as [z | r | m]; cbn in Hwc, Hh.
  - exists (zeroes z). split; [now constructor | exact Hh].
  - exists (visibleState r). split; [now constructor | exact Hh].
  - destruct Hwc as (k & w & Hk & (kx & Hkx & Hkw & Hkr) & Hl & Hd).
    destruct (IH k kx) as (sel & Hsel & Hsf); [lia | exact Hkx |]. rewrite Hkw in Hsf. unfold fits in Hsf.
    destruct (lookup_is_Some_len (data m) (Z.to_nat (value sel))) as [o Ho]; [rewrite Hl; lia |].
    pose proof (Forall_lookup_some _ _ _ _ Hd Ho) as (d & -> & (dx & Hdx & Hdw & Hdr)).
    destruct (IH d dx) as (b & Hb & Hbf); [lia | exact Hdx |]. exists b. split; [eapply drives_mux; eassumption |].
    cbn. rewrite <- Hdw. exact Hbf.
Qed.
