(* ===== verification/CircuitEval.v ===== *)
(** * The logic simulator: evaluation

    [Evaluate] on a wired circuit returns what the component drives and fills the
    caches with what the next clock edge needs ([phase]), whichever components
    have been evaluated before. *)

From S2P Require Import Prelude GoStr BinLog Circuit CircuitProps.

(** A clock enable is combinational (parts.go): it changes nothing, and depends on
    the wiring and the visible states only. *)
Class Combinational (enable : nat -> C bool) := {
  en : nat -> list Component -> bool;
  enable_pure : forall f s, enable f s = Ret (en f (heap s), s);
  enable_visible : forall f, Proper (heap_eq ==> eq) (en f)
}.
Arguments en enable {_} f h.

#[export] Instance always_combinational : Combinational (fun _ => mret true).
Proof. exists (fun _ _ => true); [reflexivity | intros f h h' _; reflexivity]. Defined.

Definition valid (x : Component) : bool :=
  match x with CZero _ => true | CReg r => cacheValid r | CMux m => m_cacheValid m end.

Definition valid_at (h : list Component) (c : nat) : Prop := exists x, h !! c = Some x /\ valid x = true.

(** ** Rules for the heap operations *)

Lemma wp_deref {E} c x Q s : heap s !! c = Some x -> Q x s -> wpe E (deref c) Q s.
Proof. intros Hx HQ. unfold deref. apply wpe_bind, wpe_gets. rewrite Hx. exact HQ. Qed.

Lemma wp_the_reg {E} c r Q s : heap s !! c = Some (CReg r) -> Q r s -> wpe E (the_reg c) Q s.
Proof. intros Hx HQ. unfold the_reg. apply wpe_bind. eapply wp_deref; [exact Hx | exact HQ]. Qed.

Lemma wp_the_mux {E} c m Q s : heap s !! c = Some (CMux m) -> Q m s -> wpe E (the_mux c) Q s.
Proof. intros Hx HQ. unfold the_mux. apply wpe_bind. eapply wp_deref; [exact Hx | exact HQ]. Qed.

Lemma wp_upd_reg {E} c r f Q s : heap s !! c = Some (CReg r) ->
  Q tt (set_heap (<[c := CReg (f r)]> (heap s)) s) -> wpe E (upd_reg c f) Q s.
Proof. intros Hx HQ. unfold upd_reg. apply wpe_bind. eapply wp_the_reg; [exact Hx | exact HQ]. Qed.

Section Eval.
Context (enable : nat -> C bool) {HC : Combinational enable}.

Section Phase.
Context (h0 : list Component).

(** What a valid cache holds. *)
Definition cache_ok (c : nat) (x : Component) : Prop :=
  match x with
  | CZero _ => True
  | CReg r => cacheValid r = true ->
      clockEnabled r = en enable (enableFunc r) h0 /\
      (clockEnabled r = true -> exists i, input r = Some i /\ drives h0 i (cachedState r))
  | CMux m => m_cacheValid m = true -> drives h0 c (m_cachedState m)
  end.

Record phase (h : list Component) : Prop := {
  ph_eq : h ≈ h0;
  ph_cache : forall c x, h !! c = Some x -> cache_ok c x
}.

Lemma phase_put h c x y : phase h -> h !! c = Some x -> same_state y x -> cache_ok c y -> phase (<[c := y]> h).
Proof.
  intros [He Hc] Hx Hy Hok. split; [eapply heap_eq_insert; eassumption |].
  intros d z Hz. apply list_lookup_insert_Some in Hz as [(<- & <- & _) | [_ Hz]]; [exact Hok | now apply Hc].
Qed.

Lemma phase_en h f : phase h -> en enable f h = en enable f h0.
Proof. intros [He _]. now apply enable_visible. Qed.

Context (rank : nat -> nat) (Hw : wired rank h0).

(** What evaluating [c] changes: nothing of higher rank and no valid cache. *)
Definition framed (c : nat) (h h' : list Component) : Prop :=
  forall d, (rank c < rank d)%nat \/ valid_at h d -> h' !! d = h !! d.

Record evaluated (c : nat) (s : Store) (b : Bits) (s' : Store) : Prop := {
  ev_drives : drives h0 c b;
  ev_phase : phase (heap s');
  ev_frame : framed c (heap s) (heap s');
  ev_valid : valid_at (heap s') c;
  ev_sys : sys s' = sys s;
  ev_counter : cycleCounter s' = cycleCounter s
}.

Lemma phase_wired h c x : phase h -> h !! c = Some x -> wired_comp h0 rank (rank c) x.
Proof.
  intros [He _] Hx. destruct (heap_lookup _ _ _ _ _ He Hx) as (y & Hy & [Hs _]).
  eapply wired_comp_eq; [reflexivity | symmetry; exact Hs | exact (proj1 (Hw c y Hy))].
Qed.

Lemma phase_exists h c x0 : phase h -> h0 !! c = Some x0 -> exists x, h !! c = Some x.
Proof. intros [He _] Hx. symmetry in He. destruct (heap_lookup _ _ _ _ _ He Hx) as (y & Hy & _). eauto. Qed.

Lemma valid_mono c h h' d : framed c h h' -> valid_at h d -> valid_at h' d.
Proof. intros Hf Hv. destruct Hv as (x & Hx & Hvx). exists x. split; [| exact Hvx]. rewrite (Hf d); [exact Hx | right; exists x; auto]. Qed.

(** A step in the evaluation of [c] that leaves [c] itself at [x]. *)
Record at_comp (c : nat) (x : Component) (s s' : Store) : Prop := {
  ac_lookup : heap s' !! c = Some x;
  ac_phase : phase (heap s');
  ac_frame : framed c (heap s) (heap s');
  ac_sys : sys s' = sys s;
  ac_counter : cycleCounter s' = cycleCounter s
}.

Lemma at_comp_put c x y s0 s : at_comp c x s0 s -> (exists x0, heap s0 !! c = Some x0 /\ valid x0 = false) ->
  same_state y x -> cache_ok c y -> at_comp c y s0 (set_heap (<[c := y]> (heap s)) s).
Proof.
  intros [Hl Hp Hf Hs Hc] (x0 & Hx0 & Hv) Hy Hok. constructor; cbn; auto.
  - apply list_lookup_insert_eq. eapply lookup_lt_Some, Hl.
  - eapply phase_put; eassumption.
  - intros d Hd. rewrite list_lookup_insert_ne; [now apply Hf |].
    intros <-. destruct Hd as [Hd | (z & Hz & Hvz)]; [lia | congruence].
Qed.

Lemma at_comp_refl c x s : phase (heap s) -> heap s !! c = Some x -> at_comp c x s s.
Proof. intros Hp Hx. constructor; auto. intros d _. reflexivity. Qed.

(** Evaluating an input of [c] in the course of evaluating [c]. *)
Lemma at_comp_input c x s0 s i b s' : at_comp c x s0 s -> (rank i < rank c)%nat -> evaluated i s b s' -> at_comp c x s0 s'.
Proof.
  intros [Hl Hp Hf Hs Hc] Hr [_ Hp' Hf' _ Hs' Hc']. constructor; [| exact Hp' | | congruence | congruence].
  - rewrite (Hf' c); [exact Hl | left; exact Hr].
  - intros d Hd. rewrite (Hf' d), (Hf d Hd); [reflexivity |]. destruct Hd as [Hd | (z & Hz & Hv)]; [left; lia | right].
    exists z. split; [| exact Hv]. rewrite (Hf d); [exact Hz | right; exists z; auto].
Qed.

Definition evaluator (n : nat) (ev : nat -> C Bits) : Prop :=
  forall c s x0, phase (heap s) -> h0 !! c = Some x0 -> (rank c < n)%nat -> wp (ev c) (evaluated c s) s.

(** ** Registers *)

Definition fill_reg (ev : nat -> C Bits) (c : nat) (r : Register) : C unit :=
  e ← enable (enableFunc r);
  upd_reg c (set_enabled e);;
  (if (e : bool) then
     r1 ← the_reg c;
     i ← from_opt nil_deref (input r1);
     v ← ev i;
     upd_reg c (set_cached v)
   else mret tt);;
  r2 ← the_reg c;
  put c (set_valid true (CReg r2)).

Lemma fill_reg_spec n ev c r s : evaluator n ev -> (rank c <= n)%nat ->
  phase (heap s) -> heap s !! c = Some (CReg r) -> cacheValid r = false ->
  wp (fill_reg ev c r)
    (fun _ s' => exists r', cacheValid r' = true /\ same_state (CReg r') (CReg r) /\ at_comp c (CReg r') s s') s.
Proof.
  intros Hev Hn Hp Hx Hv. set (e := en enable (enableFunc r) h0). unfold fill_reg. apply wpe_bind. unfold wpe at 1.
  rewrite enable_pure, (phase_en (heap s)) by exact Hp. fold e. apply wpe_bind. eapply wp_upd_reg; [exact Hx |].
  assert (Hinv : exists x0, heap s !! c = Some x0 /\ valid x0 = false) by eauto.
  assert (H1 : at_comp c (CReg (set_enabled e r)) s (set_heap (<[c := CReg (set_enabled e r)]> (heap s)) s)).
  { apply (at_comp_put _ _ _ _ _ (at_comp_refl _ _ _ Hp Hx) Hinv); [repeat split | cbn; congruence]. }
  revert H1. generalize (set_heap (<[c := CReg (set_enabled e r)]> (heap s)) s). intros s1 H1. apply wpe_bind.
  assert (Hfin : forall s2 r2, at_comp c (CReg r2) s s2 -> same_state (CReg r2) (CReg r) -> clockEnabled r2 = e ->
    (e = true -> exists i, input r2 = Some i /\ drives h0 i (cachedState r2)) ->
    wp (r2 ← the_reg c; put c (set_valid true (CReg r2)))
      (fun _ s' => exists r', cacheValid r' = true /\ same_state (CReg r') (CReg r) /\ at_comp c (CReg r') s s') s2).
  { intros s2 r2 H2 Hs2 He2 Hd2. apply wpe_bind. eapply wp_the_reg; [exact (ac_lookup _ _ _ _ H2) |]. apply wpe_modify.
    eexists. split; [| split; [| eapply at_comp_put; [exact H2 | exact Hinv | |]]]; [reflexivity | exact Hs2 | |].
    - repeat split.
    - cbn. intros _. destruct Hs2 as [(_ & _ & -> & _) _]. rewrite He2. split; [reflexivity | exact Hd2]. }
  destruct e eqn:Ee.
  - apply wpe_bind. eapply wp_the_reg; [exact (ac_lookup _ _ _ _ H1) |].
    destruct (phase_wired _ c _ Hp Hx) as (i & Hi & (xi & Hxi & _ & Hri)). cbn [set_enabled input]. rewrite Hi.
    apply wpe_bind, wpe_ret, wpe_bind. eapply wpe_mono; [apply (Hev i s1 xi); [apply H1 | exact Hxi | lia] | tauto |].
    intros v s2 H2. cbn beta. pose proof (at_comp_input _ _ _ _ _ _ _ H1 Hri H2) as H3.
    eapply wp_upd_reg; [exact (ac_lookup _ _ _ _ H3) |].
    apply (Hfin _ (set_cached v (set_enabled true r))); [| repeat split | reflexivity |].
    + eapply at_comp_put; [exact H3 | exact Hinv | repeat split | cbn; congruence].
    + intros _. exists i. split; [exact Hi | apply H2].
  - apply wpe_ret. apply (Hfin _ _ H1); [repeat split | reflexivity | congruence].
Qed.

(** ** Multiplexers *)

Definition fill_mux (ev : nat -> C Bits) (c : nat) (m : Mux) : C unit :=
  k ← from_opt nil_deref (control m);
  sel ← ev k;
  m1 ← the_mux c;
  o ← from_opt index_panic (data m1 !! Z.to_nat (value sel));
  d ← from_opt nil_deref o;
  v ← ev d;
  m2 ← the_mux c;
  put c (set_valid true (CMux (set_m_cached v m2))).

Lemma fill_mux_spec n ev c m s : evaluator n ev -> (rank c <= n)%nat ->
  phase (heap s) -> heap s !! c = Some (CMux m) -> m_cacheValid m = false ->
  wp (fill_mux ev c m)
    (fun _ s' => exists m', m_cacheValid m' = true /\ drives h0 c (m_cachedState m') /\ at_comp c (CMux m') s s') s.
Proof.
  intros Hev Hn Hp Hx Hv. assert (Hinv : exists x0, heap s !! c = Some x0 /\ valid x0 = false) by eauto.
  destruct (phase_wired _ c _ Hp Hx) as (k & w & Hk & (kx & Hkx & Hkw & Hkr) & Hl & Hd).
  unfold fill_mux. rewrite Hk. apply wpe_bind, wpe_ret, wpe_bind.
  eapply wpe_mono; [apply (Hev k s kx); [exact Hp | exact Hkx | lia] | tauto |]. intros sel s1 H1. cbn beta.
  pose proof (at_comp_input _ _ _ _ _ _ _ (at_comp_refl _ _ _ Hp Hx) Hkr H1) as A1.
  apply wpe_bind. eapply wp_the_mux; [apply A1 |].
  destruct (wired_drives rank h0 Hw (S (rank k)) k kx) as (sel' & Hsel' & Hfit); [lia | exact Hkx |].
  rewrite (drives_det _ _ _ _ Hsel' (ev_drives _ _ _ _ H1)), Hkw in Hfit.
  destruct (lookup_is_Some_len (data m) (Z.to_nat (value sel))) as [o Ho]; [rewrite Hl; unfold fits in Hfit; lia |].
  pose proof (Forall_lookup_some _ _ _ _ Hd Ho) as (d & -> & (dx & Hdx & Hdw & Hdr)).
  rewrite Ho. apply wpe_bind, wpe_ret, wpe_bind, wpe_ret, wpe_bind.
  eapply wpe_mono; [apply (Hev d s1 dx); [apply A1 | exact Hdx | lia] | tauto |]. intros v s2 H2. cbn beta.
  pose proof (at_comp_input _ _ _ _ _ _ _ A1 Hdr H2) as A2.
  apply wpe_bind. eapply wp_the_mux; [apply A2 |]. apply wpe_modify.
  assert (Hdrv : drives h0 c v).
  { destruct (heap_lookup _ _ _ _ _ (ph_eq _ Hp) Hx) as ([| | m0] & Hm0 & [Hsh _]); cbn in Hsh; try tauto.
    destruct Hsh as (_ & Ek & Ed & _). apply (drives_mux h0 c m0 k sel d v); [exact Hm0 | congruence | apply H1 | rewrite <- Ed; exact Ho | apply H2]. }
  eexists. split; [| split; [| eapply at_comp_put; [exact A2 | exact Hinv | |]]]; [reflexivity | exact Hdrv | |].
  - repeat split.
  - cbn. intros _. exact Hdrv.
Qed.

(** ** Evaluate *)

Lemma at_comp_done c x s b s' s'' : at_comp c x s s' -> valid x = true -> drives h0 c b ->
  heap s'' = heap s' -> sys s'' = sys s' -> cycleCounter s'' = cycleCounter s' -> evaluated c s b s''.
Proof.
  intros [Hl Hp Hf Hs Hc] Hv Hd E1 E2 E3. constructor; rewrite ?E1, ?E2, ?E3; auto. exists x. auto.
Qed.

Lemma phase_visible h c r : phase h -> h !! c = Some (CReg r) -> drives h0 c (visibleState r).
Proof. intros [He _] Hx. rewrite <- He. now constructor. Qed.

Theorem Evaluate_spec fuel : evaluator fuel (Evaluate enable fuel).
Proof.
  induction fuel as [| fuel IH]; intros c s x0 Hp Hx0 Hr; [lia |].
  destruct (phase_exists _ c x0 Hp Hx0) as [x Hx]. cbn [Evaluate]. apply wpe_bind. eapply wp_deref; [exact Hx |].
  pose proof (at_comp_refl _ _ _ Hp Hx) as H0.
  destruct x as [z | r | m]; unfold ZeroGenerator_Evaluate, Register_Evaluate, Mux_Evaluate.
  - apply wpe_bind, wpe_modify, wpe_ret. eapply at_comp_done; [exact H0 | reflexivity | | reflexivity ..].
    rewrite <- (ph_eq _ Hp). now constructor.
  - assert (Hfin : forall r' s1, cacheValid r' = true -> same_state (CReg r') (CReg r) -> at_comp c (CReg r') s s1 ->
      wp (r' ← the_reg c; report (r_name r') [] (boolToBits (clockEnabled r')) (cachedState r') KindEval;; mret (visibleState r'))
        (evaluated c s) s1).
    { intros r' s1 Hv1 Hs1 H1. apply wpe_bind. eapply wp_the_reg; [apply H1 |]. apply wpe_bind, wpe_modify, wpe_ret.
      eapply at_comp_done; [exact H1 | exact Hv1 | eapply phase_visible; apply H1 | reflexivity ..]. }
    apply wpe_bind. destruct (cacheValid r) eqn:Ev.
    + apply wpe_ret. apply (Hfin r); [exact Ev | reflexivity | exact H0].
    + eapply wpe_mono; [apply (fill_reg_spec fuel (Evaluate enable fuel) c r s IH); [lia | assumption ..] | tauto |].
      cbn beta. intros _ s1 (r' & Hv1 & Hs1 & H1). exact (Hfin r' s1 Hv1 Hs1 H1).
  - assert (Hfin : forall m' s1, m_cacheValid m' = true -> at_comp c (CMux m') s s1 ->
      wp (m' ← the_mux c; report (m_name m') (str "mux") (m_cachedState m) (m_cachedState m') KindEval;; mret (m_cachedState m'))
        (evaluated c s) s1).
    { intros m' s1 Hv1 H1. apply wpe_bind. eapply wp_the_mux; [apply H1 |]. apply wpe_bind, wpe_modify, wpe_ret.
      eapply at_comp_done; [exact H1 | exact Hv1 | | reflexivity ..].
      exact (ph_cache _ (ac_phase _ _ _ _ H1) _ _ (ac_lookup _ _ _ _ H1) Hv1). }
    apply wpe_bind. destruct (m_cacheValid m) eqn:Ev.
    + apply wpe_ret. apply (Hfin m); [exact Ev | exact H0].
    + eapply wpe_mono; [apply (fill_mux_spec fuel (Evaluate enable fuel) c m s IH); [lia | assumption ..] | tauto |].
      cbn beta. intros _ s1 (m' & Hv1 & _ & H1). exact (Hfin m' s1 Hv1 H1).
Qed.

End Phase.
End Eval.
