(* ===== verification/CircuitSync.v ===== *)
(** * The logic simulator: a clock cycle is a synchronous step

    [sync h h']: every register of [h'] shows what its input drove in [h] when its
    clock was enabled, and what it showed before otherwise.  The order in which
    components were registered does not occur in it. *)

From S2P Require Import Prelude GoStr BinLog Circuit CircuitProps CircuitEval.

Section ForEach.
Context {A : Type} (f : nat -> C A) (I : list nat -> Store -> Prop).

(** A loop over components, [I] relating those that are done to the store. *)
Lemma wp_for_each l pre s :
  (forall dn c s', I dn s' -> c ∈ l -> wp (f c) (fun _ => I (dn ++ [c])) s') ->
  I pre s -> wp (for_each f l) (fun _ => I (pre ++ l)) s.
Proof.
  revert pre s. induction l as [| c l IH]; intros pre s Hf HI; cbn [for_each].
  - apply wpe_ret. rewrite app_nil_r. exact HI.
  - apply wpe_bind. eapply wpe_mono; [apply Hf; [exact HI | apply list_elem_of_here] | tauto |]. cbn beta. intros _ s' HI'.
    fold (for_each f). eapply wpe_mono; [apply (IH (pre ++ [c])); [| exact HI'] | tauto |].
    + intros dn d s2 Hd Hl. apply Hf; [exact Hd | now apply list_elem_of_further].
    + cbn beta. intros _ s2. rewrite <- app_assoc. exact id.
Qed.

End ForEach.

(** Every component is in one of the lists of the system. *)
Record registered (y : System) (h : list Component) : Prop := {
  rg_state : forall c, c ∈ state y <-> exists r, h !! c = Some (CReg r);
  rg_logic : forall c, c ∈ logic y <-> exists x, h !! c = Some x /\ forall r, x <> CReg r
}.

Lemma registered_shape y h h' : heap_shape h h' -> registered y h -> registered y h'.
Proof.
  intros He [Hs Hl].
  assert (G : forall h h', heap_shape h h' -> forall c, (exists r, h !! c = Some (CReg r)) -> exists r, h' !! c = Some (CReg r)).
  { intros a b Hab c [r Hr]. destruct (heap_lookup _ _ _ _ _ Hab Hr) as ([| r' |] & Hr' & Hs'); cbn in Hs'; try tauto. eauto. }
  assert (G2 : forall h h', heap_shape h h' -> forall c,
    (exists x, h !! c = Some x /\ forall r, x <> CReg r) -> exists x, h' !! c = Some x /\ forall r, x <> CReg r).
  { intros a b Hab c (x & Hx & Hn). destruct (heap_lookup _ _ _ _ _ Hab Hx) as (x' & Hx' & Hs'). exists x'. split; [exact Hx' |].
    intros r ->. destruct x as [| r0 |]; cbn in Hs'; try tauto. exact (Hn r0 eq_refl). }
  assert (He' : heap_shape h' h) by (symmetry; exact He).
  split; intros c; [rewrite Hs | rewrite Hl]; split; eauto.
Qed.

Section Sync.
Context (enable : nat -> C bool) {HC : Combinational enable}.

Definition next_comp (h : list Component) (x y : Component) : Prop :=
  same_shape x y /\
  match x, y with
  | CReg r, CReg r' =>
    if en enable (enableFunc r) h then exists i, input r = Some i /\ drives h i (visibleState r')
    else visibleState r' = visibleState r
  | _, _ => True
  end.

Definition sync (h h' : list Component) : Prop := Forall2 (next_comp h) h h'.

Lemma sync_shape h h' : sync h h' -> heap_shape h h'.
Proof. intros H. eapply Forall2_impl; [exact H |]. intros x y []. assumption. Qed.

Lemma next_comp_det h x x' y y' : same_state x x' -> next_comp h x y -> next_comp h x' y' -> same_state y y'.
Proof.
  intros [Hs Hv] [H1 H2] [H1' H2']. split.
  - transitivity x; [symmetry; exact H1 |]. transitivity x'; assumption.
  - destruct x as [| r |], x' as [| r' |], y as [| r1 |], y' as [| r2 |]; cbn in *; try tauto.
    destruct Hs as (_ & Ei & Ee & _). rewrite <- Ee, <- Ei in H2'. destruct (en enable (enableFunc r) h).
    + destruct H2 as (i & Hi & Hd), H2' as (i' & Hi' & Hd'). rewrite Hi in Hi'. injection Hi' as <-. eapply drives_det; eassumption.
    + congruence.
Qed.

Lemma next_comp_eq h h' x y : h ≈ h' -> next_comp h x y -> next_comp h' x y.
Proof.
  intros He [H1 H2]. split; [exact H1 |]. destruct x as [| r |], y as [| r1 |]; auto.
  rewrite <- (enable_visible (enableFunc r) _ _ He). destruct (en enable (enableFunc r) h); [| exact H2].
  destruct H2 as (i & Hi & Hd). exists i. split; [exact Hi | now rewrite <- He].
Qed.

(** The next state is determined up to caches. *)
Lemma sync_det h1 h2 h1' h2' : h1 ≈ h2 -> sync h1 h1' -> sync h2 h2' -> h1' ≈ h2'.
Proof.
  intros He H1 H2. apply Forall2_same_length_lookup. split.
  - rewrite <- (Forall2_length _ _ _ H1), <- (Forall2_length _ _ _ H2). exact (Forall2_length _ _ _ He).
  - intros c y y' Hy Hy'. destruct (Forall2_lookup_r _ _ _ _ _ H1 Hy) as (x & Hx & Hn).
    destruct (Forall2_lookup_r _ _ _ _ _ H2 Hy') as (x' & Hx' & Hn').
    destruct (heap_lookup _ _ _ _ _ He Hx) as (x'' & Hx'' & Hs). rewrite Hx' in Hx''. injection Hx'' as <-.
    eapply next_comp_det; [exact Hs | eapply next_comp_eq; [exact He | exact Hn] | exact Hn'].
Qed.

Lemma sync_wired rank h h' : wired rank h -> sync h h' -> wired rank h'.
Proof.
  intros Hw Hs c y Hy. destruct (Forall2_lookup_r _ _ _ _ _ Hs Hy) as (x & Hx & [Hsh Hn]).
  destruct (Hw c x Hx) as [Hwc Hh]. split; [eapply wired_comp_eq; [apply sync_shape, Hs | exact Hsh | exact Hwc] |].
  destruct x as [z | r | m], y as [z' | r' | m']; cbn in Hsh, Hn; try tauto; cbn.
  - subst z'. exact Hh.
  - pose proof Hsh as (_ & _ & _ & Ew). rewrite <- Ew. destruct (en enable (enableFunc r) h).
    + destruct Hn as (i & Hi & Hd). destruct Hwc as (i' & Hi' & (x & Hxi & Hwx & Hr)). rewrite Hi in Hi'. injection Hi' as <-.
      destruct (wired_drives rank h Hw (S (rank i)) i x) as (b & Hb & Hf); [lia | exact Hxi |].
      rewrite (drives_det _ _ _ _ Hd Hb), <- Hwx. exact Hf.
    + rewrite Hn. exact Hh.
Qed.

(** ** The phases of a cycle *)

Definition stale (x : Component) : Prop := match x with CZero _ => True | _ => valid x = false end.

(** The heap up to caches, the caches of [dn] being stale. *)
Record prepared (s0 : Store) (dn : list nat) (s : Store) : Prop := {
  pr_eq : heap s ≈ heap s0;
  pr_stale : forall c x, c ∈ dn -> heap s !! c = Some x -> stale x;
  pr_sys : sys s = sys s0;
  pr_counter : cycleCounter s = cycleCounter s0
}.

Lemma Prepare_spec s0 dn c s x : prepared s0 dn s -> heap s !! c = Some x -> wp (Prepare c) (fun _ => prepared s0 (dn ++ [c])) s.
Proof.
  intros [He Hst Hs Hc] Hx. unfold Prepare. apply wpe_bind. eapply wp_deref; [exact Hx |]. apply wpe_modify.
  constructor; cbn; [| | exact Hs | exact Hc].
  - eapply heap_eq_insert; [exact He | exact Hx |]. destruct x; repeat split.
  - intros d y Hd Hy. apply list_lookup_insert_Some in Hy as [(<- & <- & _) | [Hne Hy]]; [destruct x; cbn; auto |].
    apply elem_of_app in Hd as [Hd | Hd]; [eauto |]. apply list_elem_of_singleton in Hd. congruence.
Qed.

Lemma Prepare_all s0 l pre s : prepared s0 pre s -> (forall c, c ∈ l -> is_Some (heap s0 !! c)) ->
  wp (for_each Prepare l) (fun _ => prepared s0 (pre ++ l)) s.
Proof.
  intros Hs Hl. apply wp_for_each; [| exact Hs]. intros dn c s' Hs' Hc. destruct (Hl c Hc) as [x Hx].
  pose proof (pr_eq _ _ _ Hs') as He. symmetry in He. destruct (heap_lookup _ _ _ _ _ He Hx) as (x' & Hx' & _).
  eapply Prepare_spec; eassumption.
Qed.

Lemma prepared_phase s0 dn s : prepared s0 dn s -> (forall c x, heap s0 !! c = Some x -> c ∈ dn) -> phase enable (heap s0) (heap s).
Proof.
  intros [He Hst _ _] Hall. split; [exact He |]. intros c x Hx. destruct (heap_lookup _ _ _ _ _ He Hx) as (y & Hy & _).
  specialize (Hst c x (Hall c y Hy) Hx). destruct x; cbn in *; congruence.
Qed.

Record clocked_out (s0 : Store) (dn : list nat) (s : Store) : Prop := {
  co_phase : phase enable (heap s0) (heap s);
  co_valid : forall c, c ∈ dn -> valid_at (heap s) c;
  co_sys : sys s = sys s0;
  co_counter : cycleCounter s = cycleCounter s0
}.

Lemma Evaluate_out rank fuel s0 dn c x s : wired rank (heap s0) -> clocked_out s0 dn s -> heap s0 !! c = Some x -> (rank c < fuel)%nat ->
  wp (Evaluate enable fuel c) (fun _ => clocked_out s0 (dn ++ [c])) s.
Proof.
  intros Hw [Hp Hv Hs Hc] Hx Hr.
  eapply wpe_mono; [eapply (Evaluate_spec enable (heap s0) rank Hw fuel c s x); assumption | tauto |].
  intros b s' [Hd Hp' Hf Hv' Hs' Hc']. constructor; [exact Hp' | | congruence | congruence].
  intros d Hdn. apply elem_of_app in Hdn as [Hdn | Hdn].
  - eapply valid_mono; [exact Hf | now apply Hv].
  - apply list_elem_of_singleton in Hdn as ->. exact Hv'.
Qed.

(** What an edge does to a register. *)
Definition edge (x : Component) : Component :=
  match x with CReg r => CReg (if clockEnabled r then set_visible (cachedState r) r else r) | _ => x end.

Record clocked (s1 : Store) (dn : list nat) (s : Store) : Prop := {
  ck_heap : forall c, heap s !! c = if decide (c ∈ dn) then edge <$> heap s1 !! c else heap s1 !! c;
  ck_length : length (heap s) = length (heap s1);
  ck_sys : sys s = sys s1;
  ck_counter : cycleCounter s = cycleCounter s1
}.

Lemma edge_idem x : edge (edge x) = edge x.
Proof. destruct x as [| r |]; auto. cbn. destruct (clockEnabled r) eqn:E; cbn; rewrite E; reflexivity. Qed.

Lemma PositiveEdge_spec s1 dn c r s : clocked s1 dn s -> heap s1 !! c = Some (CReg r) ->
  wp (PositiveEdge c) (fun _ => clocked s1 (dn ++ [c])) s.
Proof.
  intros [Hh Hlen Hs Hc] Hx. unfold PositiveEdge.
  assert (Hr' : exists r', heap s !! c = Some (CReg r') /\ edge (CReg r') = edge (CReg r)).
  { rewrite Hh, Hx. destruct (decide (c ∈ dn)); [| eauto]. exists (if clockEnabled r then set_visible (cachedState r) r else r).
    split; [reflexivity | apply (edge_idem (CReg r))]. }
  destruct Hr' as (r' & Hr' & He). apply wpe_bind. eapply wp_the_reg; [exact Hr' |]. apply wpe_bind.
  assert (Hfin : forall s2, heap s2 = <[c := edge (CReg r)]> (heap s) -> sys s2 = sys s -> cycleCounter s2 = cycleCounter s ->
    wp (r2 ← the_reg c; report (r_name r') (str "reg") (visibleState r') (visibleState r2) KindEdge)
      (fun _ => clocked s1 (dn ++ [c])) s2).
  { intros s2 E2 S2 C2. apply wpe_bind. eapply wp_the_reg.
    { rewrite E2. apply list_lookup_insert_eq. eapply lookup_lt_Some, Hr'. }
    apply wpe_modify. constructor; cbn; [| rewrite E2, length_insert; exact Hlen | congruence | congruence].
    intros d. rewrite E2. destruct (decide (d = c)) as [-> | Hne].
    - rewrite list_lookup_insert_eq by (eapply lookup_lt_Some, Hr'). rewrite decide_True by set_solver. rewrite Hx. reflexivity.
    - rewrite list_lookup_insert_ne by congruence. rewrite Hh. apply decide_ext.
      rewrite elem_of_app, list_elem_of_singleton. tauto. }
  cbn in He. destruct (clockEnabled r') eqn:Ec.
  - apply wpe_modify, Hfin; [| reflexivity | reflexivity]. cbn [heap set_heap]. f_equal. exact He.
  - apply wpe_ret, Hfin; [| reflexivity | reflexivity]. rewrite list_insert_id; [reflexivity |]. rewrite Hr'. f_equal. exact He.
Qed.

(** ** The cycle *)

(** A circuit that can be simulated: wired without loops, with the components
    registered, and [fuel] enough for its depth. *)
Record circuit_ok (rank : nat -> nat) (fuel : nat) (s : Store) : Prop := {
  ci_wired : wired rank (heap s);
  ci_reg : registered (sys s) (heap s);
  ci_fuel : forall c, (c < length (heap s))%nat -> (rank c < fuel)%nat
}.

Lemma clocked_sync s0 s1 s2 l : clocked_out s0 l s1 -> clocked s1 l s2 -> registered (sys s0) (heap s0) -> l = state (sys s0) ->
  sync (heap s0) (heap s2).
Proof.
  intros [Hp Hv _ _] [Hh Hlen _ _] Hrg ->. apply Forall2_same_length_lookup. pose proof (ph_eq _ _ _ Hp) as He. split.
  - rewrite Hlen. symmetry. exact (Forall2_length _ _ _ He).
  - intros c x y Hx Hy. rewrite Hh in Hy. symmetry in He. destruct (heap_lookup _ _ _ _ _ He Hx) as (x1 & Hx1 & [Hsh Hvis]).
    rewrite Hx1 in Hy. destruct (decide (c ∈ state (sys s0))) as [Hin | Hnin].
    + apply (rg_state _ _ Hrg) in Hin as Hreg. destruct Hreg as [r Hr]. rewrite Hx in Hr. injection Hr as ->.
      destruct x1 as [| r1 |]; cbn in Hsh, Hvis; try tauto. cbn in Hy. injection Hy as <-.
      destruct (Hv c Hin) as (x2 & Hx2 & Hv2). rewrite Hx1 in Hx2. injection Hx2 as <-.
      destruct (ph_cache _ _ _ Hp _ _ Hx1 Hv2) as [Hen Hdr]. pose proof Hsh as (_ & Ei & Ee & _). rewrite <- Ee in Hen. split.
      * transitivity (CReg r1); [exact Hsh |]. destruct (clockEnabled r1); repeat split.
      * cbn. rewrite <- Hen. destruct (clockEnabled r1); [| auto]. destruct (Hdr eq_refl) as (i & Hi & Hd).
        exists i. split; [congruence | exact Hd].
    + injection Hy as <-. split; [exact Hsh |]. destruct x as [| r |]; auto. exfalso. apply Hnin, (rg_state _ _ Hrg). eauto.
Qed.

Lemma clock_cycle_spec rank fuel s0 : circuit_ok rank fuel s0 ->
  wp (clock_cycle enable fuel)
    (fun _ s => sync (heap s0) (heap s) /\ sys s = sys s0 /\ cycleCounter s = cycleCounter s0) s0.
Proof.
  intros [Hw Hrg Hfuel]. unfold clock_cycle. apply wpe_bind, wpe_gets, wpe_bind.
  assert (Hstate : forall c, c ∈ state (sys s0) -> exists r, heap s0 !! c = Some (CReg r)) by (intros c; apply (rg_state _ _ Hrg)).
  eapply wpe_mono; [apply (Prepare_all s0 _ []) | tauto |].
  { constructor; [reflexivity | set_solver | reflexivity | reflexivity]. }
  { intros c Hc. apply (rg_logic _ _ Hrg) in Hc as (x & Hx & _). eauto. }
  cbn beta. intros _ s1 H1. apply wpe_bind. eapply wpe_mono; [apply (Prepare_all s0 _ _ _ H1) | tauto |].
  { intros c Hc. destruct (Hstate c Hc) as [r Hr]. eauto. }
  cbn beta. intros _ s2 H2. apply wpe_bind.
  assert (H3 : clocked_out s0 [] s2).
  { constructor; [| set_solver | apply H2 | apply H2]. eapply prepared_phase; [exact H2 |]. intros c x Hx. rewrite elem_of_app.
    cbn [app]. destruct x as [z | r | m]; [left | right | left]; [apply (rg_logic _ _ Hrg) | apply (rg_state _ _ Hrg) | apply (rg_logic _ _ Hrg)];
      eexists; [split; [exact Hx |] | exact Hx | split; [exact Hx |]]; congruence. }
  eapply wpe_mono; [apply (wp_for_each _ (clocked_out s0) _ [] _) | tauto |]; [| exact H3 |].
  { intros dn c s' Hs' Hc. destruct (Hstate c Hc) as [r Hr]. eapply Evaluate_out; [exact Hw | exact Hs' | exact Hr |].
    apply Hfuel. eapply lookup_lt_Some, Hr. }
  cbn beta. intros _ s3 H4. eapply wpe_mono; [apply (wp_for_each _ (clocked s3) _ [] s3) | tauto |].
  { intros dn c s' Hs' Hc. destruct (Hstate c Hc) as [r Hr]. pose proof (ph_eq _ _ _ (co_phase _ _ _ H4)) as He. symmetry in He.
    destruct (heap_lookup _ _ _ _ _ He Hr) as ([| r' |] & Hr' & [Hsh _]); cbn in Hsh; try tauto. eapply PositiveEdge_spec; eassumption. }
  { constructor; [| reflexivity ..]. intros c. rewrite decide_False by set_solver. reflexivity. }
  cbn beta. intros _ s4 H5. split; [| split].
  - eapply clocked_sync; [exact H4 | exact H5 | exact Hrg | reflexivity].
  - rewrite (ck_sys _ _ _ H5). apply H4.
  - rewrite (ck_counter _ _ _ H5). apply H4.
Qed.

Lemma circuit_ok_step rank fuel s s' : circuit_ok rank fuel s -> sync (heap s) (heap s') -> sys s' = sys s -> circuit_ok rank fuel s'.
Proof.
  intros [Hw Hrg Hf] Hs Hsys. split.
  - eapply sync_wired; eassumption.
  - rewrite Hsys. eapply registered_shape; [apply sync_shape, Hs | exact Hrg].
  - intros c Hc. apply Hf. rewrite (Forall2_length _ _ _ Hs). exact Hc.
Qed.

(** ** The loop of [Simulate] *)

Lemma cycles_spec rank fuel end_ n : forall s, circuit_ok rank fuel s -> 0 <= cycleCounter s -> end_ < 2 ^ 32 ->
  (Z.to_nat (end_ - cycleCounter s) <= n)%nat ->
  wp (cycles enable n fuel end_)
    (fun _ s' => nsteps sync (Z.to_nat (end_ - cycleCounter s)) (heap s) (heap s') /\
       circuit_ok rank fuel s' /\ sys s' = sys s /\ cycleCounter s' = Z.max (cycleCounter s) end_) s.
Proof.
  induction n as [| n IH]; intros s Hs Hc Hend Hn; cbn [cycles]; apply wpe_bind, wpe_gets;
    (destruct (cycleCounter s <? end_) eqn:E; [apply Z.ltb_lt in E | apply Z.ltb_ge in E]); try lia.
  1, 3: apply wpe_ret; replace (Z.to_nat (end_ - cycleCounter s)) with 0%nat by lia; split; [constructor | split; [exact Hs | split; [reflexivity | lia]]].
  apply wpe_bind. eapply wpe_mono; [exact (clock_cycle_spec rank fuel s Hs) | tauto |]. cbn beta. intros _ s1 (H1 & Hsys & Hcnt).
  apply wpe_bind, wpe_modify.
  assert (Hu : u32 (cycleCounter s1 + 1) = cycleCounter s + 1) by (rewrite Hcnt; unfold u32; apply Z.mod_small; lia).
  eapply wpe_mono; [apply IH; cbn | tauto |].
  - destruct (circuit_ok_step _ _ _ _ Hs H1 Hsys) as [Hw Hrg Hf]. split; assumption.
  - lia.
  - exact Hend.
  - rewrite Hu. lia.
  - cbn beta. cbn [heap sys cycleCounter set_counter]. rewrite Hu. intros _ s2 (H2 & Hok & Hsys2 & Hc2). split; [| split; [exact Hok | split; [congruence | lia]]].
    replace (Z.to_nat (end_ - cycleCounter s)) with (S (Z.to_nat (end_ - (cycleCounter s + 1)))) by lia. econstructor; eassumption.
Qed.

End Sync.
