(* ===== verification/CircuitBuild.v ===== *)
(** * The logic simulator: building a circuit

    A client builds a circuit with the [Make...] and [Add...] operations, in any
    order.  [built] is what every such sequence establishes; with a [Check] that
    finds no error, and without loops, the circuit can be simulated. *)

From S2P Require Import Prelude GoStr BinLog Circuit CircuitProps CircuitEval CircuitSync.

Inductive wire_op :=
| OpZero (name : list Z) (w : Z)
| OpRegister (name : list Z) (w : Z) (en : nat)
| OpMux (name : list Z) (w : Z)
| OpInput (r : nat) (c : option nat)
| OpControl (m : nat) (c : option nat)
| OpData (m : nat) (c : option nat) (in_ : Z).

Definition wire_one (o : wire_op) : C unit :=
  match o with
  | OpZero name w => _ ← MakeZeroGenerator name w; mret tt
  | OpRegister name w e => _ ← MakeRegister name w e; mret tt
  | OpMux name w => _ ← MakeMux name w; mret tt
  | OpInput r c => _ ← AddInput r c; mret tt
  | OpControl m c => _ ← AddControl m c; mret tt
  | OpData m c i => _ ← AddData m c i; mret tt
  end.

Fixpoint wire (l : list wire_op) : C unit :=
  match l with
  | [] => mret tt
  | o :: l' => wire_one o;; wire l'
  end.

(** The numbers of an operation are 16-bit. *)
Definition op_ok (o : wire_op) : Prop :=
  match o with
  | OpZero _ w | OpRegister _ w _ | OpMux _ w => is_u16 w
  | OpData _ _ i => is_u16 i
  | _ => True
  end.

(** ** The invariant *)

Definition typed_at (h : list Component) (c : nat) (w : Z) : Prop := exists y, h !! c = Some y /\ Width y = w.

Definition built_comp (h : list Component) (x : Component) : Prop :=
  0 <= Width x /\ holds x /\
  match x with
  | CZero _ => True
  | CReg r => match input r with None => True | Some i => typed_at h i (r_width r) end
  | CMux m =>
    match control m with
    | None => data m = []
    | Some k => exists w, typed_at h k w /\ 0 <= w /\ length (data m) = Z.to_nat (2 ^ w)
    end /\ Forall (fun o => match o with None => True | Some d => typed_at h d (dataWidth m) end) (data m)
  end.

Record built (s : Store) : Prop := {
  bu_comp : forall c x, heap s !! c = Some x -> built_comp (heap s) x;
  bu_reg : registered (sys s) (heap s)
}.

Lemma built_comp_mono h h' x : (forall c w, typed_at h c w -> typed_at h' c w) -> built_comp h x -> built_comp h' x.
Proof.
  intros Hm (H1 & H2 & H3). split; [exact H1 | split; [exact H2 |]]. destruct x as [z | r | m]; auto.
  - destruct (input r); auto.
  - destruct H3 as [Hk Hd]. split.
    + destruct (control m); [| exact Hk]. destruct Hk as (w & Ht & Hw & Hl). exists w. auto.
    + eapply Forall_impl; [exact Hd |]. intros [d |]; auto.
Qed.

Lemma typed_at_app h x c w : typed_at h c w -> typed_at (h ++ [x]) c w.
Proof. intros (y & Hy & Hw). exists y. split; [now apply lookup_app_l_Some | exact Hw]. Qed.

Lemma typed_at_put h c x y d w : h !! c = Some x -> Width y = Width x -> typed_at h d w -> typed_at (<[c := y]> h) d w.
Proof.
  intros Hx Hy (z & Hz & Hw). destruct (decide (d = c)) as [-> | Hne].
  - exists y. split; [apply list_lookup_insert_eq; eapply lookup_lt_Some, Hx |]. congruence.
  - exists z. split; [rewrite list_lookup_insert_ne by congruence; exact Hz | exact Hw].
Qed.

Definition is_reg (x : Component) : bool := match x with CReg _ => true | _ => false end.

Lemma registered_iff y h :
  registered y h <-> forall c, (c ∈ state y <-> is_reg <$> h !! c = Some true) /\ (c ∈ logic y <-> is_reg <$> h !! c = Some false).
Proof.
  assert (E1 : forall c, (exists r, h !! c = Some (CReg r)) <-> is_reg <$> h !! c = Some true).
  { intros c. destruct (h !! c) as [[z | r | m] |]; cbn; split; try discriminate; try (intros [? ?]; discriminate); eauto. }
  assert (E2 : forall c, (exists x, h !! c = Some x /\ forall r, x <> CReg r) <-> is_reg <$> h !! c = Some false).
  { intros c. destruct (h !! c) as [[z | r | m] |]; cbn; split; try discriminate; try (intros (? & ? & ?); congruence); try reflexivity.
    - intros _. exists (CZero z). split; [reflexivity | discriminate].
    - intros _. exists (CMux m). split; [reflexivity | discriminate]. }
  split; [intros [Hs Hl] c; split; [rewrite Hs; apply E1 | rewrite Hl; apply E2] |].
  intros H. split; intros c; [rewrite E1; apply H | rewrite E2; apply H].
Qed.

(** Putting back a component of the same kind and width. *)
Lemma built_put s c x y : built s -> heap s !! c = Some x -> is_reg y = is_reg x -> Width y = Width x ->
  built_comp (heap s) y -> built (set_heap (<[c := y]> (heap s)) s).
Proof.
  intros [Hb Hr] Hx Hk Hw Hy. split.
  - intros d z Hz. cbn in Hz. apply (built_comp_mono (heap s)); [intros; now apply (typed_at_put _ _ x) |].
    apply list_lookup_insert_Some in Hz as [(<- & <- & _) | [_ Hz]]; [exact Hy | now apply (Hb d)].
  - cbn. rewrite registered_iff in Hr |- *. intros d. rewrite <- list_lookup_fmap, list_fmap_insert, Hk.
    rewrite list_insert_id; [rewrite list_lookup_fmap; apply Hr |]. rewrite list_lookup_fmap, Hx. reflexivity.
Qed.

(** A new component, registered in the list for its kind. *)
Definition register (c : nat) (x : Component) : C unit := if is_reg x then RegisterClockable c else RegisterComponent c.

Lemma built_new s x : built s -> built_comp (heap s) x ->
  wp (c ← new x; register c x;; mret c) (fun _ => built) s.
Proof.
  intros [Hb Hr] Hx. unfold new. apply wpe_bind, wpe_bind, wpe_gets, wpe_bind, wpe_modify, wpe_ret.
  set (n := length (heap s)).
  assert (Hc : forall c y, (heap s ++ [x]) !! c = Some y -> built_comp (heap s ++ [x]) y).
  { intros c y Hy. apply (built_comp_mono (heap s)); [intros; now apply typed_at_app |].
    apply lookup_app_Some in Hy as [Hy | [_ Hy]]; [now apply (Hb c) |]. apply list_lookup_singleton_Some in Hy as [_ <-]. exact Hx. }
  assert (Hl : forall c b, is_reg <$> (heap s ++ [x]) !! c = Some b <-> is_reg <$> heap s !! c = Some b \/ c = n /\ is_reg x = b).
  { intros c b. destruct (decide (c < n)%nat); [rewrite lookup_app_l by assumption; intuition lia |].
    rewrite (lookup_ge_None_2 (heap s)), lookup_app_r by (fold n; lia). fold n. destruct (decide (c = n)) as [-> | Hne].
    - rewrite Nat.sub_diag. cbn. intuition congruence.
    - rewrite lookup_ge_None_2 by (cbn; lia). cbn. intuition congruence. }
  rewrite registered_iff in Hr. unfold register. apply wpe_bind.
  destruct (is_reg x) eqn:Er; apply wpe_modify, wpe_ret; (split; [exact Hc |]); rewrite registered_iff; intros c; cbn;
    rewrite !Hl, elem_of_app, list_elem_of_singleton; destruct (Hr c) as [-> ->]; split; intuition congruence.
Qed.

(** ** The operations *)

Lemma the_reg_built s r E (Q : Register -> Store -> Prop) :
  (forall rr, heap s !! r = Some (CReg rr) -> Q rr s) -> E -> wpe E (the_reg r) Q s.
Proof.
  intros HQ HE. unfold the_reg. apply wpe_bind. unfold deref. apply wpe_bind, wpe_gets.
  destruct (heap s !! r) as [[z | rr | m] |] eqn:Ex; cbn; auto.
Qed.

Lemma the_mux_built s r E (Q : Mux -> Store -> Prop) :
  (forall mm, heap s !! r = Some (CMux mm) -> Q mm s) -> E -> wpe E (the_mux r) Q s.
Proof.
  intros HQ HE. unfold the_mux. apply wpe_bind. unfold deref. apply wpe_bind, wpe_gets.
  destruct (heap s !! r) as [[z | rr | m] |] eqn:Ex; cbn; auto.
Qed.

Lemma deref_built s c E (Q : Component -> Store -> Prop) :
  (forall x, heap s !! c = Some x -> Q x s) -> E -> wpe E (deref c) Q s.
Proof. intros HQ HE. unfold deref. apply wpe_bind, wpe_gets. destruct (heap s !! c) eqn:Ex; cbn; auto. Qed.

Lemma zero_fits w : 0 <= w -> 0 <= 0 < 2 ^ w.
Proof. intros Hw. pose proof (Z.pow_pos_nonneg 2 w). lia. Qed.

Lemma AddInput_built r c : preserves built (AddInput r c).
Proof.
  intros s Hs. unfold AddInput. destruct c as [k |]; [| exact I]. apply wpe_bind, the_reg_built; [| exact I]. intros rr Hr.
  apply wpe_bind, deref_built; [| exact I]. intros x Hx. destruct (r_width rr =? Width x) eqn:E; cbn [negb]; [| exact Hs].
  apply Z.eqb_eq in E. apply wpe_bind, wpe_modify, wpe_ret. eapply built_put; [exact Hs | exact Hr | reflexivity | reflexivity |].
  destruct (bu_comp _ Hs _ _ Hr) as (H1 & H2 & H3). split; [exact H1 | split; [exact H2 |]]. cbn. exists x. auto.
Qed.

Lemma AddControl_built m c : preserves built (AddControl m c).
Proof.
  intros s Hs. unfold AddControl. apply wpe_bind, the_mux_built; [| exact I]. intros mm Hm. destruct c as [k |]; [| exact Hs].
  apply wpe_bind, deref_built; [| exact I]. intros x Hx. destruct (3 <? Width x); [exact Hs |].
  destruct (0 <? length (data mm))%nat; [exact Hs |].
  apply wpe_bind, wpe_modify, wpe_ret. eapply built_put; [exact Hs | exact Hm | reflexivity | reflexivity |].
  destruct (bu_comp _ Hs _ _ Hm) as (H1 & _ & _), (bu_comp _ Hs _ _ Hx) as (Hw & _). split; [exact H1 | split; [exact I |]]. cbn.
  split; [| apply Forall_replicate; exact I]. exists (Width x). split; [exists x; auto | split; [exact Hw |]].
  rewrite length_replicate, Z.shiftl_mul_pow2, Z.mul_1_l by exact Hw. reflexivity.
Qed.

Lemma AddData_built m c i : preserves built (AddData m c i).
Proof.
  intros s Hs. unfold AddData. apply wpe_bind, the_mux_built; [| exact I]. intros mm Hm.
  destruct (control mm) as [k |] eqn:Ek; [| exact Hs]. destruct c as [d |]; [| exact Hs].
  apply wpe_bind, deref_built; [| exact I]. intros x Hx. apply wpe_bind, deref_built; [| exact I]. intros kx Hkx.
  destruct (Width x =? dataWidth mm) eqn:E; cbn [negb orb]; [| exact Hs]. apply Z.eqb_eq in E.
  destruct (_ <=? i); [exact Hs |]. destruct (_ <? _)%nat; [| exact I].
  apply wpe_bind, wpe_modify, wpe_ret. eapply built_put; [exact Hs | exact Hm | reflexivity | reflexivity |].
  destruct (bu_comp _ Hs _ _ Hm) as (H1 & _ & Hk & Hd). rewrite Ek in Hk. split; [exact H1 | split; [exact I |]]. cbn.
  rewrite length_insert. split; [exact Hk |]. apply Forall_insert; [exact Hd |]. exists x. auto.
Qed.

Lemma wire_one_built o : op_ok o -> preserves built (wire_one o).
Proof.
  intros Ho s Hs. destruct o as [name w | name w e | name w | r c | m c | m c i]; cbn [wire_one op_ok] in *; apply wpe_bind.
  1-3: eapply (wpe_mono _ _ _ (fun _ => built)); [eapply built_new; [exact Hs |] | tauto | intros _ s' Hs'; exact Hs'].
  1-3: unfold is_u16 in Ho; repeat split; cbn; try apply zero_fits; try lia; apply Forall_nil; exact I.
  all: eapply (wpe_mono _ _ _ (fun _ => built)); [| tauto | intros _ s' Hs'; exact Hs'].
  - now apply AddInput_built.
  - now apply AddControl_built.
  - now apply AddData_built.
Qed.

Lemma wire_built l : Forall op_ok l -> preserves built (wire l).
Proof.
  induction 1 as [| o l Ho _ IH]; intros s Hs; cbn [wire]; [exact Hs |].
  apply wpe_bind. eapply wpe_mono; [apply (wire_one_built o Ho s Hs) | tauto |]. cbn beta. intros _ s' Hs'. now apply IH.
Qed.

Lemma empty_built : built empty_store.
Proof.
  split; [intros c x Hx; discriminate |]. apply registered_iff. intros c. cbn. split; split; intros H; try discriminate; set_solver.
Qed.

(** ** Check *)

Definition complete (x : Component) : Prop :=
  match x with
  | CZero _ => True
  | CReg r => input r <> None
  | CMux m => control m <> None /\ Forall (fun o => o <> None) (data m)
  end.

Lemma first_nil_None name d : first_nil name d = None <-> Forall (fun o => o <> None) d.
Proof.
  unfold first_nil. destruct (list_find _ d) as [[i o] |] eqn:E; split; try discriminate; auto.
  - intros H. apply list_find_Some in E as (Hl & -> & _). pose proof (Forall_lookup_some _ _ _ _ H Hl). congruence.
  - intros _. apply list_find_None in E. exact E.
Qed.

Lemma Component_Check_spec s c x : built s -> heap s !! c = Some x ->
  wp (Component_Check c) (fun e s' => s' = s /\ (e = None <-> complete x)) s.
Proof.
  intros Hs Hx. unfold Component_Check. apply wpe_bind. eapply wp_deref; [exact Hx |].
  destruct (bu_comp _ Hs _ _ Hx) as (_ & _ & Hb). destruct x as [z | r | m]; cbn [complete]; unfold Register_Check, Mux_Check.
  - apply wpe_ret. tauto.
  - destruct (input r) as [i |]; [| apply wpe_ret; intuition congruence]. destruct Hb as (y & Hy & Hw).
    apply wpe_bind. eapply wp_deref; [exact Hy |]. apply wpe_ret. rewrite Hw, Z.eqb_refl. cbn. intuition congruence.
  - destruct (control m) as [k |]; apply wpe_ret; [| intuition congruence]. rewrite first_nil_None. intuition congruence.
Qed.

Lemma count_errors_spec s l : built s -> (forall c, c ∈ l -> is_Some (heap s !! c)) -> forall n,
  wp (count_errors l n) (fun n' s' => s' = s /\ n <= n' /\
    (n' = n <-> forall c x, c ∈ l -> heap s !! c = Some x -> complete x)) s.
Proof.
  intros Hs. induction l as [| c l IH]; intros Hl n; cbn [count_errors].
  - apply wpe_ret. split; [reflexivity | split; [lia |]]. split; [| auto]. intros _ c x Hc. set_solver.
  - destruct (Hl c) as [x Hx]; [apply list_elem_of_here |]. apply wpe_bind.
    eapply wpe_mono; [exact (Component_Check_spec s c x Hs Hx) | tauto |]. intros e s' [-> He]. cbn beta.
    assert (Hl' : forall c, c ∈ l -> is_Some (heap s !! c)) by (intros d Hd; apply Hl; now apply list_elem_of_further).
    eapply wpe_mono; [exact (IH Hl' _) | tauto |]. cbn beta. intros n' s' (-> & Hle & Hn). split; [reflexivity |]. destruct e as [e |].
    + split; [lia |]. split; [lia |]. intros H. assert (complete x) by (apply (H c); [apply list_elem_of_here | exact Hx]).
      assert (Some e = None) by tauto. discriminate.
    + split; [exact Hle |]. rewrite Hn. split; intros H d y Hd Hy; [| apply (H d y); [now apply list_elem_of_further | exact Hy]].
      apply elem_of_cons in Hd as [-> | Hd]; [| eauto]. rewrite Hx in Hy. injection Hy as <-. tauto.
Qed.

Lemma registered_all y h c x : registered y h -> h !! c = Some x -> c ∈ state y \/ c ∈ logic y.
Proof. rewrite registered_iff. intros H Hx. destruct (H c) as [-> ->]. rewrite Hx. cbn. destruct (is_reg x); auto. Qed.

Lemma registered_some y h c : registered y h -> c ∈ state y \/ c ∈ logic y -> is_Some (h !! c).
Proof.
  rewrite registered_iff. intros H. destruct (H c) as [-> ->]. destruct (h !! c); [eauto |]. intros [E | E]; discriminate.
Qed.

Lemma Check_spec s : built s ->
  wp Check_ (fun e s' => s' = s /\ (e = None <-> forall c x, heap s !! c = Some x -> complete x)) s.
Proof.
  intros Hs. pose proof (bu_reg _ Hs) as Hr. unfold Check_. apply wpe_bind, wpe_gets, wpe_bind.
  eapply wpe_mono; [apply (count_errors_spec s _ Hs) | tauto |]; [intros c Hc; eapply registered_some; eauto |].
  cbn beta. intros n s1 (-> & Hn & Hst). apply wpe_bind.
  eapply wpe_mono; [apply (count_errors_spec s _ Hs) | tauto |]; [intros c Hc; eapply registered_some; eauto |].
  cbn beta. intros n' s2 (-> & Hn' & Hlo). apply wpe_ret. split; [reflexivity |].
  destruct (0 <? n') eqn:E; [apply Z.ltb_lt in E | apply Z.ltb_ge in E].
  - split; [discriminate |]. intros H. assert (n = 0) by (apply Hst; eauto). assert (n' = n) by (apply Hlo; eauto). lia.
  - split; [intros _ | reflexivity]. intros c x Hx. destruct (registered_all _ _ _ _ Hr Hx) as [Hc | Hc].
    + apply (proj1 Hst ltac:(lia) c x Hc Hx).
    + apply (proj1 Hlo ltac:(lia) c x Hc Hx).
Qed.

(** ** A circuit that can be simulated *)

Definition inputs (x : Component) : list nat :=
  match x with
  | CZero _ => []
  | CReg r => option_list (input r)
  | CMux m => option_list (control m) ++ omap id (data m)
  end.

(** The rank of a component is above the ranks of its inputs. *)
Definition acyclic (rank : nat -> nat) (h : list Component) : Prop :=
  forall c x d, h !! c = Some x -> d ∈ inputs x -> (rank d < rank c)%nat.

Lemma built_wired rank s : built s -> (forall c x, heap s !! c = Some x -> complete x) -> acyclic rank (heap s) -> wired rank (heap s).
Proof.
  intros Hs Hcm Ha c x Hx. destruct (bu_comp _ Hs _ _ Hx) as (_ & Hh & Hb). split; [| exact Hh].
  specialize (Hcm c x Hx). specialize (Ha c x).
  assert (Hsrc : forall d w, d ∈ inputs x -> typed_at (heap s) d w -> source_of (heap s) rank (rank c) w d).
  { intros d w Hd (y & Hy & Hw). exists y. auto. }
  destruct x as [z | r | m]; cbn in *; [exact I | |].
  - destruct (input r) as [i |]; [| tauto]. exists i. split; [reflexivity | apply Hsrc; [set_solver | exact Hb]].
  - destruct Hcm as [Hk Hd], Hb as [Hbk Hbd]. destruct (control m) as [k |]; [| tauto]. destruct Hbk as (w & Ht & Hw & Hl).
    exists k, w. split; [reflexivity | split; [apply Hsrc; [set_solver | exact Ht] | split; [exact Hl |]]].
    apply Forall_forall. intros o Ho. rewrite Forall_forall in Hd, Hbd. specialize (Hd o Ho). specialize (Hbd o Ho).
    destruct o as [d |]; [| tauto]. exists d. split; [reflexivity | apply Hsrc; [| exact Hbd]].
    apply elem_of_app. right. apply list_elem_of_omap. exists (Some d). auto.
Qed.

(** ** Reset *)

Definition reset_comp (x y : Component) : Prop :=
  same_shape x y /\ match y with CReg r => visibleState r = UndefBits | _ => True end.

Record reset_upto (s0 : Store) (dn : list nat) (s : Store) : Prop := {
  ru_shape : heap_shape (heap s0) (heap s);
  ru_done : forall c r, c ∈ dn -> heap s !! c = Some (CReg r) -> visibleState r = UndefBits;
  ru_sys : sys s = sys s0
}.

Lemma reset_one_spec s0 dn c r s : reset_upto s0 dn s -> heap s !! c = Some (CReg r) -> wp (Reset c) (fun _ => reset_upto s0 (dn ++ [c])) s.
Proof.
  intros [Hsh Hdn Hs] Hr. unfold Reset. apply wpe_bind. eapply wp_upd_reg; [exact Hr |]. apply wpe_bind. eapply wp_the_reg.
  { cbn. apply list_lookup_insert_eq. eapply lookup_lt_Some, Hr. }
  apply wpe_modify. constructor; cbn; [| | exact Hs].
  - etransitivity; [exact Hsh |]. rewrite <- (list_insert_id (heap s) c (CReg r) Hr) at 1. apply Forall2_insert; [reflexivity |]. repeat split.
  - intros d r' Hd Hr'. apply list_lookup_insert_Some in Hr' as [(<- & E & _) | [Hne Hr']]; [injection E as <-; reflexivity |].
    apply elem_of_app in Hd as [Hd | Hd]; [eauto |]. apply list_elem_of_singleton in Hd. congruence.
Qed.

Lemma reset_all_spec s : registered (sys s) (heap s) ->
  wp (for_each Reset (state (sys s))) (fun _ s' => Forall2 reset_comp (heap s) (heap s') /\ sys s' = sys s) s.
Proof.
  intros Hrg. eapply wpe_mono; [apply (wp_for_each _ (reset_upto s) _ [] s) | tauto |].
  - intros dn c s' Hs' Hc. apply (rg_state _ _ Hrg) in Hc as [r Hr].
    destruct (heap_lookup _ _ _ _ _ (ru_shape _ _ _ Hs') Hr) as ([| r' |] & Hr' & Hsh); cbn in Hsh; try tauto. eapply reset_one_spec; eassumption.
  - constructor; [reflexivity | set_solver | reflexivity].
  - cbn beta. intros _ s' [Hsh Hdn Hs]. split; [| exact Hs]. apply Forall2_same_length_lookup. split; [exact (Forall2_length _ _ _ Hsh) |].
    intros c x y Hx Hy. destruct (heap_lookup _ _ _ _ _ Hsh Hx) as (y' & Hy' & Hs'). rewrite Hy in Hy'. injection Hy' as <-.
    split; [exact Hs' |]. destruct y as [| r |]; auto. apply (Hdn c); [| exact Hy]. apply (rg_state _ _ Hrg).
    destruct x as [| r0 |]; cbn in Hs'; try tauto. eauto.
Qed.

Lemma reset_wired rank h h' : (forall c x, h !! c = Some x -> 0 <= Width x) -> wired rank h -> Forall2 reset_comp h h' -> wired rank h'.
Proof.
  intros Hwd Hw Hr c y Hy. destruct (Forall2_lookup_r _ _ _ _ _ Hr Hy) as (x & Hx & [Hs Hv]). destruct (Hw c x Hx) as [Hwc Hh].
  assert (Hsh : heap_shape h h') by (eapply Forall2_impl; [exact Hr | intros ? ? []; assumption]).
  split; [eapply wired_comp_eq; eassumption |]. pose proof (same_shape_width _ _ Hs) as Ew. specialize (Hwd c x Hx).
  destruct x as [z | r | m], y as [z' | r' | m']; cbn in Hs, Ew, Hwd; try tauto; cbn; [subst z'; exact Hh | rewrite Hv].
  unfold fits. cbn. apply zero_fits. lia.
Qed.
