(* ===== verification/CircuitTheorems.v ===== *)
(** * The logic simulator: theorems *)

From S2P Require Import Prelude GoStr BinLog BinLogProps Circuit CircuitProps CircuitEval CircuitSync CircuitBuild.

(** ** Simulate *)

(** The cycles that a call of [Simulate] runs from counter [c]. *)
Definition cycles_run (c n : Z) : Z := if c + n <? 2 ^ 32 then n else 0.

Lemma end_cycles c n : 0 <= c < 2 ^ 32 -> 0 <= n < 2 ^ 32 ->
  Z.to_nat (u32 (c + n) - c) = Z.to_nat (cycles_run c n) /\ Z.max c (u32 (c + n)) = c + cycles_run c n /\ 0 <= u32 (c + n) < 2 ^ 32.
Proof.
  intros Hc Hn. unfold cycles_run, u32. change (2 ^ 32) with 4294967296 in *.
  destruct (c + n <? 4294967296) eqn:E; [apply Z.ltb_lt in E | apply Z.ltb_ge in E].
  - rewrite Z.mod_small by lia. repeat split; lia.
  - replace (c + n) with (c + n - 4294967296 + 1 * 4294967296) by lia. rewrite Z.mod_add, Z.mod_small by lia. repeat split; lia.
Qed.

Section Sim.
Context (enable : nat -> C bool) {HC : Combinational enable}.

(** Built by the operations, checked without errors, free of loops, [fuel] above
    its depth, the counter 32-bit. *)
Record ready (rank : nat -> nat) (fuel : nat) (s : Store) : Prop := {
  rd_built : built s;
  rd_complete : forall c x, heap s !! c = Some x -> complete x;
  rd_acyclic : acyclic rank (heap s);
  rd_fuel : forall c, (c < length (heap s))%nat -> (rank c < fuel)%nat;
  rd_counter : 0 <= cycleCounter s < 2 ^ 32
}.

Lemma ready_ok rank fuel s : ready rank fuel s -> circuit_ok rank fuel s.
Proof. intros [Hb Hc Ha Hf _]. split; [now apply built_wired | apply Hb | exact Hf]. Qed.

(** The heap that a simulation starts from. *)
Definition started (reset : bool) (h h1 : list Component) : Prop :=
  if reset then Forall2 reset_comp h h1 else h1 = h.

Lemma Simulate_spec rank fuel s reset n : ready rank fuel s -> 0 <= n < 2 ^ 32 ->
  let c0 := if (reset : bool) then 0 else cycleCounter s in
  wp (Simulate enable fuel reset n)
    (fun _ s' => (exists h1, started reset (heap s) h1 /\ nsteps (sync enable) (Z.to_nat (cycles_run c0 n)) h1 (heap s')) /\
       circuit_ok rank fuel s' /\ sys s' = sys s /\ cycleCounter s' = c0 + cycles_run c0 n) s.
Proof.
  intros Hs Hn c0. pose proof (ready_ok _ _ _ Hs) as Hok. unfold Simulate. apply wpe_bind.
  assert (Hloop : forall s1, circuit_ok rank fuel s1 -> started reset (heap s) (heap s1) -> sys s1 = sys s -> cycleCounter s1 = c0 ->
    0 <= c0 < 2 ^ 32 ->
    wp (c ← gets cycleCounter; cycles enable (Z.to_nat (u32 (c + n))) fuel (u32 (c + n)))
      (fun _ s' => (exists h1, started reset (heap s) h1 /\ nsteps (sync enable) (Z.to_nat (cycles_run c0 n)) h1 (heap s')) /\
       circuit_ok rank fuel s' /\ sys s' = sys s /\ cycleCounter s' = c0 + cycles_run c0 n) s1).
  { intros s1 Hok1 Hst Hsys Hc1 Hc0. apply wpe_bind, wpe_gets. rewrite Hc1. destruct (end_cycles c0 n Hc0 Hn) as (E1 & E2 & E3).
    eapply wpe_mono; [apply (cycles_spec enable rank fuel (u32 (c0 + n)) _ s1 Hok1); rewrite ?Hc1; lia | tauto |].
    cbn beta. rewrite Hc1, E1, E2. intros _ s' (H1 & H2 & H3 & H4). split; [exists (heap s1); auto |].
    split; [exact H2 | split; [congruence | exact H4]]. }
  destruct reset.
  - apply wpe_bind, wpe_gets, wpe_bind. eapply wpe_mono; [exact (reset_all_spec s (ci_reg _ _ _ Hok)) | tauto |].
    cbn beta. intros _ s1 [Hr Hsys]. apply wpe_modify. apply Hloop; [| exact Hr | exact Hsys | reflexivity | unfold c0; lia].
    assert (Hsh : heap_shape (heap s) (heap s1)) by (eapply Forall2_impl; [exact Hr | intros ? ? []; assumption]).
    split; cbn.
    + eapply reset_wired; [| apply Hok | exact Hr]. intros c x Hx. apply (bu_comp _ (rd_built _ _ _ Hs) c x Hx).
    + rewrite Hsys. eapply registered_shape; [exact Hsh | apply Hok].
    + intros c Hc. apply (rd_fuel _ _ _ Hs). rewrite (Forall2_length _ _ _ Hsh). exact Hc.
  - apply wpe_ret, Hloop; [exact Hok | reflexivity | reflexivity | reflexivity | apply Hs].
Qed.

End Sim.

(** ** Sample circuits *)

Definition always_on : nat -> C bool := fun _ => mret true.

(** A two-stage pipeline of registers behind a multiplexer. *)
Definition pipeline : list wire_op :=
  [OpRegister (str "second") 16 0; OpZero (str "sel") 1; OpZero (str "zero") 16; OpMux (str "mux") 16;
   OpControl 3 (Some 1%nat); OpData 3 (Some 2%nat) 0; OpData 3 (Some 2%nat) 1; OpRegister (str "first") 16 0;
   OpInput 4 (Some 3%nat); OpInput 0 (Some 4%nat)].

Definition run_wire (l : list wire_op) : Store :=
  match wire l empty_store with Ret (_, s) => s | Panic _ => empty_store end.

Definition checks (s : Store) : bool := match Check_ s with Ret (None, _) => true | _ => false end.

Lemma run_wire_built l : Forall op_ok l -> built (run_wire l).
Proof.
  intros Hl. pose proof (wire_built l Hl empty_store empty_built) as H. unfold run_wire. unfold wpe in H.
  destruct (wire l empty_store) as [[[] s] | w]; [exact H | exact empty_built].
Qed.

Lemma checks_complete s : built s -> checks s = true -> forall c x, heap s !! c = Some x -> complete x.
Proof.
  intros Hb Hc. pose proof (Check_spec s Hb) as H. unfold wpe in H. unfold checks in Hc.
  destruct (Check_ s) as [[[n |] s'] | w]; try discriminate. apply H. reflexivity.
Qed.

Definition pipeline_rank (c : nat) : nat := nth c [5; 0; 0; 1; 4]%nat 0%nat.

(** Whether the rank of each component is above those of its inputs. *)
Definition ranked (rank : nat -> nat) (fuel : nat) (h : list Component) : bool :=
  forallb (fun p : nat * Component => (rank p.1 <? fuel)%nat && forallb (fun d => (rank d <? rank p.1)%nat) (inputs p.2)) (imap pair h).

Lemma ranked_ok rank fuel h : ranked rank fuel h = true ->
  acyclic rank h /\ forall c, (c < length h)%nat -> (rank c < fuel)%nat.
Proof.
  intros H. unfold ranked in H. rewrite forallb_forall in H.
  assert (G : forall c x, h !! c = Some x -> (rank c < fuel)%nat /\ forall d, d ∈ inputs x -> (rank d < rank c)%nat).
  { intros c x Hx. specialize (H (c, x)). cbn in H. rewrite andb_true_iff, forallb_forall in H.
    destruct H as [H1 H2].
    - apply list_elem_of_In, list_elem_of_lookup. exists c. rewrite list_lookup_imap, Hx. reflexivity.
    - split; [now apply Nat.ltb_lt |]. intros d Hd. apply Nat.ltb_lt, H2. now apply list_elem_of_In. }
  split.
  - intros c x d Hx Hd. exact (proj2 (G c x Hx) d Hd).
  - intros c Hc. destruct (lookup_is_Some_len h c Hc) as [x Hx]. exact (proj1 (G c x Hx)).
Qed.

Lemma run_wire_ready l rank fuel : Forall op_ok l -> checks (run_wire l) = true -> ranked rank fuel (heap (run_wire l)) = true ->
  cycleCounter (run_wire l) = 0 -> ready rank fuel (run_wire l).
Proof.
  intros Hl Hc Hr H0. pose proof (run_wire_built l Hl) as Hb. destruct (ranked_ok _ _ _ Hr) as [Ha Hf].
  constructor; [exact Hb | now apply checks_complete | exact Ha | exact Hf | rewrite H0; lia].
Qed.

Lemma pipeline_ready : ready pipeline_rank 8 (run_wire pipeline).
Proof.
  apply run_wire_ready; [repeat constructor; cbn; unfold is_u16; lia | vm_compute; reflexivity ..].
Qed.

Definition wires (l : list wire_op) : bool := match wire l empty_store with Ret _ => true | Panic _ => false end.

Lemma run_wire_eq l : wires l = true -> wire l empty_store = Ret (tt, run_wire l).
Proof. unfold wires, run_wire. destruct (wire l empty_store) as [[[] s] | w]; [reflexivity | discriminate]. Qed.

(** ** Determinism *)

Section Det.
Context (enable : nat -> C bool) {HC : Combinational enable}.

Lemma nsteps_sync_det n : forall h1 h2 h1' h2', h1 ≈ h2 -> nsteps (sync enable) n h1 h1' -> nsteps (sync enable) n h2 h2' -> h1' ≈ h2'.
Proof.
  induction n as [| n IH]; intros h1 h2 h1' h2' He H1 H2; inversion H1; inversion H2; subst; [exact He |].
  eapply IH; [| eassumption | eassumption]. eapply sync_det; eassumption.
Qed.

Lemma reset_det h1 h2 h1' h2' : h1 ≈ h2 -> Forall2 reset_comp h1 h1' -> Forall2 reset_comp h2 h2' -> h1' ≈ h2'.
Proof.
  intros He H1 H2. apply Forall2_same_length_lookup. split.
  - rewrite <- (Forall2_length _ _ _ H1), <- (Forall2_length _ _ _ H2). exact (Forall2_length _ _ _ He).
  - intros c y y' Hy Hy'. destruct (Forall2_lookup_r _ _ _ _ _ H1 Hy) as (x & Hx & Hs & Hv).
    destruct (Forall2_lookup_r _ _ _ _ _ H2 Hy') as (x' & Hx' & Hs' & Hv').
    destruct (heap_lookup _ _ _ _ _ He Hx) as (x'' & Hx'' & [Hsh _]). rewrite Hx' in Hx''. injection Hx'' as <-. split.
    + transitivity x; [symmetry; exact Hs |]. transitivity x'; assumption.
    + destruct y, y'; auto. congruence.
Qed.

Lemma started_det reset h1 h2 h1' h2' : h1 ≈ h2 -> started reset h1 h1' -> started reset h2 h2' -> h1' ≈ h2'.
Proof. intros He. destruct reset; cbn; [now apply reset_det | intros -> ->; exact He]. Qed.

Lemma nsteps_sync_shape n : forall h h', nsteps (sync enable) n h h' -> heap_shape h h'.
Proof.
  induction n as [| n IH]; intros h h' H; inversion H; subst; [reflexivity |].
  etransitivity; [eapply sync_shape; eassumption | apply IH; assumption].
Qed.

Lemma started_shape reset h h' : started reset h h' -> heap_shape h h'.
Proof. destruct reset; cbn; [| intros ->; reflexivity]. intros H. eapply Forall2_impl; [exact H | intros ? ? []; assumption]. Qed.

End Det.

(** ** Loops *)

Section Feedback.
Context (enable : nat -> C bool) {HC : Combinational enable} (P : nat -> Prop).

(** Evaluating a component of [P] needs one of [P]: an enabled register with its
    input in [P], or a multiplexer whose control, or the input that a constant
    control selects, is in [P]: what evaluation goes on to.  Other cycles of
    connections need not overflow: an input that the control does not select is
    not evaluated. *)
Definition feedback (h : list Component) : Prop := forall c, P c ->
  match h !! c with
  | Some (CReg r) => en enable (enableFunc r) h = true /\ exists i, input r = Some i /\ P i
  | Some (CMux m) => exists k, control m = Some k /\
      (P k \/ exists z d, h !! k = Some (CZero z) /\ data m !! Z.to_nat (value (zeroes z)) = Some (Some d) /\ P d)
  | _ => False
  end.

Lemma feedback_eq h h' : h ≈ h' -> feedback h -> feedback h'.
Proof.
  intros He Hf c Hc. specialize (Hf c Hc). destruct (h !! c) as [x |] eqn:Ex; [| tauto].
  destruct (heap_lookup _ _ _ _ _ He Ex) as (y & -> & [Hs _]). destruct x as [z | r | m], y as [z' | r' | m']; cbn in Hs; try tauto.
  - destruct Hs as (_ & <- & <- & _). rewrite <- (enable_visible _ _ _ He). exact Hf.
  - destruct Hs as (_ & <- & <- & _). destruct Hf as (k & Hk & [Hp | (z & d & Hz & Hd & Hp)]); exists k; (split; [exact Hk |]); [auto |].
    right. exists z, d. destruct (heap_lookup _ _ _ _ _ He Hz) as ([z' | |] & Hz' & [E _]); cbn in E; try tauto. subst z'. auto.
Qed.

Definition all_stale (h : list Component) : Prop := forall c x, P c -> h !! c = Some x -> stale x.

Lemma Evaluate_zero fuel k z s : heap s !! k = Some (CZero z) ->
  exists s1, Evaluate enable (S fuel) k s = Ret (zeroes z, s1) /\ heap s1 = heap s.
Proof. intros Hz. cbn [Evaluate]. unfold deref, gets, mbind, M_bind. rewrite Hz. eexists. split; reflexivity. Qed.

Lemma feedback_evaluate fuel : forall c s, P c -> feedback (heap s) -> all_stale (heap s) -> Evaluate enable fuel c s = Panic overflow.
Proof.
  induction fuel as [| fuel IH]; intros c s Hc Hf Hst; [reflexivity |]. cbn [Evaluate]. pose proof (Hf c Hc) as Hfc.
  unfold Register_Evaluate, Mux_Evaluate.
  unfold deref, gets, mbind, M_bind. destruct (heap s !! c) as [[z | r | m] |] eqn:Ex; try tauto; cbn.
  - pose proof (Hst c _ Hc Ex) as Hv. cbn in Hv. destruct Hfc as [He (i & Hi & Hp)]. rewrite Hv, enable_pure, He.
    unfold upd_reg, the_reg, deref, gets, mbind, M_bind. rewrite Ex. cbn.
    rewrite list_lookup_insert_eq by (eapply lookup_lt_Some, Ex). cbn. rewrite Hi. cbn. rewrite IH; [reflexivity | exact Hp | |].
    + eapply feedback_eq; [| exact Hf]. symmetry. eapply heap_eq_insert; [reflexivity | exact Ex | repeat split].
    + intros d x Hd Hx. cbn in Hx. apply list_lookup_insert_Some in Hx as [(<- & <- & _) | [_ Hx]]; [exact Hv | eauto].
  - pose proof (Hst c _ Hc Ex) as Hv. cbn in Hv. rewrite Hv. destruct Hfc as (k & Hk & [Hp | (z & d & Hz & Hd & Hp)]); rewrite Hk; cbn.
    + rewrite IH by assumption. reflexivity.
    + destruct fuel as [| fuel]; [reflexivity |]. destruct (Evaluate_zero fuel k z s Hz) as (s1 & Ek & Eh).
      rewrite Ek. unfold the_mux, deref, gets, mbind, M_bind. rewrite Eh, Ex. cbn [from_opt mret M_ret]. unfold mret, M_ret.
      rewrite Hd. change (from_opt index_panic (Some (Some d)) s1) with (@Ret (option nat * Store) (Some d, s1)).
      cbv beta iota. change (from_opt nil_deref (Some d) s1) with (@Ret (nat * Store) (d, s1)). cbv beta iota. rewrite IH; [reflexivity | exact Hp | rewrite Eh; exact Hf | rewrite Eh; exact Hst].
Qed.

End Feedback.

Lemma wp_run {S A} (c : M S A) Q (s : S) : wp c Q s -> exists a s', c s = Ret (a, s') /\ Q a s'.
Proof. apply wp_returns. Qed.

(** C23: A cycle of the simulator is a synchronous step of the circuit.  For a
    circuit that the operations built, that [Check] accepts and that has no
    loop, [Simulate] returns (the recursion of [Evaluate] is bounded by the depth)
    and its effect on the heap is that of [n] synchronous steps from the old
    state, or from the reset one, in each of which every enabled register takes
    what its input drove before the step and every other register keeps its
    value; the cycle counter advances by [n]. *)
Theorem simulate_synchronous (enable : nat -> C bool) (HC : Combinational enable) rank fuel s (reset : bool) n :
  let c0 := if reset then 0 else cycleCounter s in
  ready rank fuel s -> 0 <= n -> c0 + n < 2 ^ 32 ->
  exists s' h1, Simulate enable fuel reset n s = Ret (tt, s') /\
    started reset (heap s) h1 /\ nsteps (sync enable) (Z.to_nat n) h1 (heap s') /\
    sys s' = sys s /\ cycleCounter s' = c0 + n.
Proof.
  intros c0 Hs Hn Hc. assert (H0 : 0 <= c0) by (unfold c0; destruct reset; [lia | apply Hs]).
  destruct (wp_run _ _ _ (Simulate_spec enable rank fuel s reset n Hs ltac:(lia))) as ([] & s' & Hrun & (h1 & Hst & Hstep) & _ & Hsys & Hcnt).
  assert (E : cycles_run c0 n = n) by (unfold cycles_run; rewrite (proj2 (Z.ltb_lt _ _)) by exact Hc; reflexivity).
  fold c0 in Hstep, Hcnt. rewrite E in Hstep, Hcnt. exists s', h1. auto.
Qed.

Lemma simulate_synchronous_witness :
  exists s' h1, Simulate always_on 8 true 5 (run_wire pipeline) = Ret (tt, s') /\
    started true (heap (run_wire pipeline)) h1 /\ nsteps (sync always_on) (Z.to_nat 5) h1 (heap s') /\
    sys s' = sys (run_wire pipeline) /\ cycleCounter s' = 0 + 5.
Proof.
  apply (simulate_synchronous always_on always_combinational pipeline_rank 8 (run_wire pipeline) true 5 pipeline_ready); lia.
Defined.

(** The pipeline with its components registered in the opposite order. *)
Definition reversed (s : Store) : Store :=
  set_sys (MkSystem (reverse (logic (sys s))) (reverse (state (sys s))) (imem (sys s)) (dmem (sys s))) s.

Lemma reversed_ready rank fuel s : ready rank fuel s -> ready rank fuel (reversed s).
Proof.
  intros [[Hb [Hs Hl]] Hc Ha Hf Hn]. constructor; try assumption. split; [exact Hb |].
  split; intros c; cbn; rewrite elem_of_reverse; [apply Hs | apply Hl].
Qed.

Lemma reversed_heap s : heap s ≈ heap (reversed s).
Proof. reflexivity. Qed.

Lemma reversed_counter s : cycleCounter s = cycleCounter (reversed s).
Proof. reflexivity. Qed.

(** C25: The order of registration does not matter.  Two stores with the same
    components, registered in any two orders (and whatever their caches hold),
    are simulated to the same visible states and wiring. *)
Theorem registration_order_irrelevant (enable : nat -> C bool) (HC : Combinational enable) rank1 fuel1 s1 rank2 fuel2 s2 (reset : bool) n :
  ready rank1 fuel1 s1 -> ready rank2 fuel2 s2 -> heap s1 ≈ heap s2 -> cycleCounter s1 = cycleCounter s2 -> 0 <= n < 2 ^ 32 ->
  exists s1' s2', Simulate enable fuel1 reset n s1 = Ret (tt, s1') /\ Simulate enable fuel2 reset n s2 = Ret (tt, s2') /\
    heap s1' ≈ heap s2' /\ cycleCounter s1' = cycleCounter s2'.
Proof.
  intros H1 H2 He Hc Hn.
  destruct (wp_run _ _ _ (Simulate_spec enable _ _ _ reset n H1 Hn)) as ([] & s1' & R1 & (h1 & S1 & N1) & _ & _ & C1).
  destruct (wp_run _ _ _ (Simulate_spec enable _ _ _ reset n H2 Hn)) as ([] & s2' & R2 & (h2 & S2 & N2) & _ & _ & C2).
  exists s1', s2'. rewrite Hc in N1, C1. split; [exact R1 | split; [exact R2 | split; [| congruence]]].
  eapply nsteps_sync_det; [eapply started_det; eassumption | exact N1 | exact N2].
Qed.

Lemma registration_order_irrelevant_witness :
  let s := run_wire pipeline in
  exists s1' s2', Simulate always_on 8 true 3 s = Ret (tt, s1') /\ Simulate always_on 8 true 3 (reversed s) = Ret (tt, s2') /\
    heap s1' ≈ heap s2' /\ cycleCounter s1' = cycleCounter s2'.
Proof.
  intros s. apply (registration_order_irrelevant always_on always_combinational pipeline_rank 8 s pipeline_rank 8 (reversed s) true 3).
  - exact pipeline_ready.
  - apply reversed_ready, pipeline_ready.
  - apply reversed_heap.
  - apply reversed_counter.
  - lia.
Defined.

(** C24: Circuits that are built and checked are well typed.  For any sequence of
    [Make...] and [Add...] calls with 16-bit numbers that returns: [Check] does not
    panic, and finds no error exactly when every register has its input and every
    multiplexer its control and all its data inputs.  Such a circuit, without
    loops, is simulated for any number of cycles without a nil dereference, a
    selector out of range or an exhausted stack, and before and after it every
    component drives bits whose value fits its width, which never changes (the
    width that the bits themselves carry is not looked at). *)
Theorem checked_circuits_well_typed (enable : nat -> C bool) (HC : Combinational enable) ops s :
  Forall op_ok ops -> wire ops empty_store = Ret (tt, s) ->
  (exists e, Check_ s = Ret (e, s) /\ (e = None <-> forall c x, heap s !! c = Some x -> complete x)) /\
  (forall rank fuel, Check_ s = Ret (None, s) -> acyclic rank (heap s) ->
     (forall c, (c < length (heap s))%nat -> (rank c < fuel)%nat) -> 0 <= cycleCounter s < 2 ^ 32 ->
     (forall c x, heap s !! c = Some x -> exists b, drives (heap s) c b /\ fits (Width x) b) /\
     forall reset n, 0 <= n < 2 ^ 32 ->
     exists s', Simulate enable fuel reset n s = Ret (tt, s') /\
       forall c x, heap s !! c = Some x ->
         exists x' b, heap s' !! c = Some x' /\ Width x' = Width x /\ drives (heap s') c b /\ fits (Width x) b).
Proof.
  intros Hops Hrun. assert (Hb : built s) by (exact (wpe_run _ _ _ _ _ _ (wire_built ops Hops empty_store empty_built) Hrun)).
  pose proof (Check_spec s Hb) as Hck. split.
  - destruct (wp_run _ _ _ Hck) as (e & s' & E & -> & He). eauto.
  - intros rank fuel Hnil Ha Hf Hcnt. assert (Hr : ready rank fuel s).
    { constructor; auto. apply (proj2 (wpe_run _ _ _ _ _ _ Hck Hnil)). reflexivity. }
    pose proof (ready_ok _ _ _ Hr) as Hok. split.
    + intros c x Hx. apply (wired_drives rank (heap s) (ci_wired _ _ _ Hok) (S (rank c))); [lia | exact Hx].
    + intros reset n Hn.
      destruct (wp_run _ _ _ (Simulate_spec enable _ _ _ reset n Hr Hn)) as ([] & s' & R & (h1 & S1 & N1) & Hok' & _).
      exists s'. split; [exact R |]. intros c x Hx.
      assert (Hsh : heap_shape (heap s) (heap s')) by (etransitivity; [eapply started_shape, S1 | eapply nsteps_sync_shape, N1]).
      destruct (heap_lookup _ _ _ _ _ Hsh Hx) as (x' & Hx' & Hs'). pose proof (same_shape_width _ _ Hs') as Ew.
      destruct (wired_drives rank (heap s') (ci_wired _ _ _ Hok') (S (rank c)) c x') as (b & Hbd & Hbf); [lia | exact Hx' |].
      exists x', b. rewrite Ew. auto.
Qed.

Lemma checks_eq s : built s -> checks s = true -> Check_ s = Ret (None, s).
Proof.
  intros Hb Hc. pose proof (Check_spec s Hb) as H. unfold wpe in H. unfold checks in Hc.
  destruct (Check_ s) as [[[k |] s'] | w]; try discriminate. destruct H as [-> _]. reflexivity.
Qed.

Lemma checked_circuits_well_typed_witness :
  let s := run_wire pipeline in
  exists s', Simulate always_on 8 true 3 s = Ret (tt, s') /\
    forall c x, heap s !! c = Some x ->
      exists x' b, heap s' !! c = Some x' /\ Width x' = Width x /\ drives (heap s') c b /\ fits (Width x) b.
Proof.
  assert (Hops : Forall op_ok pipeline) by (repeat constructor; cbn; unfold is_u16; lia).
  apply (checked_circuits_well_typed always_on always_combinational pipeline (run_wire pipeline) Hops
    (run_wire_eq pipeline ltac:(vm_compute; reflexivity))) with (rank := pipeline_rank); try apply pipeline_ready; [| lia].
  apply checks_eq; [apply pipeline_ready | vm_compute; reflexivity].
Defined.

(** C26: The cycle counter has 32 bits.  Without a reset, [Simulate] runs all its
    cycles and the counter is the sum when the sum is below 2^32; when it is not,
    the bound of the loop has wrapped around, and the call returns without running
    a single cycle. *)
Theorem cycle_counter_bound (enable : nat -> C bool) (HC : Combinational enable) rank fuel s n :
  ready rank fuel s -> 0 <= n < 2 ^ 32 ->
  exists s', Simulate enable fuel false n s = Ret (tt, s') /\
    (cycleCounter s + n < 2 ^ 32 -> cycleCounter s' = cycleCounter s + n) /\
    (2 ^ 32 <= cycleCounter s + n -> s' = s) /\ 0 <= cycleCounter s' < 2 ^ 32.
Proof.
  intros Hs Hn. pose proof (rd_counter _ _ _ Hs) as Hc.
  destruct (wp_run _ _ _ (Simulate_spec enable _ _ _ false n Hs Hn)) as ([] & s' & R & _ & _ & _ & C1). cbv zeta in C1.
  unfold cycles_run in C1. exists s'. split; [exact R |].
  destruct (cycleCounter s + n <? 2 ^ 32) eqn:E; [apply Z.ltb_lt in E | apply Z.ltb_ge in E]; (split; [lia |]); (split; [| lia]); intros Hov; [lia |].
  unfold Simulate, mbind, M_bind, mret, M_ret, gets in R.
  destruct (end_cycles (cycleCounter s) n Hc Hn) as (E1 & E2 & E3). unfold cycles_run in E2. rewrite (proj2 (Z.ltb_ge _ _)) in E2 by exact E.
  destruct (Z.to_nat (u32 (cycleCounter s + n))) as [| k]; cbn [cycles] in R; unfold mbind, M_bind, gets, mret, M_ret in R;
    rewrite (proj2 (Z.ltb_ge _ _)) in R by lia; congruence.
Qed.

Lemma ready_counter rank fuel s c : ready rank fuel s -> 0 <= c < 2 ^ 32 -> ready rank fuel (set_counter c s).
Proof. intros [[Hb Hr] Hc Ha Hf _] Hn. constructor; [split; assumption | assumption .. ]. Qed.

Lemma cycle_counter_bound_witness :
  let s := set_counter (2 ^ 32 - 1) (run_wire pipeline) in
  exists s', Simulate always_on 8 false 5 s = Ret (tt, s') /\
    (cycleCounter s + 5 < 2 ^ 32 -> cycleCounter s' = cycleCounter s + 5) /\
    (2 ^ 32 <= cycleCounter s + 5 -> s' = s) /\ 0 <= cycleCounter s' < 2 ^ 32.
Proof.
  intros s. apply (cycle_counter_bound always_on always_combinational pipeline_rank 8 s 5); [| lia].
  apply ready_counter; [exact pipeline_ready | lia].
Defined.

(** ** Loops and the built-in machine *)

(** C27: Feedback exhausts the stack.  When the first register of a circuit is on a cycle
    that evaluation follows, from an enabled register to its input, from a multiplexer to
    its control, or, where the control is a constant, to the input that it selects, no
    cycle can be simulated: [Evaluate] marks a register as evaluated only after its input
    has been, so it recurses without end, however deep the stack. *)
Theorem feedback_overflows (enable : nat -> C bool) (HC : Combinational enable) (P : nat -> Prop) s c rest :
  registered (sys s) (heap s) -> state (sys s) = c :: rest -> P c -> feedback enable P (heap s) ->
  forall fuel, clock_cycle enable fuel s = Panic overflow.
Proof.
  intros Hrg Hst Hc Hf fuel.
  assert (W : wp (for_each Prepare (logic (sys s));; for_each Prepare (state (sys s)))
    (fun _ => prepared s (logic (sys s) ++ state (sys s))) s).
  { apply wpe_bind. eapply wpe_mono; [apply (Prepare_all s _ [] s) | tauto |].
    - constructor; [reflexivity | set_solver | reflexivity | reflexivity].
    - intros d Hd. eapply registered_some; eauto.
    - cbn beta. intros _ s1 H1. apply (Prepare_all s _ _ _ H1). intros d Hd. eapply registered_some; eauto. }
  destruct (wp_run _ _ _ W) as ([] & s2 & R & H2). unfold clock_cycle. unfold mbind, M_bind, gets in R |- *.
  destruct (for_each Prepare (logic (sys s)) s) as [[[] s1] | w]; [| discriminate]. rewrite R, Hst. cbn [for_each].
  unfold mbind, M_bind. rewrite (feedback_evaluate enable P); [reflexivity | exact Hc | |].
  - eapply feedback_eq; [symmetry; exact (pr_eq _ _ _ H2) | exact Hf].
  - intros d x _ Hx. pose proof (pr_eq _ _ _ H2) as He. destruct (heap_lookup _ _ _ _ _ He Hx) as (y & Hy & _).
    apply (pr_stale _ _ _ H2 d x); [| exact Hx]. apply elem_of_app. destruct (registered_all _ _ _ _ Hrg Hy); auto.
Qed.

(** A register that a multiplexer feeds back to itself: [Check] accepts it. *)
Definition accumulator : list wire_op :=
  [OpRegister (str "acc") 16 0; OpZero (str "sel") 1; OpMux (str "mux") 16;
   OpControl 2 (Some 1%nat); OpData 2 (Some 0%nat) 0; OpData 2 (Some 0%nat) 1; OpInput 0 (Some 2%nat)].

Lemma accumulator_state : state (sys (run_wire accumulator)) = [0%nat].
Proof. vm_compute. reflexivity. Qed.

Lemma accumulator_heap : heap (run_wire accumulator) =
  [CReg (MkRegister (str "acc") (Some 2%nat) 0 (MakeUndefined 16) (MakeUndefined 16) 16 false false);
   CZero (MkZeroGenerator (str "sel") (MakeBits 1 0 0 0));
   CMux (MkMux (str "mux") (Some 1%nat) [Some 0%nat; Some 0%nat] (MkBits 0 0 0 0) 16 false)].
Proof. vm_compute. reflexivity. Qed.

Lemma feedback_overflows_witness :
  checks (run_wire accumulator) = true /\ forall fuel, clock_cycle always_on fuel (run_wire accumulator) = Panic overflow.
Proof.
  split; [vm_compute; reflexivity |].
  apply (feedback_overflows always_on always_combinational (fun c => c = 0%nat \/ c = 2%nat) _ 0 []).
  - apply bu_reg, run_wire_built. repeat constructor; cbn; unfold is_u16; lia.
  - exact accumulator_state.
  - left. reflexivity.
  - rewrite accumulator_heap. intros c [-> | ->]; cbn; [split; [reflexivity |]; exists 2%nat; auto |].
    exists 1%nat. split; [reflexivity |]. right. eexists _, 0%nat. split; [reflexivity | split; [reflexivity | auto]].
Defined.

(** A report of an event at a time. *)
Definition event_report (t : Z) (e : Event) : BinLogProps.report :=
  MkReport t (e_src e) (e_evt e) (e_b0 e) (e_b1 e) (e_cycle e) SevInfo (e_kind e).

Definition main_events (fuel : nat) : option (list Event * Z * option Bits) :=
  match sim_main always_on 0 fuel empty_store with
  | Ret (None, s) => Some (events s, cycleCounter s, match heap s !! 3%nat with Some (CReg r) => Some (visibleState r) | _ => None end)
  | _ => None
  end.

Definition main_log : list Event := match main_events 4 with Some (l, _, _) => l | None => [] end.

Lemma main_events_eq f : main_events (4 + f) = Some (main_log, 5, Some (MakeZero 16)).
Proof. vm_compute. reflexivity. Qed.

Lemma main_events_inv fuel l c b : main_events fuel = Some (l, c, Some b) ->
  exists s r, sim_main always_on 0 fuel empty_store = Ret (None, s) /\ events s = l /\ cycleCounter s = c /\
    heap s !! 3%nat = Some (CReg r) /\ visibleState r = b.
Proof.
  unfold main_events. destruct (sim_main always_on 0 fuel empty_store) as [[[k |] s] | w]; [discriminate | | discriminate].
  intros H. destruct (heap s !! 3%nat) as [[z | r | m] |] eqn:Er; try discriminate H. injection H as He Hc Hv. exists s, r. auto.
Qed.

(** The strings and bits of an event fit a record of the log. *)
Definition event_fits (e : Event) : bool :=
  bool_decide (Z.of_nat (length (e_src e)) <= 16 /\ Z.of_nat (length (e_evt e)) <= 16 /\
    Forall (fun c => c <> 0) (e_src e) /\ Forall (fun c => c <> 0) (e_evt e) /\ 0 <= e_cycle e < 2 ^ 32) &&
  forallb (fun b => bool_decide ((0 <= value b < 65536 /\ 0 <= highz b < 65536) /\ 0 <= undef b < 65536 /\ 0 <= width b < 32)) [e_b0 e; e_b1 e].

Lemma event_fits_ok t e : 0 <= t < 2 ^ 64 -> event_fits e = true -> report_ok (event_report t e).
Proof.
  intros Ht He. unfold event_fits in He. cbn [forallb] in He. rewrite !andb_true_iff, !bool_decide_eq_true in He.
  destruct He as [(H1 & H2 & H3 & H4 & H5) (((H6 & H7) & H8 & H9) & ((H10 & H11) & H12 & H13) & _)].
  constructor; cbn [event_report r_now r_cycle r_src r_evt r_b0 r_b1]; auto; try lia.
  - unfold bits_ok, is_u16. auto with lia.
  - unfold bits_ok, is_u16. auto with lia.
Qed.

Lemma main_log_fits : forallb event_fits main_log = true.
Proof. vm_compute. reflexivity. Qed.

Lemma reports_ok ts es : Forall (fun t => 0 <= t < 2 ^ 64) ts -> forallb event_fits es = true -> Forall report_ok (zip_with event_report ts es).
Proof.
  intros Hts. revert es. induction Hts as [| t ts Ht _ IH]; intros es He; destruct es as [| e es]; cbn; auto.
  cbn in He. apply andb_prop in He as [He1 He2]. constructor; [now apply event_fits_ok | now apply IH].
Qed.

(** The program that [main] runs: the machine of [Build] is built and checked
    without an error, five cycles are simulated, at the end of which the program
    counter, undefined after the reset, holds zero, and the 26 events of the run,
    at whatever times they happened, are what [Dumplog] shows afterwards. *)
Theorem sim_main_log f times capacity fuel :
  length times = 26%nat -> Forall (fun t => 0 <= t < 2 ^ 64) times -> 26 * 64 <= capacity -> (26 < fuel)%nat ->
  exists s g r, sim_main always_on 0 (4 + f) empty_store = Ret (None, s) /\ cycleCounter s = 5 /\
    heap s !! 3%nat = Some (CReg r) /\ visibleState r = MakeZero 16 /\
    let rs := zip_with event_report times (events s) in
    length rs = 26%nat /\ (report_all capacity rs;; FlushAndCloseLog capacity) OpenLog = Ret (tt, g) /\
    Dumplog fuel (binLog g) = (map (fun r => line_text (line_of r)) rs, true).
Proof.
  intros Hl Ht Hcap Hf. destruct (main_events_inv _ _ _ _ (main_events_eq f)) as (s & r & Hm & Hev & Hc & Hr & Hv).
  set (rs := zip_with event_report times main_log).
  assert (Hrs : Forall report_ok rs) by (apply reports_ok; [exact Ht | exact main_log_fits]).
  assert (Hlen : length rs = 26%nat) by (unfold rs; rewrite length_zip_with, Hl; vm_compute; reflexivity).
  pose proof (log_file capacity rs Hrs ltac:(rewrite Hlen; lia)) as W. apply wp_returns in W. destruct W as ([] & g & Hrun & Hfile).
  exists s, g, r. rewrite Hev. fold rs. do 4 (split; [assumption |]). cbv zeta. split; [exact Hlen |]. split; [exact Hrun |]. rewrite Hfile. apply Dumplog_records; [exact Hrs | rewrite Hlen; exact Hf].
Qed.

Lemma sim_main_log_witness :
  exists s g r, sim_main always_on 0 (4 + 0) empty_store = Ret (None, s) /\ cycleCounter s = 5 /\
    heap s !! 3%nat = Some (CReg r) /\ visibleState r = MakeZero 16 /\
    let rs := zip_with event_report (seqZ 1000 26) (events s) in
    length rs = 26%nat /\ (report_all 1664 rs;; FlushAndCloseLog 1664) OpenLog = Ret (tt, g) /\
    Dumplog 27 (binLog g) = (map (fun r => line_text (line_of r)) rs, true).
Proof.
  apply (sim_main_log 0 (seqZ 1000 26) 1664 27); [reflexivity | | lia | lia].
  apply Forall_forall. intros t Ht. apply elem_of_seqZ in Ht. lia.
Defined.
